(* ===== verification/_CoqProject ===== *)
-Q . S2P
Prelude.v
Logic.v
Bytes.v
Scanf.v
Layout.v
Crc16.v
Ext4Info.v
Bitmap.v
Inode.v
BlockGroup.v
Regions.v
Alloc.v
Buffers.v
AllocSpec.v
InodeSpec.v
AllocProps.v
Extent.v
ExtentSpec.v
ExtentRead.v
ExtentProps.v
Indirect.v
Xattr.v
Contents.v
Sha1.v
Uuid.v
Super.v
MakeExt4fs.v
Fixup.v
FixupProps.v
SuperSpec.v
Geometry.v
SuperProps.v
DirSpec.v
FixupDir.v
MakeProps.v
FatFs.v
FdPool.v
FatImport.v
FatRead.v
FatSpec.v
FatReadSpec.v
FdPoolProps.v
FatImportSpec.v
FatProps.v
Ublock.v
UblockSpec.v
UblockProps.v
FatDevice.v
Pagemap.v
PagemapProps.v
Showmap.v
ShowmapProps.v
PagemapLib.v
Procrank.v
ProcrankProps.v
Librank.v
LibrankProps.v
Showslab.v
ShowslabProps.v
Latencytop.v
Cpustats.v
SaneSchedstat.v
SaneSchedstatProps.v
CpustatsProps.v
Procmem.v
ProcmemProps.v
Execution.v
ExecutionProps.v
ExecutionLists.v
Su.v
Ext2simg.v
Ext2simgProps.v
Jni.v
BpWrapper.v
JniRemote.v
JniSpec.v
JniProps.v
JniTaint.v
Playwav.v
PlaywavProps.v
