(* ===== verification/Prelude.v ===== *)
(** * A verification of the Android platform/system/extras tools

    This library models the tools of the repository that build, repair and serve file
    systems, report what the kernel counts, run commands and native methods for others,
    and proves what makes them correct. The C and C++ code is embedded in Rocq's
    functions: an integer is a [Z] with the reductions of its type written out ([u32],
    [s32], ...), a block of memory or an array of bytes is a list of bytes, a [struct] a
    record, an access outside its array is [None] or [Stuck], and a function that changes
    state is a function from the state to an [outcome] (below): it returns, leaves by
    [longjmp] or [exit], does something undefined, or exhausts the bound given to a loop.
    File and function names are those under src/; a definition has the name of the
    function it models, or its macro's in lower case.

    ** The parts and their files

    Shared: this prelude (integers, the monad of outcomes, tactics and lemmas on lists);
    Logic (invariants of stateful code, the hint database [keeps]); Bytes (little-endian
    accesses to buffers); Layout (structures as members and assignments); Bitmap (the
    [u8 *] bitmaps); Buffers (the buffers of the allocator's state); Scanf (the
    conversions of [sscanf], lines of a file).

    Images of ext4 (ext4_utils):
    - allocate.c: BlockGroup (one group), Regions (allocations as linked lists in
      a heap, with the aliasing of the code), Alloc (the state [world], the block
      and inode allocators). Specified by the set of block numbers in use in
      AllocSpec, InodeSpec and proved in AllocProps.
    - ext4_utils.c, ext4_utils.h, ext4.h: Ext4Info (parameters and derived geometry),
      Inode ([struct ext4_inode]), Super (superblock and descriptors); specification
      SuperSpec, properties in Geometry and SuperProps.
    - crc16.c, sha1.c, uuid.c: Crc16, Sha1, Uuid, each with its reference
      definition (a bit-serial register, FIPS 180-1, a version 5 UUID).
    - extent.c: Extent; the reader of extents a written file is compared with is
      ExtentRead, the byte layout ExtentSpec, the theorem ExtentProps.
    - indirect.c: Indirect.
    - contents.c, xattr.h: Xattr (attributes), Contents (files, links, directories);
      directories as lists of records in DirSpec.
    - make_ext4fs.c, make_ext4fs_main.c, wipe.c and the resize and journal inodes of
      ext4_utils.c and jbd2.h: MakeExt4fs; properties in MakeProps.
    - ext4fixup.c, ext4fixup_main.c: Fixup (the device as a list of bytes, the passes, the
      state kept in the boot sector, the command), FixupProps (whole runs), FixupDir
      (one directory).
    - ext2simg.c: Ext2simg, Ext2simgProps.

    Block devices:
    - fatblock: FatFs (fs.c, fat.c, utils.c: clusters, the FAT, the list of
      extents), FdPool (fdpool.c: the ring of open descriptors), FatImport
      (import.c: the host's tree becomes extents), FatRead (read.c and the
      callbacks of fatblock.c). Specified in FatSpec (the invariant of [struct fs]
      and the chain a reader of the FAT follows), FatReadSpec (the bytes of the
      device) and FatImportSpec; proved in FatProps and FdPoolProps.
    - libublock/ublock.c: Ublock, with the abstract device in UblockSpec and the theorems
      in UblockProps; FatDevice puts fatblock on it.

    Reports:
    - libpagemap: Pagemap, PagemapProps; PagemapLib is the interface of the library as a
      class with its laws, of which libpagemap is an instance.
    - procrank, librank, procmem, showmap: Procrank, Librank, Procmem, Showmap, each with
      its properties in the file of the same name and [Props]; procrank and librank are
      proved over the interface PagemapLib.
    - showslab, latencytop, cpustats, sane_schedstat: Showslab, Latencytop, Cpustats,
      SaneSchedstat, the properties in [Props] files (those of latencytop in its own).

    Commands and sound: su/su.c is Su; sound/playwav.c is Playwav, PlaywavProps.

    Native methods in another process (wrapper):
    - ExecutionManager.cpp and the handlers of BnWrapper.cpp: Execution (the binder's and
      the native threads, their program counters and semaphores, as a step relation that
      is a function), ExecutionProps; ExecutionLists (what a manager remembers, and the
      managers of the threads of ThreadManager.cpp).
    - JniRemote.cpp, the calls of the JNI in the wrapper: JniRemote; BpWrapper.cpp, the
      same calls in the application: BpWrapper; what both share (blocks of memory, types,
      the virtual machine as a class) is Jni. JniSpec states what one call is ([served],
      [handles]); JniProps proves it for the calls without taint, JniTaint says what
      becomes of the others.

    ** How the parts interact

    [make_ext4fs_internal] derives the geometry ([create_fs_aux_info]), sets the
    allocator up ([block_allocator_init]) and fills in the superblock; then
    [build_directory_structure] makes an inode for each entry of the host's tree
    (Contents), which takes blocks from the allocator through extents (Extent) or
    indirect blocks (Indirect), and queues the data for the sparse file; at the
    end [ext4_update_free] totals the groups. All of this threads one [world]: the
    groups, the heap of regions, the buffers, the queued chunks. Two interfaces
    carry the proofs: [world_ok] with [used] (what the allocator promises to its
    clients) and the layout of buffers as members ([asg], [dent], [extent]).
    fatblock imports a tree ([fs_import]) and then serves reads ([read_callback])
    of a block device that exists only as a list of extents: [device_ok] is what
    the import promises to the reads, [pool_ok] what the pool of descriptors does, and
    the callbacks of a ublock device are what it promises to the kernel. The reports
    call libpagemap through the class of PagemapLib. A call of the JNI packs its
    parameters ([JniRemote]), waits in [reqJniCall] while the binder thread answers the
    application (Execution shows that the two sides see a coroutine), and is unpacked and
    carried out by [handleJNIRequest] ([BpWrapper]).

    ** What the theorems show

    The allocator: what it returns was free, is distinct, and alone becomes used;
    it fails only when no group could serve; the divergence of the multiple allocation.
    The formats: the superblock and the extents read back as what was meant; the
    descriptors agree with the allocator; a directory is a sequence of records tiling its
    blocks; checksums, digests and UUIDs equal their references. Making an image: the
    first steps compose and leave the allocator's invariant. Renumbering: a dry run never
    writes, nothing is written before the check of the tree succeeded, a finished run
    leaves no state behind, and a directory pass that was interrupted can be run again.
    ext2simg queues the blocks in use, each once. The FAT device: clusters are allocated
    in runs that the FAT links, reads return the bytes of the device after any import, the
    pool of descriptors is a least-recently-used cache, and a read of a file returns the
    wrong piece of it. The block device: every request gets one reply, an error while
    starting leaves nothing allocated or open, and fatblock's image is what is served.
    The reports: the sums are those of the pages or lines they are about, sorted lists are
    permutations of what was read, differences add up to the counters; latencytop shows
    the global latencies for every process. su grants what its argument asks and only to
    root and the shell. A recording plays back. Native calls: without nesting every
    interleaving is a coroutine and none is a deadlock, a nested call strands the outer
    one; the JNI calls without taint are transparent, a table of methods arrives in order,
    and for the calls with taint the theorem says type by type what arrives.

    ** Bounds and fuel

    Recursion that is not structural takes fuel, and the theorems state how much is
    enough: the allocation loop over groups (the number of groups plus two, see
    [allocate_blocks_correct]), walks over region lists and directories (the length of the
    data), the request loop of ublock (the number of messages plus one), the merge sort
    (the number of nodes plus one), parsers of text (its length), the loops of playwav (the
    bytes or blocks that are left plus one), internal steps of the two threads (eight).
    The theorems state that the code returns; [NoFuel] appears only where it is proved that
    every bound is exhausted ([allocate_multiple_diverges], [empty_buffers_diverge]).

    ** Parameters

    What the code calls and does not contain is an argument or a class: the host's files
    and the kernel's answers, the user database of su, the messages of linux/ublock.h, the
    driver of a sound device, the virtual machine of the JNI with what is behind the end
    of a block ([slack]) and in a new one ([fresh]), the conversions of floating point
    numbers. Theorems with hypotheses about them have witnesses at a concrete one.

    ** Not modelled

    The output by libsparse (the image is the list of queued chunks), messages, the
    widths of columns, a [malloc] that fails (but in ublock and playwav), [getopt] and the
    options of the tools that only report, setup_fs.c (which only starts something else).
    Of the wrapper: JniEnvMod.h (inline functions that forward to a table of functions),
    the invocation interface, the four functions of the JNI that are
    not supported, Dispatcher.cpp, the services and the loading of
    libraries (calls of the binder, [dlopen] and assembly). micro_bench, timeinfo and the
    tests are programs that measure or exercise something else. *)

From Stdlib Require Export ZArith Lia.
From stdpp Require Export base list numbers option gmap list_numbers.

#[export] Set Default Goal Selector "!".
#[export] Set Warnings "-clear-no-such-hyp".
#[global] Open Scope Z_scope.

(** ** Machine integers

    The C types of the sources are kept as [Z]; a conversion to a [w]-bit type
    is the explicit reduction below ([u8], [u16], [u32], [u64] of
    ext4_utils.h, and the two's complement [int]). *)

Definition u8 (z : Z) : Z := z mod 2 ^ 8.
Definition u16 (z : Z) : Z := z mod 2 ^ 16.
Definition u32 (z : Z) : Z := z mod 2 ^ 32.
Definition u64 (z : Z) : Z := z mod 2 ^ 64.
Definition s32 (z : Z) : Z := (z + 2 ^ 31) mod 2 ^ 32 - 2 ^ 31.
Definition s64 (z : Z) : Z := (z + 2 ^ 63) mod 2 ^ 64 - 2 ^ 63.

(** [DIV_ROUND_UP] and [ALIGN] of ext4_utils.h, on unbounded integers; a use
    at a machine width wraps the intermediate results at the call. *)
Definition DIV_ROUND_UP (x y : Z) : Z := (x + y - 1) / y.
Definition ALIGN (x y : Z) : Z := y * DIV_ROUND_UP x y.

(** ** Outcomes of C code

    A function that may fail is a function from the state it changes to an
    [outcome]: it returns, it leaves by [longjmp] (the [error] and
    [critical_error] macros), it does something undefined (a [NULL] or dangling
    pointer, an index outside its array), or the loop bound given to the model
    was too small. *)
Inductive outcome (S A : Type) : Type :=
| Done (a : A) (s : S)
| Longjmp (s : S)
| Stuck
| NoFuel.
Arguments Done {S A} a s.
Arguments Longjmp {S A} s.
Arguments Stuck {S A}.
Arguments NoFuel {S A}.

Definition M (S A : Type) : Type := S -> outcome S A.

Definition mret' {S A} (a : A) : M S A := fun s => Done a s.
Definition mbind' {S A B} (m : M S A) (k : A -> M S B) : M S B :=
  fun s => match m s with
           | Done a s' => k a s'
           | Longjmp s' => Longjmp s'
           | Stuck => Stuck
           | NoFuel => NoFuel
           end.

Declare Scope c_scope.
Delimit Scope c_scope with c.
Notation "'do' x <- m ; k" := (mbind' m (fun x => k))
  (at level 10, x pattern, m at level 100, k at level 200,
   format "do  x  <-  m ;  '//' k") : c_scope.
Notation "m ;;; k" := (mbind' m (fun _ => k))
  (at level 199, k at level 200, right associativity) : c_scope.
#[global] Open Scope c_scope.

(** The result of a run that returned. *)
Definition result {S A} (m : M S A) (s : S) : option A :=
  match m s with Done a _ => Some a | _ => None end.

Definition get {S} : M S S := fun s => Done s s.
Definition put {S} (s : S) : M S unit := fun _ => Done tt s.
Definition modify {S} (f : S -> S) : M S unit := fun s => Done tt (f s).
Definition stuck {S A} : M S A := fun _ => Stuck.
Definition longjmp {S A} : M S A := fun s => Longjmp s.

(** A checked access: [None] is undefined behaviour. *)
Definition deref {S A} (o : option A) : M S A :=
  match o with Some a => mret' a | None => stuck end.

(** The [error] macro: it leaves by [longjmp] unless the global [force] is
    set, in which case execution goes on. [critical_error] is [longjmp]. *)
Definition error {S} (force : bool) : M S unit :=
  if force then mret' tt else longjmp.

(** Run a computation on a part of the state, given by a getter and a setter. *)
Definition zoom {S T A} (g : S -> option T) (p : T -> S -> S) (m : M T A) : M S A :=
  fun s => match g s with
           | None => Stuck
           | Some t => match m t with
                       | Done a t' => Done a (p t' s)
                       | Longjmp t' => Longjmp (p t' s)
                       | Stuck => Stuck
                       | NoFuel => NoFuel
                       end
           end.

Lemma mbind_done {S A B} (m : M S A) (k : A -> M S B) s a s' :
  m s = Done a s' -> mbind' m k s = k a s'.
Proof. intros H. unfold mbind'. by rewrite H. Qed.

Lemma mbind_done_inv {S A B} (m : M S A) (k : A -> M S B) s b s'' :
  mbind' m k s = Done b s'' ->
  exists a s', m s = Done a s' /\ k a s' = Done b s''.
Proof. unfold mbind'. destruct (m s); naive_solver. Qed.

Lemma mbind_assoc {S A B C} (m : M S A) (f : A -> M S B) (g : B -> M S C) s :
  mbind' m (fun a => mbind' (f a) g) s = mbind' (mbind' m f) g s.
Proof. unfold mbind'. by destruct (m s). Qed.

(** Array accesses at an integer index. *)
Definition zget {A} (l : list A) (i : Z) : option A :=
  if decide (0 <= i) then l !! Z.to_nat i else None.
Definition zset {A} (l : list A) (i : Z) (x : A) : option (list A) :=
  if decide (0 <= i < Z.of_nat (length l)) then Some (<[Z.to_nat i := x]> l) else None.

(** [lia] with the quotients and remainders turned into equations. *)
Ltac dlia := Z.to_euclidean_division_equations; lia.

Lemma u32_small z : 0 <= z < 2 ^ 32 -> u32 z = z.
Proof. apply Z.mod_small. Qed.
Lemma u64_small z : 0 <= z < 2 ^ 64 -> u64 z = z.
Proof. apply Z.mod_small. Qed.
Lemma s64_small z : 0 <= z < 2 ^ 63 -> s64 z = z.
Proof. intros Hz. unfold s64. rewrite Z.mod_small by lia. lia. Qed.
Lemma s32_small z : - 2 ^ 31 <= z < 2 ^ 31 -> s32 z = z.
Proof. intros Hz. unfold s32. rewrite Z.mod_small by lia. lia. Qed.
Lemma u32_range z : 0 <= u32 z < 2 ^ 32.
Proof. by apply Z.mod_pos_bound. Qed.
Lemma u64_range z : 0 <= u64 z < 2 ^ 64.
Proof. by apply Z.mod_pos_bound. Qed.
Lemma u32_neg d : - 2 ^ 32 <= d < 0 -> u32 d = 2 ^ 32 + d.
Proof.
  intros Hd. unfold u32. rewrite <-(Z_mod_plus_full d 1), Z.mod_small; lia.
Qed.
