(* ===== verification/Logic.v ===== *)
(** * Invariants of stateful code

    [keeps I m Q]: the computation [m] keeps the invariant [I] of the state, also
    when it leaves by [longjmp], and a value it returns satisfies [Q]. The rules
    follow the shape of the code; [keeps] is the hint database and [keep] the
    tactic that applies them. *)

From S2P Require Import Prelude.

Definition keeps {S A} (I : S -> Prop) (m : M S A) (Q : A -> Prop) : Prop :=
  forall s, I s -> match m s with
                   | Done a s' => I s' /\ Q a
                   | Longjmp s' => I s'
                   | Stuck | NoFuel => True
                   end.
Definition any {A} : A -> Prop := fun _ => True.

Section rules.
Context {S : Type} (I : S -> Prop).

Lemma keeps_ret {A} (a : A) (Q : A -> Prop) : Q a -> keeps I (mret' a) Q.
Proof. intros HQ s Hs. done. Qed.

Lemma keeps_bind {A B} (m : M S A) (k : A -> M S B) (R : A -> Prop) (Q : B -> Prop) :
  keeps I m R -> (forall a, R a -> keeps I (k a) Q) -> keeps I (mbind' m k) Q.
Proof.
  intros Hm Hk s Hs. unfold mbind'. specialize (Hm s Hs).
  destruct (m s) as [a s'|s'| |]; [|done..]. destruct Hm as [Hs' HR]. by apply Hk.
Qed.

Lemma keeps_weaken {A} (m : M S A) (Q R : A -> Prop) :
  keeps I m Q -> (forall a, Q a -> R a) -> keeps I m R.
Proof.
  intros Hm H s Hs. specialize (Hm s Hs). destruct (m s); [|done..]. naive_solver.
Qed.
Lemma keeps_any {A} (m : M S A) (Q : A -> Prop) : keeps I m Q -> keeps I m any.
Proof. intros Hm. eapply keeps_weaken; [exact Hm|done]. Qed.

Lemma keeps_get (Q : S -> Prop) : (forall s, I s -> Q s) -> keeps I get Q.
Proof. intros H s Hs. split; [done|by apply H]. Qed.
Lemma keeps_modify f : (forall s, I s -> I (f s)) -> keeps I (modify f) any.
Proof. intros H s Hs. split; [by apply H|done]. Qed.
Lemma keeps_stuck {A} (Q : A -> Prop) : keeps I stuck Q.
Proof. done. Qed.
Lemma keeps_nofuel {A} (Q : A -> Prop) : keeps I (fun _ => NoFuel) Q.
Proof. done. Qed.
Lemma keeps_longjmp {A} (Q : A -> Prop) : keeps I longjmp Q.
Proof. by intros s Hs. Qed.
Lemma keeps_error force (Q : unit -> Prop) : Q tt -> keeps I (error force) Q.
Proof. intros HQ. destruct force; [by apply keeps_ret|apply keeps_longjmp]. Qed.
Lemma keeps_deref {A} (o : option A) (Q : A -> Prop) :
  (forall a, o = Some a -> Q a) -> keeps I (deref o) Q.
Proof. intros H. destruct o; [apply keeps_ret; by apply H|apply keeps_stuck]. Qed.
Lemma keeps_zoom {T A} (g : S -> option T) (p : T -> S -> S) (J : T -> Prop) (m : M T A) (Q : A -> Prop) :
  keeps J m Q -> (forall s t, I s -> g s = Some t -> J t) ->
  (forall s t t', I s -> g s = Some t -> J t' -> I (p t' s)) -> keeps I (zoom g p m) Q.
Proof.
  intros Hm Hg Hp s Hs. unfold zoom. destruct (g s) as [t|] eqn:E; [|done].
  specialize (Hm t (Hg _ _ Hs E)). destruct (m t); naive_solver.
Qed.
End rules.

(** The invariant of what a computation returned or jumped out with. *)
Definition state_of {S A} (o : outcome S A) : option S :=
  match o with Done _ s | Longjmp s => Some s | _ => None end.
Lemma keeps_state {S A} (I : S -> Prop) (m : M S A) Q s s' :
  keeps I m Q -> I s -> state_of (m s) = Some s' -> I s'.
Proof.
  intros Hm Hs E. specialize (Hm s Hs). unfold state_of in E. destruct (m s); naive_solver.
Qed.

(** A computation from a state where [P] holds that returns leaves [Q]. *)
Definition hoare {S A} (P : S -> Prop) (m : M S A) (Q : A -> S -> Prop) : Prop :=
  forall s, P s -> match m s with Done a s' => Q a s' | _ => True end.

Section hoare_rules.
Context {S : Type}.

Lemma hoare_bind {A B} (P : S -> Prop) (m : M S A) (k : A -> M S B) (R : A -> S -> Prop) (Q : B -> S -> Prop) :
  hoare P m R -> (forall a, hoare (R a) (k a) Q) -> hoare P (mbind' m k) Q.
Proof. intros Hm Hk s Hs. specialize (Hm s Hs). unfold mbind'. destruct (m s); try done. by apply Hk. Qed.
Lemma hoare_ret {A} (P : S -> Prop) (a : A) (Q : A -> S -> Prop) : (forall s, P s -> Q a s) -> hoare P (mret' a) Q.
Proof. intros H s Hs. by apply H. Qed.
Lemma hoare_weaken {A} (P P' : S -> Prop) (m : M S A) (Q Q' : A -> S -> Prop) :
  hoare P m Q -> (forall s, P' s -> P s) -> (forall a s, Q a s -> Q' a s) -> hoare P' m Q'.
Proof. intros Hm HP HQ s Hs. specialize (Hm s (HP s Hs)). destruct (m s); auto. Qed.
Lemma hoare_pure {A} (P : S -> Prop) (F : Prop) (m : M S A) (Q : A -> S -> Prop) :
  (F -> hoare P m Q) -> hoare (fun s => F /\ P s) m Q.
Proof. intros H s [HF Hs]. by apply H. Qed.
Lemma hoare_keeps {A} (I : S -> Prop) (m : M S A) (Q : A -> Prop) :
  keeps I m Q -> hoare I m (fun a s => Q a /\ I s).
Proof. intros Hm s Hs. specialize (Hm s Hs). destruct (m s); try done. by destruct Hm. Qed.
Lemma keeps_hoare {A} (I : S -> Prop) (m : M S A) (Q : A -> Prop) :
  hoare I m (fun a s => Q a /\ I s) -> (forall s s', m s <> Longjmp s') -> keeps I m Q.
Proof.
  intros Hm Hj s Hs. specialize (Hm s Hs). specialize (Hj s). destruct (m s); try done; [by destruct Hm|by destruct (Hj s0)].
Qed.
Lemma hoare_deref {A} (P : S -> Prop) (o : option A) (Q : A -> S -> Prop) :
  (forall a s, o = Some a -> P s -> Q a s) -> hoare P (deref o) Q.
Proof. intros H s Hs. destruct o; cbn; auto. Qed.
End hoare_rules.

(** After a step that keeps the invariant, go on with what it returned. *)
Lemma hoare_step {S A B} (I : S -> Prop) (m : M S A) (k : A -> M S B) (R : A -> Prop) (Q : B -> S -> Prop) :
  keeps I m R -> (forall a, R a -> hoare I (k a) Q) -> hoare I (mbind' m k) Q.
Proof.
  intros Hm Hk. eapply hoare_bind; [by apply hoare_keeps|]. intros a. apply hoare_pure. auto.
Qed.

Create HintDb keeps.
#[export] Hint Resolve keeps_stuck keeps_nofuel keeps_longjmp : keeps.
#[export] Hint Extern 1 (any _) => exact I : keeps.

(** One step along the code, then all of it. The lemmas on the operations it
    calls are in the database [keeps]. *)
Ltac keep_step :=
  lazymatch goal with
  | |- keeps _ (mbind' _ _) _ => apply (keeps_bind _ _ _ any); [|intros ? ?]
  | |- keeps _ (mret' _) _ => apply keeps_ret
  | |- keeps _ get _ => apply (keeps_get _ any)
  | |- keeps _ (error _) _ => apply keeps_error
  | |- keeps _ (deref _) _ => apply (keeps_deref _ _ any)
  | |- keeps _ (if ?b then _ else _) _ => destruct b eqn:?
  | |- keeps _ (match ?x with _ => _ end) _ => destruct x eqn:?
  | |- keeps _ (let _ := _ in _) _ => cbv zeta
  end.
Ltac keep := repeat first
  [ solve [eauto 3 with keeps]
  | keep_step
  | solve [eapply keeps_any; eauto 3 with keeps]
  | solve [unfold any; auto] ].
