(* ===== verification/Bytes.v ===== *)
(** * Byte buffers

    The [calloc]ed buffers the sources cast to structures and word arrays are
    lists of bytes; a member access is a little-endian access at its offset
    (the sources define [cpu_to_le32] and [le32_to_cpu] as the identity, so the
    host is little endian). [None] is an access outside the buffer. *)

From Stdlib Require Import String Ascii.
From S2P Require Import Prelude.

(** The characters of a C string literal. *)
Definition str (s : string) : list Z := (fun c => Z.of_nat (nat_of_ascii c)) <$> list_ascii_of_string s.

(** ** Accesses *)

Definition read_bytes (buf : list Z) (off n : Z) : option (list Z) :=
  if decide (0 <= off /\ 0 <= n /\ off + n <= Z.of_nat (length buf))
  then Some (take (Z.to_nat n) (drop (Z.to_nat off) buf)) else None.

Definition write_bytes (buf : list Z) (off : Z) (bs : list Z) : option (list Z) :=
  if decide (0 <= off /\ off + Z.of_nat (length bs) <= Z.of_nat (length buf))
  then Some (take (Z.to_nat off) buf ++ bs ++ drop (Z.to_nat off + length bs) buf) else None.

(** Little-endian numbers of [n] bytes. *)
Fixpoint le_bytes (n : nat) (v : Z) : list Z :=
  match n with
  | O => []
  | S n => v mod 256 :: le_bytes n (v / 256)
  end.

Fixpoint le_value (bs : list Z) : Z :=
  match bs with
  | [] => 0
  | b :: bs => b + 256 * le_value bs
  end.

Definition load (n : nat) (buf : list Z) (off : Z) : option Z :=
  le_value <$> read_bytes buf off (Z.of_nat n).
Definition store (n : nat) (buf : list Z) (off v : Z) : option (list Z) :=
  write_bytes buf off (le_bytes n v).

(** ** Lemmas *)

Lemma length_le_bytes n v : length (le_bytes n v) = n.
Proof. revert v. induction n as [|n IH]; intros v; [done|]. cbn. by rewrite IH. Qed.

Lemma le_value_bytes n v : le_value (le_bytes n v) = v mod 256 ^ Z.of_nat n.
Proof.
  revert v. induction n as [|n IH]; intros v; cbn [le_bytes le_value].
  - change (256 ^ Z.of_nat 0) with 1. by rewrite Z.mod_1_r.
  - rewrite IH, Nat2Z.inj_succ, Z.pow_succ_r by lia.
    rewrite Z.rem_mul_r by lia. lia.
Qed.

Lemma le_bytes_range n v : Forall (fun b => 0 <= b < 256) (le_bytes n v).
Proof.
  revert v. induction n as [|n IH]; intros v; constructor; [|done].
  by apply Z.mod_pos_bound.
Qed.

Lemma le_value_range bs :
  Forall (fun b => 0 <= b < 256) bs -> 0 <= le_value bs < 256 ^ Z.of_nat (length bs).
Proof.
  induction 1 as [|b bs Hb _ IH]; cbn [le_value length].
  - lia.
  - rewrite Nat2Z.inj_succ, Z.pow_succ_r by lia. lia.
Qed.

Lemma write_bytes_some buf off bs :
  0 <= off -> off + Z.of_nat (length bs) <= Z.of_nat (length buf) ->
  write_bytes buf off bs =
    Some (take (Z.to_nat off) buf ++ bs ++ drop (Z.to_nat off + length bs) buf).
Proof. intros. unfold write_bytes. by rewrite decide_True. Qed.

Lemma write_bytes_length buf off bs buf' :
  write_bytes buf off bs = Some buf' -> length buf' = length buf.
Proof.
  unfold write_bytes. case_decide; [|done]. intros [= <-].
  rewrite !length_app, length_take, length_drop. lia.
Qed.

Lemma write_bytes_lookup buf off bs buf' j :
  write_bytes buf off bs = Some buf' -> 0 <= j ->
  buf' !! Z.to_nat j =
    if decide (off <= j < off + Z.of_nat (length bs)) then bs !! Z.to_nat (j - off)
    else buf !! Z.to_nat j.
Proof.
  unfold write_bytes. case_decide as H; [|done]. intros [= <-] Hj.
  destruct (decide (j < off)).
  - rewrite lookup_app_l by (rewrite length_take; lia).
    rewrite lookup_take_lt by lia. by rewrite decide_False by lia.
  - rewrite lookup_app_r by (rewrite length_take; lia).
    rewrite length_take, Nat.min_l by lia.
    replace (Z.to_nat j - Z.to_nat off)%nat with (Z.to_nat (j - off)) by lia.
    case_decide.
    + rewrite lookup_app_l by lia. done.
    + rewrite lookup_app_r by lia. rewrite lookup_drop. f_equal. lia.
Qed.

(** Reading back what was written, and reading next to it. *)
Lemma read_write_same buf off bs buf' :
  write_bytes buf off bs = Some buf' -> read_bytes buf' off (Z.of_nat (length bs)) = Some bs.
Proof.
  intros E. pose proof (write_bytes_length _ _ _ _ E) as L. revert E. unfold write_bytes.
  case_decide as H; [|done]. intros [= E]. unfold read_bytes.
  rewrite decide_True by lia. f_equal. rewrite <-E.
  rewrite drop_app_length' by (rewrite length_take; lia).
  rewrite Nat2Z.id. by rewrite take_app_length.
Qed.

Lemma read_write_ne buf off bs buf' o n :
  write_bytes buf off bs = Some buf' ->
  o + n <= off \/ off + Z.of_nat (length bs) <= o ->
  read_bytes buf' o n = read_bytes buf o n.
Proof.
  intros E Hd. pose proof (write_bytes_length _ _ _ _ E) as L.
  unfold read_bytes. rewrite L. case_decide as H; [|done]. f_equal.
  apply list_eq. intros k. destruct (decide (Z.of_nat k < n)).
  - rewrite !lookup_take_lt, !lookup_drop by lia.
    replace (Z.to_nat o + k)%nat with (Z.to_nat (o + Z.of_nat k)) by lia.
    rewrite (write_bytes_lookup _ _ _ _ _ E) by lia. rewrite decide_False by lia. done.
  - rewrite !lookup_take_ge by lia. done.
Qed.

Lemma store_some n buf off v :
  0 <= off -> off + Z.of_nat n <= Z.of_nat (length buf) -> exists buf', store n buf off v = Some buf'.
Proof. intros. eexists. unfold store. apply write_bytes_some; rewrite ?length_le_bytes; done. Qed.

Lemma store_length n buf off v buf' : store n buf off v = Some buf' -> length buf' = length buf.
Proof. apply write_bytes_length. Qed.

Lemma load_store_same n buf off v buf' :
  store n buf off v = Some buf' -> load n buf' off = Some (v mod 256 ^ Z.of_nat n).
Proof.
  intros E. unfold load, store in *. apply read_write_same in E.
  rewrite length_le_bytes in E. rewrite E. cbn. by rewrite le_value_bytes.
Qed.

Lemma load_store_ne n m buf off v buf' o :
  store n buf off v = Some buf' ->
  o + Z.of_nat m <= off \/ off + Z.of_nat n <= o ->
  load m buf' o = load m buf o.
Proof.
  intros E Hd. unfold load. f_equal. eapply read_write_ne; [exact E|].
  by rewrite length_le_bytes.
Qed.

Lemma load_some n buf off :
  0 <= off -> off + Z.of_nat n <= Z.of_nat (length buf) -> exists v, load n buf off = Some v.
Proof. intros. unfold load, read_bytes. rewrite decide_True by lia. by eexists. Qed.

Lemma le_bytes_value l : Forall (fun b => 0 <= b < 256) l -> le_bytes (length l) (le_value l) = l.
Proof.
  induction 1 as [|b l Hb _ IH]; [done|]. cbn [length le_bytes le_value].
  replace ((b + 256 * le_value l) mod 256) with b by dlia.
  replace ((b + 256 * le_value l) / 256) with (le_value l) by dlia. by rewrite IH.
Qed.

(** Setting bits above those of a small number is an addition. *)
Lemma lor_high x y k : 0 <= k -> 0 <= x < 2 ^ k -> Z.lor x (Z.shiftl y k) = x + Z.shiftl y k.
Proof.
  intros Hk Hx. assert (E : Z.land x (Z.shiftl y k) = 0).
  { apply Z.bits_inj'. intros n Hn. rewrite Z.land_spec, Z.bits_0.
    destruct (decide (n < k)); [rewrite Z.shiftl_spec_low by lia; apply andb_false_r|].
    rewrite <-(Z.mod_small x (2 ^ k)), Z.mod_pow2_bits_high by lia. done. }
  by rewrite Z.add_nocarry_lxor, Z.lxor_lor.
Qed.

(** ** Consecutive writes and reads inside what was read *)

Lemma write_bytes_app b off x y b1 b2 :
  write_bytes b off x = Some b1 -> write_bytes b1 (off + Z.of_nat (length x)) y = Some b2 ->
  write_bytes b off (x ++ y) = Some b2.
Proof.
  intros E1 E2. pose proof (write_bytes_length _ _ _ _ E1) as L1.
  pose proof (write_bytes_length _ _ _ _ E2) as L2.
  assert (H : 0 <= off /\ off + Z.of_nat (length (x ++ y)) <= Z.of_nat (length b)).
  { unfold write_bytes in E1, E2. case_decide; [|done]. case_decide; [|done]. rewrite length_app. lia. }
  destruct (write_bytes b off (x ++ y)) as [b3|] eqn:E3; [|unfold write_bytes in E3; by rewrite decide_True in E3].
  f_equal. apply list_eq. intros j. rewrite <-(Nat2Z.id j).
  rewrite (write_bytes_lookup _ _ _ _ _ E3), (write_bytes_lookup _ _ _ _ _ E2),
    (write_bytes_lookup _ _ _ _ _ E1) by lia.
  rewrite length_app. repeat case_decide; try lia; try done.
  - rewrite lookup_app_r by lia. f_equal. lia.
  - rewrite lookup_app_l by lia. done.
Qed.

Lemma write_bytes_split b off x y b2 :
  write_bytes b off (x ++ y) = Some b2 ->
  exists b1, write_bytes b off x = Some b1 /\ write_bytes b1 (off + Z.of_nat (length x)) y = Some b2.
Proof.
  intros E. assert (H : 0 <= off /\ off + Z.of_nat (length (x ++ y)) <= Z.of_nat (length b))
    by (unfold write_bytes in E; by case_decide).
  rewrite length_app in H.
  destruct (write_bytes b off x) as [b1|] eqn:E1; [|unfold write_bytes in E1; rewrite decide_True in E1; done || lia].
  pose proof (write_bytes_length _ _ _ _ E1) as L1.
  destruct (write_bytes b1 (off + Z.of_nat (length x)) y) as [b3|] eqn:E3.
  - exists b1. split; [done|]. rewrite <-E. by rewrite (write_bytes_app _ _ _ _ _ _ E1 E3).
  - unfold write_bytes in E3. rewrite decide_True in E3; [done|lia].
Qed.

Lemma load_read n b off m x i :
  read_bytes b off m = Some x -> 0 <= i -> i + Z.of_nat n <= m -> load n b (off + i) = load n x i.
Proof.
  intros E Hi Hn. unfold load. f_equal. unfold read_bytes in *. case_decide as H; [|done].
  injection E as <-. rewrite length_take, length_drop. rewrite !decide_True by lia. f_equal.
  apply list_eq. intros j. destruct (decide (Z.of_nat j < Z.of_nat n)).
  - rewrite !lookup_take_lt, !lookup_drop by lia. rewrite lookup_take_lt, lookup_drop by lia.
    f_equal. lia.
  - rewrite !lookup_take_ge by lia. done.
Qed.

Lemma load_app_l n x y i :
  0 <= i -> i + Z.of_nat n <= Z.of_nat (length x) -> load n (x ++ y) i = load n x i.
Proof.
  intros Hi Hn. unfold load, read_bytes. rewrite length_app, !decide_True by lia. do 2 f_equal.
  rewrite drop_app_le, take_app_le; [done|rewrite length_drop; lia|lia].
Qed.

Lemma load_app_r n x y i :
  Z.of_nat (length x) <= i -> load n (x ++ y) i = load n y (i - Z.of_nat (length x)).
Proof.
  intros Hi. unfold load, read_bytes. rewrite length_app.
  destruct (decide (i + Z.of_nat n <= Z.of_nat (length x + length y)))%Z.
  - rewrite !decide_True by lia. do 2 f_equal. rewrite drop_app_ge by lia. do 2 f_equal. lia.
  - rewrite !decide_False by lia. done.
Qed.

Lemma load_le_bytes n v : load n (le_bytes n v) 0 = Some (v mod 256 ^ Z.of_nat n).
Proof.
  unfold load, read_bytes. rewrite decide_True by (rewrite length_le_bytes; lia).
  rewrite drop_0, Nat2Z.id, take_ge by (rewrite length_le_bytes; lia). cbn. by rewrite le_value_bytes.
Qed.
