(* ===== verification/Scanf.v ===== *)
(** * Formatted input (the conversions of [sscanf] the sources use)

    The strings are lists of characters before the terminator. A format is a list
    of directives; the conversions that suppress the assignment have no value.
    The numbers are those of [strtoul] and [strtol]: out of range they are the
    greatest or least value, and are then converted to the type of the variable. *)

From Stdlib Require Import String.
From S2P Require Import Prelude Bytes.

Definition char_space : Z := 32.

(** [isspace], [isdigit], [isxdigit] of the C locale. *)
Definition isspace (c : Z) : bool := (c =? 32) || ((9 <=? c) && (c <=? 13)).
Definition isdigit (c : Z) : bool := (48 <=? c) && (c <=? 57).
Definition hex_digit (c : Z) : option Z :=
  if isdigit c then Some (c - 48)
  else if (97 <=? c) && (c <=? 102) then Some (c - 87)
  else if (65 <=? c) && (c <=? 70) then Some (c - 55) else None.
Definition dec_digit (c : Z) : option Z := if isdigit c then Some (c - 48) else None.

Fixpoint skip_space (s : list Z) : list Z :=
  match s with
  | c :: s' => if isspace c then skip_space s' else s
  | [] => []
  end.

(** The digits from the beginning of the string on: their number, the value and the
    rest. *)
Fixpoint digits (digit : Z -> option Z) (base acc : Z) (s : list Z) : nat * Z * list Z :=
  match s with
  | [] => (O, acc, [])
  | c :: s' =>
      match digit c with
      | Some d => let '(n, v, r) := digits digit base (acc * base + d) s' in (S n, v, r)
      | None => (O, acc, s)
      end
  end.

(** A number with an optional sign, and for base 16 an optional prefix, which counts
    only before a digit. *)
Definition sign (s : list Z) : bool * list Z :=
  match s with
  | c :: s' => if c =? 45 then (true, s') else if c =? 43 then (false, s') else (false, s)
  | [] => (false, [])
  end.
Definition hex_prefix (s : list Z) : list Z :=
  match s with
  | 48 :: x :: c :: s' =>
      if ((x =? 120) || (x =? 88)) && bool_decide (is_Some (hex_digit c)) then c :: s' else s
  | _ => s
  end.

(** [%lx] into an [unsigned long]. *)
Definition scan_hex (s : list Z) : option (Z * list Z) :=
  let '(neg, s) := sign (skip_space s) in
  let '(n, v, r) := digits hex_digit 16 0 (hex_prefix s) in
  match n with
  | O => None
  | _ => Some (if v <? 2 ^ 64 then (if neg : bool then u64 (- v) else v) else 2 ^ 64 - 1, r)
  end.
(** [%d] into an [int]. *)
Definition scan_dec (s : list Z) : option (Z * list Z) :=
  let '(neg, s) := sign (skip_space s) in
  let '(n, v, r) := digits dec_digit 10 0 s in
  match n with
  | O => None
  | _ => let v := if neg : bool then - v else v in
         Some (s32 (Z.max (- 2 ^ 63) (Z.min v (2 ^ 63 - 1))), r)
  end.

(** [%ld] into an [unsigned long]. *)
Definition scan_long (s : list Z) : option (Z * list Z) :=
  let '(neg, s) := sign (skip_space s) in
  let '(n, v, r) := digits dec_digit 10 0 s in
  match n with
  | O => None
  | _ => let v := if neg : bool then - v else v in
         Some (u64 (Z.max (- 2 ^ 63) (Z.min v (2 ^ 63 - 1))), r)
  end.
(** [%u] and [%lu] into an unsigned type of [bits] bits. *)
Definition scan_uns (bits : Z) (s : list Z) : option (Z * list Z) :=
  let '(neg, s) := sign (skip_space s) in
  let '(n, v, r) := digits dec_digit 10 0 s in
  match n with
  | O => None
  | _ => Some ((if v <? 2 ^ 64 then (if neg : bool then - v else v) else 2 ^ 64 - 1) mod 2 ^ bits, r)
  end.

(** The characters up to a space, [width] at most. *)
Fixpoint word (width : nat) (s : list Z) : list Z * list Z :=
  match width, s with
  | S width, c :: s' => if isspace c then ([], s) else let '(w, r) := word width s' in (c :: w, r)
  | _, _ => ([], s)
  end.
(** [%s], with a width. *)
Definition scan_word (width : nat) (s : list Z) : option (list Z * list Z) :=
  match word width (skip_space s) with
  | ([], _) => None
  | (w, r) => Some (w, r)
  end.

Inductive directive :=
| Hex (assign : bool)
| Dec (assign : bool)
| Uns (bits : Z)
| Long
| Str (assign : bool) (width : option nat)
| Space
| Lit (c : Z)
| Count.

Inductive value := Num_ (z : Z) | Str_ (s : list Z).

(** The values of the conversions up to the first that fails, without those that
    suppress the assignment. [len] is the length of the whole string, for [%n]. *)
Fixpoint sscanf (len : nat) (format : list directive) (s : list Z) : list value :=
  match format with
  | [] => []
  | d :: format =>
      match d with
      | Hex assign =>
          match scan_hex s with
          | Some (v, r) => (if assign then [Num_ v] else []) ++ sscanf len format r
          | None => []
          end
      | Dec assign =>
          match scan_dec s with
          | Some (v, r) => (if assign then [Num_ v] else []) ++ sscanf len format r
          | None => []
          end
      | Long =>
          match scan_long s with
          | Some (v, r) => Num_ v :: sscanf len format r
          | None => []
          end
      | Uns bits =>
          match scan_uns bits s with
          | Some (v, r) => Num_ v :: sscanf len format r
          | None => []
          end
      | Str assign width =>
          match scan_word (default (length s) width) s with
          | Some (w, r) => (if assign then [Str_ w] else []) ++ sscanf len format r
          | None => []
          end
      | Space => sscanf len format (skip_space s)
      | Lit c =>
          match s with
          | c' :: r => if c' =? c then sscanf len format r else []
          | [] => []
          end
      | Count => Num_ (Z.of_nat (len - length s)) :: sscanf len format s
      end
  end.

(** [fscanf]: the values and what is left of the stream. A conversion that fails has
    skipped the space before it. *)
Fixpoint fscanf (format : list directive) (s : list Z) : list value * list Z :=
  match format with
  | [] => ([], s)
  | d :: format =>
      match d with
      | Hex assign =>
          match scan_hex s with
          | Some (v, r) => let '(vs, r) := fscanf format r in ((if assign then [Num_ v] else []) ++ vs, r)
          | None => ([], skip_space s)
          end
      | Dec assign =>
          match scan_dec s with
          | Some (v, r) => let '(vs, r) := fscanf format r in ((if assign then [Num_ v] else []) ++ vs, r)
          | None => ([], skip_space s)
          end
      | Long =>
          match scan_long s with
          | Some (v, r) => let '(vs, r) := fscanf format r in (Num_ v :: vs, r)
          | None => ([], skip_space s)
          end
      | Uns bits =>
          match scan_uns bits s with
          | Some (v, r) => let '(vs, r) := fscanf format r in (Num_ v :: vs, r)
          | None => ([], skip_space s)
          end
      | Str assign width =>
          match scan_word (default (length s) width) s with
          | Some (w, r) => let '(vs, r) := fscanf format r in ((if assign then [Str_ w] else []) ++ vs, r)
          | None => ([], skip_space s)
          end
      | Space => fscanf format (skip_space s)
      | Lit c =>
          match s with
          | c' :: r => if c' =? c then fscanf format r else ([], s)
          | [] => ([], s)
          end
      | Count => fscanf format s
      end
  end.

(** [fgets] with a buffer of [size] bytes: the characters up to and with the newline,
    and the rest of the file; nothing at its end. *)
Fixpoint fgets_chars (n : nat) (s : list Z) : list Z * list Z :=
  match n, s with
  | S n, c :: s' => if c =? 10 then ([c], s') else let '(l, r) := fgets_chars n s' in (c :: l, r)
  | _, _ => ([], s)
  end.
Definition fgets (size : nat) (s : list Z) : option (list Z * list Z) :=
  match s with
  | [] => None
  | _ => Some (fgets_chars (size - 1) s)
  end.
Fixpoint lines_fuel (fuel : nat) (size : nat) (s : list Z) : list (list Z) :=
  match fuel with
  | O => []
  | S fuel => match fgets size s with
              | Some (l, r) => l :: lines_fuel fuel size r
              | None => []
              end
  end.
(** The lines that a loop around [fgets] sees; each has a character or more. *)
Definition file_lines (size : nat) (s : list Z) : list (list Z) := lines_fuel (length s) size s.

(** A string up to its terminator. *)
Fixpoint c_string (s : list Z) : list Z :=
  match s with
  | [] => []
  | c :: s' => if c =? 0 then [] else c :: c_string s'
  end.

(** [strcmp(a, b) < 0] *)
Fixpoint str_lt (a b : list Z) : bool :=
  match a, b with
  | _, [] => false
  | [], _ :: _ => true
  | x :: a, y :: b => (x <? y) || (x =? y) && str_lt a b
  end.

(** ** Lemmas *)

Definition spaces (n : nat) : list Z := replicate n char_space.

Lemma skip_spaces n s : skip_space (spaces n ++ s) = skip_space s.
Proof. induction n as [|n IH]; [done|]. exact IH. Qed.

Lemma skip_space_char c s : isspace c = false -> skip_space (c :: s) = c :: s.
Proof. intros H. cbn. by rewrite H. Qed.

(** A word ends at a space or at the end. *)
Lemma word_spec width w s :
  Forall (fun c => isspace c = false) w -> (length w <= width)%nat ->
  length w = width \/ match s with c :: _ => isspace c = true | [] => True end ->
  word width (w ++ s) = (w, s).
Proof.
  intros Hw. revert width. induction Hw as [|c w Hc _ IH]; intros width Hl Hs.
  - destruct width as [|width]; [done|]. destruct s as [|c s]; [done|]. cbn.
    destruct Hs as [Hs|Hs]; [done|]. by rewrite Hs.
  - destruct width as [|width]; [cbn in Hl; lia|]. cbn in *. rewrite Hc. rewrite IH; [done|lia|].
    destruct Hs as [Hs|Hs]; [left; lia|by right].
Qed.

Lemma digits_spec digit base acc ds vs s :
  Forall2 (fun c d => digit c = Some d) ds vs ->
  match s with c :: _ => digit c = None | [] => True end ->
  digits digit base acc (ds ++ s) = (length ds, foldl (fun a d => a * base + d) acc vs, s).
Proof.
  intros H Hs. revert acc. induction H as [|c d ds vs Hc _ IH]; intros acc; cbn.
  - destruct s as [|c s]; [done|]. cbn. by rewrite Hs.
  - rewrite Hc, IH. done.
Qed.

Lemma fgets_chars_app n s l r : fgets_chars n s = (l, r) -> s = l ++ r /\ (length l <= n)%nat /\
  (n <> O -> s <> [] -> l <> []).
Proof.
  revert s l r. induction n as [|n IH]; intros s l r; cbn; [by intros [= <- <-]|].
  destruct s as [|c s]; [by intros [= <- <-]; split_and!; cbn; try lia|].
  destruct (c =? 10); [by intros [= <- <-]; split_and!; cbn; try lia|].
  destruct (fgets_chars n s) as [l' r'] eqn:E. intros [= <- <-]. destruct (IH _ _ _ E) as (-> & Hl & _).
  split_and!; [done|cbn; lia|done].
Qed.

(** The lines are the file. *)
Lemma file_lines_concat size s : (2 <= size)%nat -> concat (file_lines size s) = s.
Proof.
  intros Hs. unfold file_lines. generalize (le_n (length s)). generalize (length s) at 2 3 as fuel.
  intros fuel. revert s. induction fuel as [|fuel IH]; intros s Hf; [destruct s; [done|cbn in Hf; lia]|].
  cbn. unfold fgets. destruct s as [|c s]; [done|]. destruct (fgets_chars (size - 1) (c :: s)) as [l r] eqn:E.
  destruct (fgets_chars_app _ _ _ _ E) as (Es & Hl & Hne). cbn. rewrite Es. f_equal. apply IH.
  assert (l <> []) by (apply Hne; [lia|done]). destruct l as [|x l]; [done|].
  apply (f_equal length) in Es. rewrite length_app in Es. cbn in Es, Hf. lia.
Qed.

(** [strcmp] orders strings. *)
Lemma str_lt_irrefl a : str_lt a a = false.
Proof. induction a as [|x a IH]; [done|]. cbn. rewrite Z.ltb_irrefl, Z.eqb_refl. exact IH. Qed.
Lemma str_lt_trans a b c : str_lt a b = true -> str_lt b c = true -> str_lt a c = true.
Proof.
  revert b c. induction a as [|x a IH]; intros [|y b] [|z c]; cbn; try done.
  rewrite !orb_true_iff, !andb_true_iff, !Z.ltb_lt, !Z.eqb_eq.
  intros [H1|[H1 H1']] [H2|[H2 H2']]; [left; lia|left; lia|left; lia|right; split; [lia|by eapply IH]].
Qed.
Lemma str_lt_total a b : str_lt a b = false -> a = b \/ str_lt b a = true.
Proof.
  revert b. induction a as [|x a IH]; intros [|y b]; cbn; try done; [by left|by right|].
  rewrite !orb_false_iff, !orb_true_iff, !andb_false_iff, !andb_true_iff, !Z.ltb_lt, Z.ltb_ge, Z.eqb_neq, Z.eqb_eq.
  intros [H1 [H2|H2]]; [right; left; lia|]. destruct (Z.eq_dec x y) as [->|]; [|right; left; lia].
  destruct (IH _ H2) as [->|H3]; [by left|right; right; done].
Qed.
