(* ===== verification/Layout.v ===== *)
(** * Layouts of structures

    A structure in a buffer is given by its members, and filling it in by the list
    of the assignments; the lemmas say what a member holds afterwards. *)

From S2P Require Import Prelude Bytes.

(** A member: its offset and its size. *)
Definition field : Type := Z * nat.

(** An assignment to a member, or bytes written to an array member. *)
Inductive asg :=
| Num (f : field) (v : Z)
| Raw (f : field) (bs : list Z).
Definition asg_off (a : asg) : Z := match a with Num f _ | Raw f _ => f.1 end.
Definition asg_bytes (a : asg) : list Z := match a with Num f v => le_bytes f.2 v | Raw _ bs => bs end.

(** The assignments to the members of a structure at [base]. *)
Fixpoint run_asgs (base : Z) (l : list asg) (b : list Z) : option (list Z) :=
  match l with
  | [] => Some b
  | a :: l => b ← write_bytes b (base + asg_off a) (asg_bytes a); run_asgs base l b
  end.

Definition asg_len (a : asg) : nat := match a with Num f _ | Raw f _ => f.2 end.
Definition asg_wf (a : asg) : Prop := length (asg_bytes a) = asg_len a.
Definition asg_in (size : Z) (a : asg) : bool :=
  (0 <=? asg_off a) && (asg_off a + Z.of_nat (asg_len a) <=? size).

Definition asg_exact (f : field) (a : asg) : bool :=
  (asg_off a =? f.1) && Nat.eqb (asg_len a) f.2.
Definition asg_disjoint (f : field) (a : asg) : bool :=
  (f.1 + Z.of_nat f.2 <=? asg_off a) || (asg_off a + Z.of_nat (asg_len a) <=? f.1).

(** The bytes of a member after the assignments: the last one to it, when no
    later one overlaps it. *)
Fixpoint find_asg (f : field) (l : list asg) : option (list Z) :=
  match l with
  | [] => None
  | a :: l => match find_asg f l with
              | Some bs => Some bs
              | None => if asg_exact f a && forallb (asg_disjoint f) l then Some (asg_bytes a) else None
              end
  end.

Lemma run_asgs_length base l b b' : run_asgs base l b = Some b' -> length b' = length b.
Proof.
  revert b. induction l as [|a l IH]; intros b; cbn; [by intros [= <-]|].
  intros (b1 & E1 & E2)%bind_Some. rewrite (IH _ E2). by eapply write_bytes_length.
Qed.

Lemma run_asgs_some base size l b :
  0 <= base -> base + size <= Z.of_nat (length b) -> Forall asg_wf l ->
  forallb (asg_in size) l = true -> exists b', run_asgs base l b = Some b'.
Proof.
  intros Hb Hs Hwf. revert b Hs. induction Hwf as [|a l Ha _ IH]; intros b Hs Hin; [by exists b|].
  cbn in Hin. apply andb_true_iff in Hin as [Hi Hin].
  apply andb_true_iff in Hi as [Hi1%Z.leb_le Hi2%Z.leb_le]. cbn [run_asgs]. unfold asg_wf in Ha.
  rewrite write_bytes_some by lia. cbn [mbind option_bind]. apply IH; [|done].
  rewrite !length_app, length_take, length_drop. lia.
Qed.

Lemma run_asgs_disjoint base f l b b' :
  run_asgs base l b = Some b' -> Forall asg_wf l -> forallb (asg_disjoint f) l = true ->
  read_bytes b' (base + f.1) (Z.of_nat f.2) = read_bytes b (base + f.1) (Z.of_nat f.2).
Proof.
  intros E Hwf. revert b E. induction Hwf as [|a l Ha _ IH]; intros b; cbn; [by intros [= <-]|].
  intros (b1 & E1 & E2)%bind_Some [Hd Hl]%andb_true_iff. rewrite (IH _ E2 Hl).
  eapply read_write_ne; [exact E1|]. unfold asg_wf in Ha.
  apply orb_true_iff in Hd as [Hd%Z.leb_le|Hd%Z.leb_le]; lia.
Qed.

Lemma run_asgs_find base f l b b' bs :
  run_asgs base l b = Some b' -> Forall asg_wf l -> find_asg f l = Some bs ->
  read_bytes b' (base + f.1) (Z.of_nat f.2) = Some bs.
Proof.
  intros E Hwf. revert b E. induction Hwf as [|a l Ha Hl IH]; intros b; cbn; [done|].
  intros (b1 & E1 & E2)%bind_Some. destruct (find_asg f l) as [bs'|]; [by intros [= <-]; eapply IH|].
  destruct (asg_exact f a) eqn:Hex; [|done]. destruct (forallb _ l) eqn:Hd; [|done]. intros [= <-].
  rewrite (run_asgs_disjoint _ _ _ _ _ E2 Hl Hd).
  apply andb_true_iff in Hex as [Ho%Z.eqb_eq Hn%Nat.eqb_eq]. rewrite <-Ho, <-Hn, <-Ha.
  by eapply read_write_same.
Qed.

(** A number assigned to a member and not overwritten. *)
Lemma run_asgs_load base f l b b' v :
  run_asgs base l b = Some b' -> Forall asg_wf l -> find_asg f l = Some (le_bytes f.2 v) ->
  load f.2 b' (base + f.1) = Some (v mod 256 ^ Z.of_nat f.2).
Proof.
  intros E Hwf Hf. unfold load. rewrite (run_asgs_find _ _ _ _ _ _ E Hwf Hf). cbn.
  by rewrite le_value_bytes.
Qed.

(** Reading outside the structure. *)
Lemma run_asgs_outside base size l b b' o n :
  run_asgs base l b = Some b' -> Forall asg_wf l -> forallb (asg_in size) l = true ->
  o + n <= base \/ base + size <= o -> read_bytes b' o n = read_bytes b o n.
Proof.
  intros E Hwf. revert b E. induction Hwf as [|a l Ha _ IH]; intros b; cbn; [by intros [= <-]|].
  intros (b1 & E1 & E2)%bind_Some [Hi Hl]%andb_true_iff Ho. rewrite (IH _ E2 Hl Ho).
  apply andb_true_iff in Hi as [Hi1%Z.leb_le Hi2%Z.leb_le]. unfold asg_wf in Ha.
  eapply read_write_ne; [exact E1|]. lia.
Qed.
