(* ===== verification/Crc16.v ===== *)
(** * CRC-16 of the block group descriptors (ext4_utils/crc16.c)

    The table [crc16_tab], the table-driven update loop [ext4_crc16], the
    bit-serial shift register it implements, and what the checksum detects. *)

From S2P Require Import Prelude.

(** ** The code *)

Definition crc16_tab : list Z :=
  [
   0x0000; 0xC0C1; 0xC181; 0x0140; 0xC301; 0x03C0; 0x0280; 0xC241;
   0xC601; 0x06C0; 0x0780; 0xC741; 0x0500; 0xC5C1; 0xC481; 0x0440;
   0xCC01; 0x0CC0; 0x0D80; 0xCD41; 0x0F00; 0xCFC1; 0xCE81; 0x0E40;
   0x0A00; 0xCAC1; 0xCB81; 0x0B40; 0xC901; 0x09C0; 0x0880; 0xC841;
   0xD801; 0x18C0; 0x1980; 0xD941; 0x1B00; 0xDBC1; 0xDA81; 0x1A40;
   0x1E00; 0xDEC1; 0xDF81; 0x1F40; 0xDD01; 0x1DC0; 0x1C80; 0xDC41;
   0x1400; 0xD4C1; 0xD581; 0x1540; 0xD701; 0x17C0; 0x1680; 0xD641;
   0xD201; 0x12C0; 0x1380; 0xD341; 0x1100; 0xD1C1; 0xD081; 0x1040;
   0xF001; 0x30C0; 0x3180; 0xF141; 0x3300; 0xF3C1; 0xF281; 0x3240;
   0x3600; 0xF6C1; 0xF781; 0x3740; 0xF501; 0x35C0; 0x3480; 0xF441;
   0x3C00; 0xFCC1; 0xFD81; 0x3D40; 0xFF01; 0x3FC0; 0x3E80; 0xFE41;
   0xFA01; 0x3AC0; 0x3B80; 0xFB41; 0x3900; 0xF9C1; 0xF881; 0x3840;
   0x2800; 0xE8C1; 0xE981; 0x2940; 0xEB01; 0x2BC0; 0x2A80; 0xEA41;
   0xEE01; 0x2EC0; 0x2F80; 0xEF41; 0x2D00; 0xEDC1; 0xEC81; 0x2C40;
   0xE401; 0x24C0; 0x2580; 0xE541; 0x2700; 0xE7C1; 0xE681; 0x2640;
   0x2200; 0xE2C1; 0xE381; 0x2340; 0xE101; 0x21C0; 0x2080; 0xE041;
   0xA001; 0x60C0; 0x6180; 0xA141; 0x6300; 0xA3C1; 0xA281; 0x6240;
   0x6600; 0xA6C1; 0xA781; 0x6740; 0xA501; 0x65C0; 0x6480; 0xA441;
   0x6C00; 0xACC1; 0xAD81; 0x6D40; 0xAF01; 0x6FC0; 0x6E80; 0xAE41;
   0xAA01; 0x6AC0; 0x6B80; 0xAB41; 0x6900; 0xA9C1; 0xA881; 0x6840;
   0x7800; 0xB8C1; 0xB981; 0x7940; 0xBB01; 0x7BC0; 0x7A80; 0xBA41;
   0xBE01; 0x7EC0; 0x7F80; 0xBF41; 0x7D00; 0xBDC1; 0xBC81; 0x7C40;
   0xB401; 0x74C0; 0x7580; 0xB541; 0x7700; 0xB7C1; 0xB681; 0x7640;
   0x7200; 0xB2C1; 0xB381; 0x7340; 0xB101; 0x71C0; 0x7080; 0xB041;
   0x5000; 0x90C1; 0x9181; 0x5140; 0x9301; 0x53C0; 0x5280; 0x9241;
   0x9601; 0x56C0; 0x5780; 0x9741; 0x5500; 0x95C1; 0x9481; 0x5440;
   0x9C01; 0x5CC0; 0x5D80; 0x9D41; 0x5F00; 0x9FC1; 0x9E81; 0x5E40;
   0x5A00; 0x9AC1; 0x9B81; 0x5B40; 0x9901; 0x59C0; 0x5880; 0x9841;
   0x8801; 0x48C0; 0x4980; 0x8941; 0x4B00; 0x8BC1; 0x8A81; 0x4A40;
   0x4E00; 0x8EC1; 0x8F81; 0x4F40; 0x8D01; 0x4DC0; 0x4C80; 0x8C41;
   0x4400; 0x84C1; 0x8581; 0x4540; 0x8701; 0x47C0; 0x4680; 0x8641;
   0x8201; 0x42C0; 0x4380; 0x8341; 0x4100; 0x81C1; 0x8081; 0x4040
  ].

(** One turn of [while (size--) crc = crc16_tab[(crc ^ *p++) & 0xFF] ^ (crc >> 8)]. *)
Definition crc16_byte (crc b : Z) : Z :=
  Z.lxor (nth (Z.to_nat (Z.land (Z.lxor crc b) 0xFF)) crc16_tab 0) (Z.shiftr crc 8).

(** [u16 ext4_crc16(u16 crc_in, const void *buf, int size)] on the bytes of [buf]. *)
Definition ext4_crc16 (crc_in : Z) (buf : list Z) : Z :=
  fold_left crc16_byte buf crc_in.

(** ** The bit-serial register

    Polynomial x^16 + x^15 + x^2 + 1, least significant bit first. *)

Definition crc_poly : Z := 0xA001.

Definition crc_shift (x : Z) : Z :=
  Z.lxor (Z.shiftr x 1) (if Z.odd x then crc_poly else 0).

Definition crc_serial_byte (crc b : Z) : Z :=
  Nat.iter 8 crc_shift (Z.lxor crc b).

Definition crc_serial (crc : Z) (buf : list Z) : Z :=
  fold_left crc_serial_byte buf crc.

Definition is_u16 (x : Z) : Prop := 0 <= x < 2 ^ 16.
Definition is_byte (b : Z) : Prop := 0 <= b < 2 ^ 8.

(** ** Linearity of the register *)

Lemma crc_shift_lxor x y :
  crc_shift (Z.lxor x y) = Z.lxor (crc_shift x) (crc_shift y).
Proof.
  unfold crc_shift. rewrite <-!Z.bit0_odd, Z.lxor_spec, Z.shiftr_lxor.
  destruct (Z.testbit x 0), (Z.testbit y 0); simpl xorb; cbn iota;
    apply Z.bits_inj'; intros n Hn; rewrite !Z.lxor_spec, ?Z.bits_0;
    repeat destruct (Z.testbit _ _); reflexivity.
Qed.

Lemma crc_shift_iter_lxor n x y :
  Nat.iter n crc_shift (Z.lxor x y) =
  Z.lxor (Nat.iter n crc_shift x) (Nat.iter n crc_shift y).
Proof.
  induction n as [|n IH]; [done|]. by rewrite !Nat.iter_succ, IH, crc_shift_lxor.
Qed.

Lemma crc_shift_even n y :
  Nat.iter n crc_shift (Z.shiftl y (Z.of_nat n)) = y.
Proof.
  revert y. induction n as [|n IH]; intros y; [apply Z.shiftl_0_r|].
  rewrite Nat.iter_succ_r.
  replace (crc_shift (Z.shiftl y (Z.of_nat (S n)))) with (Z.shiftl y (Z.of_nat n)); [done|].
  unfold crc_shift.
  rewrite <-Z.bit0_odd, Z.shiftl_spec_low, Z.lxor_0_r, Z.shiftr_shiftl_l by lia.
  f_equal. lia.
Qed.

Lemma byte_split x :
  x = Z.lxor (Z.land x 0xFF) (Z.shiftl (Z.shiftr x 8) 8).
Proof.
  change 0xFF with (Z.ones 8). apply Z.bits_inj'. intros n Hn.
  rewrite Z.lxor_spec, Z.land_spec.
  destruct (decide (n < 8)).
  - rewrite Z.ones_spec_low, Z.shiftl_spec_low by lia. by destruct (Z.testbit x n).
  - rewrite Z.ones_spec_high, Z.shiftl_spec, Z.shiftr_spec by lia.
    replace (n - 8 + 8) with n by lia. by destruct (Z.testbit x n).
Qed.

Lemma land_ff_range x : 0 <= Z.land x 0xFF < 256.
Proof. change 0xFF with (Z.ones 8). rewrite Z.land_ones by lia. by apply Z.mod_pos_bound. Qed.

Lemma crc16_tab_serial i :
  0 <= i < 256 -> nth (Z.to_nat i) crc16_tab 0 = Nat.iter 8 crc_shift i.
Proof.
  intros Hi.
  assert (Hall : forallb (fun k => nth k crc16_tab 0 =? Nat.iter 8 crc_shift (Z.of_nat k))
                   (seq 0 256) = true) by (vm_compute; reflexivity).
  rewrite forallb_forall in Hall.
  specialize (Hall (Z.to_nat i)). rewrite in_seq in Hall.
  apply Z.eqb_eq in Hall; [|lia]. by rewrite Z2Nat.id in Hall by lia.
Qed.

Lemma crc16_byte_serial crc b :
  is_byte b -> crc16_byte crc b = crc_serial_byte crc b.
Proof.
  intros Hb. unfold crc16_byte, crc_serial_byte.
  rewrite (byte_split (Z.lxor crc b)) at 2.
  rewrite crc_shift_iter_lxor, crc16_tab_serial by apply land_ff_range.
  f_equal. pose proof (crc_shift_even 8 (Z.shiftr (Z.lxor crc b) 8)) as E.
  change (Z.of_nat 8) with 8 in E. rewrite E, Z.shiftr_lxor.
  rewrite (Z.shiftr_div_pow2 b), (Z.div_small b), Z.lxor_0_r; done.
Qed.

(** ** Range and injectivity of one step *)

Lemma testbit_high x n i : 0 <= x < 2 ^ n -> 0 <= n <= i -> Z.testbit x i = false.
Proof.
  intros Hx Hi. rewrite <-(Z.mod_small x (2 ^ n)) by done.
  by apply Z.mod_pow2_bits_high.
Qed.

Lemma lxor_range n x y :
  0 <= n -> 0 <= x < 2 ^ n -> 0 <= y < 2 ^ n -> 0 <= Z.lxor x y < 2 ^ n.
Proof.
  intros Hn Hx Hy. split; [apply Z.lxor_nonneg; lia|].
  assert (0 < 2 ^ n) by lia.
  apply Z.lt_nge. intros Hge.
  assert (Hb : Z.testbit (Z.lxor x y) (Z.log2 (Z.lxor x y)) = true)
    by (apply Z.bit_log2; lia).
  assert (Hl : n <= Z.log2 (Z.lxor x y)) by (apply Z.log2_le_pow2; lia).
  rewrite Z.lxor_spec, (testbit_high x n), (testbit_high y n) in Hb by lia. done.
Qed.

Lemma crc_shift_range x : is_u16 x -> is_u16 (crc_shift x).
Proof.
  unfold is_u16. intros Hx. unfold crc_shift. apply lxor_range; [lia| |].
  - rewrite Z.shiftr_div_pow2 by lia. change (2 ^ 1) with 2. dlia.
  - destruct (Z.odd x); unfold crc_poly; lia.
Qed.

Lemma crc_shift_zero x : is_u16 x -> crc_shift x = 0 -> x = 0.
Proof.
  unfold is_u16, crc_shift, crc_poly. intros Hx H. apply Z.lxor_eq in H.
  rewrite Z.shiftr_div_pow2 in H by lia. change (2 ^ 1) with 2 in H.
  pose proof (Zodd_mod x) as Ho. pose proof (Z.div_mod x 2 ltac:(lia)) as Hd.
  destruct (Z.odd x) eqn:E; [lia|].
  rewrite Zodd_even_bool in E. apply negb_false_iff in E.
  apply Z.even_spec in E as [k ->]. rewrite Z.mul_comm, Z.div_mul in H by lia. lia.
Qed.

Lemma crc_iter_range n x : is_u16 x -> is_u16 (Nat.iter n crc_shift x).
Proof. intros Hx. induction n; [done|]. by apply crc_shift_range. Qed.

Lemma crc_iter_zero n x : is_u16 x -> Nat.iter n crc_shift x = 0 -> x = 0.
Proof.
  intros Hx. induction n as [|n IH]; [done|]. intros H.
  apply IH. apply crc_shift_zero; [|done]. by apply crc_iter_range.
Qed.

Lemma crc_iter_inj n x y :
  is_u16 x -> is_u16 y -> Nat.iter n crc_shift x = Nat.iter n crc_shift y -> x = y.
Proof.
  intros Hx Hy H. apply Z.lxor_eq. apply (crc_iter_zero n).
  - by apply lxor_range.
  - by rewrite crc_shift_iter_lxor, H, Z.lxor_nilpotent.
Qed.

Lemma is_byte_u16 b : is_byte b -> is_u16 b.
Proof. unfold is_byte, is_u16. lia. Qed.

Lemma crc16_byte_range crc b : is_u16 crc -> is_byte b -> is_u16 (crc16_byte crc b).
Proof.
  intros Hc Hb. rewrite crc16_byte_serial by done. apply crc_iter_range.
  apply lxor_range; [lia|done|]. by apply is_byte_u16.
Qed.

Lemma crc16_byte_inj_l crc1 crc2 b :
  is_u16 crc1 -> is_u16 crc2 -> is_byte b ->
  crc16_byte crc1 b = crc16_byte crc2 b -> crc1 = crc2.
Proof.
  intros H1 H2 Hb. rewrite !crc16_byte_serial by done. unfold crc_serial_byte. intros H.
  apply crc_iter_inj in H; try (apply lxor_range; [lia|done|]; by apply is_byte_u16).
  rewrite !(Z.lxor_comm _ b) in H.
  apply (f_equal (Z.lxor b)) in H. by rewrite <-!Z.lxor_assoc, Z.lxor_nilpotent, !Z.lxor_0_l in H.
Qed.

Lemma crc16_byte_inj_r crc b1 b2 :
  is_u16 crc -> is_byte b1 -> is_byte b2 ->
  crc16_byte crc b1 = crc16_byte crc b2 -> b1 = b2.
Proof.
  intros Hc H1 H2. rewrite !crc16_byte_serial by done. unfold crc_serial_byte. intros H.
  apply crc_iter_inj in H; try (apply lxor_range; [lia|done|]; by apply is_byte_u16).
  apply (f_equal (Z.lxor crc)) in H. by rewrite <-!Z.lxor_assoc, Z.lxor_nilpotent, !Z.lxor_0_l in H.
Qed.

Lemma ext4_crc16_range crc buf :
  is_u16 crc -> Forall is_byte buf -> is_u16 (ext4_crc16 crc buf).
Proof.
  intros Hc Hb. revert crc Hc. induction Hb as [|b buf Hb _ IH]; intros crc Hc; [done|].
  apply IH. by apply crc16_byte_range.
Qed.

Lemma ext4_crc16_inj crc1 crc2 buf :
  is_u16 crc1 -> is_u16 crc2 -> Forall is_byte buf ->
  ext4_crc16 crc1 buf = ext4_crc16 crc2 buf -> crc1 = crc2.
Proof.
  intros H1 H2 Hb. revert crc1 crc2 H1 H2.
  induction Hb as [|b buf Hb _ IH]; intros crc1 crc2 H1 H2 H; [done|].
  apply (crc16_byte_inj_l _ _ b); [done..|].
  apply IH; [by apply crc16_byte_range..|done].
Qed.

Lemma ext4_crc16_app crc buf1 buf2 :
  ext4_crc16 crc (buf1 ++ buf2) = ext4_crc16 (ext4_crc16 crc buf1) buf2.
Proof. apply fold_left_app. Qed.

(** ** Properties *)

(** The table-driven loop computes the bit-serial CRC register (polynomial
    0x8005 reflected) on every buffer of bytes and every start value. *)
Theorem crc16_table_is_serial crc buf :
  Forall is_byte buf -> ext4_crc16 crc buf = crc_serial crc buf.
Proof.
  intros Hb. revert crc. induction Hb as [|b buf Hb _ IH]; intros crc; [done|].
  cbn. rewrite crc16_byte_serial by done. apply IH.
Qed.

Lemma crc16_table_is_serial_witness :
  Forall is_byte [0x31; 0x32; 0x33; 0xFF] /\
  ext4_crc16 0xFFFF [0x31; 0x32; 0x33; 0xFF] = crc_serial 0xFFFF [0x31; 0x32; 0x33; 0xFF].
Proof.
  assert (H : Forall is_byte [0x31; 0x32; 0x33; 0xFF]).
  { repeat constructor; vm_compute; congruence. }
  split; [exact H|]. exact (crc16_table_is_serial 0xFFFF _ H).
Defined.

(** A corruption confined to one byte always changes the descriptor
    checksum, wherever it is and whatever the start value. *)
Theorem crc16_detects_byte crc pre b1 b2 post :
  is_u16 crc -> Forall is_byte pre -> Forall is_byte post ->
  is_byte b1 -> is_byte b2 -> b1 <> b2 ->
  ext4_crc16 crc (pre ++ b1 :: post) <> ext4_crc16 crc (pre ++ b2 :: post).
Proof.
  intros Hc Hpre Hpost H1 H2 Hne H. rewrite !ext4_crc16_app in H.
  pose proof (ext4_crc16_range crc pre Hc Hpre) as Hr.
  apply Hne. apply (crc16_byte_inj_r (ext4_crc16 crc pre)); [done..|].
  eapply ext4_crc16_inj; [by apply crc16_byte_range..|apply Hpost|apply H].
Qed.

Lemma crc16_detects_byte_witness :
  ext4_crc16 0xFFFF ([1; 2] ++ 3 :: [4]) <> ext4_crc16 0xFFFF ([1; 2] ++ 7 :: [4]).
Proof.
  apply crc16_detects_byte;
    repeat first [apply Forall_nil_2 | apply Forall_cons_2];
    first [split; vm_compute; congruence | vm_compute; congruence].
Defined.
