(* ===== verification/Ext4Info.v ===== *)
(** * File system parameters (ext4_utils.h, ext4_utils.c)

    [struct fs_info] and [struct fs_aux_info], the sparse-superblock rule and
    [ext4_create_fs_aux_info], which derives the geometry of an image from its
    basic parameters. *)

From S2P Require Import Prelude.

(** ** Constants (ext4.h, ext4_utils.h, jbd2.h) *)

Definition EXT4_SUPER_MAGIC : Z := 0xEF53.
Definition EXT4_FEATURE_COMPAT_HAS_JOURNAL : Z := 0x0004.
Definition EXT4_FEATURE_COMPAT_EXT_ATTR : Z := 0x0008.
Definition EXT4_FEATURE_COMPAT_RESIZE_INODE : Z := 0x0010.
Definition EXT4_FEATURE_RO_COMPAT_SPARSE_SUPER : Z := 0x0001.
Definition EXT4_FEATURE_RO_COMPAT_LARGE_FILE : Z := 0x0002.
Definition EXT4_FEATURE_RO_COMPAT_GDT_CSUM : Z := 0x0010.
Definition EXT4_FEATURE_INCOMPAT_FILETYPE : Z := 0x0002.
Definition EXT4_FEATURE_INCOMPAT_RECOVER : Z := 0x0004.
Definition EXT4_FEATURE_INCOMPAT_EXTENTS : Z := 0x0040.
Definition EXT4_NOATIME_FL : Z := 0x00000080.
Definition EXT4_EXTENTS_FL : Z := 0x00080000.
Definition EXT4_NDIR_BLOCKS : Z := 12.
(** [sizeof(struct ext2_group_desc)] and [sizeof(u32)]. *)
Definition sizeof_group_desc : Z := 32.
Definition sizeof_u32 : Z := 4.

(** ** Data *)

Record fs_info := mk_fs_info {
  fs_len : Z;                        (* s64 len *)
  block_size : Z;
  blocks_per_group : Z;
  inodes_per_group : Z;
  inode_size : Z;
  inodes : Z;
  journal_blocks : Z;
  feat_ro_compat : Z;                (* u16 *)
  feat_compat : Z;                   (* u16 *)
  feat_incompat : Z;                 (* u16 *)
  bg_desc_reserve_blocks : Z;
  fs_label : list Z;                 (* the bytes before the terminator *)
  no_journal : Z                     (* u8 *)
}.

Record fs_aux_info := mk_fs_aux_info {
  first_data_block : Z;
  len_blocks : Z;                    (* u64 *)
  inode_table_blocks : Z;
  groups : Z;
  bg_desc_blocks : Z;
  default_i_flags : Z;
  blocks_per_ind : Z;
  blocks_per_dind : Z;
  blocks_per_tind : Z
}.

(** ** [static inline int log_2(int j)] *)

Fixpoint log_2_loop (fuel : nat) (i j : Z) : option Z :=
  match fuel with
  | O => None
  | S f => if 0 <? j then log_2_loop f (i + 1) (Z.shiftr j 1) else Some (i - 1)
  end.
(** An [int] is shifted to 0 in at most 31 turns. *)
Definition log_2 (j : Z) : option Z := log_2_loop 33 0 j.

(** ** The sparse superblock rule *)

(** [static int is_power_of(int a, int b)]; a turn divides [a] by [b], so [a]
    turns suffice for [b >= 2]. *)
Fixpoint is_power_of_loop (fuel : nat) (a b : Z) : option Z :=
  match fuel with
  | O => None
  | S f =>
      if b <? a then
        if Z.rem a b =? 0 then is_power_of_loop f (Z.quot a b) b else Some 0
      else Some (if a =? b then 1 else 0)
  end.
Definition is_power_of (a b : Z) : option Z := is_power_of_loop (S (Z.to_nat a)) a b.

Definition power_test (bg b : Z) : bool :=
  match is_power_of bg b with Some 0 | None => false | Some _ => true end.

(** [int ext4_bg_has_super_block(int bg)]. *)
Definition ext4_bg_has_super_block (info : fs_info) (bg : Z) : bool :=
  if Z.land (feat_ro_compat info) EXT4_FEATURE_RO_COMPAT_SPARSE_SUPER =? 0 then true
  else if (bg =? 0) || (bg =? 1) then true
  else power_test bg 3 || power_test bg 5 || power_test bg 7.

(** ** Geometry *)

(** The blocks a group's superblock and descriptor copies take, and the size of
    the group's header (also computed by [init_bg] of allocate.c). *)
Definition super_blocks (info : fs_info) (desc_blocks bg : Z) : Z :=
  if ext4_bg_has_super_block info bg
  then u32 (1 + desc_blocks + bg_desc_reserve_blocks info) else 0.

(** [void ext4_create_fs_aux_info()], less its buffers. [DIV_ROUND_UP] wraps at
    the type of its operands: [u32] for the inode table, [u64] for the rest. *)
Definition ext4_create_fs_aux_info (info : fs_info) : fs_aux_info :=
  let fdb := if 1024 <? block_size info then 0 else 1 in
  let lenb := u64 (Z.quot (fs_len info) (block_size info)) in
  let itb := u32 (u32 (inodes_per_group info * inode_size info) + block_size info - 1)
             / block_size info in
  let grps := u32 (u64 (u64 (lenb - fdb) + blocks_per_group info - 1)
                   / blocks_per_group info) in
  let ind := u32 (block_size info / sizeof_u32) in
  let dind := u32 (ind * ind) in
  let tind := u32 (dind * dind) in
  let descb := u32 (u64 (grps * sizeof_group_desc + block_size info - 1)
                    / block_size info) in
  let last_group_size := u32 (lenb mod blocks_per_group info) in
  let last_header_size :=
    u32 (2 + itb + super_blocks info descb (s32 (u32 (grps - 1)))) in
  let drop := (0 <? last_group_size) && (last_group_size <? last_header_size) in
  mk_fs_aux_info fdb
    (if drop then u64 (lenb - last_group_size) else lenb)
    itb
    (if drop then u32 (grps - 1) else grps)
    descb EXT4_NOATIME_FL ind dind tind.

(** ** Facts about the sparse rule *)

Lemma is_power_of_loop_spec fuel a b :
  2 <= b -> 0 <= a -> (Z.to_nat a < fuel)%nat ->
  exists r, is_power_of_loop fuel a b = Some r /\
    (r = 1 <-> exists k, 1 <= k /\ a = b ^ k) /\ (r = 0 \/ r = 1).
Proof.
  revert a. induction fuel as [|f IH]; intros a Hb Ha Hf; [lia|]. cbn.
  destruct (Z.ltb_spec b a) as [Hlt|Hle].
  - destruct (Z.eqb_spec (Z.rem a b) 0) as [H0|H0].
    + rewrite Z.rem_mod_nonneg in H0 by lia. rewrite Z.quot_div_nonneg by lia.
      assert (Hab : a = b * (a / b)) by (pose proof (Z.div_mod a b ltac:(lia)); lia).
      assert (0 < a / b) by nia.
      destruct (IH (a / b)) as (r & -> & Hr & Hr'); [done|lia|nia|].
      exists r. split; [done|]. split; [|done]. rewrite Hr. split.
      * intros (k & Hk & E). exists (k + 1). split; [lia|].
        rewrite Z.pow_add_r, Z.pow_1_r by lia. lia.
      * intros (k & Hk & E). exists (k - 1).
        assert (k <> 1) by (intros ->; rewrite Z.pow_1_r in E; lia).
        split; [lia|]. rewrite E. replace k with (1 + (k - 1)) at 1 by lia.
        rewrite Z.pow_add_r, Z.pow_1_r, Z.mul_comm, Z.div_mul by lia. done.
    + exists 0. split; [done|]. split; [|lia]. split; [lia|].
      intros (k & Hk & ->). exfalso. apply H0. rewrite Z.rem_mod_nonneg by lia.
      replace k with (1 + (k - 1)) by lia.
      rewrite Z.pow_add_r, Z.pow_1_r, Z.mul_comm by lia. apply Z.mod_mul. lia.
  - eexists. split; [done|]. destruct (Z.eqb_spec a b) as [->|Hne].
    + split; [|lia]. split; [|done]. intros _. exists 1. by rewrite Z.pow_1_r.
    + split; [|lia]. split; [lia|]. intros (k & Hk & ->).
      assert (b ^ 1 <= b ^ k) by (apply Z.pow_le_mono_r; lia).
      rewrite Z.pow_1_r in *. lia.
Qed.

Lemma power_test_spec bg b :
  2 <= b -> 0 <= bg -> power_test bg b = true <-> exists k, 1 <= k /\ bg = b ^ k.
Proof.
  intros Hb Hbg. unfold power_test, is_power_of.
  destruct (is_power_of_loop_spec (S (Z.to_nat bg)) bg b) as (r & -> & <- & [-> | ->]);
    [done..|lia|naive_solver|naive_solver].
Qed.

