(* ===== verification/Bitmap.v ===== *)
(** * Byte bitmaps (allocate.c, ext4fixup.c)

    The [u8 *] bitmaps of the block groups, as lists of bytes, with the
    one-bit and eight-bit accesses of the sources. [None] is an access outside
    the array. [bit] is the abstract content of a bitmap. *)

From S2P Require Import Prelude.

(** ** The code *)

Definition bit_mask (b : Z) : Z := Z.shiftl 1 (b mod 8).

(** [static int bitmap_set_bit(u8 *bitmap, u32 bit)]: the result and the bitmap. *)
Definition bitmap_set_bit (bm : list Z) (b : Z) : option (Z * list Z) :=
  match zget bm (b / 8) with
  | None => None
  | Some x =>
      if Z.land x (bit_mask b) =? 0
      then Some (0, <[Z.to_nat (b / 8) := Z.lor x (bit_mask b)]> bm)
      else Some (1, bm)
  end.

(** [static int bitmap_set_8_bits(u8 *bitmap, u32 bit)]: the old byte and the bitmap. *)
Definition bitmap_set_8_bits (bm : list Z) (b : Z) : option (Z * list Z) :=
  match zget bm (b / 8) with
  | None => None
  | Some x => Some (x, <[Z.to_nat (b / 8) := 0xFF]> bm)
  end.

(** [static int bitmap_get_bit(u8 *bitmap, u32 bit)]. *)
Definition bitmap_get_bit (bm : list Z) (b : Z) : option Z :=
  match zget bm (b / 8) with
  | None => None
  | Some x => Some (if Z.land x (bit_mask b) =? 0 then 0 else 1)
  end.

(** [static void bitmap_clear_bit(u8 *bitmap, u32 bit)]. *)
Definition bitmap_clear_bit (bm : list Z) (b : Z) : option (list Z) :=
  match zget bm (b / 8) with
  | None => None
  | Some x => Some (<[Z.to_nat (b / 8) := Z.land x (Z.lnot (bit_mask b))]> bm)
  end.

(** ** The content of a bitmap *)

Definition bit (bm : list Z) (b : Z) : bool :=
  match zget bm (b / 8) with Some x => Z.testbit x (b mod 8) | None => false end.

Definition bytes_ok (bm : list Z) : Prop := Forall (fun x => 0 <= x < 256) bm.

Lemma zget_some {A} (l : list A) i :
  0 <= i < Z.of_nat (length l) -> exists x, zget l i = Some x.
Proof.
  intros Hi. unfold zget. rewrite decide_True by lia.
  apply lookup_lt_is_Some_2. lia.
Qed.

Lemma zget_some_inv {A} (l : list A) i x :
  zget l i = Some x -> 0 <= i < Z.of_nat (length l).
Proof.
  unfold zget. case_decide; [|done]. intros ?%lookup_lt_Some. lia.
Qed.

Lemma zget_insert {A} (l : list A) i j x :
  0 <= i < Z.of_nat (length l) ->
  zget (<[Z.to_nat i := x]> l) j = if decide (i = j) then Some x else zget l j.
Proof.
  intros Hi. unfold zget. case_decide; [|by case_decide; [lia|]].
  case_decide; subst.
  - apply list_lookup_insert_eq. lia.
  - apply list_lookup_insert_ne. lia.
Qed.

Lemma byte_index_bound (bm : list Z) b :
  0 <= b < 8 * Z.of_nat (length bm) -> 0 <= b / 8 < Z.of_nat (length bm).
Proof. intros. dlia. Qed.

Lemma bit_mask_spec b i : 0 <= i -> Z.testbit (bit_mask b) i = bool_decide (b mod 8 = i).
Proof.
  intros Hi. unfold bit_mask. pose proof (Z.mod_pos_bound b 8 ltac:(lia)).
  rewrite Z.shiftl_1_l. case_bool_decide as E.
  - subst. by apply Z.pow2_bits_true.
  - by apply Z.pow2_bits_false.
Qed.

Lemma land_mask_zero x b : Z.land x (bit_mask b) = 0 <-> Z.testbit x (b mod 8) = false.
Proof.
  pose proof (Z.mod_pos_bound b 8 ltac:(lia)). split.
  - intros E. apply (f_equal (fun z => Z.testbit z (b mod 8))) in E.
    rewrite Z.land_spec, bit_mask_spec, bool_decide_true, andb_true_r, Z.bits_0 in E by lia. done.
  - intros E. apply Z.bits_inj'. intros i Hi.
    rewrite Z.land_spec, bit_mask_spec, Z.bits_0 by done.
    case_bool_decide; subst; [by rewrite E|apply andb_false_r].
Qed.

(** Bit [j] after byte [b / 8] became [y]. *)
Lemma bit_insert bm b y j :
  0 <= b < 8 * Z.of_nat (length bm) ->
  bit (<[Z.to_nat (b / 8) := y]> bm) j =
  if decide (b / 8 = j / 8) then Z.testbit y (j mod 8) else bit bm j.
Proof.
  intros Hb. unfold bit. rewrite zget_insert by by apply byte_index_bound.
  by case_decide.
Qed.

Lemma div_mod_8_eq i j : i / 8 = j / 8 -> i mod 8 = j mod 8 -> i = j.
Proof. intros. dlia. Qed.

Lemma bitmap_set_bit_clear bm b :
  0 <= b < 8 * Z.of_nat (length bm) -> bit bm b = false ->
  exists bm', bitmap_set_bit bm b = Some (0, bm') /\ length bm' = length bm /\
    (forall j, bit bm' j = bool_decide (j = b) || bit bm j).
Proof.
  intros Hb. unfold bit at 1, bitmap_set_bit.
  destruct (zget_some bm (b / 8)) as [x Hx]; [by apply byte_index_bound|].
  rewrite Hx. intros Hbit. apply land_mask_zero in Hbit. rewrite Hbit. cbn.
  eexists. split; [done|]. split; [apply length_insert|].
  intros j. rewrite bit_insert by done. pose proof (Z.mod_pos_bound j 8 ltac:(lia)).
  case_decide as E.
  - rewrite Z.lor_spec, bit_mask_spec by lia. unfold bit. rewrite <-E, Hx, orb_comm.
    f_equal. apply bool_decide_ext. split; [|by intros ->].
    intros. symmetry. by apply div_mod_8_eq.
  - rewrite bool_decide_false; [done|]. by intros ->.
Qed.

Lemma bitmap_set_bit_set bm b :
  bit bm b = true -> bitmap_set_bit bm b = Some (1, bm).
Proof.
  unfold bit, bitmap_set_bit. destruct (zget bm (b / 8)) as [x|]; [|done].
  intros Hb. destruct (Z.eqb_spec (Z.land x (bit_mask b)) 0) as [E|]; [|done].
  apply land_mask_zero in E. congruence.
Qed.

Lemma byte_zero_iff x :
  0 <= x < 256 -> (forall i, 0 <= i < 8 -> Z.testbit x i = false) -> x = 0.
Proof.
  intros Hx H. apply Z.bits_inj'. intros i Hi. rewrite Z.bits_0.
  destruct (decide (i < 8)); [by apply H|].
  rewrite <-(Z.mod_small x (2 ^ 8)) by done. apply Z.mod_pow2_bits_high. lia.
Qed.

Lemma bitmap_set_8_bits_clear bm b :
  bytes_ok bm -> b mod 8 = 0 -> 0 <= b < 8 * Z.of_nat (length bm) ->
  (forall j, b <= j < b + 8 -> bit bm j = false) ->
  exists bm', bitmap_set_8_bits bm b = Some (0, bm') /\ length bm' = length bm /\
    (forall j, bit bm' j = bool_decide (b <= j < b + 8) || bit bm j).
Proof.
  intros Hok Hmod Hb Hclear. unfold bitmap_set_8_bits.
  destruct (zget_some bm (b / 8)) as [x Hx]; [by apply byte_index_bound|].
  rewrite Hx. assert (x = 0) as ->.
  { apply byte_zero_iff.
    - unfold zget in Hx. case_decide; [|done].
      by apply (Forall_lookup_1 _ _ _ _ Hok) in Hx.
    - intros i Hi. specialize (Hclear (b + i) ltac:(lia)). unfold bit in Hclear.
      replace ((b + i) / 8) with (b / 8) in Hclear by dlia.
      rewrite Hx in Hclear. replace ((b + i) mod 8) with i in Hclear by dlia. done. }
  eexists. split; [done|]. split; [apply length_insert|].
  intros j. rewrite bit_insert by done. case_decide as E.
  - rewrite bool_decide_true by dlia. change 0xFF with (Z.ones 8).
    rewrite Z.ones_spec_low; [done|dlia].
  - rewrite bool_decide_false; [done|]. dlia.
Qed.

Lemma bitmap_clear_bit_spec bm b :
  0 <= b < 8 * Z.of_nat (length bm) ->
  exists bm', bitmap_clear_bit bm b = Some bm' /\ length bm' = length bm /\
    (forall j, bit bm' j = negb (bool_decide (j = b)) && bit bm j).
Proof.
  intros Hb. unfold bitmap_clear_bit.
  destruct (zget_some bm (b / 8)) as [x Hx]; [by apply byte_index_bound|].
  rewrite Hx. eexists. split; [done|]. split; [apply length_insert|].
  intros j. rewrite bit_insert by done. pose proof (Z.mod_pos_bound j 8 ltac:(lia)).
  case_decide as E.
  - rewrite Z.land_spec, Z.lnot_spec, bit_mask_spec by lia. unfold bit.
    rewrite <-E, Hx, andb_comm. do 2 f_equal. apply bool_decide_ext.
    split; [|by intros ->]. intros. symmetry. by apply div_mod_8_eq.
  - rewrite bool_decide_false; [done|]. by intros ->.
Qed.

Lemma bytes_ok_insert bm i x : bytes_ok bm -> 0 <= x < 256 -> bytes_ok (<[i := x]> bm).
Proof. intros. by apply Forall_insert. Qed.

Lemma bytes_ok_zget bm i x : bytes_ok bm -> zget bm i = Some x -> 0 <= x < 256.
Proof.
  unfold zget. case_decide; [|done]. intros Hok Hx. by apply (Forall_lookup_1 _ _ _ _ Hok) in Hx.
Qed.

Lemma lor_range n x y :
  0 <= n -> 0 <= x < 2 ^ n -> 0 <= y < 2 ^ n -> 0 <= Z.lor x y < 2 ^ n.
Proof.
  intros Hn Hx Hy. split; [apply Z.lor_nonneg; lia|].
  rewrite <-(Z.mod_small x (2 ^ n)), <-(Z.mod_small y (2 ^ n)), <-!Z.land_ones by lia.
  rewrite <-Z.land_lor_distr_l, Z.land_ones by lia. apply Z.mod_pos_bound. lia.
Qed.

Lemma bitmap_set_bit_ok bm b r bm' :
  bytes_ok bm -> bitmap_set_bit bm b = Some (r, bm') -> bytes_ok bm'.
Proof.
  intros Hok. unfold bitmap_set_bit. destruct (zget bm (b / 8)) as [x|] eqn:Hx; [|done].
  pose proof (bytes_ok_zget _ _ _ Hok Hx) as Hr.
  destruct (_ =? 0); [|by intros [= <- <-]]. intros [= <- <-]. apply bytes_ok_insert; [done|].
  apply (lor_range 8); [lia|done|]. unfold bit_mask. rewrite Z.shiftl_1_l.
  split; [lia|]. apply Z.pow_lt_mono_r; dlia.
Qed.

Lemma bitmap_set_8_bits_ok bm b r bm' :
  bytes_ok bm -> bitmap_set_8_bits bm b = Some (r, bm') -> bytes_ok bm'.
Proof.
  intros Hok. unfold bitmap_set_8_bits. destruct (zget bm (b / 8)) as [x|]; [|done].
  intros [= <- <-]. by apply bytes_ok_insert.
Qed.

Lemma bitmap_clear_bit_ok bm b bm' :
  bytes_ok bm -> bitmap_clear_bit bm b = Some bm' -> bytes_ok bm'.
Proof.
  intros Hok. unfold bitmap_clear_bit. destruct (zget bm (b / 8)) as [x|] eqn:Hx; [|done].
  pose proof (bytes_ok_zget _ _ _ Hok Hx) as Hr.
  intros [= <-]. apply bytes_ok_insert; [done|].
  rewrite <-(Z.mod_small x (2 ^ 8)), <-Z.land_ones by lia.
  rewrite <-Z.land_assoc, (Z.land_comm (Z.ones 8)), Z.land_assoc, Z.land_ones by lia.
  apply Z.mod_pos_bound. lia.
Qed.

(** All bits of a zeroed bitmap are clear. *)
Lemma bit_replicate n b : bit (replicate n 0) b = false.
Proof.
  unfold bit, zget. case_decide; [|done].
  destruct (replicate n 0 !! Z.to_nat (b / 8)) eqn:E; [|done].
  apply lookup_replicate in E as [-> _]. apply Z.bits_0.
Qed.

Lemma bytes_ok_replicate n : bytes_ok (replicate n 0).
Proof. apply Forall_replicate. lia. Qed.

(** ** Marking an interval *)

(** [bm'] is [bm] with the bits of the interval [lo, hi) set. *)
Record marked (bm : list Z) (lo hi : Z) (bm' : list Z) : Prop := {
  marked_length : length bm' = length bm;
  marked_bit j : bit bm' j = bool_decide (lo <= j < hi) || bit bm j;
  marked_ok : bytes_ok bm -> bytes_ok bm'
}.

Definition range_clear (bm : list Z) (lo hi : Z) : Prop :=
  forall j, lo <= j < hi -> bit bm j = false.

Lemma marked_refl bm lo hi : hi <= lo -> marked bm lo hi bm.
Proof.
  intros H. split; [done| |done]. intros j. rewrite bool_decide_false; [done|lia].
Qed.

Lemma marked_trans bm1 bm2 bm3 lo mid hi :
  lo <= mid <= hi -> marked bm1 lo mid bm2 -> marked bm2 mid hi bm3 -> marked bm1 lo hi bm3.
Proof.
  intros H [L1 B1 O1] [L2 B2 O2]. split; [congruence| |auto].
  intros j. rewrite B2, B1, orb_assoc. f_equal.
  repeat case_bool_decide; (done || lia).
Qed.

Lemma marked_clear bm bm' lo hi lo' hi' :
  marked bm lo hi bm' -> hi <= lo' -> range_clear bm lo' hi' -> range_clear bm' lo' hi'.
Proof.
  intros [_ B _] H Hc j Hj. rewrite B, Hc by done. rewrite bool_decide_false; [done|lia].
Qed.

Lemma range_clear_app bm lo mid hi :
  range_clear bm lo mid -> range_clear bm mid hi -> range_clear bm lo hi.
Proof. intros H1 H2 j Hj. destruct (decide (j < mid)); [apply H1; lia|apply H2; lia]. Qed.

Lemma set_bit_marked bm b :
  0 <= b < 8 * Z.of_nat (length bm) -> bit bm b = false ->
  exists bm', bitmap_set_bit bm b = Some (0, bm') /\ marked bm b (b + 1) bm'.
Proof.
  intros Hb Hc. destruct (bitmap_set_bit_clear bm b) as (bm' & E & L & B); [done..|].
  exists bm'. split; [done|]. split; [done| |].
  - intros j. rewrite B. f_equal. apply bool_decide_ext. lia.
  - intros Hok. by eapply bitmap_set_bit_ok.
Qed.

Lemma bit_range_dec bm lo n :
  {range_clear bm lo (lo + Z.of_nat n)} +
  {exists j, lo <= j < lo + Z.of_nat n /\ bit bm j = true}.
Proof.
  induction n as [|n [IH|IH]].
  - left. intros j Hj. lia.
  - destruct (bit bm (lo + Z.of_nat n)) eqn:E.
    + right. exists (lo + Z.of_nat n). split; [lia|done].
    + left. intros j Hj. destruct (decide (j = lo + Z.of_nat n)) as [->|]; [done|].
      apply IH. lia.
  - right. destruct IH as (j & Hj & E). exists j. split; [lia|done].
Qed.

Lemma set_8_bits_marked bm b :
  bytes_ok bm -> b mod 8 = 0 -> 0 <= b < 8 * Z.of_nat (length bm) ->
  (range_clear bm b (b + 8) /\
   exists bm', bitmap_set_8_bits bm b = Some (0, bm') /\ marked bm b (b + 8) bm') \/
  (exists j, b <= j < b + 8 /\ bit bm j = true) /\
   exists r bm', bitmap_set_8_bits bm b = Some (r, bm') /\ r <> 0.
Proof.
  intros Hok Hmod Hb. destruct (bit_range_dec bm b 8) as [Hc|(j & Hj & E)].
  - left. split; [done|].
    destruct (bitmap_set_8_bits_clear bm b) as (bm' & E & L & B); [done..|].
    exists bm'. split; [done|]. split; [done|done|].
    intros _. by eapply bitmap_set_8_bits_ok.
  - right. split; [by exists j|]. unfold bitmap_set_8_bits.
    destruct (zget_some bm (b / 8)) as [x Hx]; [by apply byte_index_bound|].
    rewrite Hx. eexists _, _. split; [done|]. intros ->.
    unfold bit in E. replace (j / 8) with (b / 8) in E by dlia.
    rewrite Hx, Z.bits_0 in E. done.
Qed.

Lemma land_round_down num :
  0 <= num < 2 ^ 32 -> Z.land num (u32 (Z.lnot 7)) = 8 * (num / 8).
Proof.
  intros Hn. change (u32 (Z.lnot 7)) with (Z.shiftl (Z.ones 29) 3).
  assert (H : Z.land num (Z.shiftl (Z.ones 29) 3) =
              Z.shiftl (Z.land (Z.shiftr num 3) (Z.ones 29)) 3).
  { apply Z.bits_inj'. intros i Hi. rewrite Z.land_spec.
    destruct (decide (i < 3)).
    - rewrite !Z.shiftl_spec_low by lia. apply andb_false_r.
    - rewrite !Z.shiftl_spec, Z.land_spec, Z.shiftr_spec by lia.
      by replace (i - 3 + 3) with i by lia. }
  rewrite H, Z.land_ones, Z.shiftl_mul_pow2, Z.shiftr_div_pow2 by lia.
  change (2 ^ 3) with 8. rewrite Z.mod_small; [lia|]. dlia.
Qed.

(** A bitmap is determined by its bits. *)
Lemma bits_ext bm bm' :
  bytes_ok bm -> bytes_ok bm' -> length bm = length bm' ->
  (forall j, bit bm j = bit bm' j) -> bm = bm'.
Proof.
  intros H1 H2 Hl Hb. apply list_eq_same_length with (n := length bm); [done|lia|].
  intros i x y Hi Ex Ey. apply Z.bits_inj'. intros k Hk.
  assert (Hx : 0 <= x < 2 ^ 8) by exact (Forall_lookup_1 _ _ _ _ H1 Ex).
  assert (Hy : 0 <= y < 2 ^ 8) by exact (Forall_lookup_1 _ _ _ _ H2 Ey).
  destruct (decide (k < 8)) as [Hk8|Hk8].
  - specialize (Hb (8 * Z.of_nat i + k)). unfold bit, zget in Hb.
    replace ((8 * Z.of_nat i + k) / 8) with (Z.of_nat i) in Hb by dlia.
    replace ((8 * Z.of_nat i + k) mod 8) with k in Hb by dlia.
    cbv beta iota in Hb. rewrite !decide_True, !Nat2Z.id, Ex, Ey in Hb by lia. exact Hb.
  - rewrite <-(Z.mod_small x (2 ^ 8)), <-(Z.mod_small y (2 ^ 8)) by done.
    by rewrite !Z.mod_pow2_bits_high by lia.
Qed.
