(* ===== verification/Inode.v ===== *)
(** * Inodes (ext4.h)

    [struct ext4_inode] with its block array as sixty bytes (the code uses it as
    fifteen words, as an extent header with extents, and as the text of a short
    link), and the bytes of the inode's slot that follow the structure, where
    in-inode attributes are kept. *)

From S2P Require Import Prelude.

(** The members the sources never write ([osd1], the high halves of the ids,
    the extra time stamps) are left out. [i_xattr] are the [inode_size - 156]
    bytes after the structure. *)
Record ext4_inode := mk_inode {
  i_mode : Z;
  i_uid : Z;
  i_size_lo : Z;
  i_atime : Z;
  i_ctime : Z;
  i_mtime : Z;
  i_dtime : Z;
  i_gid : Z;
  i_links_count : Z;
  i_blocks_lo : Z;
  i_flags : Z;
  i_block : list Z;
  i_generation : Z;
  i_file_acl_lo : Z;
  i_size_high : Z;
  l_i_blocks_high : Z;
  i_extra_isize : Z;
  i_xattr : list Z
}.

Definition set_i_mode (v : Z) (r : ext4_inode) : ext4_inode :=
  mk_inode v (i_uid r) (i_size_lo r) (i_atime r) (i_ctime r) (i_mtime r) (i_dtime r) (i_gid r) (i_links_count r) (i_blocks_lo r) (i_flags r) (i_block r) (i_generation r) (i_file_acl_lo r) (i_size_high r) (l_i_blocks_high r) (i_extra_isize r) (i_xattr r).
Definition set_i_uid (v : Z) (r : ext4_inode) : ext4_inode :=
  mk_inode (i_mode r) v (i_size_lo r) (i_atime r) (i_ctime r) (i_mtime r) (i_dtime r) (i_gid r) (i_links_count r) (i_blocks_lo r) (i_flags r) (i_block r) (i_generation r) (i_file_acl_lo r) (i_size_high r) (l_i_blocks_high r) (i_extra_isize r) (i_xattr r).
Definition set_i_size_lo (v : Z) (r : ext4_inode) : ext4_inode :=
  mk_inode (i_mode r) (i_uid r) v (i_atime r) (i_ctime r) (i_mtime r) (i_dtime r) (i_gid r) (i_links_count r) (i_blocks_lo r) (i_flags r) (i_block r) (i_generation r) (i_file_acl_lo r) (i_size_high r) (l_i_blocks_high r) (i_extra_isize r) (i_xattr r).
Definition set_i_atime (v : Z) (r : ext4_inode) : ext4_inode :=
  mk_inode (i_mode r) (i_uid r) (i_size_lo r) v (i_ctime r) (i_mtime r) (i_dtime r) (i_gid r) (i_links_count r) (i_blocks_lo r) (i_flags r) (i_block r) (i_generation r) (i_file_acl_lo r) (i_size_high r) (l_i_blocks_high r) (i_extra_isize r) (i_xattr r).
Definition set_i_ctime (v : Z) (r : ext4_inode) : ext4_inode :=
  mk_inode (i_mode r) (i_uid r) (i_size_lo r) (i_atime r) v (i_mtime r) (i_dtime r) (i_gid r) (i_links_count r) (i_blocks_lo r) (i_flags r) (i_block r) (i_generation r) (i_file_acl_lo r) (i_size_high r) (l_i_blocks_high r) (i_extra_isize r) (i_xattr r).
Definition set_i_mtime (v : Z) (r : ext4_inode) : ext4_inode :=
  mk_inode (i_mode r) (i_uid r) (i_size_lo r) (i_atime r) (i_ctime r) v (i_dtime r) (i_gid r) (i_links_count r) (i_blocks_lo r) (i_flags r) (i_block r) (i_generation r) (i_file_acl_lo r) (i_size_high r) (l_i_blocks_high r) (i_extra_isize r) (i_xattr r).
Definition set_i_dtime (v : Z) (r : ext4_inode) : ext4_inode :=
  mk_inode (i_mode r) (i_uid r) (i_size_lo r) (i_atime r) (i_ctime r) (i_mtime r) v (i_gid r) (i_links_count r) (i_blocks_lo r) (i_flags r) (i_block r) (i_generation r) (i_file_acl_lo r) (i_size_high r) (l_i_blocks_high r) (i_extra_isize r) (i_xattr r).
Definition set_i_gid (v : Z) (r : ext4_inode) : ext4_inode :=
  mk_inode (i_mode r) (i_uid r) (i_size_lo r) (i_atime r) (i_ctime r) (i_mtime r) (i_dtime r) v (i_links_count r) (i_blocks_lo r) (i_flags r) (i_block r) (i_generation r) (i_file_acl_lo r) (i_size_high r) (l_i_blocks_high r) (i_extra_isize r) (i_xattr r).
Definition set_i_links_count (v : Z) (r : ext4_inode) : ext4_inode :=
  mk_inode (i_mode r) (i_uid r) (i_size_lo r) (i_atime r) (i_ctime r) (i_mtime r) (i_dtime r) (i_gid r) v (i_blocks_lo r) (i_flags r) (i_block r) (i_generation r) (i_file_acl_lo r) (i_size_high r) (l_i_blocks_high r) (i_extra_isize r) (i_xattr r).
Definition set_i_blocks_lo (v : Z) (r : ext4_inode) : ext4_inode :=
  mk_inode (i_mode r) (i_uid r) (i_size_lo r) (i_atime r) (i_ctime r) (i_mtime r) (i_dtime r) (i_gid r) (i_links_count r) v (i_flags r) (i_block r) (i_generation r) (i_file_acl_lo r) (i_size_high r) (l_i_blocks_high r) (i_extra_isize r) (i_xattr r).
Definition set_i_flags (v : Z) (r : ext4_inode) : ext4_inode :=
  mk_inode (i_mode r) (i_uid r) (i_size_lo r) (i_atime r) (i_ctime r) (i_mtime r) (i_dtime r) (i_gid r) (i_links_count r) (i_blocks_lo r) v (i_block r) (i_generation r) (i_file_acl_lo r) (i_size_high r) (l_i_blocks_high r) (i_extra_isize r) (i_xattr r).
Definition set_i_block (v : list Z) (r : ext4_inode) : ext4_inode :=
  mk_inode (i_mode r) (i_uid r) (i_size_lo r) (i_atime r) (i_ctime r) (i_mtime r) (i_dtime r) (i_gid r) (i_links_count r) (i_blocks_lo r) (i_flags r) v (i_generation r) (i_file_acl_lo r) (i_size_high r) (l_i_blocks_high r) (i_extra_isize r) (i_xattr r).
Definition set_i_generation (v : Z) (r : ext4_inode) : ext4_inode :=
  mk_inode (i_mode r) (i_uid r) (i_size_lo r) (i_atime r) (i_ctime r) (i_mtime r) (i_dtime r) (i_gid r) (i_links_count r) (i_blocks_lo r) (i_flags r) (i_block r) v (i_file_acl_lo r) (i_size_high r) (l_i_blocks_high r) (i_extra_isize r) (i_xattr r).
Definition set_i_file_acl_lo (v : Z) (r : ext4_inode) : ext4_inode :=
  mk_inode (i_mode r) (i_uid r) (i_size_lo r) (i_atime r) (i_ctime r) (i_mtime r) (i_dtime r) (i_gid r) (i_links_count r) (i_blocks_lo r) (i_flags r) (i_block r) (i_generation r) v (i_size_high r) (l_i_blocks_high r) (i_extra_isize r) (i_xattr r).
Definition set_i_size_high (v : Z) (r : ext4_inode) : ext4_inode :=
  mk_inode (i_mode r) (i_uid r) (i_size_lo r) (i_atime r) (i_ctime r) (i_mtime r) (i_dtime r) (i_gid r) (i_links_count r) (i_blocks_lo r) (i_flags r) (i_block r) (i_generation r) (i_file_acl_lo r) v (l_i_blocks_high r) (i_extra_isize r) (i_xattr r).
Definition set_l_i_blocks_high (v : Z) (r : ext4_inode) : ext4_inode :=
  mk_inode (i_mode r) (i_uid r) (i_size_lo r) (i_atime r) (i_ctime r) (i_mtime r) (i_dtime r) (i_gid r) (i_links_count r) (i_blocks_lo r) (i_flags r) (i_block r) (i_generation r) (i_file_acl_lo r) (i_size_high r) v (i_extra_isize r) (i_xattr r).
Definition set_i_extra_isize (v : Z) (r : ext4_inode) : ext4_inode :=
  mk_inode (i_mode r) (i_uid r) (i_size_lo r) (i_atime r) (i_ctime r) (i_mtime r) (i_dtime r) (i_gid r) (i_links_count r) (i_blocks_lo r) (i_flags r) (i_block r) (i_generation r) (i_file_acl_lo r) (i_size_high r) (l_i_blocks_high r) v (i_xattr r).
Definition set_i_xattr (v : list Z) (r : ext4_inode) : ext4_inode :=
  mk_inode (i_mode r) (i_uid r) (i_size_lo r) (i_atime r) (i_ctime r) (i_mtime r) (i_dtime r) (i_gid r) (i_links_count r) (i_blocks_lo r) (i_flags r) (i_block r) (i_generation r) (i_file_acl_lo r) (i_size_high r) (l_i_blocks_high r) (i_extra_isize r) v.

(** [sizeof(inode->i_block)], fifteen 32-bit words. *)
Definition sizeof_i_block : nat := 60.
(** [sizeof(struct ext4_inode)] and [EXT4_GOOD_OLD_INODE_SIZE]. *)
Definition sizeof_inode : Z := 156.
Definition EXT4_GOOD_OLD_INODE_SIZE : Z := 128.

(** The inode of a [calloc]ed table. *)
Definition zero_inode (inode_size : Z) : ext4_inode :=
  mk_inode 0 0 0 0 0 0 0 0 0 0 0 (replicate sizeof_i_block 0) 0 0 0 0 0
    (replicate (Z.to_nat (inode_size - sizeof_inode)) 0).
