(* ===== verification/BlockGroup.v ===== *)
(** * Block groups (allocate.c)

    [struct block_group_info] with the operations on one group: reserving and
    freeing blocks, and [init_bg]. The group's blocks are allocated in order:
    [group_ok] says that the free blocks of a group are the interval that
    starts at [first_free_block] and has [free_blocks] blocks. *)

From S2P Require Import Prelude Ext4Info Inode Bitmap.

(** ** Data *)

Definition EXT4_BG_INODE_UNINIT : Z := 0x0001.
Definition EXT4_ALLOCATE_FAILED : Z := u32 (Z.lnot 0).

(** The two bitmaps of a group are one [calloc] of two blocks in the code; here
    they are two arrays of a block each, an access past the first is an error. *)
Record block_group_info := mk_bg {
  first_block : Z;
  header_blocks : Z;
  data_blocks_used : Z;
  has_superblock : bool;
  block_bitmap : list Z;
  inode_bitmap : list Z;
  inode_table : option (list ext4_inode);
  free_blocks_count : Z;
  first_free_block : Z;
  free_inodes_count : Z;
  first_free_inode : Z;
  bg_flags : Z;
  used_dirs : Z
}.

Definition set_first_block (v : Z) (r : block_group_info) : block_group_info :=
  mk_bg v (header_blocks r) (data_blocks_used r) (has_superblock r) (block_bitmap r) (inode_bitmap r) (inode_table r) (free_blocks_count r) (first_free_block r) (free_inodes_count r) (first_free_inode r) (bg_flags r) (used_dirs r).
Definition set_header_blocks (v : Z) (r : block_group_info) : block_group_info :=
  mk_bg (first_block r) v (data_blocks_used r) (has_superblock r) (block_bitmap r) (inode_bitmap r) (inode_table r) (free_blocks_count r) (first_free_block r) (free_inodes_count r) (first_free_inode r) (bg_flags r) (used_dirs r).
Definition set_data_blocks_used (v : Z) (r : block_group_info) : block_group_info :=
  mk_bg (first_block r) (header_blocks r) v (has_superblock r) (block_bitmap r) (inode_bitmap r) (inode_table r) (free_blocks_count r) (first_free_block r) (free_inodes_count r) (first_free_inode r) (bg_flags r) (used_dirs r).
Definition set_has_superblock (v : bool) (r : block_group_info) : block_group_info :=
  mk_bg (first_block r) (header_blocks r) (data_blocks_used r) v (block_bitmap r) (inode_bitmap r) (inode_table r) (free_blocks_count r) (first_free_block r) (free_inodes_count r) (first_free_inode r) (bg_flags r) (used_dirs r).
Definition set_block_bitmap (v : list Z) (r : block_group_info) : block_group_info :=
  mk_bg (first_block r) (header_blocks r) (data_blocks_used r) (has_superblock r) v (inode_bitmap r) (inode_table r) (free_blocks_count r) (first_free_block r) (free_inodes_count r) (first_free_inode r) (bg_flags r) (used_dirs r).
Definition set_inode_bitmap (v : list Z) (r : block_group_info) : block_group_info :=
  mk_bg (first_block r) (header_blocks r) (data_blocks_used r) (has_superblock r) (block_bitmap r) v (inode_table r) (free_blocks_count r) (first_free_block r) (free_inodes_count r) (first_free_inode r) (bg_flags r) (used_dirs r).
Definition set_inode_table (v : option (list ext4_inode)) (r : block_group_info) : block_group_info :=
  mk_bg (first_block r) (header_blocks r) (data_blocks_used r) (has_superblock r) (block_bitmap r) (inode_bitmap r) v (free_blocks_count r) (first_free_block r) (free_inodes_count r) (first_free_inode r) (bg_flags r) (used_dirs r).
Definition set_free_blocks_count (v : Z) (r : block_group_info) : block_group_info :=
  mk_bg (first_block r) (header_blocks r) (data_blocks_used r) (has_superblock r) (block_bitmap r) (inode_bitmap r) (inode_table r) v (first_free_block r) (free_inodes_count r) (first_free_inode r) (bg_flags r) (used_dirs r).
Definition set_first_free_block (v : Z) (r : block_group_info) : block_group_info :=
  mk_bg (first_block r) (header_blocks r) (data_blocks_used r) (has_superblock r) (block_bitmap r) (inode_bitmap r) (inode_table r) (free_blocks_count r) v (free_inodes_count r) (first_free_inode r) (bg_flags r) (used_dirs r).
Definition set_free_inodes_count (v : Z) (r : block_group_info) : block_group_info :=
  mk_bg (first_block r) (header_blocks r) (data_blocks_used r) (has_superblock r) (block_bitmap r) (inode_bitmap r) (inode_table r) (free_blocks_count r) (first_free_block r) v (first_free_inode r) (bg_flags r) (used_dirs r).
Definition set_first_free_inode (v : Z) (r : block_group_info) : block_group_info :=
  mk_bg (first_block r) (header_blocks r) (data_blocks_used r) (has_superblock r) (block_bitmap r) (inode_bitmap r) (inode_table r) (free_blocks_count r) (first_free_block r) (free_inodes_count r) v (bg_flags r) (used_dirs r).
Definition set_bg_flags (v : Z) (r : block_group_info) : block_group_info :=
  mk_bg (first_block r) (header_blocks r) (data_blocks_used r) (has_superblock r) (block_bitmap r) (inode_bitmap r) (inode_table r) (free_blocks_count r) (first_free_block r) (free_inodes_count r) (first_free_inode r) v (used_dirs r).
Definition set_used_dirs (v : Z) (r : block_group_info) : block_group_info :=
  mk_bg (first_block r) (header_blocks r) (data_blocks_used r) (has_superblock r) (block_bitmap r) (inode_bitmap r) (inode_table r) (free_blocks_count r) (first_free_block r) (free_inodes_count r) (first_free_inode r) (bg_flags r) v.

Section group.
Context (force : bool).

(** ** [static int reserve_blocks(struct block_group_info *bg, u32 start, u32 num)] *)

(** The body shared by the first and third loops: one bit at [block], then
    [i++, block++]. The result is [None] when the function returned [-1]. *)
Fixpoint reserve_bits (fuel : nat) (cond : Z -> Z -> bool) (i block : Z)
  : M block_group_info (option (Z * Z)) :=
  match fuel with
  | O => fun _ => NoFuel
  | S f =>
      if cond i block then
        do bg <- get;
        do (r, bm) <- deref (bitmap_set_bit (block_bitmap bg) block);
        put (set_block_bitmap bm bg);;;
        if r =? 0 then reserve_bits f cond (u32 (i + 1)) (u32 (block + 1))
        else error force;;; mret' None
      else mret' (Some (i, block))
  end.

(** The second loop: a whole byte while eight of the [num & ~7] are left. *)
Fixpoint reserve_bytes (fuel : nat) (num i block : Z)
  : M block_group_info (option (Z * Z)) :=
  match fuel with
  | O => fun _ => NoFuel
  | S f =>
      if u32 (i + 8) <=? Z.land num (u32 (Z.lnot 7)) then
        do bg <- get;
        do (r, bm) <- deref (bitmap_set_8_bits (block_bitmap bg) block);
        put (set_block_bitmap bm bg);;;
        if r =? 0 then reserve_bytes f num (u32 (i + 8)) (u32 (block + 8))
        else error force;;; mret' None
      else mret' (Some (i, block))
  end.

Definition reserve_blocks (start num : Z) : M block_group_info Z :=
  do bg <- get;
  if free_blocks_count bg <? num then mret' (-1)
  else
    let fuel := S (Z.to_nat num) in
    do r1 <- reserve_bits fuel (fun i b => (i <? num) && negb (b mod 8 =? 0)) 0 start;
    match r1 with
    | None => mret' (-1)
    | Some (i, block) =>
        do r2 <- reserve_bytes fuel num i block;
        match r2 with
        | None => mret' (-1)
        | Some (i, block) =>
            do r3 <- reserve_bits fuel (fun i _ => i <? num) i block;
            match r3 with
            | None => mret' (-1)
            | Some _ =>
                modify (fun bg =>
                  let bg := set_free_blocks_count (u32 (free_blocks_count bg - num)) bg in
                  if start =? first_free_block bg
                  then set_first_free_block (u32 (start + num)) bg else bg);;;
                mret' 0
            end
        end
    end.

(** ** [static void free_blocks(struct block_group_info *bg, u32 num_blocks)] *)

Fixpoint free_bits (n : nat) (block : Z) : M block_group_info unit :=
  match n with
  | O => mret' tt
  | S n =>
      do bg <- get;
      do bm <- deref (bitmap_clear_bit (block_bitmap bg) block);
      put (set_block_bitmap bm bg);;;
      free_bits n (u32 (block - 1))
  end.

Definition free_blocks (num_blocks : Z) : M block_group_info unit :=
  do bg <- get;
  free_bits (Z.to_nat num_blocks) (u32 (first_free_block bg - 1));;;
  modify (fun bg =>
    set_first_free_block (u32 (first_free_block bg - num_blocks))
      (set_free_blocks_count (u32 (free_blocks_count bg + num_blocks)) bg)).

(** ** [static void init_bg(struct block_group_info *bg, unsigned int i)] *)

Context (info : fs_info) (aux : fs_aux_info).

Definition bg_header_blocks (i : Z) : Z :=
  2 + inode_table_blocks aux + super_blocks info (bg_desc_blocks aux) i.

(** The members [init_bg] sets before it reserves blocks. *)
Definition fresh_bg (i : Z) : block_group_info :=
  mk_bg (u32 (first_data_block aux + u32 (i * blocks_per_group info)))
    (s32 (bg_header_blocks i)) 0 (ext4_bg_has_super_block info i)
    (replicate (Z.to_nat (block_size info)) 0) (replicate (Z.to_nat (block_size info)) 0)
    None (blocks_per_group info) 0 (inodes_per_group info) 1 EXT4_BG_INODE_UNINIT 0.

(** The first block the group has past the end of the file system, counted from
    the end: an unsigned difference, so a group that ends before it gives a
    number close to 2^32. *)
Definition bg_overrun (bg : block_group_info) : Z :=
  u32 (first_block bg + blocks_per_group info - len_blocks aux).

(** [init_bg] runs on a [calloc]ed group; the state it gets is overwritten. The
    call that queues the bitmaps is in the caller's state (see Alloc). *)
Definition init_bg (i : Z) : M block_group_info unit :=
  put (fresh_bg i);;;
  do bg <- get;
  do r <- reserve_blocks (first_free_block bg) (u32 (header_blocks bg));
  (if r <? 0 then error force else mret' tt);;;
  do bg <- get;
  let overrun := bg_overrun bg in
  if 0 <? overrun then
    reserve_blocks (u32 (blocks_per_group info - overrun)) overrun;;; mret' tt
  else mret' tt.

End group.

#[global] Arguments bg_header_blocks : simpl never.
#[global] Arguments bg_overrun : simpl never.
#[global] Arguments reserve_blocks : simpl never.
#[global] Arguments free_blocks : simpl never.
#[global] Arguments init_bg : simpl never.

(** ** The loops of [reserve_blocks] *)

(** A failed loop has set some bits and either returned or jumped. *)
Definition reserve_failed {A} (force : bool) (bg : block_group_info) (r : A)
    (o : outcome block_group_info A) : Prop :=
  exists bm', o = if force then Done r (set_block_bitmap bm' bg)
                  else Longjmp (set_block_bitmap bm' bg).

Lemma set_block_bitmap_twice v w bg :
  set_block_bitmap v (set_block_bitmap w bg) = set_block_bitmap v bg.
Proof. done. Qed.

Lemma set_block_bitmap_id bg : set_block_bitmap (block_bitmap bg) bg = bg.
Proof. by destruct bg. Qed.

Definition bits_of (bg : block_group_info) : Z := 8 * Z.of_nat (length (block_bitmap bg)).

Lemma reserve_bits_cases force cond num fuel i block bg :
  (forall i b, cond i b = true -> i < num) ->
  0 <= i -> i <= num -> num < 2 ^ 31 -> num - i < Z.of_nat fuel ->
  0 <= block -> block + (num - i) <= bits_of bg -> bits_of bg <= 2 ^ 31 ->
  (exists i' bm',
     reserve_bits force fuel cond i block bg =
       Done (Some (i', block + (i' - i))) (set_block_bitmap bm' bg) /\
     i <= i' <= num /\ cond i' (block + (i' - i)) = false /\
     range_clear (block_bitmap bg) block (block + (i' - i)) /\
     marked (block_bitmap bg) block (block + (i' - i)) bm') \/
  (exists j, block <= j < block + (num - i) /\ bit (block_bitmap bg) j = true) /\
   reserve_failed force bg None (reserve_bits force fuel cond i block bg).
Proof.
  intros Hcond. revert i block bg.
  induction fuel as [|f IH]; intros i block bg Hi Hin Hnum Hf Hb Hend Hlen; [lia|].
  cbn [reserve_bits]. destruct (cond i block) eqn:Hc.
  2: { left. exists i, (block_bitmap bg). replace (block + (i - i)) with block by lia.
       rewrite set_block_bitmap_id. split_and!; [done|lia|lia|done| |by apply marked_refl].
       intros j ?. lia. }
  apply Hcond in Hc as Hlt. unfold bits_of in *.
  destruct (bit (block_bitmap bg) block) eqn:Hbit.
  { right. split; [exists block; split; [lia|done]|].
    rewrite (mbind_done _ _ _ bg bg) by done.
    rewrite bitmap_set_bit_set by done. exists (block_bitmap bg).
    by destruct force. }
  destruct (set_bit_marked (block_bitmap bg) block) as (bm' & E & Hm); [lia|done|].
  pose proof (marked_length _ _ _ _ Hm) as Hl.
  cbv [mbind' get put deref mret']. rewrite E. cbn [Z.eqb].
  rewrite !u32_small by lia.
  destruct (IH (i + 1) (block + 1) (set_block_bitmap bm' bg)) as
    [(i' & bm'' & Eq & Hi' & Hc' & Hclr & Hm')|[(j & Hj & Hbj) (bm'' & Eq)]];
    cbn [block_bitmap set_block_bitmap]; rewrite ?Hl; try lia; rewrite Eq.
  - left. exists i', bm''. rewrite set_block_bitmap_twice.
    replace (block + 1 + (i' - (i + 1))) with (block + (i' - i)) in * by lia.
    split_and!; [done|lia|lia|done| |].
    + intros j Hj. destruct (decide (j = block)) as [->|]; [done|].
      specialize (Hclr j ltac:(lia)). cbn in Hclr.
      rewrite (marked_bit _ _ _ _ Hm) in Hclr. by apply orb_false_iff in Hclr as [].
    + eapply marked_trans; [|done|done]. lia.
  - right. split; [|by exists bm'']. exists j. split; [lia|]. cbn in Hbj.
    rewrite (marked_bit _ _ _ _ Hm), bool_decide_false in Hbj by lia. done.
Qed.

Lemma reserve_bytes_cases force num fuel i block bg :
  bytes_ok (block_bitmap bg) ->
  0 <= i -> i <= num -> num < 2 ^ 31 -> num - i < Z.of_nat fuel ->
  i = num \/ block mod 8 = 0 ->
  0 <= block -> block + (num - i) <= bits_of bg -> bits_of bg <= 2 ^ 31 ->
  (exists i' bm',
     reserve_bytes force fuel num i block bg =
       Done (Some (i', block + (i' - i))) (set_block_bitmap bm' bg) /\
     i <= i' <= num /\
     range_clear (block_bitmap bg) block (block + (i' - i)) /\
     marked (block_bitmap bg) block (block + (i' - i)) bm') \/
  (exists j, block <= j < block + (num - i) /\ bit (block_bitmap bg) j = true) /\
   reserve_failed force bg None (reserve_bytes force fuel num i block bg).
Proof.
  intros Hok. revert i block bg Hok.
  induction fuel as [|f IH]; intros i block bg Hok Hi Hin Hnum Hf Hal Hb Hend Hlen; [lia|].
  cbn [reserve_bytes]. unfold bits_of in *.
  rewrite (u32_small (i + 8)), land_round_down by lia.
  destruct (Z.leb_spec (i + 8) (8 * (num / 8))) as [Hle|Hgt].
  2: { left. exists i, (block_bitmap bg). replace (block + (i - i)) with block by lia.
       rewrite set_block_bitmap_id. split_and!; [done|lia|lia| |by apply marked_refl].
       intros j ?. lia. }
  assert (i + 8 <= num) by dlia.
  destruct (set_8_bits_marked (block_bitmap bg) block)
    as [[Hc (bm' & E & Hm)]|[(j & Hj & Hbj) (r & bm' & E & Hr)]]; [done|lia|lia| |].
  2: { right. split; [exists j; split; [lia|done]|].
       cbv [mbind' get put deref mret']. rewrite E.
       apply Z.eqb_neq in Hr. rewrite Hr. exists bm'. by destruct force. }
  pose proof (marked_length _ _ _ _ Hm) as Hl.
  cbv [mbind' get put deref mret']. rewrite E. cbn [Z.eqb].
  rewrite (u32_small (block + 8)) by lia.
  destruct (IH (i + 8) (block + 8) (set_block_bitmap bm' bg)) as
    [(i' & bm'' & Eq & Hi' & Hclr & Hm')|[(j & Hj & Hbj) (bm'' & Eq)]];
    cbn [block_bitmap set_block_bitmap]; rewrite ?Hl; try lia;
    [by eapply marked_ok|right; dlia|rewrite Eq..].
  - left. exists i', bm''. rewrite set_block_bitmap_twice.
    replace (block + 8 + (i' - (i + 8))) with (block + (i' - i)) in * by lia.
    split_and!; [done|lia|lia| |].
    + intros j Hj. destruct (decide (j < block + 8)); [apply Hc; lia|].
      specialize (Hclr j ltac:(lia)). cbn in Hclr.
      rewrite (marked_bit _ _ _ _ Hm) in Hclr. by apply orb_false_iff in Hclr as [].
    + eapply marked_trans; [|done|done]. lia.
  - right. split; [|by exists bm'']. exists j. split; [lia|]. cbn in Hbj.
    rewrite (marked_bit _ _ _ _ Hm), bool_decide_false in Hbj by lia. done.
Qed.

(** ** [reserve_blocks] *)

(** The group after [num] blocks from [start] were reserved. *)
Definition reserved_bg (start num : Z) (bm : list Z) (bg : block_group_info)
  : block_group_info :=
  let bg' := set_free_blocks_count (u32 (free_blocks_count bg - num)) (set_block_bitmap bm bg) in
  if start =? first_free_block bg then set_first_free_block (u32 (start + num)) bg' else bg'.

Lemma reserve_blocks_cases force start num bg :
  bytes_ok (block_bitmap bg) -> 0 <= num <= free_blocks_count bg ->
  0 <= start -> start + num <= bits_of bg -> bits_of bg < 2 ^ 31 ->
  (range_clear (block_bitmap bg) start (start + num) /\
   exists bm', reserve_blocks force start num bg = Done 0 (reserved_bg start num bm' bg) /\
     marked (block_bitmap bg) start (start + num) bm') \/
  (exists j, start <= j < start + num /\ bit (block_bitmap bg) j = true) /\
   reserve_failed force bg (-1) (reserve_blocks force start num bg).
Proof.
  intros Hok Hnum Hs Hend Hlen. unfold reserve_blocks.
  rewrite (mbind_done _ _ _ bg bg) by done.
  rewrite (proj2 (Z.ltb_ge _ _)) by lia.
  destruct (reserve_bits_cases force
      (fun i b => (i <? num) && negb (b mod 8 =? 0)) num (S (Z.to_nat num)) 0 start bg)
    as [(i1 & bm1 & E1 & H1 & C1 & R1 & M1)|[(j & Hj & B) (bm1 & E1)]]; try lia.
  2: { right. split; [exists j; split; [lia|done]|]. unfold mbind'. rewrite E1.
       exists bm1. by destruct force. }
  rewrite (mbind_done _ _ _ _ _ E1). clear E1.
  rewrite Z.sub_0_r in *. pose proof (marked_length _ _ _ _ M1) as L1.
  assert (Hal : i1 = num \/ (start + i1) mod 8 = 0).
  { apply andb_false_iff in C1 as [?%Z.ltb_ge|C%negb_false_iff]; [lia|].
    right. by apply Z.eqb_eq. }
  destruct (reserve_bytes_cases force num (S (Z.to_nat num)) i1 (start + i1)
      (set_block_bitmap bm1 bg))
    as [(i2 & bm2 & E2 & H2 & R2 & M2)|[(j & Hj & B) (bm2 & E2)]];
    unfold bits_of in *; cbn [block_bitmap set_block_bitmap] in *; rewrite ?L1;
    try lia; [by eapply marked_ok| |].
  2: { right. split.
       - exists j. split; [lia|]. by rewrite (marked_bit _ _ _ _ M1), bool_decide_false in B by lia.
       - unfold mbind'. rewrite E2. exists bm2. by destruct force. }
  rewrite (mbind_done _ _ _ _ _ E2). clear E2. rewrite set_block_bitmap_twice.
  pose proof (marked_length _ _ _ _ M2) as L2.
  replace (start + i1 + (i2 - i1)) with (start + i2) in * by lia.
  assert (M12 : marked (block_bitmap bg) start (start + i2) bm2)
    by (eapply marked_trans; [|done|done]; lia).
  destruct (reserve_bits_cases force (fun i _ => i <? num) num (S (Z.to_nat num)) i2 (start + i2)
      (set_block_bitmap bm2 bg))
    as [(i3 & bm3 & E3 & H3 & C3 & R3 & M3)|[(j & Hj & B) (bm3 & E3)]];
    unfold bits_of in *; cbn [block_bitmap set_block_bitmap] in *; rewrite ?L2, ?L1; try lia.
  2: { right. split.
       - exists j. split; [lia|]. by rewrite (marked_bit _ _ _ _ M12), bool_decide_false in B by lia.
       - unfold mbind'. rewrite E3. exists bm3. by destruct force. }
  left. rewrite (mbind_done _ _ _ _ _ E3). rewrite set_block_bitmap_twice.
  replace (start + i2 + (i3 - i2)) with (start + i3) in * by lia.
  apply Z.ltb_ge in C3. assert (i3 = num) as -> by lia.
  split.
  - apply (range_clear_app _ _ (start + i1)); [done|].
    apply (range_clear_app _ _ (start + i2)).
    + intros k Hk. specialize (R2 k Hk).
      rewrite (marked_bit _ _ _ _ M1) in R2. by apply orb_false_iff in R2 as [].
    + intros k Hk. specialize (R3 k Hk).
      rewrite (marked_bit _ _ _ _ M12) in R3. by apply orb_false_iff in R3 as [].
  - exists bm3. split; [|eapply marked_trans; [|done|done]; lia].
    unfold reserved_bg. cbv [modify mbind' mret']. cbn. by destruct (start =? _).
Qed.

(** ** The state of a group *)

Record group_ok (info : fs_info) (bg : block_group_info) : Prop := {
  go_size : 0 < blocks_per_group info <= bits_of bg;
  go_small : bits_of bg < 2 ^ 31;
  go_bytes : bytes_ok (block_bitmap bg);
  go_first : 0 <= first_free_block bg;
  go_free : 0 <= free_blocks_count bg;
  go_end : first_free_block bg + free_blocks_count bg <= blocks_per_group info;
  go_bits k : 0 <= k < blocks_per_group info ->
    bit (block_bitmap bg) k =
    negb (bool_decide (first_free_block bg <= k < first_free_block bg + free_blocks_count bg))
}.

Lemma group_ok_clear info bg :
  group_ok info bg ->
  range_clear (block_bitmap bg) (first_free_block bg)
    (first_free_block bg + free_blocks_count bg).
Proof.
  intros [? ? ? ? ? ? Hb] j Hj. rewrite Hb by lia. by rewrite bool_decide_true.
Qed.

(** The next [num] blocks of a group, taken or refused. *)
Lemma reserve_next force info bg num :
  group_ok info bg -> 0 <= num ->
  if free_blocks_count bg <? num
  then reserve_blocks force (first_free_block bg) num bg = Done (-1) bg
  else exists bm',
    reserve_blocks force (first_free_block bg) num bg =
      Done 0 (set_first_free_block (first_free_block bg + num)
               (set_free_blocks_count (free_blocks_count bg - num) (set_block_bitmap bm' bg))) /\
    marked (block_bitmap bg) (first_free_block bg) (first_free_block bg + num) bm'.
Proof.
  intros Hok Hn. destruct (Z.ltb_spec (free_blocks_count bg) num) as [Hlt|Hge].
  { unfold reserve_blocks. rewrite (mbind_done _ _ _ bg bg) by done.
    by rewrite (proj2 (Z.ltb_lt _ _)). }
  pose proof (group_ok_clear _ _ Hok) as Hc. destruct Hok as [? ? ? ? ? ? Hb].
  destruct (reserve_blocks_cases force (first_free_block bg) num bg)
    as [[_ (bm' & E & Hm)]|[(j & Hj & B) _]]; try done; try lia.
  - exists bm'. split; [|done]. rewrite E. unfold reserved_bg.
    rewrite Z.eqb_refl, !u32_small by lia. done.
  - rewrite Hc in B; [done|lia].
Qed.

Lemma group_ok_take info bg num bm' :
  group_ok info bg -> 0 <= num <= free_blocks_count bg ->
  marked (block_bitmap bg) (first_free_block bg) (first_free_block bg + num) bm' ->
  group_ok info (set_first_free_block (first_free_block bg + num)
               (set_free_blocks_count (free_blocks_count bg - num) (set_block_bitmap bm' bg))).
Proof.
  intros [? ? ? ? ? ? Hb] Hn Hm. unfold bits_of in *.
  pose proof (marked_length _ _ _ _ Hm) as L.
  split; unfold bits_of; cbn; rewrite ?L; try lia; [by eapply marked_ok|].
  intros k Hk. rewrite (marked_bit _ _ _ _ Hm), Hb by lia.
  repeat case_bool_decide; (done || lia).
Qed.

(** ** [free_blocks] *)

Lemma free_bits_spec n block bg :
  bytes_ok (block_bitmap bg) -> Z.of_nat n <= block + 1 -> block < bits_of bg ->
  bits_of bg < 2 ^ 31 ->
  exists bm', free_bits n (u32 block) bg = Done tt (set_block_bitmap bm' bg) /\
    length bm' = length (block_bitmap bg) /\ bytes_ok bm' /\
    (forall j, bit bm' j =
       negb (bool_decide (block - Z.of_nat n < j <= block)) && bit (block_bitmap bg) j).
Proof.
  revert block bg. induction n as [|n IH]; intros block bg Hok Hn Hb Hlen; unfold bits_of in *.
  - exists (block_bitmap bg). rewrite set_block_bitmap_id. split_and!; try done.
    intros j. rewrite bool_decide_false; [done|lia].
  - cbn [free_bits]. rewrite u32_small by lia.
    destruct (bitmap_clear_bit_spec (block_bitmap bg) block) as (bm & E & L & B); [lia|].
    cbv [mbind' get put deref mret']. rewrite E.
    destruct (IH (block - 1) (set_block_bitmap bm bg)) as (bm' & E' & L' & O' & B');
      unfold bits_of; cbn; rewrite ?L; try lia; [by eapply bitmap_clear_bit_ok|].
    rewrite E'. exists bm'. rewrite set_block_bitmap_twice.
    split_and!; [done|by rewrite L', <-L|done|].
    intros j. rewrite B'. cbn. rewrite B, andb_assoc, <-negb_orb. do 2 f_equal.
    repeat case_bool_decide; (done || lia).
Qed.

Lemma free_blocks_spec info num bg :
  group_ok info bg -> 0 <= num <= first_free_block bg ->
  exists bm', free_blocks num bg =
      Done tt (set_first_free_block (first_free_block bg - num)
                (set_free_blocks_count (free_blocks_count bg + num) (set_block_bitmap bm' bg))) /\
    group_ok info (set_first_free_block (first_free_block bg - num)
                (set_free_blocks_count (free_blocks_count bg + num) (set_block_bitmap bm' bg))) /\
    length bm' = length (block_bitmap bg) /\
    (forall j, bit bm' j = negb (bool_decide (first_free_block bg - num <= j < first_free_block bg))
                           && bit (block_bitmap bg) j).
Proof.
  intros [? ? ? ? ? ? Hb] Hn. unfold free_blocks.
  rewrite (mbind_done _ _ _ bg bg) by done.
  destruct (free_bits_spec (Z.to_nat num) (first_free_block bg - 1) bg)
    as (bm' & E & L & O & B); [done|lia|lia|done|].
  rewrite (mbind_done _ _ _ _ _ E). unfold modify. cbn.
  exists bm'. unfold bits_of in *. rewrite !u32_small by lia. split; [done|]. split; [|split; [done|]].
  - split; unfold bits_of; cbn; rewrite ?L; try lia; [done|].
    intros k Hk. rewrite B, Hb by lia. repeat case_bool_decide; (done || lia).
  - intros j. rewrite B. do 2 f_equal. apply bool_decide_ext. lia.
Qed.

(** ** [init_bg] *)

(** What the geometry of an image must satisfy for group [i]: its first block
    is in the file system, a group is not larger than its bitmap, and what the
    file system has of the group holds the group's header. *)
Record group_fits (info : fs_info) (aux : fs_aux_info) (i : Z) : Prop := {
  gf_bpg : 0 < blocks_per_group info <= 8 * block_size info;
  gf_bs : 8 * block_size info < 2 ^ 31;
  gf_len : len_blocks aux < 2 ^ 32;
  gf_index : 0 <= i /\ 0 <= first_data_block aux;
  gf_itb : 0 <= inode_table_blocks aux;
  gf_header : bg_header_blocks info aux i <= blocks_per_group info;
  gf_tail : first_data_block aux + i * blocks_per_group info + bg_header_blocks info aux i
            <= len_blocks aux
}.

(** The blocks of group [i] that the file system has. *)
Definition group_len (info : fs_info) (aux : fs_aux_info) (i : Z) : Z :=
  Z.min (blocks_per_group info)
    (len_blocks aux - (first_data_block aux + i * blocks_per_group info)).

Lemma bg_header_nonneg info aux i : 0 <= inode_table_blocks aux -> 2 <= bg_header_blocks info aux i.
Proof.
  unfold bg_header_blocks, super_blocks. pose proof (u32_range (1 + bg_desc_blocks aux + bg_desc_reserve_blocks info)).
  destruct (ext4_bg_has_super_block info i); lia.
Qed.

Lemma group_ok_fresh info aux i :
  group_fits info aux i -> group_ok info (fresh_bg info aux i).
Proof.
  intros [? ? ? ? ? ? ?]. split; unfold bits_of; cbn; rewrite ?length_replicate; try lia.
  - apply bytes_ok_replicate.
  - intros k Hk. rewrite bit_replicate, bool_decide_true; [done|lia].
Qed.

(** Reserving the tail of a group, [init_bg]'s second call. *)
Lemma reserve_tail force info bg num :
  group_ok info bg -> 0 < num <= free_blocks_count bg ->
  first_free_block bg + free_blocks_count bg = blocks_per_group info ->
  exists bg', reserve_blocks force (u32 (blocks_per_group info - num)) num bg = Done 0 bg' /\
    group_ok info bg' /\ free_blocks_count bg' = free_blocks_count bg - num /\
    (free_blocks_count bg' = 0 \/ first_free_block bg' = first_free_block bg) /\
    exists bm f c, bg' = set_first_free_block f (set_free_blocks_count c (set_block_bitmap bm bg)).
Proof.
  intros Hok Hn Hall. pose proof (group_ok_clear _ _ Hok) as Hc.
  destruct Hok as [? ? ? ? ? ? Hb]. rewrite u32_small by lia.
  destruct (reserve_blocks_cases force (blocks_per_group info - num) num bg)
    as [[_ (bm' & E & Hm)]|[(j & Hj & B) _]]; try done; try lia.
  2: { rewrite Hc in B; [done|lia]. }
  pose proof (marked_length _ _ _ _ Hm) as L. unfold bits_of in *.
  unfold reserved_bg in E. rewrite (u32_small (free_blocks_count bg - num)) in E by lia.
  eexists. split; [exact E|].
  assert (Hbits : forall k, 0 <= k < blocks_per_group info ->
    bit bm' k = negb (bool_decide (first_free_block bg <= k
                      < first_free_block bg + (free_blocks_count bg - num)))).
  { intros k Hk. rewrite (marked_bit _ _ _ _ Hm), Hb by lia.
    repeat case_bool_decide; (done || lia). }
  destruct (Z.eqb_spec (blocks_per_group info - num) (first_free_block bg)) as [Eq|Ne]; cbn.
  - split_and!; [|done|lia|by exists bm', (u32 (blocks_per_group info - num + num)), (free_blocks_count bg - num)].
    rewrite u32_small by lia. split; unfold bits_of; cbn; rewrite ?L; try lia; [by eapply marked_ok|].
    intros k Hk. rewrite Hbits by lia. repeat case_bool_decide; (done || lia).
  - split_and!; [|done|by right|].
    + split; unfold bits_of; cbn; rewrite ?L; try lia; [by eapply marked_ok|done].
    + exists bm', (first_free_block bg), (free_blocks_count bg - num). by destruct bg.
Qed.

Lemma init_bg_spec force info aux i bg0 :
  group_fits info aux i ->
  exists bm f,
    let bg := set_first_free_block f
                (set_free_blocks_count (group_len info aux i - bg_header_blocks info aux i)
                  (set_block_bitmap bm (fresh_bg info aux i))) in
    init_bg force info aux i bg0 = Done tt bg /\ group_ok info bg /\
    (group_len info aux i = bg_header_blocks info aux i \/ f = bg_header_blocks info aux i).
Proof.
  intros Hfit. pose proof (group_ok_fresh _ _ _ Hfit) as Hok.
  pose proof (reserve_next force _ _ (u32 (header_blocks (fresh_bg info aux i))) Hok) as Hres.
  destruct Hfit as [? ? ? ? ? ? ?].
  pose proof (bg_header_nonneg info aux i ltac:(lia)).
  assert (0 <= i * blocks_per_group info) by nia.
  assert (Hh : u32 (header_blocks (fresh_bg info aux i)) = bg_header_blocks info aux i).
  { unfold fresh_bg, s32. cbn [header_blocks]. rewrite Z.mod_small by lia. rewrite u32_small; lia. }
  rewrite Hh in Hres. cbn [free_blocks_count fresh_bg] in Hres.
  rewrite (proj2 (Z.ltb_ge _ _)) in Hres by lia.
  destruct Hres as (bm & E & Hm); [lia|].
  pose proof (group_ok_take _ _ (bg_header_blocks info aux i) bm Hok ltac:(cbn; lia) Hm) as Hok1.
  unfold init_bg. rewrite (mbind_done _ _ _ tt (fresh_bg info aux i)) by done.
  rewrite (mbind_done _ _ _ (fresh_bg info aux i) (fresh_bg info aux i)) by done.
  rewrite Hh, (mbind_done _ _ _ _ _ E).
  set (bg1 := set_first_free_block _ _) in *.
  assert (Hf : first_block bg1 = first_data_block aux + i * blocks_per_group info)
    by (cbn; rewrite (u32_small (i * _)), u32_small; [done|lia..]).
  assert (Hov : bg_overrun info aux bg1 =
    u32 (first_data_block aux + i * blocks_per_group info + blocks_per_group info - len_blocks aux))
    by (unfold bg_overrun; by rewrite Hf).
  change (0 <? 0) with false. cbv beta iota zeta.
  cbv [mbind' mret' get]. rewrite Hov.
  destruct (decide (first_data_block aux + i * blocks_per_group info + blocks_per_group info
                    <= len_blocks aux)) as [Hfull|Hpart].
  - (* the whole group is in the file system *)
    exists bm, (0 + bg_header_blocks info aux i).
    replace (group_len info aux i) with (blocks_per_group info) by (unfold group_len; lia).
    split_and!; [|exact Hok1|by right].
    destruct (Z.ltb_spec 0 (u32 (first_data_block aux + i * blocks_per_group info
                + blocks_per_group info - len_blocks aux))) as [Hpos|]; [|done].
    set (d := _ - len_blocks aux) in *.
    assert (d <> 0) by (intros Hd; by rewrite Hd in Hpos).
    rewrite (u32_neg d) by (subst d; lia).
    unfold reserve_blocks. rewrite (mbind_done _ _ _ bg1 bg1) by done.
    rewrite (proj2 (Z.ltb_lt _ _)); [done|]. subst d. cbn. lia.
  - rewrite u32_small by lia. rewrite (proj2 (Z.ltb_lt _ _)) by lia.
    destruct (reserve_tail force info bg1 (first_data_block aux + i * blocks_per_group info
                + blocks_per_group info - len_blocks aux)) as (bg' & E' & Hok' & Hc & Hff & (bm' & f & c & ->));
      [done|cbn; lia|cbn; lia|].
    rewrite E'. cbn in Hc, Hff. exists bm', f. unfold bg1 in *. cbn.
    assert (Hgl : group_len info aux i - bg_header_blocks info aux i = c)
      by (unfold group_len; lia).
    rewrite Hgl. split_and!; [done|done|lia].
Qed.
