(* ===== verification/Regions.v ===== *)
(** * Allocations as linked lists of regions (allocate.c)

    [struct region] nodes live in a heap and point at each other; a
    [struct block_allocation] has a main list and a list of out-of-band blocks
    (indirect or extent blocks), each with a cursor. The operations read and
    write the heap, so that the aliasing of the lists is the code's. *)

From S2P Require Import Prelude Ext4Info Inode BlockGroup.

(** ** Data *)

Record region := mk_region {
  r_block : Z;
  r_len : Z;
  r_bg : Z;
  r_next : option nat;
  r_prev : option nat
}.

Record region_list := mk_region_list {
  l_first : option nat;
  l_last : option nat;
  l_iter : option nat;
  partial_iter : Z
}.

Record block_allocation := mk_alloc {
  a_list : region_list;
  oob_list : region_list
}.

(** The heap of [malloc]ed regions, with the next unused address. *)
Record rheap := mk_rheap { regs : gmap nat region; next_reg : nat }.

Definition set_next (v : option nat) (r : region) : region :=
  mk_region (r_block r) (r_len r) (r_bg r) v (r_prev r).
Definition set_prev (v : option nat) (r : region) : region :=
  mk_region (r_block r) (r_len r) (r_bg r) (r_next r) v.
Definition set_len (v : Z) (r : region) : region :=
  mk_region (r_block r) v (r_bg r) (r_next r) (r_prev r).

Definition set_first v (l : region_list) := mk_region_list v (l_last l) (l_iter l) (partial_iter l).
Definition set_last v (l : region_list) := mk_region_list (l_first l) v (l_iter l) (partial_iter l).
Definition set_iter v (l : region_list) := mk_region_list (l_first l) (l_last l) v (partial_iter l).
Definition set_partial v (l : region_list) := mk_region_list (l_first l) (l_last l) (l_iter l) v.

(** ** Heap accesses: a dangling or null pointer is undefined *)

Definition malloc_region (r : region) : M rheap nat := fun h =>
  Done (next_reg h) (mk_rheap (<[next_reg h := r]> (regs h)) (S (next_reg h))).
Definition read_region (p : option nat) : M rheap region := fun h =>
  match p with
  | None => Stuck
  | Some i => match regs h !! i with None => Stuck | Some r => Done r h end
  end.
Definition write_region (p : option nat) (f : region -> region) : M rheap unit := fun h =>
  match p with
  | None => Stuck
  | Some i => match regs h !! i with
              | None => Stuck
              | Some r => Done tt (mk_rheap (<[i := f r]> (regs h)) (next_reg h))
              end
  end.
Definition free_region (p : option nat) : M rheap unit := fun h =>
  match p with
  | None => Done tt h
  | Some i => match regs h !! i with
              | None => Stuck
              | Some _ => Done tt (mk_rheap (delete i (regs h)) (next_reg h))
              end
  end.

#[global] Arguments read_region : simpl never.
#[global] Arguments write_region : simpl never.
#[global] Arguments malloc_region : simpl never.
#[global] Arguments free_region : simpl never.

(** Turns enough for a loop along a list of the heap. *)
Definition list_fuel (h : rheap) : nat := S (S (size (regs h))).

(** ** List surgery *)

Definition create_allocation : block_allocation :=
  mk_alloc (mk_region_list None None None 0) (mk_region_list None None None 0).

(** [static void region_list_remove(struct region_list *list, struct region *reg)] *)
Definition region_list_remove (l : region_list) (reg : option nat) : M rheap region_list :=
  do r <- read_region reg;
  (match r_prev r with None => mret' tt | p => write_region p (set_next (r_next r)) end);;;
  (match r_next r with None => mret' tt | n => write_region n (set_prev (r_prev r)) end);;;
  let l := if decide (l_first l = reg) then set_first (r_next r) l else l in
  let l := if decide (l_last l = reg) then set_last (r_prev r) l else l in
  write_region reg (set_next None);;;
  write_region reg (set_prev None);;;
  mret' l.

(** [static void region_list_append(struct region_list *list, struct region *reg)] *)
Definition region_list_append (l : region_list) (reg : option nat) : M rheap region_list :=
  do l' <- match l_first l with
           | None =>
               write_region reg (set_prev None);;;
               mret' (mk_region_list reg reg reg 0)
           | Some _ =>
               write_region (l_last l) (set_next reg);;;
               write_region reg (set_prev (l_last l));;;
               mret' (set_last reg l)
           end;
  write_region reg (set_next None);;;
  mret' l'.

(** [void append_region(alloc, u32 block, u32 len, int bg_num)]; [prev] is set by
    the append. *)
Definition append_region (alloc : block_allocation) (block len bg_num : Z)
  : M rheap block_allocation :=
  do reg <- malloc_region (mk_region block len bg_num None None);
  do l <- region_list_append (a_list alloc) (Some reg);
  mret' (mk_alloc l (oob_list alloc)).

(** ** Reading an allocation *)

Fixpoint num_regions_loop (fuel : nat) (reg : option nat) (i : Z) : M rheap Z :=
  match fuel with
  | O => fun _ => NoFuel
  | S f => match reg with
           | None => mret' (s32 i)
           | _ => do r <- read_region reg; num_regions_loop f (r_next r) (u32 (i + 1))
           end
  end.
Definition block_allocation_num_regions (alloc : block_allocation) : M rheap Z := fun h =>
  num_regions_loop (list_fuel h) (l_first (a_list alloc)) 0 h.

Fixpoint alloc_len_loop (fuel : nat) (reg : option nat) (i : Z) : M rheap Z :=
  match fuel with
  | O => fun _ => NoFuel
  | S f => match reg with
           | None => mret' (s32 i)
           | _ => do r <- read_region reg; alloc_len_loop f (r_next r) (u32 (i + r_len r))
           end
  end.
Definition block_allocation_len (alloc : block_allocation) : M rheap Z := fun h =>
  alloc_len_loop (list_fuel h) (l_first (a_list alloc)) 0 h.

(** The loop of [get_block] and [get_oob_block]. *)
Fixpoint get_block_loop (fuel : nat) (reg : option nat) (block : Z) : M rheap Z :=
  match fuel with
  | O => fun _ => NoFuel
  | S f => match reg with
           | None => mret' EXT4_ALLOCATE_FAILED
           | _ => do r <- read_region reg;
                  if block <? r_len r then mret' (u32 (r_block r + block))
                  else get_block_loop f (r_next r) (u32 (block - r_len r))
           end
  end.
Definition get_list_block (l : region_list) (block : Z) : M rheap Z := fun h =>
  get_block_loop (list_fuel h) (l_iter l) (u32 (block + partial_iter l)) h.
Definition get_block (alloc : block_allocation) (block : Z) : M rheap Z :=
  get_list_block (a_list alloc) block.
Definition get_oob_block (alloc : block_allocation) (block : Z) : M rheap Z :=
  get_list_block (oob_list alloc) block.

(** [void get_region(alloc, u32 *block, u32 *len)]: the two results. *)
Definition get_region (alloc : block_allocation) : M rheap (Z * Z) :=
  do r <- read_region (l_iter (a_list alloc));
  mret' (r_block r, u32 (r_len r - partial_iter (a_list alloc))).

Definition get_next_region (alloc : block_allocation) : M rheap block_allocation :=
  do r <- read_region (l_iter (a_list alloc));
  mret' (mk_alloc (set_partial 0 (set_iter (r_next r) (a_list alloc))) (oob_list alloc)).

Definition last_region (alloc : block_allocation) : bool :=
  match l_iter (a_list alloc) with None => true | Some _ => false end.

Definition rewind_alloc (alloc : block_allocation) : block_allocation :=
  mk_alloc (set_partial 0 (set_iter (l_first (a_list alloc)) (a_list alloc))) (oob_list alloc).

(** ** Splitting *)

(** The [while (reg && len >= reg->len)] of [do_split_allocation]. *)
Fixpoint split_walk (fuel : nat) (reg : option nat) (len : Z) : M rheap (option nat * Z) :=
  match fuel with
  | O => fun _ => NoFuel
  | S f => match reg with
           | None => mret' (None, len)
           | _ => do r <- read_region reg;
                  if r_len r <=? len then split_walk f (r_next r) (u32 (len - r_len r))
                  else mret' (reg, len)
           end
  end.

(** [static struct region *do_split_allocation(alloc, u32 len)]: the returned
    pointer and the allocation, whose cursor may have moved. *)
Definition do_split_allocation (alloc : block_allocation) (len : Z)
  : M rheap (option nat * block_allocation) :=
  do h <- get;
  do (reg, len) <- split_walk (list_fuel h) (l_iter (a_list alloc)) len;
  match reg with
  | None => if 0 <? len then mret' (None, alloc) else mret' (reg, alloc)
  | Some _ =>
      if 0 <? len then
        do r <- read_region reg;
        do new <- malloc_region (mk_region (u32 (r_block r + len)) (u32 (r_len r - len)) (r_bg r)
                                   (r_next r) reg);
        write_region reg (set_next (Some new));;;
        write_region reg (set_len len);;;
        mret' (l_iter (a_list alloc),
               mk_alloc (set_iter (Some new) (a_list alloc)) (oob_list alloc))
      else mret' (reg, alloc)
  end.

(** [static struct region *split_allocation(alloc, u32 len)]. *)
Definition split_allocation (alloc : block_allocation) (len : Z)
  : M rheap (option nat * block_allocation) :=
  do (_, alloc) <- do_split_allocation alloc (partial_iter (a_list alloc));
  do (middle, alloc) <- do_split_allocation alloc len;
  mret' (middle, mk_alloc (set_partial 0 (a_list alloc)) (oob_list alloc)).

(** The loop of [reserve_oob_blocks]. *)
Fixpoint move_oob (fuel : nat) (alloc : block_allocation) (oob : option nat)
  : M rheap block_allocation :=
  match fuel with
  | O => fun _ => NoFuel
  | S f =>
      match oob with
      | None => mret' alloc
      | _ =>
          if decide (oob = l_iter (a_list alloc)) then mret' alloc
          else
            do r <- read_region oob;
            do l <- region_list_remove (a_list alloc) oob;
            do o <- region_list_append (oob_list alloc) oob;
            move_oob f (mk_alloc l o) (r_next r)
      end
  end.

(** [int reserve_oob_blocks(alloc, int blocks)]. *)
Definition reserve_oob_blocks (alloc : block_allocation) (blocks : Z)
  : M rheap (Z * block_allocation) :=
  do (oob, alloc) <- split_allocation alloc (u32 blocks);
  match oob with
  | None => mret' (-1, alloc)
  | _ => do h <- get;
         do alloc <- move_oob (list_fuel h) alloc oob;
         mret' (0, alloc)
  end.

(** ** Advancing the cursor *)

(** [static int advance_list_ptr(struct region_list *list, int blocks)]. The loop
    walks with a local pointer: it changes [partial_iter] and never [iter].
    [reg->len > list->partial_iter + blocks] compares as unsigned. *)
Fixpoint advance_loop (fuel : nat) (l : region_list) (reg : option nat) (blocks : Z)
  : M rheap (Z * region_list) :=
  match fuel with
  | O => fun _ => NoFuel
  | S f =>
      match reg with
      | None => mret' (if 0 <? blocks then -1 else 0, l)
      | _ =>
          if 0 <? blocks then
            do r <- read_region reg;
            if u32 (partial_iter l + blocks) <? r_len r
            then mret' (0, set_partial (u32 (partial_iter l + blocks)) l)
            else advance_loop f (set_partial 0 l) (r_next r)
                   (s32 (blocks - (r_len r - partial_iter l)))
          else mret' (0, l)
      end
  end.
Definition advance_list_ptr (l : region_list) (blocks : Z) : M rheap (Z * region_list) := fun h =>
  advance_loop (list_fuel h) l (l_iter l) blocks h.

Definition advance_blocks (alloc : block_allocation) (blocks : Z) : M rheap (Z * block_allocation) :=
  do (r, l) <- advance_list_ptr (a_list alloc) blocks;
  mret' (r, mk_alloc l (oob_list alloc)).
Definition advance_oob_blocks (alloc : block_allocation) (blocks : Z) : M rheap (Z * block_allocation) :=
  do (r, l) <- advance_list_ptr (oob_list alloc) blocks;
  mret' (r, mk_alloc (a_list alloc) l).

(** ** Freeing *)

Fixpoint free_list (fuel : nat) (reg : option nat) : M rheap unit :=
  match fuel with
  | O => fun _ => NoFuel
  | S f => match reg with
           | None => mret' tt
           | _ => do r <- read_region reg;
                  free_region reg;;;
                  free_list f (r_next r)
           end
  end.
(** [void free_alloc(struct block_allocation *alloc)]. *)
Definition free_alloc (alloc : block_allocation) : M rheap unit :=
  do h <- get;
  free_list (list_fuel h) (l_first (a_list alloc));;;
  do h <- get;
  free_list (list_fuel h) (l_first (oob_list alloc)).

(** ** Segments of a list in the heap

    [seg h p l q]: following [next] from [p] one meets the nodes [l], each an
    address with its contents, and then [q]. *)

Fixpoint seg (h : gmap nat region) (p : option nat) (l : list (nat * region)) (q : option nat) : Prop :=
  match l with
  | [] => p = q
  | (i, r) :: l => p = Some i /\ h !! i = Some r /\ seg h (r_next r) l q
  end.

(** The block numbers of a list of regions, in order. *)
Definition blocks_of (l : list region) : list Z :=
  l ≫= fun r => seqZ (r_block r) (r_len r).

Definition regions_len (l : list region) : Z := foldr (fun r n => r_len r + n) 0 l.

(** Lengths and block numbers of a region fit in 32 bits. *)
Definition region_ok (r : region) : Prop :=
  0 <= r_len r /\ 0 <= r_block r /\ r_block r + r_len r < 2 ^ 32.

Lemma seg_app h p l1 l2 q :
  seg h p (l1 ++ l2) q <-> exists m, seg h p l1 m /\ seg h m l2 q.
Proof.
  revert p. induction l1 as [|[i r] l1 IH]; intros p; cbn.
  - split; [by exists p|]. by intros (m & -> & ?).
  - setoid_rewrite IH. naive_solver.
Qed.

Lemma seg_lookup h p l q i r : seg h p l q -> (i, r) ∈ l -> h !! i = Some r.
Proof.
  revert p. induction l as [|[j s] l IH]; intros p; cbn; [by intros _ ?%not_elem_of_nil|].
  intros (-> & Hj & Hs) [[= -> ->]|Hin]%elem_of_cons; [done|by eapply IH].
Qed.

(** A segment does not see writes outside its nodes. *)
Lemma seg_frame h h' p l q :
  (forall i, i ∈ l.*1 -> h' !! i = h !! i) -> seg h p l q -> seg h' p l q.
Proof.
  revert p. induction l as [|[i r] l IH]; intros p Hf; cbn; [done|].
  intros (-> & Hi & Hs). split_and!; [done| |].
  - rewrite Hf; [done|]. cbn. apply elem_of_cons. by left.
  - apply IH; [|done]. intros j Hj. apply Hf. cbn. apply elem_of_cons. by right.
Qed.

Lemma seg_insert_ne h i r p l q :
  i ∉ l.*1 -> seg h p l q -> seg (<[i := r]> h) p l q.
Proof.
  intros Hi. apply seg_frame. intros j Hj. apply lookup_insert_ne. by intros ->.
Qed.

(** A list without repetition has at most as many nodes as the heap. *)
Lemma seg_length h p l q : NoDup l.*1 -> seg h p l q -> (length l <= size h)%nat.
Proof.
  intros Hnd Hs.
  assert (Hsub : list_to_set (l.*1) ⊆ dom h).
  { intros i. rewrite elem_of_list_to_set, list_elem_of_fmap.
    intros ([j r] & -> & Hin). apply elem_of_dom. eapply seg_lookup in Hs; [|done]. by exists r. }
  apply subseteq_size in Hsub. rewrite size_list_to_set in Hsub by done.
  by rewrite length_fmap, size_dom in Hsub.
Qed.

(** A list that ends in [NULL] has no repetition. *)
Lemma seg_det h p l1 l2 : seg h p l1 None -> seg h p l2 None -> l1 = l2.
Proof.
  revert p l2. induction l1 as [|[i r] l1 IH]; intros p [|[j s] l2]; cbn; try naive_solver.
Qed.

Lemma seg_nodup h p l : seg h p l None -> NoDup l.*1.
Proof.
  revert p. induction l as [|[i r] l IH]; intros p Hs; [constructor|].
  destruct Hs as (-> & Hi & Hs). cbn. apply NoDup_cons. split; [|by eapply IH].
  intros Hin. apply list_elem_of_fmap in Hin as ([j s] & -> & Hin).
  apply list_elem_of_split in Hin as (l1 & l2 & ->). cbn in *.
  assert (Hs2 := Hs). apply seg_app in Hs2 as (m & _ & (-> & Hj & Hs2)).
  rewrite Hi in Hj. injection Hj as <-.
  pose proof (seg_det _ _ _ _ Hs Hs2) as E. apply (f_equal length) in E.
  rewrite length_app in E. cbn in E. lia.
Qed.

Lemma seg_fuel h p l : seg (regs h) p l None -> (length l < list_fuel h)%nat.
Proof.
  intros Hs. pose proof (seg_length _ _ _ _ (seg_nodup _ _ _ Hs) Hs).
  unfold list_fuel. lia.
Qed.

Lemma read_region_some h i r : regs h !! i = Some r -> read_region (Some i) h = Done r h.
Proof. intros E. unfold read_region. by rewrite E. Qed.

Lemma regions_len_nonneg l : Forall region_ok l -> 0 <= regions_len l.
Proof. unfold regions_len. induction 1 as [|r l [? _] _ IH]; cbn; lia. Qed.

Lemma length_blocks_of l :
  Forall region_ok l -> Z.of_nat (length (blocks_of l)) = regions_len l.
Proof.
  unfold blocks_of, regions_len.
  induction 1 as [|r l Hr _ IH]; [done|]. destruct Hr as [? _]. cbn. rewrite length_app, length_seqZ. lia.
Qed.

(** ** Reading: the specifications *)

Lemma zget_app_l {A} (l1 l2 : list A) i : i < Z.of_nat (length l1) -> zget (l1 ++ l2) i = zget l1 i.
Proof.
  intros Hi. unfold zget. case_decide; [|done]. apply lookup_app_l. lia.
Qed.
Lemma zget_app_r {A} (l1 l2 : list A) i :
  Z.of_nat (length l1) <= i -> zget (l1 ++ l2) i = zget l2 (i - Z.of_nat (length l1)).
Proof.
  intros Hi. unfold zget. rewrite !decide_True by lia.
  rewrite lookup_app_r by lia. f_equal. lia.
Qed.
Lemma zget_seqZ m n i : 0 <= i < n -> zget (seqZ m n) i = Some (m + i).
Proof.
  intros Hi. unfold zget. rewrite decide_True by lia. rewrite lookup_seqZ_lt by lia.
  f_equal. lia.
Qed.

Lemma get_block_loop_spec fuel h p l block :
  seg (regs h) p l None -> Forall region_ok l.*2 -> (length l < fuel)%nat ->
  0 <= block < 2 ^ 32 ->
  get_block_loop fuel p block h =
    Done (default EXT4_ALLOCATE_FAILED (zget (blocks_of l.*2) block)) h.
Proof.
  revert p l block. induction fuel as [|f IH]; intros p l block Hs Hok Hf Hb; [lia|].
  destruct l as [|[i r] l]; cbn [seg] in Hs.
  - subst. cbn. unfold zget. by case_decide.
  - destruct Hs as (-> & Hi & Hs). cbn [fmap list_fmap snd] in Hok.
    apply Forall_cons in Hok as [Hr Hok]. destruct Hr as (? & ? & ?).
    cbn [get_block_loop]. rewrite (mbind_done _ _ _ _ _ (read_region_some _ _ _ Hi)).
    change (blocks_of ((i, r) :: l).*2) with (seqZ (r_block r) (r_len r) ++ blocks_of l.*2).
    destruct (Z.ltb_spec block (r_len r)).
    + rewrite zget_app_l by (rewrite length_seqZ; lia).
      rewrite zget_seqZ by lia. cbn. by rewrite u32_small by lia.
    + rewrite zget_app_r by (rewrite length_seqZ; lia). rewrite length_seqZ, Z2Nat.id by lia.
      rewrite u32_small by lia. apply IH; [done..|cbn in Hf; lia|lia].
Qed.

Lemma get_list_block_spec h L l block :
  seg (regs h) (l_iter L) l None -> Forall region_ok l.*2 ->
  0 <= block -> 0 <= partial_iter L -> block + partial_iter L < 2 ^ 32 ->
  get_list_block L block h =
    Done (default EXT4_ALLOCATE_FAILED (zget (blocks_of l.*2) (block + partial_iter L))) h.
Proof.
  intros Hs Hok H1 H2 H3. unfold get_list_block. rewrite u32_small by lia.
  apply get_block_loop_spec; [done..|by eapply seg_fuel|lia].
Qed.

Lemma num_regions_loop_spec fuel h p l i :
  seg (regs h) p l None -> (length l < fuel)%nat -> 0 <= i ->
  i + Z.of_nat (length l) < 2 ^ 31 ->
  num_regions_loop fuel p i h = Done (i + Z.of_nat (length l)) h.
Proof.
  revert p l i. induction fuel as [|f IH]; intros p l i Hs Hf Hi Hb; [lia|].
  destruct l as [|[j r] l]; cbn [seg] in Hs.
  - subst. cbn. unfold mret', s32. f_equal. rewrite Z.mod_small by lia. cbn. lia.
  - destruct Hs as (-> & Hj & Hs). cbn [num_regions_loop]. cbn [length] in *.
    rewrite (mbind_done _ _ _ _ _ (read_region_some _ _ _ Hj)).
    rewrite u32_small by lia. rewrite (IH _ l) by (done || lia). f_equal. lia.
Qed.

Lemma num_regions_spec h alloc l :
  seg (regs h) (l_first (a_list alloc)) l None -> Z.of_nat (length l) < 2 ^ 31 ->
  block_allocation_num_regions alloc h = Done (Z.of_nat (length l)) h.
Proof.
  intros Hs Hl. unfold block_allocation_num_regions.
  rewrite (num_regions_loop_spec _ _ _ l); [done|done|by eapply seg_fuel|lia..].
Qed.

Lemma alloc_len_loop_spec fuel h p l i :
  seg (regs h) p l None -> Forall region_ok l.*2 -> (length l < fuel)%nat -> 0 <= i ->
  i + regions_len l.*2 < 2 ^ 31 ->
  alloc_len_loop fuel p i h = Done (i + regions_len l.*2) h.
Proof.
  revert p l i. induction fuel as [|f IH]; intros p l i Hs Hok Hf Hi Hb; [lia|].
  destruct l as [|[j r] l]; cbn [seg] in Hs.
  - subst. cbn. unfold mret', s32. f_equal. cbn in Hb. rewrite Z.mod_small by lia. lia.
  - destruct Hs as (-> & Hj & Hs). cbn [alloc_len_loop]. cbn [fmap list_fmap snd] in *.
    apply Forall_cons in Hok as [Hr Hok]. destruct Hr as (? & ? & ?).
    pose proof (regions_len_nonneg _ Hok). cbn [regions_len foldr] in *.
    change (foldr (fun r n => r_len r + n) 0 l.*2) with (regions_len l.*2) in *.
    rewrite (mbind_done _ _ _ _ _ (read_region_some _ _ _ Hj)).
    cbn [length] in Hf. rewrite u32_small by lia. rewrite (IH _ l) by (done || lia).
    f_equal. lia.
Qed.

Lemma alloc_len_spec h alloc l :
  seg (regs h) (l_first (a_list alloc)) l None -> Forall region_ok l.*2 ->
  regions_len l.*2 < 2 ^ 31 ->
  block_allocation_len alloc h = Done (regions_len l.*2) h.
Proof.
  intros Hs Hok Hl. unfold block_allocation_len.
  rewrite (alloc_len_loop_spec _ _ _ l); [done|done|done|by eapply seg_fuel|lia..].
Qed.

(** ** Moving blocks out of band *)

Definition heap_ok (h : rheap) : Prop := forall i, is_Some (regs h !! i) -> (i < next_reg h)%nat.

Lemma heap_ok_fresh h : heap_ok h -> regs h !! next_reg h = None.
Proof.
  intros H. destruct (regs h !! next_reg h) eqn:E; [|done].
  specialize (H (next_reg h) ltac:(by rewrite E)). lia.
Qed.

Lemma heap_ok_insert h i r :
  heap_ok h -> (i < next_reg h)%nat -> heap_ok (mk_rheap (<[i := r]> (regs h)) (next_reg h)).
Proof.
  intros Hok Hi j. cbn. rewrite lookup_insert. case_decide; subst; [done|apply Hok].
Qed.

(** The heap of [reserve_oob_blocks] when it splits its first region: node [i]
    keeps [n] blocks and leaves the list, the new node takes the rest. *)
Definition split_heap (h : rheap) (i : nat) (r : region) (n : Z) : rheap :=
  mk_rheap
    (<[i := mk_region (r_block r) n (r_bg r) None None]>
      (<[next_reg h := mk_region (u32 (r_block r + n)) (u32 (r_len r - n)) (r_bg r) (r_next r) None]>
        (regs h)))
    (S (next_reg h)).

Lemma write_region_some h i r f :
  regs h !! i = Some r ->
  write_region (Some i) f h = Done tt (mk_rheap (<[i := f r]> (regs h)) (next_reg h)).
Proof. intros E. unfold write_region. by rewrite E. Qed.

(** One write of a symbolic run: the written node is found under the inserts. *)
Ltac write_step i :=
  erewrite (write_region_some _ i);
    [cbn [regs next_reg]
    |cbn; repeat (rewrite lookup_insert_ne by done); apply lookup_insert_eq].

Lemma split_walk_stop fuel h i r n :
  regs h !! i = Some r -> n < r_len r -> split_walk (S fuel) (Some i) n h = Done (Some i, n) h.
Proof.
  intros E Hn. cbn [split_walk]. rewrite (mbind_done _ _ _ _ _ (read_region_some _ _ _ E)).
  by rewrite (proj2 (Z.leb_gt _ _)).
Qed.

Lemma do_split_zero alloc h i r :
  l_iter (a_list alloc) = Some i -> regs h !! i = Some r -> 0 < r_len r ->
  do_split_allocation alloc 0 h = Done (Some i, alloc) h.
Proof.
  intros Hi E Hr. unfold do_split_allocation, list_fuel. rewrite (mbind_done _ _ _ h h) by done.
  rewrite Hi. by rewrite (mbind_done _ _ _ _ _ (split_walk_stop _ _ _ _ _ E Hr)).
Qed.

Lemma do_split_inside alloc h i r n :
  heap_ok h -> l_iter (a_list alloc) = Some i -> regs h !! i = Some r -> 0 < n < r_len r ->
  do_split_allocation alloc n h =
    Done (Some i, mk_alloc (set_iter (Some (next_reg h)) (a_list alloc)) (oob_list alloc))
      (mk_rheap (<[i := set_len n (set_next (Some (next_reg h)) r)]>
         (<[next_reg h := mk_region (u32 (r_block r + n)) (u32 (r_len r - n)) (r_bg r)
                            (r_next r) (Some i)]> (regs h))) (S (next_reg h))).
Proof.
  intros Hok Hi E Hn. pose proof (heap_ok_fresh _ Hok) as Hf.
  assert (Hne : next_reg h <> i) by congruence.
  unfold do_split_allocation, list_fuel. rewrite (mbind_done _ _ _ h h) by done.
  rewrite Hi, (mbind_done _ _ _ _ _ (split_walk_stop _ _ _ _ n E ltac:(lia))).
  rewrite (proj2 (Z.ltb_lt _ _)) by lia.
  rewrite (mbind_done _ _ _ _ _ (read_region_some _ _ _ E)).
  unfold malloc_region at 1. cbv [mbind']. cbn [regs next_reg].
  rewrite (write_region_some _ i r) by (cbn; by rewrite lookup_insert_ne). cbn [regs next_reg].
  rewrite (write_region_some _ i _) by (cbn; apply lookup_insert_eq). cbn [regs next_reg].
  by rewrite insert_insert_eq.
Qed.

Lemma reserve_oob_blocks_head h alloc i r n :
  heap_ok h -> oob_list alloc = mk_region_list None None None 0 ->
  l_first (a_list alloc) = Some i -> l_iter (a_list alloc) = Some i ->
  l_last (a_list alloc) = Some i -> partial_iter (a_list alloc) = 0 ->
  regs h !! i = Some r -> r_prev r = None -> 0 < n < r_len r -> r_len r < 2 ^ 32 ->
  reserve_oob_blocks alloc n h =
    Done (0, mk_alloc (mk_region_list (Some (next_reg h)) None (Some (next_reg h)) 0)
               (mk_region_list (Some i) (Some i) (Some i) 0))
      (split_heap h i r n).
Proof.
  intros Hok Hoob Hfirst Hiter Hlast Hpart E Hprev Hn Hlen.
  pose proof (heap_ok_fresh _ Hok) as Hf.
  assert (Hne : next_reg h <> i) by congruence.
  destruct alloc as [[fi la it pa] ob]. cbn in *. subst.
  unfold reserve_oob_blocks, split_allocation. rewrite u32_small by lia.
  cbv [mbind' mret' get]. cbn [partial_iter a_list].
  rewrite (do_split_zero _ h i r) by (done || lia).
  rewrite (do_split_inside _ h i r) by (done || lia).
  unfold list_fuel. cbn [move_oob a_list oob_list set_partial set_iter l_iter].
  rewrite decide_False by congruence.
  unfold region_list_remove, region_list_append. cbv [mbind' mret']. cbn [regs].
  rewrite !(read_region_some _ _ _ (lookup_insert_eq _ _ _)).
  cbn [r_prev r_next set_len set_next]. rewrite Hprev.
  write_step (next_reg h). write_step i. write_step i.
  cbn [l_first l_last l_iter set_first set_last set_partial set_iter partial_iter].
  destruct (decide (Some i = Some i)) as [_|]; [|done]. cbn.
  destruct (decide (Some i = Some i)) as [_|]; [|done].
  write_step i. write_step i. cbn. rewrite decide_True by done.
  do 2 f_equal. unfold split_heap. f_equal.
  rewrite !insert_insert_eq. rewrite (insert_insert_ne _ (next_reg h) i) by done.
  by rewrite !insert_insert_eq.
Qed.

(** ** Advancing inside the current region, and past it *)

Lemma advance_inside h L i r n :
  l_iter L = Some i -> regs h !! i = Some r -> 0 < n -> 0 <= partial_iter L ->
  partial_iter L + n < r_len r -> r_len r < 2 ^ 32 ->
  advance_list_ptr L n h = Done (0, set_partial (partial_iter L + n) L) h.
Proof.
  intros Hi E Hn Hp Hin Hlen. unfold advance_list_ptr, list_fuel. rewrite Hi.
  cbn [advance_loop]. rewrite (proj2 (Z.ltb_lt _ _)) by lia.
  rewrite (mbind_done _ _ _ _ _ (read_region_some _ _ _ E)).
  rewrite u32_small by lia. by rewrite (proj2 (Z.ltb_lt _ _)) by lia.
Qed.

(** Advancing by exactly what is left of the current region. *)
Lemma advance_to_end h L i r n :
  l_iter L = Some i -> regs h !! i = Some r -> 0 <= partial_iter L < r_len r ->
  n = r_len r - partial_iter L -> r_len r < 2 ^ 31 ->
  advance_list_ptr L n h = Done (0, set_partial 0 L) h.
Proof.
  intros Hi E Hp -> Hlen. unfold advance_list_ptr, list_fuel. rewrite Hi.
  cbn [advance_loop]. rewrite (proj2 (Z.ltb_lt _ _)) by lia.
  rewrite (mbind_done _ _ _ _ _ (read_region_some _ _ _ E)).
  replace (partial_iter L + (r_len r - partial_iter L)) with (r_len r) by lia.
  rewrite u32_small by lia. rewrite Z.ltb_irrefl.
  replace (r_len r - partial_iter L - (r_len r - partial_iter L)) with 0 by lia.
  change (s32 0) with 0. by destruct (r_next r).
Qed.
