(* ===== verification/Alloc.v ===== *)
(** * The block and inode allocator (allocate.c)

    The state is the array [aux_info.bgs], the heap of regions, the calls made
    to the sparse file library and the [calloc]ed buffers they point at. The
    parameters [info] and [aux] are the globals of the same names, which the
    allocator only reads; [force] is the global that makes [error] go on. *)

From S2P Require Import Prelude Bytes Ext4Info Inode Bitmap BlockGroup Regions.

(** ** State *)

(** What a call to libsparse points at: the library keeps the pointer, so a
    later write to a queued buffer is part of the image. *)
Inductive data_src :=
| SrcBitmaps (bg : Z)                     (* bgs[bg].bitmaps *)
| SrcInodeTable (bg : Z)                  (* bgs[bg].inode_table *)
| SrcBuf (id : nat) (off : Z)             (* a calloc'ed buffer, from an offset *)
| SrcFile (name : list Z) (off : Z).      (* sparse_file_add_file *)

Record sparse_op := mk_sparse { so_src : data_src; so_len : Z; so_block : Z }.

(** An inode pointer: a group and an index in its table. *)
Definition inode_ptr : Type := (Z * Z).

Record world := mk_world {
  w_bgs : list block_group_info;
  w_heap : rheap;
  w_sparse : list sparse_op;               (* latest call first *)
  w_bufs : list (list Z);                  (* buffer [id] is the [id]th *)
  w_xattrs : list (inode_ptr * nat)        (* aux_info.xattrs: inode, header *)
}.

Definition set_bgs v w := mk_world v (w_heap w) (w_sparse w) (w_bufs w) (w_xattrs w).
Definition set_heap v w := mk_world (w_bgs w) v (w_sparse w) (w_bufs w) (w_xattrs w).
Definition set_sparse v w := mk_world (w_bgs w) (w_heap w) v (w_bufs w) (w_xattrs w).
Definition set_bufs v w := mk_world (w_bgs w) (w_heap w) (w_sparse w) v (w_xattrs w).
Definition set_xattrs v w := mk_world (w_bgs w) (w_heap w) (w_sparse w) (w_bufs w) v.

Definition with_heap {A} (m : M rheap A) : M world A :=
  zoom (fun w => Some (w_heap w)) set_heap m.
Definition with_bg {A} (i : Z) (m : M block_group_info A) : M world A :=
  zoom (fun w => zget (w_bgs w) i)
    (fun bg w => set_bgs (<[Z.to_nat i := bg]> (w_bgs w)) w) m.

Definition sparse_file_add_data (src : data_src) (len block : Z) : M world unit :=
  modify (fun w => set_sparse (mk_sparse src len block :: w_sparse w) w).

(** [calloc(size, 1)]: the new buffer. *)
Definition calloc (size : Z) : M world nat := fun w =>
  Done (length (w_bufs w)) (set_bufs (w_bufs w ++ [replicate (Z.to_nat size) 0]) w).
Definition with_buf {A} (id : nat) (m : M (list Z) A) : M world A :=
  zoom (fun w => w_bufs w !! id) (fun b w => set_bufs (<[id := b]> (w_bufs w)) w) m.
Definition store_buf (id : nat) (n : nat) (off v : Z) : M world unit :=
  with_buf id (fun b => match store n b off v with Some b' => Done tt b' | None => Stuck end).
Definition copy_to_buf (id : nat) (off : Z) (bs : list Z) : M world unit :=
  with_buf id (fun b => match write_bytes b off bs with Some b' => Done tt b' | None => Stuck end).
Definition copy_from_buf (id : nat) (off n : Z) : M world (list Z) :=
  with_buf id (fun b => match read_bytes b off n with Some bs => Done bs b | None => Stuck end).
Definition load_buf (id : nat) (n : nat) (off : Z) : M world Z :=
  with_buf id (fun b => match load n b off with Some v => Done v b | None => Stuck end).

Section alloc.
Context (force : bool) (info : fs_info) (aux : fs_aux_info).

(** ** Blocks *)

(** [u32 get_free_blocks(u32 bg)]. *)
Definition get_free_blocks (bg : Z) : M world Z :=
  with_bg bg (fun g => Done (free_blocks_count g) g).

(** [void block_allocator_init()]: [calloc]ed groups, each through [init_bg],
    which queues the group's bitmaps before it reserves blocks. *)
Definition zero_bg : block_group_info := mk_bg 0 0 0 false [] [] None 0 0 0 0 0 0.

Definition init_group (i : Z) : M world unit :=
  sparse_file_add_data (SrcBitmaps i) (u32 (2 * block_size info))
    (u32 (u32 (first_data_block aux + u32 (i * blocks_per_group info))
          + super_blocks info (bg_desc_blocks aux) i));;;
  with_bg i (init_bg force info aux i).

Fixpoint init_groups (gs : list Z) : M world unit :=
  match gs with
  | [] => mret' tt
  | i :: gs => init_group i;;; init_groups gs
  end.

Definition block_allocator_init : M world unit :=
  modify (set_bgs (replicate (Z.to_nat (groups aux)) zero_bg));;;
  init_groups (seqZ 0 (groups aux)).

(** [void block_allocator_free()]. *)
Definition block_allocator_free : M world unit := modify (set_bgs []).

(** [static u32 ext4_allocate_blocks_from_block_group(u32 len, int bg_num)]. *)
Definition ext4_allocate_blocks_from_block_group (len bg_num : Z) : M world Z :=
  do free <- get_free_blocks bg_num;
  if free <? len then mret' EXT4_ALLOCATE_FAILED
  else
    do block <- with_bg bg_num (fun g => Done (first_free_block g) g);
    do r <- with_bg bg_num (reserve_blocks force block len);
    if r <? 0 then error force;;; mret' EXT4_ALLOCATE_FAILED
    else
      with_bg bg_num (modify (fun g =>
        set_data_blocks_used (s32 (data_blocks_used g + len)) g));;;
      with_bg bg_num (fun g => Done (u32 (first_block g + block)) g).

(** [static struct region *ext4_allocate_contiguous_blocks(u32 len)]; the loop
    over the groups [i]. *)
Fixpoint contiguous_loop (len : Z) (gs : list Z) : M world (option nat) :=
  match gs with
  | [] => mret' None
  | i :: gs =>
      do block <- ext4_allocate_blocks_from_block_group len i;
      if block =? EXT4_ALLOCATE_FAILED then contiguous_loop len gs
      else do reg <- with_heap (malloc_region (mk_region block len i None None));
           mret' (Some reg)
  end.
Definition ext4_allocate_contiguous_blocks (len : Z) : M world (option nat) :=
  contiguous_loop len (seqZ 0 (groups aux)).

(** [u32 allocate_block()]. *)
Fixpoint allocate_block_loop (gs : list Z) : M world Z :=
  match gs with
  | [] => mret' EXT4_ALLOCATE_FAILED
  | i :: gs =>
      do block <- ext4_allocate_blocks_from_block_group 1 i;
      if block =? EXT4_ALLOCATE_FAILED then allocate_block_loop gs else mret' block
  end.
Definition allocate_block : M world Z := allocate_block_loop (seqZ 0 (groups aux)).

(** [static struct region *ext4_allocate_partial(u32 len)]: the first group no
    data was allocated from decides. *)
Fixpoint partial_loop (len : Z) (gs : list Z) : M world (option nat) :=
  match gs with
  | [] => mret' None
  | i :: gs =>
      do used <- with_bg i (fun g => Done (data_blocks_used g) g);
      if used =? 0 then
        do bg_len <- get_free_blocks i;
        if len <=? bg_len then ext4_allocate_contiguous_blocks len
        else
          do block <- ext4_allocate_blocks_from_block_group bg_len i;
          if block =? EXT4_ALLOCATE_FAILED then error force;;; mret' None
          else do reg <- with_heap (malloc_region (mk_region block bg_len i None None));
               mret' (Some reg)
      else partial_loop len gs
  end.
Definition ext4_allocate_partial (len : Z) : M world (option nat) :=
  partial_loop len (seqZ 0 (groups aux)).

(** The body of the next loop: the new region goes behind [prev_reg]. *)
Definition link_region (prev_reg reg : option nat) : M world unit :=
  match prev_reg with
  | None => mret' tt
  | Some _ => with_heap (write_region prev_reg (set_next reg));;;
              with_heap (write_region reg (set_prev prev_reg))
  end.

(** [static struct region *ext4_allocate_multiple_contiguous_blocks(u32 len)]:
    the [while (len > 0)] loop with its [first_reg] and [prev_reg]. *)
Fixpoint multiple_loop (fuel : nat) (len : Z) (first_reg prev_reg : option nat)
  : M world (option nat) :=
  match fuel with
  | O => fun _ => NoFuel
  | S f =>
      if 0 <? len then
        do reg <- ext4_allocate_partial len;
        match reg with
        | None => mret' None
        | Some _ =>
            let first_reg := match first_reg with None => reg | _ => first_reg end in
            link_region prev_reg reg;;;
            do r <- with_heap (read_region reg);
            multiple_loop f (u32 (len - r_len r)) first_reg reg
        end
      else mret' first_reg
  end.
Definition ext4_allocate_multiple_contiguous_blocks (fuel : nat) (len : Z) : M world (option nat) :=
  multiple_loop fuel len None None.

(** [struct region *do_allocate(u32 len)]. *)
Definition do_allocate (fuel : nat) (len : Z) : M world (option nat) :=
  do reg <- ext4_allocate_contiguous_blocks len;
  match reg with
  | None => ext4_allocate_multiple_contiguous_blocks fuel len
  | Some _ => mret' reg
  end.

(** [struct block_allocation *allocate_blocks(u32 len)]: [last] is set to the
    first region, also when there are several. *)
Definition allocate_blocks (fuel : nat) (len : Z) : M world (option block_allocation) :=
  do reg <- do_allocate fuel len;
  match reg with
  | None => mret' None
  | Some _ => mret' (Some (mk_alloc (mk_region_list reg reg reg 0) (oob_list create_allocation)))
  end.

(** [int append_oob_allocation(alloc, u32 len)]: the loop reads [reg->next] after
    [region_list_append] cleared it. *)
Fixpoint append_oob_loop (fuel : nat) (o : region_list) (reg : option nat) : M world region_list :=
  match fuel with
  | O => fun _ => NoFuel
  | S f =>
      match reg with
      | None => mret' o
      | _ => do o <- with_heap (region_list_append o reg);
             do r <- with_heap (read_region reg);
             append_oob_loop f o (r_next r)
      end
  end.
Definition append_oob_allocation (fuel : nat) (alloc : block_allocation) (len : Z)
  : M world (Z * block_allocation) :=
  do reg <- do_allocate fuel len;
  match reg with
  | None => error force;;; mret' (-1, alloc)
  | _ => do w <- get;
         do o <- append_oob_loop (list_fuel (w_heap w)) (oob_list alloc) reg;
         mret' (0, mk_alloc (a_list alloc) o)
  end.

(** [void reduce_allocation(alloc, u32 len)]. *)
Fixpoint reduce_allocation (fuel : nat) (alloc : block_allocation) (len : Z)
  : M world block_allocation :=
  match fuel with
  | O => fun _ => NoFuel
  | S f =>
      if len =? 0 then mret' alloc
      else
        let last := l_last (a_list alloc) in
        do r <- with_heap (read_region last);
        if len <? r_len r then
          with_bg (r_bg r) (free_blocks len);;;
          with_heap (write_region last (set_len (r_len r - len)));;;
          reduce_allocation f alloc 0
        else
          with_bg (r_bg r) (free_blocks (r_len r));;;
          do alloc <- match r_prev r with
                      | Some _ => with_heap (write_region (r_prev r) (set_next None));;;
                                  mret' alloc
                      | None => mret' (mk_alloc (mk_region_list None None None 0) (oob_list alloc))
                      end;
          with_heap (free_region last);;;
          reduce_allocation f alloc (len - r_len r)
  end.

(** ** Inodes *)

(** [static void allocate_bg_inode_table(struct block_group_info *bg)]. *)
Definition allocate_bg_inode_table (i : Z) : M world unit :=
  do bg <- with_bg i get;
  match inode_table bg with
  | Some _ => mret' tt
  | None =>
      let block := u32 (first_block bg + 2) in
      let block := if has_superblock bg
                   then u32 (block + bg_desc_blocks aux + bg_desc_reserve_blocks info + 1)
                   else block in
      with_bg i (modify (set_inode_table
        (Some (replicate (Z.to_nat (inodes_per_group info)) (zero_inode (inode_size info))))));;;
      sparse_file_add_data (SrcInodeTable i)
        (u32 (inode_table_blocks aux * block_size info)) block;;;
      with_bg i (modify (fun bg =>
        set_bg_flags (Z.land (bg_flags bg) (Z.lnot EXT4_BG_INODE_UNINIT)) bg))
  end.

(** [struct ext4_inode *get_inode(u32 inode)]. *)
Definition get_inode (inode : Z) : M world inode_ptr :=
  let inode := u32 (inode - 1) in
  let bg := inode / inodes_per_group info in
  allocate_bg_inode_table bg;;;
  mret' (bg, inode mod inodes_per_group info).

(** Access to the inode behind a pointer. *)
Definition with_inode {A} (p : inode_ptr) (m : M ext4_inode A) : M world A :=
  with_bg p.1 (zoom (fun g => match inode_table g with None => None | Some t => zget t p.2 end)
    (fun ino g => match inode_table g with
                  | None => g
                  | Some t => set_inode_table (Some (<[Z.to_nat p.2 := ino]> t)) g
                  end) m).

(** The loop of [reserve_inodes]: [inode_bitmap[inode / 8] |= 1 << (inode % 8)]. *)
Fixpoint mark_inodes (n : nat) (inode : Z) : M block_group_info unit :=
  match n with
  | O => mret' tt
  | S n =>
      do bg <- get;
      do (_, bm) <- deref (bitmap_set_bit (inode_bitmap bg) inode);
      put (set_inode_bitmap bm bg);;;
      mark_inodes n (u32 (inode + 1))
  end.

(** [u32 reserve_inodes(int bg, u32 num)]. *)
Definition reserve_inodes_bg (num : Z) : M block_group_info Z :=
  do bg <- get;
  if free_inodes_count bg <? num then mret' EXT4_ALLOCATE_FAILED
  else
    mark_inodes (Z.to_nat num) (u32 (first_free_inode bg - 1));;;
    do bg <- get;
    let inode := first_free_inode bg in
    put (set_first_free_inode (u32 (inode + num))
           (set_free_inodes_count (u32 (free_inodes_count bg - num)) bg));;;
    mret' inode.
Definition reserve_inodes (bg num : Z) : M world Z := with_bg bg (reserve_inodes_bg num).

(** [u32 allocate_inode()]. *)
Fixpoint allocate_inode_loop (gs : list Z) : M world Z :=
  match gs with
  | [] => mret' EXT4_ALLOCATE_FAILED
  | bg :: gs =>
      do inode <- reserve_inodes bg 1;
      if inode =? EXT4_ALLOCATE_FAILED then allocate_inode_loop gs
      else mret' (u32 (bg * inodes_per_group info + inode))
  end.
Definition allocate_inode : M world Z := allocate_inode_loop (seqZ 0 (groups aux)).

Definition get_free_inodes (bg : Z) : M world Z :=
  with_bg bg (fun g => Done (free_inodes_count g) g).
(** [void add_directory(u32 inode)]. *)
Definition add_directory (inode : Z) : M world unit :=
  with_bg (u32 (inode - 1) / inodes_per_group info)
    (modify (fun g => set_used_dirs (u16 (used_dirs g + 1)) g)).
Definition get_directories (bg : Z) : M world Z := with_bg bg (fun g => Done (used_dirs g) g).
Definition get_bg_flags (bg : Z) : M world Z := with_bg bg (fun g => Done (bg_flags g) g).

(** ** Extended attribute blocks *)

Definition EXT4_XATTR_MAGIC : Z := 0xEA020000.

(** [xattr_list_find] and [xattr_list_insert]: the latest entry of an inode. *)
Fixpoint xattr_list_find (l : list (inode_ptr * nat)) (inode : inode_ptr) : option nat :=
  match l with
  | [] => None
  | (p, header) :: l => if decide (p = inode) then Some header else xattr_list_find l inode
  end.
Definition xattr_list_insert (inode : inode_ptr) (header : nat) : M world unit :=
  modify (fun w => set_xattrs ((inode, header) :: w_xattrs w) w).

(** [struct ext4_xattr_header *get_xattr_block_for_inode(inode)]; the result of
    [allocate_block] is not tested by the code. [sparse_result] is what
    libsparse answers to the call. *)
Definition get_xattr_block_for_inode (sparse_result : Z) (inode : inode_ptr)
  : M world (option nat) :=
  do w <- get;
  match xattr_list_find (w_xattrs w) inode with
  | Some block => mret' (Some block)
  | None =>
      do block_num <- allocate_block;
      do block <- calloc (block_size info);
      store_buf block 4 0 EXT4_XATTR_MAGIC;;;
      store_buf block 4 4 1;;;
      store_buf block 4 8 1;;;
      with_inode inode (modify (fun i =>
        set_i_file_acl_lo block_num
          (set_i_blocks_lo (u32 (i_blocks_lo i + block_size info / 512)) i)));;;
      sparse_file_add_data (SrcBuf block 0) (block_size info) block_num;;;
      if negb (sparse_result =? 0) then error force;;; mret' None
      else xattr_list_insert inode block;;; mret' (Some block)
  end.

End alloc.
