(* ===== verification/Buffers.v ===== *)
(** * Operations on the buffers of the world (lemmas on Alloc)

    The accesses to the [calloc]ed buffers as equations: what an access inside its
    buffer returns and the world it leaves. *)

From S2P Require Import Prelude Bytes Ext4Info Inode BlockGroup Regions Alloc.

(** ** Buffers of the world *)

Lemma with_buf_done {A} id (m : M (list Z) A) w b a b' :
  w_bufs w !! id = Some b -> m b = Done a b' ->
  with_buf id m w = Done a (set_bufs (<[id := b']> (w_bufs w)) w).
Proof. intros E Em. unfold with_buf, zoom. by rewrite E, Em. Qed.

Lemma set_bufs_id id b w : w_bufs w !! id = Some b -> set_bufs (<[id := b]> (w_bufs w)) w = w.
Proof. intros E. rewrite list_insert_id by done. by destruct w. Qed.

Lemma store_buf_done id n off v w b b' :
  w_bufs w !! id = Some b -> store n b off v = Some b' ->
  store_buf id n off v w = Done tt (set_bufs (<[id := b']> (w_bufs w)) w).
Proof. intros E Es. apply with_buf_done with (b := b); [done|]. by rewrite Es. Qed.

Lemma load_buf_done id n off v w b :
  w_bufs w !! id = Some b -> load n b off = Some v -> load_buf id n off w = Done v w.
Proof.
  intros E El. unfold load_buf. erewrite with_buf_done; [|exact E|by rewrite El].
  by rewrite (set_bufs_id _ _ _ E).
Qed.

Lemma copy_from_buf_done id off n bs w b :
  w_bufs w !! id = Some b -> read_bytes b off n = Some bs -> copy_from_buf id off n w = Done bs w.
Proof.
  intros E El. unfold copy_from_buf. erewrite with_buf_done; [|exact E|by rewrite El].
  by rewrite (set_bufs_id _ _ _ E).
Qed.

Lemma copy_to_buf_done id off bs w b b' :
  w_bufs w !! id = Some b -> write_bytes b off bs = Some b' ->
  copy_to_buf id off bs w = Done tt (set_bufs (<[id := b']> (w_bufs w)) w).
Proof. intros E Es. apply with_buf_done with (b := b); [done|]. by rewrite Es. Qed.

Definition put_buf (id : nat) (b : list Z) (w : world) : world := set_bufs (<[id := b]> (w_bufs w)) w.

Lemma put_buf_lookup id b b0 w :
  w_bufs w !! id = Some b0 -> w_bufs (put_buf id b w) !! id = Some b.
Proof. intros E. cbn. apply list_lookup_insert_eq. by eapply lookup_lt_Some. Qed.

Lemma put_buf_lookup_ne id id' b w : id <> id' -> w_bufs (put_buf id b w) !! id' = w_bufs w !! id'.
Proof. intros E. cbn. by apply list_lookup_insert_ne. Qed.

Lemma put_buf_twice id b b' w : put_buf id b' (put_buf id b w) = put_buf id b' w.
Proof. unfold put_buf. cbn. by rewrite list_insert_insert_eq. Qed.

Lemma calloc_done n w :
  calloc n w = Done (length (w_bufs w)) (set_bufs (w_bufs w ++ [replicate (Z.to_nat n) 0]) w).
Proof. done. Qed.
