(* ===== verification/AllocSpec.v ===== *)
(** * What the block allocator guarantees

    The specification of the allocator of Alloc in terms of the set of block
    numbers in use: an allocation returns blocks that were free, without
    repetition, and makes exactly these used. *)

From S2P Require Import Prelude Bytes Ext4Info Inode Bitmap BlockGroup Regions Alloc.

(** ** The abstract state: the blocks in use *)

(** Block [b] lies in some group, whose bitmap has its bit set. *)
Definition used (info : fs_info) (w : world) (b : Z) : Prop :=
  exists i bg k, zget (w_bgs w) i = Some bg /\ 0 <= k < blocks_per_group info /\
    b = first_block bg + k /\ bit (block_bitmap bg) k = true.

Record world_ok (info : fs_info) (aux : fs_aux_info) (w : world) : Prop := {
  wo_groups : Z.of_nat (length (w_bgs w)) = groups aux;
  wo_bg i bg : zget (w_bgs w) i = Some bg -> group_ok info bg /\
    first_block bg = first_data_block aux + i * blocks_per_group info;
  wo_heap : heap_ok (w_heap w)
}.

(** Block numbers of the image fit below [EXT4_ALLOCATE_FAILED]. *)
Record geometry (info : fs_info) (aux : fs_aux_info) : Prop := {
  geo_bpg : 0 < blocks_per_group info;
  geo_fdb : 0 <= first_data_block aux;
  geo_groups : 0 <= groups aux;
  geo_end : first_data_block aux + groups aux * blocks_per_group info < 2 ^ 32 - 1
}.

(** A region that one group can hold. *)
Definition region_in (info : fs_info) (r : region) : Prop :=
  region_ok r /\ 1 <= r_len r <= blocks_per_group info.

Lemma regions_in_ok info l : Forall (region_in info) l -> Forall region_ok l.
Proof. intros H. eapply Forall_impl; [exact H|]. by intros r []. Qed.

(** What the block allocator does not touch of a group. *)
Definition inode_part (bg : block_group_info) :=
  (first_block bg, header_blocks bg, has_superblock bg, inode_bitmap bg, inode_table bg,
   free_inodes_count bg, first_free_inode bg, bg_flags bg, used_dirs bg).

(** Going from [w] to [w'] allocates the blocks [bs]. *)
Record allocated (info : fs_info) (w : world) (bs : list Z) (w' : world) : Prop := {
  al_nodup : NoDup bs;
  al_free b : b ∈ bs -> ~ used info w b;
  al_used b : used info w' b <-> used info w b \/ b ∈ bs;
  al_inodes : inode_part <$> w_bgs w' = inode_part <$> w_bgs w;
  al_bufs : w_bufs w' = w_bufs w /\ w_sparse w' = w_sparse w /\ w_xattrs w' = w_xattrs w
}.

Lemma allocated_nil info w : allocated info w [] w.
Proof.
  split; [constructor| | |done|done].
  - intros b. by intros ?%not_elem_of_nil.
  - intros b. rewrite elem_of_nil. tauto.
Qed.

Lemma allocated_app info w1 bs1 w2 bs2 w3 :
  allocated info w1 bs1 w2 -> allocated info w2 bs2 w3 -> allocated info w1 (bs1 ++ bs2) w3.
Proof.
  intros [N1 F1 U1 I1 B1] [N2 F2 U2 I2 B2]. split; [| | |congruence|destruct B1 as (?&?&?), B2 as (?&?&?); split_and!; congruence].
  - apply NoDup_app. split_and!; [done| |done].
    intros b Hb1 Hb2. apply (F2 b Hb2). apply U1. by right.
  - intros b [Hb|Hb]%elem_of_app; [by apply F1|].
    intros Hu. apply (F2 b Hb). apply U1. by left.
  - intros b. rewrite U2, U1, elem_of_app. tauto.
Qed.

(** [used] sees the groups only. *)
Lemma allocated_same_bgs info w1 bs w2 w2' :
  w_bgs w2' = w_bgs w2 -> w_bufs w2' = w_bufs w2 /\ w_sparse w2' = w_sparse w2 /\ w_xattrs w2' = w_xattrs w2 ->
  allocated info w1 bs w2 -> allocated info w1 bs w2'.
Proof.
  intros E (B1 & B2 & B3) [N F U I B]. split; [done..| |by rewrite E|by rewrite B1, B2, B3].
  intros b. rewrite <-U. unfold used. by rewrite E.
Qed.

Lemma world_ok_heap info aux w h : world_ok info aux w -> heap_ok h -> world_ok info aux (set_heap h w).
Proof. intros [? ? ?] ?. by split. Qed.

Lemma used_in_group info aux w i bg k :
  geometry info aux -> world_ok info aux w -> zget (w_bgs w) i = Some bg ->
  0 <= k < blocks_per_group info ->
  used info w (first_data_block aux + i * blocks_per_group info + k) <->
  bit (block_bitmap bg) k = true.
Proof.
  intros Hgeo Hw E Hk. destruct (wo_bg _ _ _ Hw _ _ E) as [_ Hf]. split.
  - intros (j & bgj & k' & Ej & Hk' & Eq & Hbit). destruct (wo_bg _ _ _ Hw _ _ Ej) as [_ Hfj].
    assert (i = j) as <- by nia. rewrite E in Ej. injection Ej as <-.
    replace k with k' by lia. done.
  - intros Hbit. exists i, bg, k. split_and!; (done || lia).
Qed.

(** ** One group *)

Lemma with_bg_done {A} i (m : M block_group_info A) w bg a bg' :
  zget (w_bgs w) i = Some bg -> m bg = Done a bg' ->
  with_bg i m w = Done a (set_bgs (<[Z.to_nat i := bg']> (w_bgs w)) w).
Proof. intros E Em. unfold with_bg, zoom. by rewrite E, Em. Qed.

Lemma set_bgs_id w i bg : zget (w_bgs w) i = Some bg -> set_bgs (<[Z.to_nat i := bg]> (w_bgs w)) w = w.
Proof.
  intros E. unfold zget in E. case_decide; [|done].
  rewrite list_insert_id by done. by destruct w.
Qed.

Lemma with_bg_get {A} (f : block_group_info -> A) w i bg :
  zget (w_bgs w) i = Some bg -> with_bg i (fun g => Done (f g) g) w = Done (f bg) w.
Proof.
  intros E. etransitivity; [exact (with_bg_done i (fun g => Done (f g) g) w bg _ _ E eq_refl)|].
  by rewrite (set_bgs_id _ _ _ E).
Qed.

Lemma with_bg_insert {A} i (m : M block_group_info A) w bg1 a bg' :
  0 <= i < Z.of_nat (length (w_bgs w)) -> m bg1 = Done a bg' ->
  with_bg i m (set_bgs (<[Z.to_nat i := bg1]> (w_bgs w)) w) =
    Done a (set_bgs (<[Z.to_nat i := bg']> (w_bgs w)) w).
Proof.
  intros Hi Em. erewrite with_bg_done; [|cbn; by rewrite zget_insert, decide_True|exact Em].
  cbn. by rewrite list_insert_insert_eq.
Qed.

(** The group after [len] more of its blocks were handed out. *)
Definition taken_bg (bm : list Z) (len : Z) (bg : block_group_info) : block_group_info :=
  set_data_blocks_used (s32 (data_blocks_used bg + len))
    (set_first_free_block (first_free_block bg + len)
      (set_free_blocks_count (free_blocks_count bg - len) (set_block_bitmap bm bg))).

Section spec.
Context (force : bool) (info : fs_info) (aux : fs_aux_info) (Hgeo : geometry info aux).

Lemma world_ok_insert w i bg :
  world_ok info aux w -> 0 <= i < groups aux -> group_ok info bg ->
  first_block bg = first_data_block aux + i * blocks_per_group info ->
  world_ok info aux (set_bgs (<[Z.to_nat i := bg]> (w_bgs w)) w).
Proof.
  intros [Hg Hb Hh] Hi Hok Hf. split; cbn; [by rewrite length_insert| |done].
  intros j bg'. rewrite zget_insert by lia. case_decide; [|apply Hb].
  intros [= <-]. by subst.
Qed.

(** Marking an interval of one group's bitmap uses the blocks of that interval. *)
Lemma allocated_marked w i bg bg' lo hi :
  world_ok info aux w -> zget (w_bgs w) i = Some bg ->
  inode_part bg' = inode_part bg ->
  0 <= lo -> lo <= hi -> hi <= blocks_per_group info ->
  range_clear (block_bitmap bg) lo hi ->
  marked (block_bitmap bg) lo hi (block_bitmap bg') ->
  allocated info w (seqZ (first_block bg + lo) (hi - lo))
    (set_bgs (<[Z.to_nat i := bg']> (w_bgs w)) w).
Proof.
  intros Hw E Hpart Hlo Hle Hhi Hc Hm. destruct Hw as [Hg Hb _]. destruct Hgeo.
  assert (Hf : first_block bg' = first_block bg) by by injection Hpart.
  pose proof (zget_some_inv _ _ _ E) as Hi. destruct (Hb _ _ E) as [_ Hfb].
  split; [apply NoDup_seqZ| | | |done].
  - intros b Hin%elem_of_seqZ (j & bgj & k & Ej & Hk & -> & Hbit).
    destruct (Hb _ _ Ej) as [_ Hfj]. assert (j = i) as -> by nia.
    rewrite E in Ej. injection Ej as <-. rewrite Hc in Hbit; [done|lia].
  - intros b. rewrite elem_of_seqZ. split.
    + intros (j & bgj & k & Ej & Hk & -> & Hbit). cbn in Ej.
      rewrite zget_insert in Ej by lia. case_decide as Hij.
      * injection Ej as <-. rewrite (marked_bit _ _ _ _ Hm) in Hbit.
        apply orb_true_iff in Hbit as [Hbit%bool_decide_eq_true|Hbit].
        -- right. lia.
        -- left. exists i, bg, k. rewrite Hf. split_and!; (done || lia).
      * left. by exists j, bgj, k.
    + intros [(j & bgj & k & Ej & Hk & -> & Hbit)|Hin].
      * destruct (decide (i = j)) as [<-|Hij].
        -- rewrite E in Ej. injection Ej as <-. exists i, bg', k. cbn.
           rewrite zget_insert, decide_True, (marked_bit _ _ _ _ Hm), Hbit, Hf by (done || lia).
           split_and!; (done || lia || apply orb_true_r).
        -- exists j, bgj, k. cbn. rewrite zget_insert, decide_False by (done || lia). done.
      * exists i, bg', (b - first_block bg). cbn.
        rewrite zget_insert, decide_True, (marked_bit _ _ _ _ Hm), bool_decide_true by (done || lia).
        split_and!; (done || lia).
  - cbn. rewrite list_fmap_insert, Hpart. apply list_insert_id.
    rewrite list_lookup_fmap. unfold zget in E. case_decide; [|done]. by rewrite E.
Qed.

(** [ext4_allocate_blocks_from_block_group]: refused, or the next blocks. *)
Lemma allocate_from_group w i bg len :
  world_ok info aux w -> zget (w_bgs w) i = Some bg -> 0 <= len ->
  if free_blocks_count bg <? len
  then ext4_allocate_blocks_from_block_group force len i w = Done EXT4_ALLOCATE_FAILED w
  else exists bm,
    let w' := set_bgs (<[Z.to_nat i := taken_bg bm len bg]> (w_bgs w)) w in
    let block := first_block bg + first_free_block bg in
    ext4_allocate_blocks_from_block_group force len i w = Done block w' /\
    0 <= block /\ block + len < 2 ^ 32 - 1 /\
    world_ok info aux w' /\ allocated info w (seqZ block len) w'.
Proof.
  intros Hw E Hlen. pose proof (zget_some_inv _ _ _ E) as Hi.
  destruct (wo_bg _ _ _ Hw _ _ E) as [Hok Hf]. pose proof (wo_groups _ _ _ Hw) as Hg.
  unfold ext4_allocate_blocks_from_block_group, get_free_blocks.
  rewrite (mbind_done _ _ _ _ _ (with_bg_get _ _ _ _ E)).
  pose proof (reserve_next force _ _ len Hok Hlen) as Hr.
  destruct (Z.ltb_spec (free_blocks_count bg) len) as [|Hle]; [done|].
  destruct Hr as (bm & Er & Hm). exists bm.
  rewrite (mbind_done _ _ _ _ _ (with_bg_get _ _ _ _ E)).
  rewrite (mbind_done _ _ _ _ _ (with_bg_done _ _ _ _ _ _ E Er)).
  change (0 <? 0) with false. cbv iota.
  erewrite mbind_done by (by apply with_bg_insert).
  erewrite with_bg_insert by done. cbn.
  pose proof (group_ok_take _ _ len _ Hok ltac:(lia) Hm) as Hok'.
  pose proof (group_ok_clear _ _ Hok) as Hclr.
  destruct Hok, Hgeo.
  assert (first_block bg + blocks_per_group info < 2 ^ 32 - 1) by nia.
  assert (0 <= first_block bg) by nia.
  rewrite u32_small by lia.
  split_and!; [done|lia|lia| |].
  - apply world_ok_insert; [done|lia| |done].
    destruct Hok'; unfold bits_of in *; by split.
  - pose proof (allocated_marked w i bg (taken_bg bm len bg) (first_free_block bg)
      (first_free_block bg + len) Hw E eq_refl) as Ha.
    replace (first_free_block bg + len - first_free_block bg) with len in Ha by lia.
    apply Ha; [lia..| |done].
    intros j Hj. apply Hclr. lia.
Qed.

(** ** A region out of one group *)

(** From [w] to [w']: a new region [p], the next [len] free blocks of group [i]. *)
Definition got_region (w : world) (len : Z) (p : nat) (w' : world) : Prop :=
  exists i bg bm,
    let block := first_block bg + first_free_block bg in
    let r := mk_region block len i None None in
    p = next_reg (w_heap w) /\
    w_heap w' = mk_rheap (<[p := r]> (regs (w_heap w))) (S p) /\
    zget (w_bgs w) i = Some bg /\ len <= free_blocks_count bg /\
    w_bgs w' = <[Z.to_nat i := taken_bg bm len bg]> (w_bgs w) /\
    (region_ok r /\ len <= blocks_per_group info) /\ world_ok info aux w' /\ allocated info w (seqZ block len) w'.

Lemma heap_ok_malloc h r : heap_ok h -> heap_ok (mk_rheap (<[next_reg h := r]> (regs h)) (S (next_reg h))).
Proof.
  intros Hok j. cbn. rewrite lookup_insert. case_decide; subst; [lia|].
  intros Hj. specialize (Hok j Hj). lia.
Qed.

Lemma malloc_got_region w w1 bg bm i len :
  let block := first_block bg + first_free_block bg in
  w1 = set_bgs (<[Z.to_nat i := taken_bg bm len bg]> (w_bgs w)) w ->
  zget (w_bgs w) i = Some bg -> group_ok info bg -> len <= free_blocks_count bg ->
  world_ok info aux w1 -> allocated info w (seqZ block len) w1 ->
  0 <= len -> 0 <= block -> block + len < 2 ^ 32 ->
  exists w', with_heap (malloc_region (mk_region block len i None None)) w1 =
      Done (next_reg (w_heap w)) w' /\ got_region w len (next_reg (w_heap w)) w'.
Proof.
  intros block Ew E Hok Hfree Hw Ha Hl Hb Hend.
  assert (Eh : w_heap w1 = w_heap w) by by subst. rewrite <-!Eh.
  eexists. split; [done|]. exists i, bg, bm. rewrite <-!Eh. split_and!; try done.
  - by subst.
  - pose proof (go_end _ _ Hok). pose proof (go_first _ _ Hok). lia.
  - apply world_ok_heap; [done|]. apply heap_ok_malloc. apply Hw.
  - by apply (allocated_same_bgs _ _ _ w1).
Qed.

Lemma group_at w i : world_ok info aux w -> 0 <= i < groups aux ->
  exists bg, zget (w_bgs w) i = Some bg.
Proof. intros [Hg _ _] Hi. apply zget_some. lia. Qed.

Lemma block_not_failed b : 0 <= b -> b < 2 ^ 32 - 1 -> (b =? EXT4_ALLOCATE_FAILED) = false.
Proof. intros. apply Z.eqb_neq. change EXT4_ALLOCATE_FAILED with (2 ^ 32 - 1). lia. Qed.

(** Which group a request of [len] is refused by. *)
Definition refuses (w : world) (len i : Z) : Prop :=
  exists bg, zget (w_bgs w) i = Some bg /\ free_blocks_count bg < len.

Lemma contiguous_loop_spec w len gs :
  world_ok info aux w -> 1 <= len -> (forall i, i ∈ gs -> 0 <= i < groups aux) ->
  (contiguous_loop force len gs w = Done None w /\ forall i, i ∈ gs -> refuses w len i) \/
  (exists p w', contiguous_loop force len gs w = Done (Some p) w' /\ got_region w len p w').
Proof.
  intros Hw Hlen. induction gs as [|i gs IH]; intros Hgs.
  { left. split; [done|]. by intros i ?%not_elem_of_nil. }
  destruct (group_at w i Hw) as [bg E]; [apply Hgs, elem_of_cons; by left|].
  pose proof (allocate_from_group w i bg len Hw E ltac:(lia)) as Hstep.
  cbn [contiguous_loop]. destruct (Z.ltb_spec (free_blocks_count bg) len) as [Hlt|Hge].
  - rewrite (mbind_done _ _ _ _ _ Hstep). rewrite Z.eqb_refl.
    destruct IH as [[-> Hr]|IH]; [intros j Hj; apply Hgs, elem_of_cons; by right| |by right].
    left. split; [done|]. intros j [->|Hj]%elem_of_cons; [by exists bg|by apply Hr].
  - destruct Hstep as (bm & Es & Hb & Hend & Hw' & Ha). right.
    rewrite (mbind_done _ _ _ _ _ Es). rewrite block_not_failed by lia.
    destruct (malloc_got_region w _ bg bm i len eq_refl E (proj1 (wo_bg _ _ _ Hw _ _ E)) Hge Hw' Ha ltac:(lia) Hb ltac:(lia))
      as (w' & Em & Hgot).
    rewrite (mbind_done _ _ _ _ _ Em). by eexists _, w'.
Qed.

Lemma elem_of_groups i : i ∈ seqZ 0 (groups aux) -> 0 <= i < groups aux.
Proof. intros ?%elem_of_seqZ. lia. Qed.

Lemma ext4_allocate_contiguous_blocks_spec w len :
  world_ok info aux w -> 1 <= len ->
  (ext4_allocate_contiguous_blocks force aux len w = Done None w /\
   forall i, 0 <= i < groups aux -> refuses w len i) \/
  (exists p w', ext4_allocate_contiguous_blocks force aux len w = Done (Some p) w' /\
     got_region w len p w').
Proof.
  intros Hw Hlen. unfold ext4_allocate_contiguous_blocks.
  destruct (contiguous_loop_spec w len (seqZ 0 (groups aux)) Hw Hlen) as [[E Hr]|H];
    [apply elem_of_groups| |by right].
  left. split; [done|]. intros i Hi. apply Hr, elem_of_seqZ. lia.
Qed.

Lemma allocate_block_loop_spec w gs :
  world_ok info aux w -> (forall i, i ∈ gs -> 0 <= i < groups aux) ->
  (allocate_block_loop force gs w = Done EXT4_ALLOCATE_FAILED w /\ forall i, i ∈ gs -> refuses w 1 i) \/
  (exists b w', allocate_block_loop force gs w = Done b w' /\ 0 <= b < EXT4_ALLOCATE_FAILED /\
     world_ok info aux w' /\ allocated info w [b] w').
Proof.
  intros Hw. induction gs as [|i gs IH]; intros Hgs.
  { left. split; [done|]. by intros i ?%not_elem_of_nil. }
  destruct (group_at w i Hw) as [bg E]; [apply Hgs, elem_of_cons; by left|].
  pose proof (allocate_from_group w i bg 1 Hw E ltac:(lia)) as Hstep.
  cbn [allocate_block_loop]. destruct (Z.ltb_spec (free_blocks_count bg) 1) as [Hlt|Hge].
  - rewrite (mbind_done _ _ _ _ _ Hstep). rewrite Z.eqb_refl.
    destruct IH as [[-> Hr]|IH]; [intros j Hj; apply Hgs, elem_of_cons; by right| |by right].
    left. split; [done|]. intros j [->|Hj]%elem_of_cons; [by exists bg|by apply Hr].
  - destruct Hstep as (bm & Es & Hb & Hend & Hw' & Ha). right.
    rewrite (mbind_done _ _ _ _ _ Es). rewrite block_not_failed by lia.
    eexists _, _. split; [done|]. split; [|by split].
    change EXT4_ALLOCATE_FAILED with (2 ^ 32 - 1). lia.
Qed.

(** ** Several regions *)

(** The groups no data block was allocated from. *)
Definition unused_groups (w : world) : nat :=
  length (filter (fun g => data_blocks_used g = 0) (w_bgs w)).

(** Each of them has [m] free blocks. *)
Definition live (m : Z) (w : world) : Prop :=
  forall i g, zget (w_bgs w) i = Some g -> data_blocks_used g = 0 -> m <= free_blocks_count g.

Lemma filter_insert_lt {A} (P : A -> Prop) `{!forall x, Decision (P x)} (l : list A) i x y :
  l !! i = Some x -> P x -> ~ P y ->
  (length (filter P (<[i := y]> l)) < length (filter P l))%nat.
Proof.
  intros E Hx Hy. pose proof (lookup_lt_Some _ _ _ E) as Hi.
  rewrite insert_take_drop by done. rewrite <-(take_drop_middle _ _ _ E) at 3.
  rewrite !filter_app, !filter_cons, decide_False, decide_True by done.
  rewrite !length_app. cbn. lia.
Qed.

(** Region [q] is the latest allocated from its group, and the first of a list. *)
Definition head_at (w : world) (q : nat) (r : region) (bg : block_group_info) : Prop :=
  regs (w_heap w) !! q = Some r /\ zget (w_bgs w) (r_bg r) = Some bg /\ r_prev r = None /\
  first_block bg <= r_block r /\ r_block r + r_len r = first_block bg + first_free_block bg.
(** ... with at least [k] blocks, *)
Definition head_end (k : Z) (w : world) (q : nat) : Prop :=
  exists r bg, head_at w q r bg /\ k <= r_len r.
(** ... and its group full. *)
Definition head_full (k : Z) (w : world) (q : nat) : Prop :=
  exists r bg, head_at w q r bg /\ k <= r_len r /\ free_blocks_count bg = 0.

Lemma got_region_head w len p w' :
  world_ok info aux w -> got_region w len p w' ->
  exists r bg, head_at w' p r bg /\ r_len r = len.
Proof.
  intros Hw (i & bg & bm & -> & Eh & Ebg & Hle & Ew & Hr & Hw' & _).
  pose proof (zget_some_inv _ _ _ Ebg) as Hi. destruct (wo_bg _ _ _ Hw _ _ Ebg) as [Hok _].
  eexists _, _. split.
  - unfold head_at. rewrite Eh, Ew. cbn [regs]. split_and!; [apply lookup_insert_eq| |..]; cbn.
    + by rewrite zget_insert, decide_True by done.
    + done.
    + cbn. pose proof (go_first _ _ Hok). lia.
    + cbn. lia.
  - done.
Qed.

(** A full group is not allocated from, so its latest region stays the latest. *)
Lemma head_full_keep k w len p w' q :
  world_ok info aux w -> got_region w len p w' -> 1 <= len -> head_full k w q -> head_full k w' q.
Proof.
  intros Hw (i & bg & bm & -> & Eh & Ebg & Hle & Ew & _) Hlen (r & bg' & (Hq & Hg & Hp & H1 & H2) & Hk & Hf).
  pose proof (zget_some_inv _ _ _ Ebg) as Hi.
  pose proof (heap_ok_fresh _ (wo_heap _ _ _ Hw)) as Hfresh.
  exists r, bg'. split; [|done]. unfold head_at. rewrite Eh, Ew. cbn [regs].
  rewrite lookup_insert_ne by (intros <-; congruence).
  split_and!; try done. rewrite zget_insert by done. rewrite decide_False; [done|].
  intros Eq. rewrite <-Eq, Ebg in Hg. injection Hg as <-. lia.
Qed.

Lemma link_region_head w1 prev p w2 q r bg :
  link_region prev (Some p) w1 = Done tt w2 -> (q <> p \/ prev = None) -> head_at w1 q r bg ->
  exists r', head_at w2 q r' bg /\ r_len r' = r_len r.
Proof.
  destruct prev as [i|]; [|by intros [= <-] _ H; exists r].
  cbn [link_region]. intros E [Hq|]; [|done]. intros (Er & Eg & Hp & H1 & H2).
  apply mbind_done_inv in E as (u & w' & E1 & E2).
  unfold with_heap, zoom in E1, E2. cbv iota in E1, E2.
  unfold write_region in E1. destruct (regs (w_heap w1) !! i) as [ri|] eqn:Ei; [|done].
  injection E1 as _ <-. cbn in E2. unfold write_region in E2. cbn in E2.
  destruct (<[i:=set_next (Some p) ri]> (regs (w_heap w1)) !! p) as [rp|] eqn:Ep; [|done].
  injection E2 as <-. cbn.
  exists (if decide (i = q) then set_next (Some p) r else r). unfold head_at. cbn.
  rewrite lookup_insert_ne by done. rewrite lookup_insert. case_decide.
  - subst i. rewrite Er in Ei. injection Ei as <-. by split_and!.
  - by split_and!.
Qed.

(** One turn of the multiple allocation: nothing left to use, the whole
    request, or all the free blocks of a group no data is in yet. *)
Lemma partial_loop_spec w len gs :
  world_ok info aux w -> 1 <= len -> (forall i, i ∈ gs -> 0 <= i < groups aux) ->
  partial_loop force aux len gs w = Done None w \/
  (exists p w', partial_loop force aux len gs w = Done (Some p) w' /\ got_region w len p w') \/
  (exists p w' n, partial_loop force aux len gs w = Done (Some p) w' /\ got_region w n p w' /\
     0 <= n < len /\ head_full n w' p /\
     (forall m, live m w -> 1 <= m -> m <= n /\ live m w' /\ (unused_groups w' < unused_groups w)%nat)).
Proof.
  intros Hw Hlen. induction gs as [|i gs IH]; intros Hgs; [by left|].
  assert (Hi : 0 <= i < groups aux) by (apply Hgs, elem_of_cons; by left).
  destruct (group_at w i Hw Hi) as [bg E].
  cbn [partial_loop]. rewrite (mbind_done _ _ _ _ _ (with_bg_get _ _ _ _ E)).
  destruct (Z.eqb_spec (data_blocks_used bg) 0) as [Hu|Hu].
  2: { apply IH. intros j Hj. apply Hgs, elem_of_cons. by right. }
  unfold get_free_blocks. rewrite (mbind_done _ _ _ _ _ (with_bg_get _ _ _ _ E)).
  destruct (wo_bg _ _ _ Hw _ _ E) as [Hok _].
  destruct (Z.leb_spec len (free_blocks_count bg)) as [Hle|Hgt].
  - right; left. destruct (ext4_allocate_contiguous_blocks_spec w len Hw Hlen)
      as [[_ Hr]|(p & w' & Ep & Hgot)]; [|by exists p, w'].
    destruct (Hr i Hi) as (bg' & E' & Hlt). rewrite E in E'. injection E' as <-. lia.
  - right; right. pose proof (allocate_from_group w i bg (free_blocks_count bg) Hw E
      (go_free _ _ Hok)) as Hstep.
    rewrite Z.ltb_irrefl in Hstep. destruct Hstep as (bm & Es & Hb & Hend & Hw' & Ha).
    rewrite (mbind_done _ _ _ _ _ Es).
    pose proof (go_free _ _ Hok) as Hfree. pose proof (go_end _ _ Hok) as Hgend.
    pose proof (go_first _ _ Hok) as Hfirst. pose proof (go_size _ _ Hok) as Hsize.
    pose proof (go_small _ _ Hok) as Hsmall.
    rewrite block_not_failed by lia.
    destruct (malloc_got_region w _ bg bm i (free_blocks_count bg) eq_refl E Hok (Z.le_refl _) Hw' Ha ltac:(lia) Hb ltac:(lia))
      as (w' & Em & Hgot).
    assert (Ebgs : w_bgs w' = <[Z.to_nat i := taken_bg bm (free_blocks_count bg) bg]> (w_bgs w)).
    { unfold with_heap, zoom, malloc_region in Em. by injection Em as <-. }
    rewrite (mbind_done _ _ _ _ _ Em). eexists _, w', _. split; [done|]. split; [exact Hgot|].
    split; [lia|]. split.
    { unfold with_heap, zoom, malloc_region in Em. injection Em as <-.
      exists (mk_region (first_block bg + first_free_block bg) (free_blocks_count bg) i None None),
        (taken_bg bm (free_blocks_count bg) bg). split; [|cbn; lia].
      unfold head_at. cbn. split_and!; [apply lookup_insert_eq|cbn|done|cbn; lia|cbn; lia].
      pose proof (wo_groups _ _ _ Hw). by rewrite zget_insert, decide_True by (done || lia). }
    intros m Hl Hm. pose proof (Hl _ _ E Hu) as Hpos. split; [done|].
    assert (Hd : data_blocks_used (taken_bg bm (free_blocks_count bg) bg) = free_blocks_count bg).
    { cbn. rewrite Hu. unfold s32. rewrite Z.mod_small by lia. lia. }
    pose proof (wo_groups _ _ _ Hw). split.
    + intros j g Ej Hj. rewrite Ebgs in Ej. cbn in Ej. rewrite zget_insert in Ej by lia.
      case_decide; [|by eapply Hl]. injection Ej as <-. lia.
    + unfold unused_groups. rewrite Ebgs. cbn. eapply filter_insert_lt; [|exact Hu|lia].
      unfold zget in E. by case_decide.
Qed.

Lemma with_heap_done {A} (m : M rheap A) w a h :
  m (w_heap w) = Done a h -> with_heap m w = Done a (set_heap h w).
Proof. intros E. unfold with_heap, zoom. by rewrite E. Qed.

Lemma set_heap_id w : set_heap (w_heap w) w = w.
Proof. by destruct w. Qed.

(** The list built so far: [prev_reg] is its last node. *)
Definition acc_list (h : rheap) (first prev : option nat) (l : list (nat * region)) : Prop :=
  (l = [] /\ first = None /\ prev = None) \/
  (exists l0 i r, l = l0 ++ [(i, r)] /\ prev = Some i /\ seg (regs h) first l None).

Lemma seg_snoc h first l0 i r p rp :
  seg h first (l0 ++ [(i, r)]) None -> h !! p = None -> r_next rp = None ->
  seg (<[p := rp]> (<[i := set_next (Some p) r]> h)) first
    (l0 ++ [(i, set_next (Some p) r); (p, rp)]) None.
Proof.
  intros Hs Hp Hn. pose proof (seg_nodup _ _ _ Hs) as Hnd.
  rewrite fmap_app in Hnd. cbn in Hnd.
  apply NoDup_app in Hnd as (_ & Hdis & _).
  assert (Hpi : p <> i).
  { intros ->. apply seg_app in Hs as (m & _ & (_ & Hi & _)). congruence. }
  assert (Hpl : p ∉ l0.*1).
  { intros Hin. apply list_elem_of_fmap in Hin as ([j s] & E & Hin). cbn in E. subst j.
    eapply seg_lookup in Hs; [|apply elem_of_app; left; exact Hin]. congruence. }
  apply seg_app in Hs as (m & H0 & (-> & Hi & Hnil)).
  apply seg_app. exists (Some i). split.
  - apply seg_insert_ne; [done|]. apply seg_insert_ne; [|done].
    intros Hin. eapply Hdis; [exact Hin|]. by apply list_elem_of_singleton.
  - cbn. split_and!; [done| |done| |done].
    + rewrite lookup_insert_ne by done. apply lookup_insert_eq.
    + apply lookup_insert_eq.
Qed.

Lemma link_region_spec w len p w1 first prev l :
  world_ok info aux w -> got_region w len p w1 -> acc_list (w_heap w) first prev l ->
  exists w2 l' r,
    link_region prev (Some p) w1 = Done tt w2 /\ w_bgs w2 = w_bgs w1 /\
    world_ok info aux w2 /\ r_len r = len /\
    allocated info w (seqZ (r_block r) (r_len r)) w2 /\
    regs (w_heap w2) !! p = Some r /\
    acc_list (w_heap w2) (match first with None => Some p | _ => first end) (Some p) l' /\
    blocks_of l'.*2 = blocks_of l.*2 ++ seqZ (r_block r) (r_len r) /\
    regions_len l'.*2 = regions_len l.*2 + len /\
    (1 <= len -> Forall (region_in info) l.*2 -> Forall (region_in info) l'.*2) /\
    length l' = S (length l).
Proof.
  intros Hw (j & bg & bm & -> & Eh & _ & _ & _ & Hr & Hw1 & Ha) Hacc.
  set (p := next_reg (w_heap w)) in *.
  set (rp := mk_region (first_block bg + first_free_block bg) len j None None) in *.
  destruct Hacc as [(-> & -> & ->)|(l0 & i & r & -> & -> & Hs)].
  - exists w1, [(p, rp)], rp. split_and!; try done.
    + rewrite Eh. apply lookup_insert_eq.
    + right. exists [], p, rp. split_and!; [done..|]. cbn. rewrite Eh.
      split_and!; [done|apply lookup_insert_eq|done].
    + unfold blocks_of. cbn. apply app_nil_r.
    + unfold regions_len. cbn. lia.
    + intros Hl1 _. constructor; [|constructor]. destruct Hr as [Hr1 Hr2]. split; [exact Hr1|cbn; lia].
  - pose proof (heap_ok_fresh _ (wo_heap _ _ _ Hw)) as Hf. fold p in Hf.
    assert (Hi : regs (w_heap w) !! i = Some r)
      by (eapply seg_lookup; [exact Hs|apply elem_of_app; right; by apply list_elem_of_singleton]).
    assert (Hip : i <> p) by congruence.
    set (h2 := mk_rheap (<[p := set_prev (Some i) rp]> (<[i := set_next (Some p) r]> (regs (w_heap w)))) (S p)).
    exists (set_heap h2 w1), (l0 ++ [(i, set_next (Some p) r); (p, set_prev (Some i) rp)]), (set_prev (Some i) rp).
    assert (Hfirst : exists k, first = Some k).
    { destruct l0 as [|[k s] l0]; destruct Hs as (-> & _); by eexists. }
    destruct Hfirst as [k ->].
    split_and!.
    + cbn [link_region]. erewrite mbind_done.
      2: { apply with_heap_done. rewrite Eh. apply write_region_some. cbn.
           rewrite lookup_insert_ne by done. exact Hi. }
      erewrite with_heap_done.
      2: { apply write_region_some. cbn. rewrite lookup_insert_ne by done. apply lookup_insert_eq. }
      cbn. unfold h2. rewrite (insert_insert_ne _ i p), insert_insert_eq by done. done.
    + done.
    + apply world_ok_heap; [done|]. pose proof (wo_heap _ _ _ Hw) as Hok.
      intros q. cbn. rewrite !lookup_insert. case_decide; [subst q; cbn; lia|].
      intros Hq. assert (Hq' : is_Some (regs (w_heap w) !! q)).
      { case_decide; [subst q; by rewrite Hi|done]. }
      specialize (Hok q Hq'). fold p in Hok. cbn. lia.
    + done.
    + by apply (allocated_same_bgs _ _ _ w1).
    + cbn. apply lookup_insert_eq.
    + right. exists (l0 ++ [(i, set_next (Some p) r)]), p, (set_prev (Some i) rp).
      split_and!; [by rewrite <-app_assoc|done|]. cbn. by apply seg_snoc.
    + unfold blocks_of. rewrite !fmap_app, !bind_app. cbn. by rewrite !app_nil_r, <-app_assoc.
    + unfold regions_len. rewrite !fmap_app, !foldr_app. cbn.
      clear. induction (l0.*2) as [|x l IH]; cbn; lia.
    + intros Hl1. rewrite !fmap_app, !Forall_app. cbn. intros [H0 H1]. split; [done|].
      apply Forall_cons in H1 as [H1 _]. destruct Hr as [Hr1 Hr2].
      apply Forall_cons. split; [exact H1|]. apply Forall_cons. split; [|constructor].
      split; [exact Hr1|cbn; lia].
    + rewrite !length_app. cbn. lia.
Qed.

(** The first region of the list after a new one was linked. *)
Lemma link_first k w n p w1 first prev l w2 q (P : block_group_info -> Prop) :
  world_ok info aux w -> got_region w n p w1 -> 1 <= n -> acc_list (w_heap w) first prev l ->
  link_region prev (Some p) w1 = Done tt w2 ->
  (first = None -> exists r bg, head_at w1 p r bg /\ k <= r_len r /\ P bg) ->
  (forall q, first = Some q -> head_full k w q) -> (forall bg, free_blocks_count bg = 0 -> P bg) ->
  (match first with None => Some p | _ => first end) = Some q ->
  exists r bg, head_at w2 q r bg /\ k <= r_len r /\ P bg.
Proof.
  intros Hw Hgot Hn Hacc El Hp Hhd HP Hq.
  destruct first as [f|]; injection Hq as <-.
  - destruct (Hhd f eq_refl) as (r & bg & Hr & Hz).
    assert (Hfp : f <> p).
    { intros ->. pose proof (heap_ok_fresh _ (wo_heap _ _ _ Hw)) as Hfresh.
      destruct Hgot as (? & ? & ? & -> & _). destruct Hr as (Hr & _). congruence. }
    destruct (head_full_keep k w n p w1 f Hw Hgot Hn) as (r1 & bg1 & Hr1 & Hk1 & Hz1); [by exists r, bg|].
    destruct (link_region_head w1 prev p w2 f r1 bg1 El (or_introl Hfp) Hr1) as (r2 & Hr2 & Hl2).
    exists r2, bg1. rewrite Hl2. auto.
  - assert (prev = None) as ->.
    { destruct Hacc as [(_ & _ & ->)|(l0 & i & r & -> & _ & Hs)]; [done|].
      by destruct l0 as [|[??]?]; destruct Hs as [? _]. }
    destruct (Hp eq_refl) as (rp & bgp & Hrp & Hkp & HPp).
    destruct (link_region_head w1 None p w2 p rp bgp El (or_intror eq_refl) Hrp) as (r2 & Hr2 & Hl2).
    exists r2, bgp. by rewrite Hl2.
Qed.

Lemma multiple_loop_spec m k fuel len w first prev l :
  world_ok info aux w -> 0 <= len < 2 ^ 32 -> acc_list (w_heap w) first prev l ->
  live m w -> 1 <= m -> (unused_groups w + 2 <= fuel)%nat ->
  k <= m -> (first = None -> k <= len) -> (forall q, first = Some q -> head_full k w q) ->
  exists res w' bs,
    multiple_loop force aux fuel len first prev w = Done res w' /\
    world_ok info aux w' /\ allocated info w bs w' /\
    (res = None \/
     exists prev' l', acc_list (w_heap w') res prev' l' /\
       blocks_of l'.*2 = blocks_of l.*2 ++ bs /\
       regions_len l'.*2 = regions_len l.*2 + len /\
       (Forall (region_in info) l.*2 -> Forall (region_in info) l'.*2) /\
       (forall q, res = Some q -> head_end k w' q) /\
       (length l' <= length l + unused_groups w + 1)%nat).
Proof.
  revert len w first prev l. induction fuel as [|f IH]; intros len w first prev l Hw Hlen Hacc Hl Hm Hf Hkm Hkl Hhd; [lia|].
  cbn [multiple_loop]. destruct (Z.ltb_spec 0 len) as [Hpos|Hz].
  2: { exists first, w, []. split_and!; [done|done|by apply allocated_nil|].
       right. exists prev, l. rewrite app_nil_r. split_and!; try (done || lia).
       intros q Hq. destruct (Hhd q Hq) as (r & bg & Hr & Hk & _). by exists r, bg. }
  destruct (partial_loop_spec w len (seqZ 0 (groups aux)) Hw ltac:(lia) elem_of_groups)
    as [E|[(p & w1 & E & Hgot)|(p & w1 & n & E & Hgot & Hn & Hfull & Hlive)]];
    unfold ext4_allocate_partial; rewrite (mbind_done _ _ _ _ _ E); cbn iota.
  - exists None, w, []. split_and!; [done|done|by apply allocated_nil|by left].
  - destruct (link_region_spec _ _ _ _ _ _ _ Hw Hgot Hacc)
      as (w2 & l' & r & El & Eb & Hw2 & Hr & Ha & Ep & Hacc' & Hb & Hrl & Hall & Hll).
    rewrite (mbind_done _ _ _ _ _ El).
    erewrite mbind_done by (apply with_heap_done, read_region_some; exact Ep).
    rewrite set_heap_id, Hr, Z.sub_diag. change (u32 0) with 0.
    destruct f as [|f]; [lia|]. cbn [multiple_loop].
    change (0 <? 0) with false. cbn iota.
    eexists _, w2, _. split_and!; [done|done|exact Ha|].
    right. exists (Some p), l'. split_and!; try (done || lia); [by apply Hall; lia|].
    intros q Hq. destruct (got_region_head _ _ _ _ Hw Hgot) as (r1 & bg1 & Hr1 & Hlen1).
    destruct (link_first k w len p w1 first prev l w2 q (fun _ => True)) as (r2 & bg2 & Hr2 & Hk2 & _);
      try (done || lia); [|by exists r2, bg2].
    intros Hnone. exists r1, bg1. split_and!; [done| |done]. specialize (Hkl Hnone). lia.
  - destruct (Hlive m Hl Hm) as (Hn0 & Hl1 & Hu).
    destruct (link_region_spec _ _ _ _ _ _ _ Hw Hgot Hacc)
      as (w2 & l' & r & El & Eb & Hw2 & Hr & Ha & Ep & Hacc' & Hb & Hrl & Hall & Hll).
    rewrite (mbind_done _ _ _ _ _ El).
    erewrite mbind_done by (apply with_heap_done, read_region_some; exact Ep).
    rewrite set_heap_id, Hr, u32_small by lia.
    assert (Hl2 : live m w2) by (intros i g; rewrite Eb; apply Hl1).
    assert (Hu2 : unused_groups w2 = unused_groups w1) by (unfold unused_groups; by rewrite Eb).
    assert (Hhd2 : forall q, (match first with None => Some p | _ => first end) = Some q -> head_full k w2 q).
    { intros q Hq. apply (link_first k w n p w1 first prev l w2 q (fun bg => free_blocks_count bg = 0));
        try (done || lia).
      intros _. destruct Hfull as (r1 & bg1 & Hr1 & Hk1 & Hz1). exists r1, bg1. split_and!; (done || lia). }
    destruct (IH (len - n) w2 _ _ l' Hw2 ltac:(lia) Hacc' Hl2 Hm ltac:(lia) Hkm ltac:(by destruct first) Hhd2)
      as (res & w' & bs & Em & Hw' & Ha' & Hres).
    rewrite Em. exists res, w', (seqZ (r_block r) (r_len r) ++ bs).
    split_and!; [done|done|by eapply allocated_app|].
    destruct Hres as [->|(prev' & l'' & Hacc'' & Hb' & Hrl' & Hall' & Hend' & Hll')]; [by left|].
    right. exists prev', l''. rewrite Hb', Hb, <-app_assoc. split_and!; [done|done|lia| |done|lia].
    intros H. apply Hall'. apply Hall; (done || lia).
Qed.

(** ** [do_allocate] and [allocate_blocks] *)

Lemma unused_groups_bound w : world_ok info aux w -> (unused_groups w <= Z.to_nat (groups aux))%nat.
Proof.
  intros Hw. pose proof (wo_groups _ _ _ Hw). unfold unused_groups.
  pose proof (length_filter (fun g => data_blocks_used g = 0) (w_bgs w)). lia.
Qed.

Lemma do_allocate_spec m fuel len w :
  world_ok info aux w -> live m w -> 1 <= m -> 1 <= len < 2 ^ 32 -> (Z.to_nat (groups aux) + 2 <= fuel)%nat ->
  exists res w' bs,
    do_allocate force aux fuel len w = Done res w' /\
    world_ok info aux w' /\ allocated info w bs w' /\
    (res = None /\ (forall i, 0 <= i < groups aux -> refuses w len i) \/
     exists l, seg (regs (w_heap w')) res l None /\ res <> None /\ blocks_of l.*2 = bs /\
       regions_len l.*2 = len /\ Forall (region_in info) l.*2 /\ (forall q, res = Some q -> head_end (Z.min m len) w' q) /\
       (length l <= Z.to_nat (groups aux) + 1)%nat).
Proof.
  intros Hw Hl Hm Hlen Hf. unfold do_allocate.
  destruct (ext4_allocate_contiguous_blocks_spec w len Hw ltac:(lia))
    as [[E Hrefuse]|(p & w' & E & Hgot)]; rewrite (mbind_done _ _ _ _ _ E); cbn iota.
  - pose proof (unused_groups_bound w Hw).
    destruct (multiple_loop_spec m (Z.min m len) fuel len w None None [] Hw ltac:(lia) (or_introl (conj eq_refl (conj eq_refl eq_refl))) Hl Hm ltac:(lia) ltac:(lia) ltac:(lia) ltac:(done))
      as (res & w' & bs & Em & Hw' & Ha & Hres).
    unfold ext4_allocate_multiple_contiguous_blocks. rewrite Em.
    exists res, w', bs. split_and!; [done..|].
    destruct Hres as [->|(prev' & l & Hacc & Hb & Hrl & Hall & Hhead & Hll)]; [by left|]. right. exists l.
    cbn in Hb, Hrl. destruct Hacc as [(-> & -> & ->)|(l0 & i & r & -> & -> & Hs)].
    + cbn in Hrl. unfold regions_len in Hrl. cbn in Hrl. lia.
    + cbn in Hll. split_and!; [done| |done|lia|by apply Hall|done|lia].
      intros ->. destruct l0 as [|[? ?] ?]; destruct Hs as (? & _); done.
  - destruct (got_region_head _ _ _ _ Hw Hgot) as (r0 & bg0 & Hr0 & Hl0).
    destruct Hgot as (i & bg & bm & -> & Eh & _ & _ & _ & Hr & Hw' & Ha).
    eexists _, w', _. split_and!; [done|done|exact Ha|]. right.
    eexists [(_, _)]. cbn. rewrite Eh. cbn.
    split_and!; [done|apply lookup_insert_eq|done|done|..].
    + unfold blocks_of. cbn. apply app_nil_r.
    + unfold regions_len. cbn. lia.
    + constructor; [|constructor]. destruct Hr as [Hr1 Hr2]. split; [exact Hr1|cbn; lia].
    + intros q [= <-]. exists r0, bg0. split; [done|lia].
    + lia.
Qed.

Lemma allocate_blocks_spec m fuel len w :
  world_ok info aux w -> live m w -> 1 <= m -> 1 <= len < 2 ^ 32 -> (Z.to_nat (groups aux) + 2 <= fuel)%nat ->
  exists res w' bs, allocate_blocks force aux fuel len w = Done res w' /\
    world_ok info aux w' /\ allocated info w bs w' /\
    match res with
    | None => forall i, 0 <= i < groups aux -> refuses w len i
    | Some alloc => exists p l,
        alloc = mk_alloc (mk_region_list (Some p) (Some p) (Some p) 0) (oob_list create_allocation) /\
        seg (regs (w_heap w')) (Some p) l None /\ blocks_of l.*2 = bs /\ regions_len l.*2 = len /\
        Forall (region_in info) l.*2 /\ head_end (Z.min m len) w' p /\
        (length l <= Z.to_nat (groups aux) + 1)%nat
    end.
Proof.
  intros Hw Hl Hm Hlen Hf.
  destruct (do_allocate_spec m fuel len w Hw Hl Hm Hlen Hf) as (res & w' & bs & E & Hw' & Ha & Hres).
  unfold allocate_blocks. rewrite (mbind_done _ _ _ _ _ E).
  destruct Hres as [[-> Hr]|(l & Hs & Hne & Hb & Hrl & Hok & Hhead & Hll)].
  - exists None, w', bs. by split_and!.
  - destruct res as [p|]; [|done]. eexists _, w', bs. split_and!; [done..|].
    exists p, l. split_and!; try done. by apply Hhead.
Qed.

(** ** Initialisation *)

(** A group as [init_bg] leaves it. *)
Definition init_ok (i : Z) (bg : block_group_info) : Prop :=
  group_ok info bg /\
  exists bm f, bg = set_first_free_block f
    (set_free_blocks_count (group_len info aux i - bg_header_blocks info aux i)
      (set_block_bitmap bm (fresh_bg info aux i))) /\
    (group_len info aux i = bg_header_blocks info aux i \/ f = bg_header_blocks info aux i).

Lemma init_group_spec i w :
  group_fits info aux i -> 0 <= i < Z.of_nat (length (w_bgs w)) ->
  exists w' bg, init_group force info aux i w = Done tt w' /\ init_ok i bg /\
    w_bgs w' = <[Z.to_nat i := bg]> (w_bgs w) /\ w_heap w' = w_heap w.
Proof.
  intros Hfit Hi. destruct (zget_some _ _ Hi) as [bg0 E].
  destruct (init_bg_spec force info aux i bg0 Hfit) as (bm & f & Einit & Hok & Hf).
  unfold init_group. unfold sparse_file_add_data at 1. cbv [modify mbind'].
  erewrite with_bg_done; [|exact E|exact Einit].
  eexists _, _. split; [done|]. split; [split; [exact Hok|by exists bm, f]|]. done.
Qed.

Lemma init_groups_spec gs w :
  (forall i, i ∈ gs -> group_fits info aux i /\ 0 <= i < Z.of_nat (length (w_bgs w))) ->
  exists w', init_groups force info aux gs w = Done tt w' /\
    length (w_bgs w') = length (w_bgs w) /\ w_heap w' = w_heap w /\
    (forall i, i ∈ gs -> exists bg, zget (w_bgs w') i = Some bg /\ init_ok i bg) /\
    (forall i, i ∉ gs -> zget (w_bgs w') i = zget (w_bgs w) i).
Proof.
  revert w. induction gs as [|i gs IH]; intros w Hgs.
  { exists w. split_and!; try done. by intros i ?%not_elem_of_nil. }
  destruct (Hgs i) as [Hfit Hi]; [apply elem_of_cons; by left|].
  destruct (init_group_spec i w Hfit Hi) as (w1 & bg & E1 & Hok & Eb & Eh).
  destruct (IH w1) as (w' & E' & Hl & Hh & Hin & Hout).
  { intros j Hj. rewrite Eb, length_insert. apply Hgs, elem_of_cons. by right. }
  cbn [init_groups]. rewrite (mbind_done _ _ _ _ _ E1). exists w'.
  split_and!; [done|by rewrite Hl, Eb, length_insert|congruence| |].
  - intros j Hj. destruct (decide (j ∈ gs)) as [Hjg|Hjg]; [by apply Hin|].
    apply elem_of_cons in Hj as [->|]; [|done]. exists bg. split; [|done].
    rewrite Hout, Eb, zget_insert, decide_True by done. done.
  - intros j Hj. apply not_elem_of_cons in Hj as [Hne Hj].
    rewrite Hout, Eb, zget_insert, decide_False by done. done.
Qed.

Lemma init_ok_first_block i bg :
  group_fits info aux i -> init_ok i bg ->
  first_block bg = first_data_block aux + i * blocks_per_group info.
Proof.
  intros [? ? ? ? ? ? ?] (_ & bm & f & -> & _). cbn.
  pose proof (bg_header_nonneg info aux i ltac:(lia)).
  assert (0 <= i * blocks_per_group info) by nia.
  rewrite (u32_small (i * _)), u32_small by lia. done.
Qed.

Lemma block_allocator_init_spec w :
  heap_ok (w_heap w) -> (forall i, 0 <= i < groups aux -> group_fits info aux i) ->
  exists w', block_allocator_init force info aux w = Done tt w' /\ world_ok info aux w' /\
    forall i, 0 <= i < groups aux -> exists bg, zget (w_bgs w') i = Some bg /\ init_ok i bg.
Proof.
  intros Hh Hfit. unfold block_allocator_init. cbv [modify mbind'].
  destruct Hgeo. set (w1 := set_bgs _ w).
  assert (Hl1 : length (w_bgs w1) = Z.to_nat (groups aux)) by apply length_replicate.
  destruct (init_groups_spec (seqZ 0 (groups aux)) w1) as (w' & E & Hl & Hh' & Hin & _).
  { intros i Hi%elem_of_groups. split; [by apply Hfit|]. rewrite Hl1. lia. }
  rewrite E. exists w'.
  assert (Hall : forall i, 0 <= i < groups aux -> exists bg, zget (w_bgs w') i = Some bg /\ init_ok i bg).
  { intros i Hi. apply Hin, elem_of_seqZ. lia. }
  split_and!; [done| |done]. split; [rewrite Hl, Hl1; lia| |by rewrite Hh'].
  intros i bg Ei. pose proof (zget_some_inv _ _ _ Ei) as Hi. rewrite Hl, Hl1 in Hi.
  destruct (Hall i ltac:(lia)) as (bg' & Ei' & Hok). rewrite Ei in Ei'. injection Ei' as <-.
  split; [apply Hok|]. apply init_ok_first_block; [apply Hfit; lia|done].
Qed.

(** What is used right after the initialisation: the group's header, and the
    blocks of the last group past the end of the file system. *)
Lemma init_ok_used i bg k :
  group_fits info aux i -> init_ok i bg -> 0 <= k < blocks_per_group info ->
  bit (block_bitmap bg) k = true <-> k < bg_header_blocks info aux i \/ group_len info aux i <= k.
Proof.
  intros Hfit (Hok & bm & f & -> & Hf) Hk. rewrite (go_bits _ _ Hok) by done.
  pose proof (go_free _ _ Hok) as Hfree. pose proof (go_end _ _ Hok) as Hend.
  rewrite negb_true_iff, bool_decide_eq_false. cbn in *. destruct Hf as [Hf| ->]; lia.
Qed.

End spec.

(** ** Giving blocks back *)

(** Going from [w] to [w'] frees the blocks [bs]. *)
Record freed (info : fs_info) (w : world) (bs : list Z) (w' : world) : Prop := {
  fr_was b : b ∈ bs -> used info w b;
  fr_used b : used info w' b <-> used info w b /\ b ∉ bs;
  fr_inodes : inode_part <$> w_bgs w' = inode_part <$> w_bgs w;
  fr_bufs : w_bufs w' = w_bufs w /\ w_sparse w' = w_sparse w /\ w_xattrs w' = w_xattrs w
}.

Lemma freed_blocks_spec info aux w i bg num :
  geometry info aux -> world_ok info aux w -> zget (w_bgs w) i = Some bg ->
  0 <= num <= first_free_block bg ->
  exists w', with_bg i (free_blocks num) w = Done tt w' /\ world_ok info aux w' /\
    w_heap w' = w_heap w /\
    freed info w (seqZ (first_block bg + first_free_block bg - num) num) w'.
Proof.
  intros Hgeo Hw E Hn. destruct (wo_bg _ _ _ Hw _ _ E) as [Hok Hf].
  pose proof (zget_some_inv _ _ _ E) as Hi. pose proof (wo_groups _ _ _ Hw) as Hg.
  destruct (free_blocks_spec info num bg Hok Hn) as (bm' & Ef & Hok' & L & B).
  rewrite (with_bg_done _ _ _ _ _ _ E Ef). eexists. split; [done|].
  set (bg' := set_first_free_block _ _) in *. set (w' := set_bgs _ w).
  assert (Hw' : world_ok info aux w').
  { apply world_ok_insert; (done || lia). }
  split_and!; [done|done|].
  pose proof (go_end _ _ Hok). pose proof (go_free _ _ Hok). pose proof (go_first _ _ Hok).
  assert (Hbits : forall k, 0 <= k < blocks_per_group info ->
    bit bm' k = negb (bool_decide (first_free_block bg - num <= k < first_free_block bg)) &&
                bit (block_bitmap bg) k) by (intros k _; apply B).
  split; [| | |done].
  - intros b Hb%elem_of_seqZ. exists i, bg, (b - first_block bg).
    split_and!; [done|lia..|]. rewrite (go_bits _ _ Hok) by lia. by rewrite bool_decide_false by lia.
  - intros b. rewrite elem_of_seqZ. split.
    + intros (j & bgj & k & Ej & Hk & -> & Hbit). cbn in Ej. rewrite zget_insert in Ej by lia.
      case_decide as Hij.
      * injection Ej as <-. unfold bg' in Hbit. cbn in Hbit. rewrite Hbits in Hbit by done.
        apply andb_true_iff in Hbit as [Hn1%negb_true_iff%bool_decide_eq_false Hbit].
        split; [by exists i, bg, k|]. cbn. lia.
      * split; [by exists j, bgj, k|]. destruct (wo_bg _ _ _ Hw _ _ Ej) as [_ Hfj]. nia.
    + intros [(j & bgj & k & Ej & Hk & -> & Hbit) Hout].
      destruct (decide (i = j)) as [<-|Hij].
      * rewrite E in Ej. injection Ej as <-. exists i, bg', k. cbn.
        rewrite zget_insert, decide_True, Hbits, Hbit, bool_decide_false by (done || lia).
        split_and!; (done || lia).
      * exists j, bgj, k. cbn. rewrite zget_insert, decide_False by (done || lia). done.
  - cbn. rewrite list_fmap_insert. apply list_insert_id.
    rewrite list_lookup_fmap. unfold zget in E. case_decide; [|done]. by rewrite E.
Qed.

Lemma reduce_allocation_spec info aux w alloc p r bg len fuel :
  geometry info aux -> world_ok info aux w ->
  l_last (a_list alloc) = Some p -> regs (w_heap w) !! p = Some r ->
  zget (w_bgs w) (r_bg r) = Some bg ->
  r_block r + r_len r = first_block bg + first_free_block bg -> first_block bg <= r_block r ->
  0 < len < r_len r -> (2 <= fuel)%nat ->
  exists w', reduce_allocation fuel alloc len w = Done alloc w' /\ world_ok info aux w' /\
    freed info w (seqZ (r_block r + r_len r - len) len) w' /\
    w_heap w' = mk_rheap (<[p := set_len (r_len r - len) r]> (regs (w_heap w))) (next_reg (w_heap w)).
Proof.
  intros Hgeo Hw Hlast Hr Hbg Hend Hin Hlen Hfuel.
  destruct fuel as [|[|f]]; [lia|lia|]. cbn [reduce_allocation].
  rewrite (proj2 (Z.eqb_neq len 0)) by lia. rewrite Hlast.
  erewrite mbind_done by (apply with_heap_done, read_region_some; exact Hr).
  rewrite set_heap_id, (proj2 (Z.ltb_lt _ _)) by lia.
  destruct (freed_blocks_spec info aux w (r_bg r) bg len Hgeo Hw Hbg ltac:(lia))
    as (w1 & E & Hw1 & Hh1 & Hfr).
  rewrite (mbind_done _ _ _ _ _ E).
  erewrite mbind_done by (apply with_heap_done, write_region_some; rewrite Hh1; exact Hr).
  eexists. split; [done|]. split_and!.
  - apply world_ok_heap; [done|]. apply heap_ok_insert; [apply Hw1|].
    rewrite Hh1. by apply (wo_heap _ _ _ Hw); eexists.
  - rewrite Hend. destruct Hfr as [H1 H2 H3 H4]. by split.
  - cbn. by rewrite Hh1.
Qed.

