(* ===== verification/InodeSpec.v ===== *)
(** * Inodes of the world: access, and what the inode allocator guarantees *)

From S2P Require Import Prelude Bytes Ext4Info Inode Bitmap BlockGroup Regions Alloc AllocSpec.

(** ** Access through a pointer *)

Definition inode_at (w : world) (p : inode_ptr) : option ext4_inode :=
  bg ← zget (w_bgs w) p.1; t ← inode_table bg; zget t p.2.

(** The world with the inode behind [p] replaced. *)
Definition put_inode (p : inode_ptr) (ino : ext4_inode) (w : world) : world :=
  match zget (w_bgs w) p.1 with
  | Some bg => match inode_table bg with
               | Some t => set_bgs (<[Z.to_nat p.1 := set_inode_table (Some (<[Z.to_nat p.2 := ino]> t)) bg]>
                                     (w_bgs w)) w
               | None => w
               end
  | None => w
  end.

Lemma with_inode_done {A} p (m : M ext4_inode A) w ino a ino' :
  inode_at w p = Some ino -> m ino = Done a ino' -> with_inode p m w = Done a (put_inode p ino' w).
Proof.
  unfold inode_at, with_inode, with_bg, put_inode, zoom. intros E Em.
  apply bind_Some in E as (bg & Ebg & E). apply bind_Some in E as (t & Et & E).
  by rewrite Ebg, Et, E, Em.
Qed.

Lemma inode_at_put p ino ino0 w :
  inode_at w p = Some ino0 -> inode_at (put_inode p ino w) p = Some ino.
Proof.
  unfold inode_at, put_inode. intros E. apply bind_Some in E as (bg & Ebg & E).
  apply bind_Some in E as (t & Et & E). rewrite Ebg, Et. cbn.
  rewrite zget_insert, decide_True by (done || by eapply zget_some_inv). cbn.
  by rewrite zget_insert, decide_True by (done || by eapply zget_some_inv).
Qed.

Lemma put_inode_twice p ino ino' w : put_inode p ino' (put_inode p ino w) = put_inode p ino' w.
Proof.
  unfold put_inode at 2 3. destruct (zget (w_bgs w) p.1) as [bg|] eqn:Ebg.
  - destruct (inode_table bg) as [t|] eqn:Et.
    + unfold put_inode. cbn. rewrite zget_insert, decide_True by (done || by eapply zget_some_inv).
      cbn. rewrite !list_insert_insert_eq. done.
    + unfold put_inode. by rewrite Ebg, Et.
  - unfold put_inode. by rewrite Ebg.
Qed.

Lemma put_inode_id p ino w : inode_at w p = Some ino -> put_inode p ino w = w.
Proof.
  unfold inode_at, put_inode. intros E. apply bind_Some in E as (bg & Ebg & E).
  apply bind_Some in E as (t & Et & E). rewrite Ebg, Et.
  assert (Ht : <[Z.to_nat p.2 := ino]> t = t).
  { apply list_insert_id. unfold zget in E. by case_decide. }
  rewrite Ht. assert (Hb : set_inode_table (Some t) bg = bg) by (rewrite <-Et; by destruct bg).
  rewrite Hb. by apply set_bgs_id.
Qed.

Lemma put_inode_rest p ino w :
  w_heap (put_inode p ino w) = w_heap w /\ w_bufs (put_inode p ino w) = w_bufs w /\
  w_sparse (put_inode p ino w) = w_sparse w /\ w_xattrs (put_inode p ino w) = w_xattrs w.
Proof.
  unfold put_inode. destruct (zget _ _) as [bg|]; [|done]. by destruct (inode_table bg).
Qed.

(** Another inode is not touched. *)
Lemma inode_at_put_ne p q ino w :
  0 <= p.1 -> 0 <= p.2 -> p <> q -> inode_at (put_inode p ino w) q = inode_at w q.
Proof.
  intros H1 H2 Hne. unfold inode_at, put_inode.
  destruct (zget (w_bgs w) p.1) as [bg|] eqn:Ebg; [|done].
  destruct (inode_table bg) as [t|] eqn:Et; [|done]. cbn.
  rewrite zget_insert by (by eapply zget_some_inv). case_decide as Hd; [|done].
  rewrite <-Hd, Ebg. cbn. rewrite Et. cbn.
  unfold zget. case_decide; [|done]. apply list_lookup_insert_ne.
  intros E. apply Hne. destruct p as [p1 p2], q as [q1 q2]. cbn in *. f_equal; lia.
Qed.

(** ** What the block allocator looks at *)

Definition block_part (bg : block_group_info) :=
  (first_block bg, block_bitmap bg, free_blocks_count bg, first_free_block bg, data_blocks_used bg).

Lemma put_inode_block_part p ino w :
  block_part <$> w_bgs (put_inode p ino w) = block_part <$> w_bgs w.
Proof.
  unfold put_inode. destruct (zget (w_bgs w) p.1) as [bg|] eqn:E; [|done].
  destruct (inode_table bg) as [t|]; [|done]. cbn. rewrite list_fmap_insert. apply list_insert_id.
  rewrite list_lookup_fmap. unfold zget in E. case_decide; [|done]. by rewrite E.
Qed.

Lemma zget_fmap {A B} (f : A -> B) (l : list A) i : zget (f <$> l) i = f <$> zget l i.
Proof. unfold zget. case_decide; [|done]. apply list_lookup_fmap. Qed.

Lemma block_part_get w w' i bg' :
  block_part <$> w_bgs w' = block_part <$> w_bgs w -> zget (w_bgs w') i = Some bg' ->
  exists bg, zget (w_bgs w) i = Some bg /\ block_part bg = block_part bg'.
Proof.
  intros E Ei. pose proof (zget_fmap block_part (w_bgs w') i) as H. rewrite E, zget_fmap, Ei in H.
  destruct (zget (w_bgs w) i) as [bg|]; [|done]. exists bg. split; [done|]. cbn in H; congruence.
Qed.

Lemma used_block_part info w w' b :
  block_part <$> w_bgs w' = block_part <$> w_bgs w -> used info w' b <-> used info w b.
Proof.
  enough (H : forall w w', block_part <$> w_bgs w' = block_part <$> w_bgs w -> used info w' b -> used info w b).
  { intros E. split; apply H; by symmetry in E. }
  clear. intros w w' E (i & bg' & k & Ei & Hk & -> & Hb).
  destruct (block_part_get _ _ _ _ E Ei) as (bg & Ebg & Hp). exists i, bg, k.
  unfold block_part in Hp. injection Hp as -> -> _ _ _. done.
Qed.

Lemma world_ok_block_part info aux w w' :
  block_part <$> w_bgs w' = block_part <$> w_bgs w -> heap_ok (w_heap w') ->
  world_ok info aux w -> world_ok info aux w'.
Proof.
  intros E Hh [Hg Hb _]. split; [|intros i bg' Ei|done].
  - rewrite <-Hg, <-(length_fmap block_part (w_bgs w')), E. by rewrite length_fmap.
  - destruct (block_part_get _ _ _ _ E Ei) as (bg & Ebg & Hp). destruct (Hb _ _ Ebg) as [[? ? ? ? ? ? ?] Hf].
    unfold block_part in Hp. injection Hp as H1 H2 H3 H4 H5. unfold bits_of in *.
    rewrite <-H1. split; [|done]. split; unfold bits_of; by rewrite <-?H2, <-?H3, <-?H4.
Qed.

(** ** The inode allocator *)

(** Inode number [n] has its bit set in its group's bitmap. *)
Definition inode_used (info : fs_info) (w : world) (n : Z) : Prop :=
  exists i bg k, zget (w_bgs w) i = Some bg /\ 0 <= k < inodes_per_group info /\
    n = i * inodes_per_group info + k + 1 /\ bit (inode_bitmap bg) k = true.

(** A group hands out its inodes in order. *)
Record inodes_ok (info : fs_info) (bg : block_group_info) : Prop := {
  io_first : 1 <= first_free_inode bg;
  io_free : 0 <= free_inodes_count bg;
  io_sum : first_free_inode bg - 1 + free_inodes_count bg = inodes_per_group info;
  io_size : inodes_per_group info <= 8 * Z.of_nat (length (inode_bitmap bg)) < 2 ^ 31;
  io_bits k : 0 <= k < inodes_per_group info ->
    bit (inode_bitmap bg) k = bool_decide (k < first_free_inode bg - 1)
}.

Definition inodes_world (info : fs_info) (aux : fs_aux_info) (w : world) : Prop :=
  Z.of_nat (length (w_bgs w)) = groups aux /\ 0 <= groups aux /\
  groups aux * inodes_per_group info < 2 ^ 32 - 1 /\
  forall i bg, zget (w_bgs w) i = Some bg -> inodes_ok info bg.

(** The group after its next inode was handed out. *)
Definition inode_taken (bm : list Z) (bg : block_group_info) : block_group_info :=
  set_first_free_inode (first_free_inode bg + 1)
    (set_free_inodes_count (free_inodes_count bg - 1) (set_inode_bitmap bm bg)).

Lemma reserve_one_inode info bg :
  inodes_ok info bg -> inodes_per_group info < 2 ^ 32 - 1 ->
  if free_inodes_count bg <? 1
  then reserve_inodes_bg 1 bg = Done EXT4_ALLOCATE_FAILED bg
  else exists bm, reserve_inodes_bg 1 bg = Done (first_free_inode bg) (inode_taken bm bg) /\
    inodes_ok info (inode_taken bm bg) /\
    (forall k, bit bm k = bool_decide (k = first_free_inode bg - 1) || bit (inode_bitmap bg) k).
Proof.
  intros [H1 H2 H3 H4 H5] Hsmall. unfold reserve_inodes_bg. rewrite (mbind_done _ _ _ bg bg) by done.
  destruct (Z.ltb_spec (free_inodes_count bg) 1) as [Hlt|Hge]; [done|].
  destruct (set_bit_marked (inode_bitmap bg) (first_free_inode bg - 1)) as (bm & Eb & Hm); [lia| |].
  { rewrite H5 by lia. by apply bool_decide_false; lia. }
  exists bm. change (Z.to_nat 1) with 1%nat. cbn [mark_inodes].
  rewrite (u32_small (first_free_inode bg - 1)) by lia.
  cbv [mbind' get deref mret' put]. rewrite Eb. cbn. rewrite !u32_small by lia.
  pose proof (marked_length _ _ _ _ Hm) as L.
  assert (Hbits : forall k, bit bm k = bool_decide (k = first_free_inode bg - 1) || bit (inode_bitmap bg) k).
  { intros k. rewrite (marked_bit _ _ _ _ Hm). f_equal. apply bool_decide_ext. lia. }
  split_and!; [done| |done]. split; cbn; rewrite ?L; try lia.
  intros k Hk. rewrite Hbits, H5 by lia. repeat case_bool_decide; (done || lia).
Qed.

Lemma allocate_inode_loop_spec info aux w gs :
  inodes_world info aux w -> 0 < inodes_per_group info -> (forall i, i ∈ gs -> 0 <= i < groups aux) ->
  (allocate_inode_loop info gs w = Done EXT4_ALLOCATE_FAILED w /\
   forall i bg, i ∈ gs -> zget (w_bgs w) i = Some bg -> free_inodes_count bg < 1) \/
  (exists i bg bm w', zget (w_bgs w) i = Some bg /\ 1 <= free_inodes_count bg /\
     allocate_inode_loop info gs w =
       Done (i * inodes_per_group info + first_free_inode bg) w' /\
     w' = set_bgs (<[Z.to_nat i := inode_taken bm bg]> (w_bgs w)) w /\
     inodes_ok info (inode_taken bm bg) /\
     (forall k, bit bm k = bool_decide (k = first_free_inode bg - 1) || bit (inode_bitmap bg) k)).
Proof.
  intros (Hg & Hg0 & Hsmall & Hok) Hipg. induction gs as [|i gs IH]; intros Hgs.
  { left. split; [done|]. by intros i bg ?%not_elem_of_nil. }
  assert (Hi : 0 <= i < groups aux) by (apply Hgs, elem_of_cons; by left).
  destruct (zget_some (w_bgs w) i) as [bg E]; [lia|].
  assert (Hi1 : inodes_per_group info <= groups aux * inodes_per_group info) by nia.
  pose proof (reserve_one_inode info bg (Hok _ _ E) ltac:(lia)) as Hr.
  pose proof (Hok _ _ E) as [H1 H2 H3 H4 H5].
  cbn [allocate_inode_loop]. unfold reserve_inodes.
  destruct (Z.ltb_spec (free_inodes_count bg) 1) as [Hlt|Hge].
  - rewrite (mbind_done _ _ _ _ _ (with_bg_done _ _ _ _ _ _ E Hr)), Z.eqb_refl, (set_bgs_id _ _ _ E).
    destruct IH as [[-> Hall]|IH]; [intros j Hj; apply Hgs, elem_of_cons; by right| |by right].
    left. split; [done|]. intros j bg' [->|Hj]%elem_of_cons Ej; [congruence|by eapply Hall].
  - destruct Hr as (bm & Er & Hok' & Hbits). right.
    rewrite (mbind_done _ _ _ _ _ (with_bg_done _ _ _ _ _ _ E Er)).
    rewrite (proj2 (Z.eqb_neq _ _)) by (change EXT4_ALLOCATE_FAILED with (2 ^ 32 - 1); lia).
    eexists i, bg, bm, _. split_and!; try done. unfold mret'. rewrite u32_small by nia. done.
Qed.
