(* ===== verification/AllocProps.v ===== *)
(** * Properties of the block allocator (ext4_utils/allocate.c)

    The theorems about blocks: reserving and freeing them in a group, setting
    up the groups, allocating a list of regions, reading and splitting it. The
    witnesses run on a small image: two groups of eight one-byte blocks, the
    second cut by the end of the file system. *)

From S2P Require Import Prelude Bytes Ext4Info Inode Bitmap BlockGroup Regions Alloc AllocSpec InodeSpec.

(** ** A small image *)

Definition example_info : fs_info :=
  mk_fs_info 14 1 8 8 128 16 0 EXT4_FEATURE_RO_COMPAT_SPARSE_SUPER 0 0 0 [] 0.
Definition example_aux : fs_aux_info := mk_fs_aux_info 0 14 1 2 1 0 0 0 0.
Definition empty_world : world := mk_world [] (mk_rheap ∅ 0) [] [] [].
Definition example_bg (i c : Z) (b : Z) : block_group_info :=
  set_first_free_block 5
    (set_free_blocks_count c (set_block_bitmap [b] (fresh_bg example_info example_aux i))).
Definition example_world : world :=
  mk_world [example_bg 0 3 0x1f; example_bg 1 1 0xdf] (mk_rheap ∅ 0)
    [mk_sparse (SrcBitmaps 1) 2 10; mk_sparse (SrcBitmaps 0) 2 2] [] [].

Lemma example_init : block_allocator_init true example_info example_aux empty_world = Done tt example_world.
Proof. vm_compute. reflexivity. Qed.

Lemma example_geometry : geometry example_info example_aux.
Proof. by split. Qed.

Lemma example_fits i : 0 <= i < groups example_aux -> group_fits example_info example_aux i.
Proof.
  intros Hi. assert (i = 0 \/ i = 1) as [->| ->] by (cbn in Hi; lia);
    split; vm_compute; intuition discriminate.
Qed.

Lemma empty_heap_ok : heap_ok (mk_rheap ∅ 0).
Proof. intros i. cbn. by intros [r Hr%lookup_empty_Some]. Qed.

Lemma example_world_ok : world_ok example_info example_aux example_world.
Proof.
  destruct (block_allocator_init_spec true example_info example_aux example_geometry empty_world
    empty_heap_ok example_fits) as (w' & E & Hok & _).
  rewrite example_init in E. by injection E as <-.
Qed.

Lemma example_live : live 1 example_world.
Proof.
  intros i g E _. apply zget_some_inv in E as Hi. cbn in Hi.
  assert (i = 0 \/ i = 1) as [->| ->] by lia; by injection E as <-.
Qed.

(** ** One group *)

(** C2: [reserve_blocks] on any bitmap: refused without a change when the group
    has too few free blocks; otherwise the bit by bit and byte by byte loops
    together mark exactly the interval when it was free, and report an error
    when some block of it was not. *)
Theorem reserve_blocks_correct (force : bool) (start num : Z) (bg : block_group_info)
  (Hok : bytes_ok (block_bitmap bg)) (Hnum : 0 <= num) (Hs : 0 <= start)
  (Hend : start + num <= bits_of bg) (Hlen : bits_of bg < 2 ^ 31) :
  (free_blocks_count bg < num /\ reserve_blocks force start num bg = Done (-1) bg) \/
  (num <= free_blocks_count bg /\ range_clear (block_bitmap bg) start (start + num) /\
   exists bm', reserve_blocks force start num bg = Done 0 (reserved_bg start num bm' bg) /\
     marked (block_bitmap bg) start (start + num) bm') \/
  (num <= free_blocks_count bg /\
   (exists j, start <= j < start + num /\ bit (block_bitmap bg) j = true) /\
   reserve_failed force bg (-1) (reserve_blocks force start num bg)).
Proof.
  destruct (decide (free_blocks_count bg < num)) as [Hlt|Hge].
  - left. split; [done|]. unfold reserve_blocks. rewrite (mbind_done _ _ _ bg bg) by done.
    by rewrite (proj2 (Z.ltb_lt _ _)).
  - right. destruct (reserve_blocks_cases force start num bg) as [[Hc Hr]|[Hc Hr]];
      [done|lia|done..| |]; [left|right]; (split_and!; [lia|done|done]).
Qed.

Definition reserve_example : block_group_info :=
  set_free_blocks_count 20 (set_block_bitmap [0x01; 0; 0; 0x80] (fresh_bg example_info example_aux 0)).

Lemma reserve_blocks_correct_witness :
  bit (block_bitmap reserve_example) 3 = false /\
  ((free_blocks_count reserve_example < 18 /\
    reserve_blocks true 3 18 reserve_example = Done (-1) reserve_example) \/
   (18 <= free_blocks_count reserve_example /\
    range_clear (block_bitmap reserve_example) 3 (3 + 18) /\
    exists bm', reserve_blocks true 3 18 reserve_example = Done 0 (reserved_bg 3 18 bm' reserve_example) /\
      marked (block_bitmap reserve_example) 3 (3 + 18) bm') \/
   (18 <= free_blocks_count reserve_example /\
    (exists j, 3 <= j < 3 + 18 /\ bit (block_bitmap reserve_example) j = true) /\
    reserve_failed true reserve_example (-1) (reserve_blocks true 3 18 reserve_example))).
Proof.
  split; [reflexivity|].
  apply (reserve_blocks_correct true 3 18 reserve_example); [|vm_compute; intuition discriminate..|done].
  repeat constructor; vm_compute; intuition discriminate.
Defined.

(** [free_blocks] undoes the latest reservation of a group: taking the next
    [num] blocks and giving [num] back restores the group, bitmap included. *)
Theorem free_blocks_undoes_reserve (force : bool) (info : fs_info) (bg : block_group_info) (num : Z)
  (Hok : group_ok info bg) (Hnum : 0 <= num <= free_blocks_count bg) :
  exists bg', reserve_blocks force (first_free_block bg) num bg = Done 0 bg' /\
    free_blocks_count bg' = free_blocks_count bg - num /\
    free_blocks num bg' = Done tt bg.
Proof.
  pose proof (reserve_next force _ _ num Hok ltac:(lia)) as Hr.
  rewrite (proj2 (Z.ltb_ge _ _)) in Hr by lia. destruct Hr as (bm & E & Hm).
  pose proof (group_ok_take _ _ _ _ Hok Hnum Hm) as Hok'.
  destruct (free_blocks_spec info num _ Hok') as (bm' & E' & Hok2 & L & B);
    [cbn; pose proof (go_first _ _ Hok); lia|].
  eexists. split; [exact E|]. split; [done|]. rewrite E'. f_equal. cbn in L, B.
  assert (bm' = block_bitmap bg) as ->.
  { apply bits_ext; [apply Hok2|apply Hok|by rewrite L, (marked_length _ _ _ _ Hm)|].
    intros j. rewrite B, (marked_bit _ _ _ _ Hm).
    destruct (decide (first_free_block bg <= j < first_free_block bg + num)).
    - rewrite !bool_decide_true by lia. cbn. symmetry. apply (group_ok_clear _ _ Hok). lia.
    - rewrite !bool_decide_false by lia. done. }
  destruct bg; unfold set_first_free_block, set_free_blocks_count, set_block_bitmap; cbn. f_equal; lia.
Qed.

Lemma example_group_ok : group_ok example_info (example_bg 0 3 0x1f).
Proof. by apply (wo_bg _ _ _ example_world_ok 0). Qed.

Lemma free_blocks_undoes_reserve_witness :
  exists bg', reserve_blocks true 5 2 (example_bg 0 3 0x1f) = Done 0 bg' /\
    free_blocks_count bg' = 1 /\ free_blocks 2 bg' = Done tt (example_bg 0 3 0x1f).
Proof.
  apply (free_blocks_undoes_reserve true example_info (example_bg 0 3 0x1f) 2 example_group_ok).
  vm_compute; intuition discriminate.
Defined.

(** ** Setting up the groups *)

(** [block_allocator_init] succeeds on a geometry where each group's header
    fits what the file system has of it; afterwards the blocks in use are the
    groups' headers and the blocks past the end of the file system. *)
Theorem block_allocator_init_correct (force : bool) (info : fs_info) (aux : fs_aux_info) (w : world)
  (Hgeo : geometry info aux) (Hheap : heap_ok (w_heap w))
  (Hfit : forall i, 0 <= i < groups aux -> group_fits info aux i) :
  exists w', block_allocator_init force info aux w = Done tt w' /\ world_ok info aux w' /\
    forall i k, 0 <= i < groups aux -> 0 <= k < blocks_per_group info ->
      used info w' (first_data_block aux + i * blocks_per_group info + k) <->
      k < bg_header_blocks info aux i \/ group_len info aux i <= k.
Proof.
  destruct (block_allocator_init_spec force info aux Hgeo w Hheap Hfit) as (w' & E & Hok & Hall).
  exists w'. split_and!; [done|done|]. intros i k Hi Hk.
  destruct (Hall i Hi) as (bg & Ebg & Hinit).
  rewrite <-(init_ok_used info aux i bg k (Hfit i Hi) Hinit Hk).
  apply used_in_group with (aux := aux); done.
Qed.

Lemma block_allocator_init_correct_witness :
  exists w', block_allocator_init true example_info example_aux empty_world = Done tt w' /\
    world_ok example_info example_aux w' /\
    forall i k, 0 <= i < groups example_aux -> 0 <= k < blocks_per_group example_info ->
      used example_info w' (first_data_block example_aux + i * blocks_per_group example_info + k) <->
      k < bg_header_blocks example_info example_aux i \/ group_len example_info example_aux i <= k.
Proof.
  apply (block_allocator_init_correct true example_info example_aux empty_world
    example_geometry empty_heap_ok example_fits).
Defined.

(** ** Allocating *)



(** The example's request of four blocks is served from both groups. *)
Example allocate_blocks_two_groups :
  result (do alloc <- allocate_blocks true example_aux 4 4;
          match alloc with
          | None => stuck
          | Some alloc => with_heap (do a <- get_block alloc 0; do b <- get_block alloc 3;
                                     do c <- get_block alloc 4; mret' [a; b; c])
          end) example_world = Some [5; 13; EXT4_ALLOCATE_FAILED].
Proof. vm_compute. reflexivity. Qed.

(** [allocate_block] takes one free block of the first group that has one,
    and fails only when every group is full. *)
Theorem allocate_block_correct (force : bool) (info : fs_info) (aux : fs_aux_info) (w : world)
  (Hgeo : geometry info aux) (Hw : world_ok info aux w) :
  (allocate_block force aux w = Done EXT4_ALLOCATE_FAILED w /\
   forall i, 0 <= i < groups aux -> refuses w 1 i) \/
  (exists b w', allocate_block force aux w = Done b w' /\ 0 <= b < EXT4_ALLOCATE_FAILED /\
     world_ok info aux w' /\ allocated info w [b] w').
Proof.
  destruct (allocate_block_loop_spec force info aux Hgeo w (seqZ 0 (groups aux)) Hw)
    as [[E Hr]|H]; [apply elem_of_groups| |by right].
  left. split; [exact E|]. intros i Hi. apply Hr, elem_of_seqZ. lia.
Qed.

Lemma allocate_block_correct_witness :
  (allocate_block true example_aux example_world = Done EXT4_ALLOCATE_FAILED example_world /\
   forall i, 0 <= i < groups example_aux -> refuses example_world 1 i) \/
  (exists b w', allocate_block true example_aux example_world = Done b w' /\
     0 <= b < EXT4_ALLOCATE_FAILED /\
     world_ok example_info example_aux w' /\ allocated example_info example_world [b] w').
Proof.
  apply (allocate_block_correct true example_info example_aux example_world
    example_geometry example_world_ok).
Defined.

(** ** A group without free blocks that no data is in *)

(** Group [i] is the first that no data block was allocated from, and it is full. *)
Definition full_unused (w : world) (i : Z) : Prop :=
  (exists bg, zget (w_bgs w) i = Some bg /\ data_blocks_used bg = 0 /\ free_blocks_count bg = 0) /\
  forall j, 0 <= j < i -> exists bg, zget (w_bgs w) j = Some bg /\ data_blocks_used bg <> 0.

Lemma partial_loop_skip force aux len pre gs w :
  (forall j, j ∈ pre -> exists bg, zget (w_bgs w) j = Some bg /\ data_blocks_used bg <> 0) ->
  partial_loop force aux len (pre ++ gs) w = partial_loop force aux len gs w.
Proof.
  induction pre as [|j pre IH]; intros Hpre; [done|].
  destruct (Hpre j) as (bg & E & Hu); [apply elem_of_cons; by left|].
  cbn [app partial_loop]. rewrite (mbind_done _ _ _ _ _ (with_bg_get _ _ _ _ E)).
  rewrite (proj2 (Z.eqb_neq _ _) Hu). apply IH. intros k Hk. apply Hpre, elem_of_cons. by right.
Qed.

Lemma full_unused_partial force info aux w i len :
  geometry info aux -> world_ok info aux w -> 1 <= len -> full_unused w i ->
  exists p w', ext4_allocate_partial force aux len w = Done (Some p) w' /\
    got_region info aux w 0 p w' /\ full_unused w' i.
Proof.
  intros Hgeo Hw Hlen [(bg & E & Hu & Hf) Hpre].
  pose proof (zget_some_inv _ _ _ E) as Hi. pose proof (wo_groups _ _ _ Hw) as Hg.
  unfold ext4_allocate_partial.
  replace (groups aux) with (i + (groups aux - i)) by lia.
  rewrite seqZ_app by lia. rewrite partial_loop_skip.
  2: { intros j Hj%elem_of_seqZ. apply Hpre. lia. }
  rewrite (seqZ_cons (0 + i)) by lia. cbn [partial_loop].
  change (0 + i) with i. rewrite (mbind_done _ _ _ _ _ (with_bg_get _ _ _ _ E)), Hu.
  change (0 =? 0) with true. cbv iota.
  unfold get_free_blocks. rewrite (mbind_done _ _ _ _ _ (with_bg_get _ _ _ _ E)), Hf.
  rewrite (proj2 (Z.leb_gt _ _)) by lia.
  pose proof (allocate_from_group force info aux Hgeo w i bg 0 Hw E ltac:(lia)) as Hstep.
  rewrite (proj2 (Z.ltb_ge _ _)) in Hstep by lia.
  destruct Hstep as (bm & Es & Hb & Hend & Hw' & Ha).
  rewrite (mbind_done _ _ _ _ _ Es), block_not_failed by lia.
  destruct (malloc_got_region info aux w _ bg bm i 0 eq_refl E (proj1 (wo_bg _ _ _ Hw _ _ E)) ltac:(lia) Hw' Ha ltac:(lia) Hb ltac:(lia))
    as (w' & Em & Hgot).
  rewrite (mbind_done _ _ _ _ _ Em). eexists _, w'. split_and!; [done|done|].
  assert (Ebgs : w_bgs w' = <[Z.to_nat i := taken_bg bm 0 bg]> (w_bgs w)).
  { unfold with_heap, zoom, malloc_region in Em. by injection Em as <-. }
  split.
  - exists (taken_bg bm 0 bg). rewrite Ebgs, zget_insert, decide_True by done.
    split_and!; [done| |cbn; lia]. cbn. by rewrite Hu.
  - intros j Hj. rewrite Ebgs, zget_insert, decide_False by lia. by apply Hpre.
Qed.

(** C3: the loop of [ext4_allocate_multiple_contiguous_blocks] never ends once the
    first group without data is full: [ext4_allocate_partial] hands out an empty
    region of it on each turn, so no number of turns is enough. *)
Theorem allocate_multiple_diverges (force : bool) (info : fs_info) (aux : fs_aux_info)
    (fuel : nat) (len : Z) (w : world) (i : Z)
  (Hgeo : geometry info aux) (Hw : world_ok info aux w) (Hlen : 1 <= len < 2 ^ 32)
  (Hfull : full_unused w i) :
  ext4_allocate_multiple_contiguous_blocks force aux fuel len w = NoFuel.
Proof.
  unfold ext4_allocate_multiple_contiguous_blocks.
  assert (Hacc : acc_list (w_heap w) None None []) by by left. revert Hacc.
  generalize (None : option nat) at 1 3 as first.
  generalize (None : option nat) as prev. generalize ([] : list (nat * region)) as l.
  revert w Hw Hfull. induction fuel as [|f IH]; intros w Hw Hfull l prev first Hacc; [done|].
  cbn [multiple_loop]. rewrite (proj2 (Z.ltb_lt _ _)) by lia.
  destruct (full_unused_partial force info aux w i len Hgeo Hw ltac:(lia) Hfull)
    as (p & w1 & E & Hgot & Hfull1).
  rewrite (mbind_done _ _ _ _ _ E).
  destruct (link_region_spec _ _ _ _ _ _ _ _ _ Hw Hgot Hacc)
    as (w2 & l' & r & El & Eb & Hw2 & Hr & _ & Ep & Hacc' & _).
  rewrite (mbind_done _ _ _ _ _ El).
  erewrite mbind_done by (apply with_heap_done, read_region_some; exact Ep).
  rewrite set_heap_id, Hr, Z.sub_0_r, u32_small by lia.
  apply (IH w2 Hw2) with (l := l'); [|exact Hacc'].
  unfold full_unused. by rewrite Eb.
Qed.

(** The file system of [example_info] cut after the second group's header. *)
Definition cut_aux : fs_aux_info := mk_fs_aux_info 0 13 1 2 1 0 0 0 0.
Definition cut_world : world :=
  mk_world [set_data_blocks_used 3 (set_first_free_block 8 (example_bg 0 0 0xff));
            example_bg 1 0 0xff] (mk_rheap ∅ 0) [] [] [].

Lemma cut_world_ok : world_ok example_info cut_aux cut_world.
Proof.
  split; [done| |apply empty_heap_ok]. intros i bg E.
  apply zget_some_inv in E as Hi. cbn in Hi.
  assert (i = 0 \/ i = 1) as [->| ->] by lia; injection E as <-; (split; [|done]).
  all: split; try (vm_compute; intuition discriminate);
    [repeat constructor; vm_compute; intuition discriminate|].
  all: intros k Hk; cbn in Hk.
  all: assert (k = 0 \/ k = 1 \/ k = 2 \/ k = 3 \/ k = 4 \/ k = 5 \/ k = 6 \/ k = 7) as Hk' by lia.
  all: by repeat destruct Hk' as [->|Hk']; subst.
Qed.

Lemma allocate_multiple_diverges_witness :
  ext4_allocate_multiple_contiguous_blocks true cut_aux 100 1 cut_world = NoFuel.
Proof.
  apply (allocate_multiple_diverges true example_info cut_aux 100 1 cut_world 1);
    [by split|exact cut_world_ok|lia|].
  split; [by eexists|]. intros j Hj. assert (j = 0) as -> by lia. by eexists.
Defined.

(** ** Reading and splitting an allocation *)

(** [get_block] counts from the cursor: the [n]-th block of the rest of the
    list, or [EXT4_ALLOCATE_FAILED] past its end; the list is not changed. *)
Theorem get_block_correct (h : rheap) (alloc : block_allocation) (l : list (nat * region)) (n : Z)
  (Hs : seg (regs h) (l_iter (a_list alloc)) l None) (Hok : Forall region_ok l.*2)
  (Hn : 0 <= n) (Hp : 0 <= partial_iter (a_list alloc))
  (Hb : n + partial_iter (a_list alloc) < 2 ^ 32) :
  get_block alloc n h =
    Done (default EXT4_ALLOCATE_FAILED
            (zget (blocks_of l.*2) (n + partial_iter (a_list alloc)))) h.
Proof. by apply get_list_block_spec. Qed.

Definition example_heap : rheap :=
  mk_rheap (<[1%nat := mk_region 20 3 0 None (Some 0%nat)]>
    (<[0%nat := mk_region 10 4 0 (Some 1%nat) None]> ∅)) 2.
Definition example_alloc : block_allocation :=
  mk_alloc (mk_region_list (Some 0%nat) (Some 1%nat) (Some 0%nat) 1) (mk_region_list None None None 0).
Definition example_nodes : list (nat * region) :=
  [(0%nat, mk_region 10 4 0 (Some 1%nat) None); (1%nat, mk_region 20 3 0 None (Some 0%nat))].

Lemma get_block_correct_witness :
  get_block example_alloc 4 example_heap =
    Done (default EXT4_ALLOCATE_FAILED (zget (blocks_of example_nodes.*2) (4 + 1))) example_heap.
Proof.
  apply (get_block_correct example_heap example_alloc example_nodes 4); [|repeat constructor; cbn; lia|cbn; lia..].
  by repeat split.
Defined.

(** [reserve_oob_blocks] on an allocation of one region splits it: the first
    [n] blocks become the out of band list, the cursor list keeps the others;
    its [last] pointer is lost. *)
Theorem reserve_oob_blocks_correct (h : rheap) (p : nat) (r : region) (n : Z)
  (Hh : heap_ok h) (Hr : regs h !! p = Some r) (Hrok : region_ok r) (Hprev : r_prev r = None)
  (Hnext : r_next r = None) (Hn : 0 < n < r_len r) (Hlen : r_len r < 2 ^ 31) :
  exists alloc' h',
    reserve_oob_blocks (mk_alloc (mk_region_list (Some p) (Some p) (Some p) 0)
                          (mk_region_list None None None 0)) n h = Done (0, alloc') h' /\
    (forall k, 0 <= k < n -> get_oob_block alloc' k h' = Done (r_block r + k) h') /\
    (forall k, 0 <= k < r_len r - n -> get_block alloc' k h' = Done (r_block r + n + k) h') /\
    block_allocation_len alloc' h' = Done (r_len r - n) h' /\
    l_last (a_list alloc') = None.
Proof.
  destruct Hrok as (? & ? & ?).
  rewrite (reserve_oob_blocks_head h _ p r n) by (done || lia).
  pose proof (heap_ok_fresh _ Hh) as Hf. assert (Hne : next_reg h <> p) by congruence.
  set (q := next_reg h) in *.
  set (rp := mk_region (r_block r) n (r_bg r) None None).
  set (rq := mk_region (r_block r + n) (r_len r - n) (r_bg r) None None).
  assert (Hp : regs (split_heap h p r n) !! p = Some rp) by apply lookup_insert_eq.
  assert (Hq : regs (split_heap h p r n) !! q = Some rq).
  { unfold split_heap. cbn. rewrite lookup_insert_ne by done. rewrite Hnext.
    rewrite !u32_small by lia. apply lookup_insert_eq. }
  eexists _, _. split; [done|].
  assert (Sp : seg (regs (split_heap h p r n)) (Some p) [(p, rp)] None) by done.
  assert (Sq : seg (regs (split_heap h p r n)) (Some q) [(q, rq)] None) by done.
  assert (Oq : Forall region_ok [(q, rq)].*2) by (repeat constructor; cbn; lia).
  split_and!; [| | |done].
  - intros k Hk. unfold get_oob_block. rewrite (get_list_block_spec _ _ [(p, rp)]); cbn; try lia.
    + unfold blocks_of. cbn. rewrite app_nil_r, Z.add_0_r, zget_seqZ by lia. done.
    + done.
    + repeat constructor; cbn; lia.
  - intros k Hk. unfold get_block. rewrite (get_list_block_spec _ _ [(q, rq)]); cbn; try lia; try done.
    unfold blocks_of. cbn. rewrite app_nil_r, Z.add_0_r, zget_seqZ by lia. done.
  - rewrite (alloc_len_spec _ _ [(q, rq)]); [|done|done|cbn; lia]. f_equal. cbn. lia.
Qed.

Definition one_region : region := mk_region 100 9 0 None None.
Definition one_heap : rheap := mk_rheap {[ 0%nat := one_region ]} 1.

Lemma one_heap_ok : heap_ok one_heap.
Proof. intros i [r Hr]. cbn in Hr. apply lookup_singleton_Some in Hr as [<- _]. cbn. lia. Qed.

Lemma reserve_oob_blocks_correct_witness :
  exists alloc' h',
    reserve_oob_blocks (mk_alloc (mk_region_list (Some 0%nat) (Some 0%nat) (Some 0%nat) 0)
                          (mk_region_list None None None 0)) 2 one_heap = Done (0, alloc') h' /\
    (forall k, 0 <= k < 2 -> get_oob_block alloc' k h' = Done (r_block one_region + k) h') /\
    (forall k, 0 <= k < r_len one_region - 2 ->
       get_block alloc' k h' = Done (r_block one_region + 2 + k) h') /\
    block_allocation_len alloc' h' = Done (r_len one_region - 2) h' /\
    l_last (a_list alloc') = None.
Proof.
  apply (reserve_oob_blocks_correct one_heap 0 one_region 2);
    [exact one_heap_ok|done|by repeat split|done|done|done|done].
Defined.

(** [advance_blocks] moves the cursor inside its region by [n] blocks, but when
    it consumes the rest of the region it leaves the cursor at the region's
    first block again, instead of at the next region. *)
Theorem advance_blocks_behaviour (h : rheap) (alloc : block_allocation) (p : nat) (r : region)
    (l : list (nat * region)) (n : Z)
  (Hi : l_iter (a_list alloc) = Some p) (Hr : regs h !! p = Some r)
  (Hs : seg (regs h) (Some p) l None) (Hok : Forall region_ok l.*2)
  (Hp : 0 <= partial_iter (a_list alloc) < r_len r)
  (Hn : 0 < n <= r_len r - partial_iter (a_list alloc)) (Hlen : r_len r < 2 ^ 31) :
  exists alloc', advance_blocks alloc n h = Done (0, alloc') h /\
    forall k, 0 <= k < 2 ^ 31 ->
      get_block alloc' k h =
        if n =? r_len r - partial_iter (a_list alloc)
        then get_list_block (set_partial 0 (a_list alloc)) k h
        else get_block alloc (n + k) h.
Proof.
  destruct (Z.eqb_spec n (r_len r - partial_iter (a_list alloc))) as [Heq|Hne].
  - unfold advance_blocks. rewrite (mbind_done _ _ _ _ _ (advance_to_end h _ p r n Hi Hr Hp Heq Hlen)).
    by eexists.
  - unfold advance_blocks.
    rewrite (mbind_done _ _ _ _ _ (advance_inside h _ p r n Hi Hr ltac:(lia) ltac:(lia) ltac:(lia) ltac:(lia))).
    eexists. split; [done|]. intros k Hk. unfold get_block. cbn [a_list].
    rewrite (get_list_block_spec _ _ l) by (cbn; rewrite ?Hi; (done || lia)).
    rewrite (get_list_block_spec _ _ l) by (rewrite ?Hi; (done || lia)).
    cbn. do 3 f_equal. lia.
Qed.

Lemma advance_blocks_behaviour_witness :
  exists alloc', advance_blocks example_alloc 3 example_heap = Done (0, alloc') example_heap /\
    forall k, 0 <= k < 2 ^ 31 ->
      get_block alloc' k example_heap =
        if 3 =? r_len (mk_region 10 4 0 (Some 1%nat) None) - partial_iter (a_list example_alloc)
        then get_list_block (set_partial 0 (a_list example_alloc)) k example_heap
        else get_block example_alloc (3 + k) example_heap.
Proof.
  apply (advance_blocks_behaviour example_heap example_alloc 0 (mk_region 10 4 0 (Some 1%nat) None)
    example_nodes 3); [done|done|by repeat split|repeat constructor; cbn; lia|cbn; lia|cbn; lia|done].
Defined.

(** ** Shrinking an allocation *)

(** [reduce_allocation] by less than the last region frees exactly the last
    [len] blocks of the list, when that region is the latest of its group, and
    keeps the others. *)
Theorem reduce_allocation_correct (info : fs_info) (aux : fs_aux_info) (w : world)
    (alloc : block_allocation) (p : nat) (r : region) (bg : block_group_info) (len : Z) (fuel : nat)
  (Hgeo : geometry info aux) (Hw : world_ok info aux w)
  (Hlast : l_last (a_list alloc) = Some p) (Hr : regs (w_heap w) !! p = Some r)
  (Hbg : zget (w_bgs w) (r_bg r) = Some bg)
  (Hend : r_block r + r_len r = first_block bg + first_free_block bg)
  (Hin : first_block bg <= r_block r) (Hlen : 0 < len < r_len r) (Hfuel : (2 <= fuel)%nat) :
  exists w', reduce_allocation fuel alloc len w = Done alloc w' /\ world_ok info aux w' /\
    freed info w (seqZ (r_block r + r_len r - len) len) w' /\
    regs (w_heap w') = <[p := set_len (r_len r - len) r]> (regs (w_heap w)).
Proof.
  destruct (reduce_allocation_spec info aux w alloc p r bg len fuel) as (w' & E & Hw' & Hfr & Hh); try done.
  exists w'. split_and!; try done. by rewrite Hh.
Qed.

(** The three free blocks of the example's first group, allocated. *)
Definition full_world : world :=
  mk_world [set_data_blocks_used 3 (set_first_free_block 8 (example_bg 0 0 0xff)); example_bg 1 1 0xdf]
    (mk_rheap {[ 0%nat := mk_region 5 3 0 None None ]} 1) [] [] [].
Definition full_alloc : block_allocation :=
  mk_alloc (mk_region_list (Some 0%nat) (Some 0%nat) (Some 0%nat) 0) (mk_region_list None None None 0).

Lemma full_world_ok : world_ok example_info example_aux full_world.
Proof.
  destruct (ext4_allocate_contiguous_blocks_spec true example_info example_aux example_geometry
    example_world 3 example_world_ok ltac:(lia)) as [[E _]|(p & w' & E & (i & bg & bm & _ & Eh & E1 & _ & Eb & _ & Hw & _))].
  - vm_compute in E. discriminate.
  - set (v := set_sparse [] w').
    assert (Hv : v = full_world).
    { revert E. vm_compute (ext4_allocate_contiguous_blocks _ _ _ _). intros [= <- <-]. reflexivity. }
    rewrite <-Hv. destruct Hw. by split.
Qed.

Lemma reduce_allocation_correct_witness :
  exists w', reduce_allocation 2 full_alloc 2 full_world = Done full_alloc w' /\
    world_ok example_info example_aux w' /\
    freed example_info full_world (seqZ (5 + 3 - 2) 2) w' /\
    regs (w_heap w') = <[0%nat := set_len (3 - 2) (mk_region 5 3 0 None None)]> (regs (w_heap full_world)).
Proof.
  eapply (reduce_allocation_correct example_info example_aux full_world full_alloc 0
    (mk_region 5 3 0 None None) _ 2 2 example_geometry full_world_ok); (reflexivity || (cbn; lia) || done).
Defined.

(** ** Inodes *)

(** [allocate_inode] hands out an inode number that was not in use, in the
    range of the image, makes exactly it used and keeps the groups' bitmaps in
    order; it fails only when no group has a free inode. *)
Theorem allocate_inode_correct (info : fs_info) (aux : fs_aux_info) (w : world)
  (Hw : inodes_world info aux w) (Hipg : 0 < inodes_per_group info) :
  (allocate_inode info aux w = Done EXT4_ALLOCATE_FAILED w /\
   forall i bg, zget (w_bgs w) i = Some bg -> free_inodes_count bg < 1) \/
  (exists n w', allocate_inode info aux w = Done n w' /\
     1 <= n <= groups aux * inodes_per_group info /\ ~ inode_used info w n /\
     (forall m, inode_used info w' m <-> inode_used info w m \/ m = n) /\
     inodes_world info aux w' /\ block_part <$> w_bgs w' = block_part <$> w_bgs w).
Proof.
  destruct (allocate_inode_loop_spec info aux w (seqZ 0 (groups aux)) Hw Hipg)
    as [[E Hfull]|(i & bg & bm & w' & Ebg & Hfree & E & Ew & Hok & Hbits)];
    [by intros i ?%elem_of_seqZ; lia|left|right]; destruct Hw as (Hg & Hg0 & Hsmall & Hall).
  - split; [exact E|]. intros i bg Ei. apply (Hfull i); [|done].
    apply elem_of_seqZ. apply zget_some_inv in Ei. lia.
  - pose proof (zget_some_inv _ _ _ Ebg) as Hi. destruct (Hall _ _ Ebg) as [H1 H2 H3 H4 H5].
    exists (i * inodes_per_group info + first_free_inode bg), w'.
    assert (Hat : forall j, zget (w_bgs w') j = if decide (i = j) then Some (inode_taken bm bg) else zget (w_bgs w) j)
      by (intros j; subst w'; by apply zget_insert).
    split_and!; [exact E|nia|nia| | | |].
    + intros (j & bgj & k & Ej & Hk & Eq & Hb). assert (j = i) as -> by nia.
      rewrite Ebg in Ej. injection Ej as <-. rewrite H5, bool_decide_false in Hb by lia. done.
    + intros m. split.
      * intros (j & bgj & k & Ej & Hk & -> & Hb). rewrite Hat in Ej. case_decide; [subst j|left; by exists j, bgj, k].
        injection Ej as <-. cbn in Hb. rewrite Hbits in Hb.
        apply orb_true_iff in Hb as [Hb%bool_decide_eq_true|Hb]; [right; lia|left; by exists i, bg, k].
      * intros [(j & bgj & k & Ej & Hk & -> & Hb)| ->].
        -- destruct (decide (i = j)) as [<-|Hne].
           ++ rewrite Ebg in Ej. injection Ej as <-. exists i, (inode_taken bm bg), k.
              rewrite Hat, decide_True by done. cbn. rewrite Hbits, Hb, orb_true_r. done.
           ++ exists j, bgj, k. by rewrite Hat, decide_False.
        -- exists i, (inode_taken bm bg), (first_free_inode bg - 1).
           rewrite Hat, decide_True by done. cbn. rewrite Hbits, bool_decide_true by done.
           split_and!; (done || lia).
    + split_and!; [by subst w'; cbn; rewrite length_insert|done|done|].
      intros j bgj Ej. rewrite Hat in Ej. case_decide; [|by eapply Hall]. by injection Ej as <-.
    + subst w'. cbn. rewrite list_fmap_insert. apply list_insert_id.
      rewrite list_lookup_fmap. unfold zget in Ebg. case_decide; [|done]. by rewrite Ebg.
Qed.

Lemma example_inodes : inodes_world example_info example_aux example_world.
Proof.
  split_and!; [done|done|done|]. intros i bg E. apply zget_some_inv in E as Hi. cbn in Hi.
  assert (i = 0 \/ i = 1) as [->| ->] by lia; injection E as <-.
  all: split; try (vm_compute; intuition discriminate).
  all: intros k Hk; cbn in Hk; cbn [inode_bitmap first_free_inode]; rewrite bool_decide_false by (cbn; lia).
  all: assert (k = 0 \/ k = 1 \/ k = 2 \/ k = 3 \/ k = 4 \/ k = 5 \/ k = 6 \/ k = 7) as Hk' by lia.
  all: by repeat destruct Hk' as [->|Hk']; subst.
Qed.

Lemma allocate_inode_correct_witness :
  (allocate_inode example_info example_aux example_world = Done EXT4_ALLOCATE_FAILED example_world /\
   forall i bg, zget (w_bgs example_world) i = Some bg -> free_inodes_count bg < 1) \/
  (exists n w', allocate_inode example_info example_aux example_world = Done n w' /\
     1 <= n <= groups example_aux * inodes_per_group example_info /\ ~ inode_used example_info example_world n /\
     (forall m, inode_used example_info w' m <-> inode_used example_info example_world m \/ m = n) /\
     inodes_world example_info example_aux w' /\
     block_part <$> w_bgs w' = block_part <$> w_bgs example_world).
Proof.
  apply (allocate_inode_correct example_info example_aux example_world example_inodes). reflexivity.
Defined.
