(* ===== verification/Extent.v ===== *)
(** * Extents (extent.c)

    A file's blocks as extents, in the inode or in one leaf block. The pointer
    [extent] of the code is either into [inode->i_block] or into a buffer. *)

From S2P Require Import Prelude Bytes Ext4Info Inode Bitmap BlockGroup Regions Alloc.

Definition EXT4_EXT_MAGIC : Z := 0xf30a.
(** The three structures of ext4_extents.h have twelve bytes. *)
Definition sizeof_extent_header : Z := 12.
Definition sizeof_extent : Z := 12.

(** Where the code stores: the inode's block array or a buffer. *)
Inductive store_loc :=
| InInode (p : inode_ptr)
| InBuf (id : nat).

Section extent.
Context (force : bool) (info : fs_info) (aux : fs_aux_info) (fuel : nat).

(** [n] bytes at an offset of a location. *)
Definition store_at (l : store_loc) (n : nat) (off v : Z) : M world unit :=
  match l with
  | InBuf id => store_buf id n off v
  | InInode p => with_inode p (fun i =>
      match store n (i_block i) off v with
      | Some b => Done tt (set_i_block b i)
      | None => Stuck
      end)
  end.

(** The header's members: magic 0, entries 2, max 4, depth 6, generation 8. *)
Definition write_extent_header (l : store_loc) (entries max depth : Z) : M world unit :=
  store_at l 2 0 EXT4_EXT_MAGIC;;;
  store_at l 2 2 entries;;;
  store_at l 2 4 max;;;
  store_at l 4 8 0;;;
  store_at l 2 6 depth.

(** An extent: [ee_block] 0, [ee_len] 4, [ee_start_hi] 6, [ee_start_lo] 8. *)
Definition write_extent (l : store_loc) (off file_block len block : Z) : M world unit :=
  store_at l 4 off file_block;;;
  store_at l 2 (off + 4) len;;;
  store_at l 2 (off + 6) 0;;;
  store_at l 4 (off + 8) block.

(** The loop of [do_inode_allocate_extents] over the regions. *)
Fixpoint extents_loop (n : nat) (l : store_loc) (off file_block : Z) (alloc : block_allocation)
  : M world block_allocation :=
  match n with
  | O => fun _ => NoFuel
  | S n =>
      if last_region alloc then mret' alloc
      else
        do (region_block, region_len) <- with_heap (get_region alloc);
        write_extent l off file_block region_len region_block;;;
        do alloc <- with_heap (get_next_region alloc);
        extents_loop n l (off + sizeof_extent) (u32 (file_block + region_len)) alloc
  end.

(** The header of the inode and, for four regions or more, the leaf block: where
    the extents go. The result is [None] where the code returned. *)
Definition extent_headers (inode : inode_ptr) (allocation_len extent_block : Z)
  : M world (option (store_loc * Z)) :=
  if extent_block =? 0 then
    write_extent_header (InInode inode) allocation_len 3 0;;;
    mret' (Some (InInode inode, 12))
  else
    write_extent_header (InInode inode) 1 3 1;;;
    store_at (InInode inode) 4 12 0;;;
    store_at (InInode inode) 4 16 extent_block;;;
    store_at (InInode inode) 2 20 0;;;
    store_at (InInode inode) 2 22 0;;;
    do data <- calloc (block_size info);
    sparse_file_add_data (SrcBuf data 0) (block_size info) extent_block;;;
    if s32 (u32 (block_size info - sizeof_extent_header / sizeof_extent)) <? allocation_len then
      error force;;; mret' None
    else
      write_extent_header (InBuf data) allocation_len
        (u32 (block_size info - sizeof_extent_header) / sizeof_extent) 0;;;
      mret' (Some (InBuf data, sizeof_extent_header)).

(** The inode's size and block count. *)
Definition set_extent_sizes (inode : inode_ptr) (len block_len : Z) : M world unit :=
  let blocks := u64 (block_len * block_size info) / 512 in
  with_inode inode (modify (fun i =>
    set_l_i_blocks_high (u16 (Z.shiftr blocks 32))
      (set_i_blocks_lo (u32 blocks)
        (set_i_size_high (u32 (Z.shiftr len 32))
          (set_i_size_lo (u32 len)
            (set_i_flags (Z.lor (i_flags i) EXT4_EXTENTS_FL) i)))))).

(** [static struct block_allocation *do_inode_allocate_extents(inode, u64 len)]. *)
Definition do_inode_allocate_extents (inode : inode_ptr) (len : Z)
  : M world (option block_allocation) :=
  let block_len := u32 (u64 (len + block_size info - 1) / block_size info) in
  do alloc <- allocate_blocks force aux fuel (u32 (block_len + 1));
  match alloc with
  | None => error force;;; mret' None
  | Some alloc =>
      do allocation_len <- with_heap (block_allocation_num_regions alloc);
      do (alloc, extent_block) <-
        (if allocation_len <=? 3 then
           do alloc <- reduce_allocation fuel alloc 1;
           mret' (alloc, 0)
         else
           do (_, alloc) <- with_heap (reserve_oob_blocks alloc 1);
           do extent_block <- with_heap (get_oob_block alloc 0);
           mret' (alloc, extent_block));
      do headers <- extent_headers inode allocation_len extent_block;
      match headers with
      | None => mret' None
      | Some (l, off) =>
          do w <- get;
          do alloc <- extents_loop (list_fuel (w_heap w)) l off 0 alloc;
          set_extent_sizes inode len (if extent_block =? 0 then block_len else u32 (block_len + 1));;;
          mret' (Some (rewind_alloc alloc))
      end
  end.

(** ** Queueing the contents *)

(** The loops of [extent_create_backing] and [extent_create_backing_file]:
    [src off] is what is queued [off] bytes into the contents. [alloc] is never
    [NULL]; past the last region [get_region] reads a null pointer. *)
Fixpoint backing_loop (n : nat) (src : Z -> data_src) (off backing_len : Z) (alloc : block_allocation)
  : M world unit :=
  match n with
  | O => fun _ => NoFuel
  | S n =>
      if 0 <? backing_len then
        do (region_block, region_len) <- with_heap (get_region alloc);
        let len := u32 (Z.min (u32 (region_len * block_size info)) backing_len) in
        sparse_file_add_data (src off) len region_block;;;
        do alloc <- with_heap (get_next_region alloc);
        backing_loop n src (off + len) (u64 (backing_len - len)) alloc
      else mret' tt
  end.

Definition extent_create_backing (alloc : block_allocation) (backing_len : Z) : M world nat :=
  do data <- calloc backing_len;
  do w <- get;
  backing_loop (list_fuel (w_heap w)) (SrcBuf data) 0 backing_len alloc;;;
  mret' data.

Definition extent_create_backing_file (alloc : block_allocation) (backing_len : Z) (filename : list Z)
  : M world unit :=
  do w <- get;
  backing_loop (list_fuel (w_heap w)) (SrcFile filename) 0 backing_len alloc.

(** [u8 *inode_allocate_data_extents(inode, u64 len, u64 backing_len)]. *)
Definition inode_allocate_data_extents (inode : inode_ptr) (len backing_len : Z)
  : M world (option nat) :=
  do alloc <- do_inode_allocate_extents inode len;
  match alloc with
  | None => error force;;; mret' None
  | Some alloc =>
      do data <- (if negb (backing_len =? 0) then
                    do data <- extent_create_backing alloc backing_len; mret' (Some data)
                  else mret' None);
      with_heap (free_alloc alloc);;;
      mret' data
  end.

(** [void inode_allocate_file_extents(inode, u64 len, const char *filename)]. *)
Definition inode_allocate_file_extents (inode : inode_ptr) (len : Z) (filename : list Z) : M world unit :=
  do alloc <- do_inode_allocate_extents inode len;
  match alloc with
  | None => error force
  | Some alloc =>
      extent_create_backing_file alloc len filename;;;
      with_heap (free_alloc alloc)
  end.

(** [void inode_allocate_extents(inode, u64 len)]. *)
Definition inode_allocate_extents (inode : inode_ptr) (len : Z) : M world unit :=
  do alloc <- do_inode_allocate_extents inode len;
  match alloc with
  | None => error force
  | Some alloc => with_heap (free_alloc alloc)
  end.
End extent.
