(* ===== verification/ExtentSpec.v ===== *)
(** * The extents of a file, as bytes and as a map of blocks (lemmas on Extent) *)

From S2P Require Import Prelude Bytes Ext4Info Inode Bitmap BlockGroup Regions Alloc AllocSpec Buffers InodeSpec Extent.

(** ** A location as bytes *)

Definition loc_bytes (l : store_loc) (w : world) : option (list Z) :=
  match l with
  | InBuf id => w_bufs w !! id
  | InInode p => i_block <$> inode_at w p
  end.

Definition put_loc (l : store_loc) (b : list Z) (w : world) : world :=
  match l with
  | InBuf id => set_bufs (<[id := b]> (w_bufs w)) w
  | InInode p => match inode_at w p with
                 | Some i => put_inode p (set_i_block b i) w
                 | None => w
                 end
  end.

Lemma put_loc_bytes l b b0 w : loc_bytes l w = Some b0 -> loc_bytes l (put_loc l b w) = Some b.
Proof.
  destruct l as [p|id]; cbn; intros E.
  - apply fmap_Some in E as (i & Ei & ->). rewrite Ei. by rewrite (inode_at_put _ _ _ _ Ei).
  - apply list_lookup_insert_eq. by eapply lookup_lt_Some.
Qed.

Lemma put_loc_twice l b b' w : put_loc l b' (put_loc l b w) = put_loc l b' w.
Proof.
  destruct l as [p|id]; cbn.
  - destruct (inode_at w p) as [i|] eqn:E; [|by rewrite E].
    rewrite (inode_at_put _ _ _ _ E), put_inode_twice. by destruct i.
  - by rewrite list_insert_insert_eq.
Qed.

Lemma put_loc_id l b w : loc_bytes l w = Some b -> put_loc l b w = w.
Proof.
  destruct l as [p|id]; cbn; intros E.
  - apply fmap_Some in E as (i & Ei & ->). rewrite Ei. apply put_inode_id. rewrite Ei. by destruct i.
  - rewrite list_insert_id by done. by destruct w.
Qed.

Lemma put_loc_rest l b w :
  w_heap (put_loc l b w) = w_heap w /\ w_sparse (put_loc l b w) = w_sparse w /\
  w_xattrs (put_loc l b w) = w_xattrs w /\ block_part <$> w_bgs (put_loc l b w) = block_part <$> w_bgs w.
Proof.
  destruct l as [p|id]; cbn; [|done]. destruct (inode_at w p); [|done].
  destruct (put_inode_rest p (set_i_block b e) w) as (? & ? & ? & ?).
  split_and!; [done..|]. apply put_inode_block_part.
Qed.

Lemma store_at_put l n off v w b0 b b' :
  loc_bytes l w = Some b0 -> store n b off v = Some b' ->
  store_at l n off v (put_loc l b w) = Done tt (put_loc l b' w).
Proof.
  intros E Es. rewrite <-(put_loc_twice l b b' w). destruct l as [p|id]; cbn in E |- *.
  - apply fmap_Some in E as (i & Ei & ->). rewrite Ei.
    pose proof (inode_at_put p (set_i_block b i) i w Ei) as E1. rewrite E1.
    erewrite with_inode_done; [reflexivity|exact E1|]. cbn. by rewrite Es.
  - apply lookup_lt_Some in E as Hlt. unfold store_buf, with_buf, zoom. cbn.
    rewrite list_lookup_insert_eq by done. by rewrite Es.
Qed.

(** ** Headers and extents as bytes *)

Definition header_bytes (entries max depth : Z) : list Z :=
  le_bytes 2 EXT4_EXT_MAGIC ++ le_bytes 2 entries ++ le_bytes 2 max ++ le_bytes 2 depth ++ le_bytes 4 0.
Definition extent_bytes (file_block len block : Z) : list Z :=
  le_bytes 4 file_block ++ le_bytes 2 len ++ le_bytes 2 0 ++ le_bytes 4 block.
Fixpoint extents_bytes (file_block : Z) (rs : list region) : list Z :=
  match rs with
  | [] => []
  | r :: rs => extent_bytes file_block (r_len r) (r_block r) ++ extents_bytes (file_block + r_len r) rs
  end.

Lemma length_header_bytes e m d : length (header_bytes e m d) = 12%nat.
Proof. done. Qed.
Lemma length_extents_bytes fb rs : length (extents_bytes fb rs) = (12 * length rs)%nat.
Proof. revert fb. induction rs as [|r rs IH]; intros fb; [done|]. cbn [extents_bytes length]. rewrite length_app, IH. cbn. lia. Qed.

Lemma write_extent_put l w b0 b b' off fb len block :
  loc_bytes l w = Some b0 -> write_bytes b off (extent_bytes fb len block) = Some b' ->
  write_extent l off fb len block (put_loc l b w) = Done tt (put_loc l b' w).
Proof.
  intros E Ew. unfold extent_bytes in Ew.
  apply write_bytes_split in Ew as (b1 & E1 & Ew). rewrite length_le_bytes in Ew.
  apply write_bytes_split in Ew as (b2 & E2 & Ew). rewrite length_le_bytes in Ew.
  apply write_bytes_split in Ew as (b3 & E3 & E4). rewrite length_le_bytes in E4.
  change (Z.of_nat 4) with 4 in *. change (Z.of_nat 2) with 2 in *. rewrite <-!Z.add_assoc in *.
  unfold write_extent.
  erewrite mbind_done by (eapply store_at_put; [exact E|exact E1]).
  erewrite mbind_done by (eapply store_at_put; [exact E|exact E2]).
  erewrite mbind_done by (eapply store_at_put; [exact E|exact E3]).
  eapply store_at_put; [exact E|exact E4].
Qed.

Lemma store_swap n1 n2 b o1 v1 o2 v2 b1 b2 :
  store n1 b o1 v1 = Some b1 -> store n2 b1 o2 v2 = Some b2 ->
  o1 + Z.of_nat n1 <= o2 \/ o2 + Z.of_nat n2 <= o1 ->
  exists b1', store n2 b o2 v2 = Some b1' /\ store n1 b1' o1 v1 = Some b2.
Proof.
  unfold store. intros E1 E2 Hd.
  pose proof (write_bytes_length _ _ _ _ E1) as L1. pose proof (write_bytes_length _ _ _ _ E2) as L2.
  assert (H1 : 0 <= o1 /\ o1 + Z.of_nat n1 <= Z.of_nat (length b)).
  { unfold write_bytes in E1. rewrite length_le_bytes in E1. by case_decide. }
  assert (H2 : 0 <= o2 /\ o2 + Z.of_nat n2 <= Z.of_nat (length b)).
  { unfold write_bytes in E2. rewrite length_le_bytes, L1 in E2. by case_decide. }
  destruct (store_some n2 b o2 v2) as [b1' E1']; [lia|lia|].
  pose proof (write_bytes_length _ _ _ _ E1') as L1'.
  destruct (store_some n1 b1' o1 v1) as [b2' E2']; [lia|lia|].
  exists b1'. split; [done|]. unfold store in *. rewrite E2'. f_equal.
  apply list_eq. intros j. rewrite <-(Nat2Z.id j).
  rewrite (write_bytes_lookup _ _ _ _ _ E2'), (write_bytes_lookup _ _ _ _ _ E1'),
    (write_bytes_lookup _ _ _ _ _ E2), (write_bytes_lookup _ _ _ _ _ E1), !length_le_bytes by lia.
  repeat case_decide; (done || lia).
Qed.

Lemma write_extent_header_put l w b0 b b' entries max depth :
  loc_bytes l w = Some b0 -> write_bytes b 0 (header_bytes entries max depth) = Some b' ->
  write_extent_header l entries max depth (put_loc l b w) = Done tt (put_loc l b' w).
Proof.
  intros E Ew. unfold header_bytes in Ew.
  apply write_bytes_split in Ew as (b1 & E1 & Ew). rewrite length_le_bytes in Ew.
  apply write_bytes_split in Ew as (b2 & E2 & Ew). rewrite length_le_bytes in Ew.
  apply write_bytes_split in Ew as (b3 & E3 & Ew). rewrite length_le_bytes in Ew.
  apply write_bytes_split in Ew as (b4 & E4 & E5). rewrite length_le_bytes in E5.
  destruct (store_swap 2 4 b3 _ depth _ 0 b4 b' E4 E5) as (b4' & E4' & E5'); [lia|].
  unfold write_extent_header.
  erewrite mbind_done by (eapply store_at_put; [exact E|exact E1]).
  erewrite mbind_done by (eapply store_at_put; [exact E|exact E2]).
  erewrite mbind_done by (eapply store_at_put; [exact E|exact E3]).
  erewrite mbind_done by (eapply store_at_put; [exact E|exact E4']).
  eapply store_at_put; [exact E|exact E5'].
Qed.

(** ** The loop over the regions *)

Lemma extents_loop_spec n l w b0 b b' off fb rs alloc :
  loc_bytes l w = Some b0 -> seg (regs (w_heap w)) (l_iter (a_list alloc)) rs None ->
  partial_iter (a_list alloc) = 0 -> (length rs < n)%nat -> Forall region_ok rs.*2 ->
  0 <= fb -> fb + regions_len rs.*2 < 2 ^ 32 ->
  write_bytes b off (extents_bytes fb rs.*2) = Some b' ->
  extents_loop n l off fb alloc (put_loc l b w) =
    Done (mk_alloc (set_partial 0 (set_iter None (a_list alloc))) (oob_list alloc)) (put_loc l b' w).
Proof.
  intros E. revert off fb rs alloc b. induction n as [|n IH]; intros off fb rs alloc b Hs Hp Hn Hok Hfb Hsum Ew; [lia|].
  cbn [extents_loop]. unfold last_region. destruct rs as [|[i r] rs]; cbn [seg] in Hs.
  - rewrite Hs. cbn in Ew. unfold mret'. f_equal.
    + destruct alloc as [[f la it pa] o]. cbn in *. by subst.
    + f_equal. unfold write_bytes in Ew. case_decide; [|done]. injection Ew as <-. cbn.
      by rewrite Nat.add_0_r, take_drop.
  - destruct Hs as (Hi & Hr & Hs). rewrite Hi. cbn [fmap list_fmap snd] in Hok, Hsum, Ew.
    apply Forall_cons in Hok as [Hrok Hok]. destruct Hrok as (? & ? & ?).
    pose proof (regions_len_nonneg _ Hok) as Hnn.
    cbn [regions_len foldr] in Hsum. change (foldr _ 0 rs.*2) with (regions_len rs.*2) in Hsum.
    destruct (put_loc_rest l b w) as (Hh & _).
    cbn [extents_bytes] in Ew. apply write_bytes_split in Ew as (b1 & E1 & E2).
    assert (Hread : with_heap (get_region alloc) (put_loc l b w) = Done (r_block r, r_len r) (put_loc l b w)).
    { erewrite with_heap_done; [by rewrite set_heap_id|]. unfold get_region. rewrite Hi.
      erewrite mbind_done by (apply read_region_some; rewrite Hh; exact Hr).
      rewrite Hp, Z.sub_0_r, u32_small by lia. done. }
    rewrite (mbind_done _ _ _ _ _ Hread).
    erewrite mbind_done by (eapply write_extent_put; [exact E|exact E1]).
    destruct (put_loc_rest l b1 w) as (Hh1 & _).
    assert (Hnext : with_heap (get_next_region alloc) (put_loc l b1 w) =
      Done (mk_alloc (set_partial 0 (set_iter (r_next r) (a_list alloc))) (oob_list alloc)) (put_loc l b1 w)).
    { erewrite with_heap_done; [by rewrite set_heap_id|]. unfold get_next_region. rewrite Hi.
      erewrite mbind_done by (apply read_region_some; rewrite Hh1; exact Hr). done. }
    rewrite (mbind_done _ _ _ _ _ Hnext).
    rewrite u32_small by lia. cbn [length] in Hn.
    rewrite (IH _ (fb + r_len r) rs _ b1); [done|exact Hs|done|lia|done|lia|lia|].
    unfold sizeof_extent. exact E2.
Qed.

(** ** The allocation of a file's blocks *)

Lemma inode_at_part w w' p :
  inode_part <$> w_bgs w' = inode_part <$> w_bgs w -> inode_at w' p = inode_at w p.
Proof.
  intros E. unfold inode_at.
  pose proof (zget_fmap inode_part (w_bgs w) p.1) as H1. pose proof (zget_fmap inode_part (w_bgs w') p.1) as H2.
  rewrite E in H2. rewrite H1 in H2. clear E H1.
  destruct (zget (w_bgs w) p.1) as [bg|], (zget (w_bgs w') p.1) as [bg'|]; try discriminate H2; [|done].
  cbn in H2 |- *. unfold inode_part in H2. by injection H2 as _ _ _ _ -> _ _ _ _.
Qed.

Lemma blocks_of_cons r rs : blocks_of (r :: rs) = seqZ (r_block r) (r_len r) ++ blocks_of rs.
Proof. done. Qed.

(** What the allocation of [n] blocks for a file and one more leaves: the regions
    [l] of the file's blocks and, for four of them or more, the block [ex] of the
    extents. *)
Record file_allocation (info : fs_info) (aux : fs_aux_info) (w : world) (n : Z)
    (alloc : block_allocation) (l : list (nat * region)) (ex : Z) (w' : world) : Prop := {
  fa_ok : world_ok info aux w';
  fa_seg : seg (regs (w_heap w')) (l_first (a_list alloc)) l None;
  fa_iter : l_iter (a_list alloc) = l_first (a_list alloc) /\ partial_iter (a_list alloc) = 0;
  fa_regions : Forall (region_in info) l.*2;
  fa_len : regions_len l.*2 = n;
  fa_ex : ex = 0 /\ (length l <= 3)%nat \/ 0 < ex < 2 ^ 32 /\ (3 < length l)%nat;
  fa_nodup : NoDup (blocks_of l.*2) /\ (ex <> 0 -> ex ∉ blocks_of l.*2);
  fa_free b : b ∈ blocks_of l.*2 \/ ex <> 0 /\ b = ex -> ~ used info w b;
  fa_used b : used info w' b <-> used info w b \/ b ∈ blocks_of l.*2 \/ ex <> 0 /\ b = ex;
  fa_inodes p : inode_at w' p = inode_at w p;
  fa_bufs : w_bufs w' = w_bufs w /\ w_sparse w' = w_sparse w /\ w_xattrs w' = w_xattrs w
}.

Section allocation.
Context (force : bool) (info : fs_info) (aux : fs_aux_info) (fuel : nat).
Hypothesis Hgeo : geometry info aux.

(** The region list of an allocation of at least two blocks that succeeded. *)
Lemma take_last w n p r rest bg w1 alloc :
  world_ok info aux w -> world_ok info aux w1 ->
  allocated info w (blocks_of (r :: rest.*2)) w1 ->
  seg (regs (w_heap w1)) (Some p) ((p, r) :: rest) None -> Forall (region_in info) (r :: rest.*2) ->
  regions_len (r :: rest.*2) = n + 1 -> 2 <= r_len r ->
  zget (w_bgs w1) (r_bg r) = Some bg -> first_block bg <= r_block r ->
  r_block r + r_len r = first_block bg + first_free_block bg ->
  alloc = mk_alloc (mk_region_list (Some p) (Some p) (Some p) 0) (oob_list create_allocation) ->
  (length rest <= 2)%nat -> (2 <= fuel)%nat ->
  exists w', reduce_allocation fuel alloc 1 w1 = Done alloc w' /\
    file_allocation info aux w n alloc ((p, set_len (r_len r - 1) r) :: rest) 0 w'.
Proof.
  intros Hw Hw1 Ha Hs Hreg Hlen Hr2 Hbg Hfb Hend -> Hrest Hfuel.
  pose proof (seg_nodup _ _ _ Hs) as Hnd. destruct Hs as (_ & Hp & Hs).
  destruct (reduce_allocation_spec info aux w1 (mk_alloc (mk_region_list (Some p) (Some p) (Some p) 0)
    (oob_list create_allocation)) p r bg 1 fuel Hgeo Hw1 eq_refl Hp Hbg Hend Hfb ltac:(lia) Hfuel)
    as (w' & E & Hw' & [F1 F2 F3 F4] & Hh).
  exists w'. split; [exact E|]. apply Forall_cons in Hreg as [[Hrok Hrb] Hreg].
  destruct Ha as [A1 A2 A3 A4 A5]. rewrite blocks_of_cons in A1, A2, A3.
  set (x := r_block r + r_len r - 1) in *.
  assert (Esplit : seqZ (r_block r) (r_len r) = seqZ (r_block r) (r_len r - 1) ++ [x]).
  { replace (r_len r) with ((r_len r - 1) + 1) at 1 by lia. rewrite seqZ_app by lia. f_equal.
    rewrite seqZ_cons, seqZ_nil by lia. unfold x. f_equal. lia. }
  rewrite Esplit, <-app_assoc in A1, A2, A3. cbn [app] in A1, A2, A3. set (xs := seqZ (r_block r) (r_len r - 1)) in *.
  assert (Hf : forall b, used info w' b <-> used info w1 b /\ b <> x).
  { intros b. rewrite F2, elem_of_seqZ. unfold x. split; intros [? ?]; (split; [done|lia]). }
  apply NoDup_app in A1 as (N1 & N2 & N3). apply NoDup_cons in N3 as [N3 N4].
  assert (Hx : x ∉ xs) by (intros Hx%elem_of_seqZ; lia).
  assert (Hl : blocks_of (set_len (r_len r - 1) r :: rest.*2) = xs ++ blocks_of rest.*2) by done.
  destruct Hrok as (? & ? & ?). split; rewrite ?fmap_cons; cbn [fst snd]; rewrite ?Hl; try done.
  - cbn [seg]. rewrite Hh. cbn [regs]. split_and!; [done|apply lookup_insert_eq|].
    apply seg_insert_ne; [|exact Hs]. cbn in Hnd. by apply NoDup_cons in Hnd as [? _].
  - constructor; [|done]. split; [split_and!; cbn; lia|cbn; lia].
  - cbn [regions_len foldr r_len set_len] in *. unfold regions_len in *. lia.
  - left. split; [done|]. cbn. lia.
  - split; [|].
    + apply NoDup_app. split_and!; [apply NoDup_seqZ| |done]. intros b Hb Hb'. apply (N2 b Hb). by right.
    + done.
  - intros b [Hb|[]]; [|done]. apply A2. rewrite !elem_of_app, elem_of_cons in *. tauto.
  - intros b. rewrite Hf, A3, !elem_of_app, elem_of_cons. split.
    + tauto.
    + assert (Hux : ~ used info w x) by (apply A2; rewrite elem_of_app, elem_of_cons; auto).
      intros [Hu|[[Hb|Hb]|[? _]]]; [| | |done]; (split; [tauto|]); intros ->; done.
  - intros q. rewrite (inode_at_part w1 w') by done. by apply inode_at_part.
  - destruct A5 as (B1 & B2 & B3), F4 as (C1 & C2 & C3). split_and!; congruence.
Qed.

Lemma take_first w n p r rest w1 alloc :
  world_ok info aux w1 -> allocated info w (blocks_of (r :: rest.*2)) w1 ->
  seg (regs (w_heap w1)) (Some p) ((p, r) :: rest) None -> Forall (region_in info) (r :: rest.*2) ->
  regions_len (r :: rest.*2) = n + 1 -> 2 <= r_len r -> r_prev r = None -> 0 < r_block r ->
  alloc = mk_alloc (mk_region_list (Some p) (Some p) (Some p) 0) (oob_list create_allocation) ->
  (2 < length rest)%nat ->
  exists alloc' l' w', with_heap (reserve_oob_blocks alloc 1) w1 = Done (0, alloc') w' /\
    with_heap (get_oob_block alloc' 0) w' = Done (r_block r) w' /\
    length l' = S (length rest) /\
    file_allocation info aux w n alloc' l' (r_block r) w'.
Proof.
  intros Hw1 Ha Hs Hreg Hlen Hr2 Hprev Hpos -> Hrest.
  pose proof (seg_nodup _ _ _ Hs) as Hnd. cbn in Hnd. apply NoDup_cons in Hnd as [Hp1 Hnd].
  destruct Hs as (_ & Hp & Hs). apply Forall_cons in Hreg as [[Hrok Hrb] Hreg].
  destruct Hrok as (? & ? & ?). set (h := w_heap w1) in *. pose proof (wo_heap _ _ _ Hw1) as Hh. fold h in Hh.
  pose proof (heap_ok_fresh _ Hh) as Hf. set (q := next_reg h) in *. assert (Hne : q <> p) by congruence.
  set (rq := mk_region (r_block r + 1) (r_len r - 1) (r_bg r) (r_next r) None).
  assert (Hq : q ∉ rest.*1).
  { intros Hin. apply list_elem_of_fmap in Hin as ([i s] & -> & Hin). cbn in Hf.
    pose proof (seg_lookup _ _ _ _ _ _ Hs Hin). congruence. }
  assert (Eh : split_heap h p r 1 =
    mk_rheap (<[p := mk_region (r_block r) 1 (r_bg r) None None]> (<[q := rq]> (regs h))) (S q)).
  { unfold split_heap. by rewrite !u32_small by lia. }
  eexists _, ((q, rq) :: rest), _. split.
  { eapply with_heap_done, reserve_oob_blocks_head; (done || lia). }
  fold h. rewrite Eh. split.
  { set (w2 := set_heap _ w1). erewrite with_heap_done; [by rewrite set_heap_id|].
    unfold get_oob_block.
    rewrite (get_list_block_spec _ _ [(p, mk_region (r_block r) 1 (r_bg r) None None)]); cbn; try lia.
    - unfold blocks_of. cbn. rewrite app_nil_r, zget_seqZ by lia. by rewrite Z.add_0_r.
    - split_and!; [done|apply lookup_insert_eq|done].
    - repeat constructor; cbn; lia. }
  split; [done|]. destruct Ha as [A1 A2 A3 A4 A5]. rewrite blocks_of_cons in A1, A2, A3.
  rewrite seqZ_cons in A1, A2, A3 by lia. set (xs := seqZ (Z.succ (r_block r)) (Z.pred (r_len r))) in *.
  cbn [app] in A1, A2, A3. apply NoDup_cons in A1 as [Hx N].
  assert (Hl : blocks_of (rq :: rest.*2) = xs ++ blocks_of rest.*2).
  { rewrite blocks_of_cons. cbn [r_block r_len rq]. unfold xs. do 2 f_equal; lia. }
  split; rewrite ?fmap_cons; cbn [fst snd a_list l_first l_iter partial_iter w_heap set_heap regs w_bgs]; rewrite ?Hl; try done.
  - apply world_ok_heap; [done|]. intros i [s Hi]. cbn [regs next_reg] in *.
    apply lookup_insert_Some in Hi as [[Ei _]|[_ Hi]]; [rewrite <-Ei; pose proof (Hh p ltac:(by eexists)); lia|].
    apply lookup_insert_Some in Hi as [[Ei _]|[_ Hi]]; [rewrite <-Ei; lia|]. pose proof (Hh i ltac:(by eexists)). lia.
  - cbn [seg]. split_and!; [done|by rewrite lookup_insert_ne, lookup_insert_eq|].
    cbn [r_next rq]. by apply seg_insert_ne, seg_insert_ne.
  - constructor; [|done]. split; [split_and!; cbn; lia|cbn; lia].
  - cbn [regions_len foldr r_len rq] in *. unfold regions_len in *. lia.
  - right. split; [lia|cbn; lia].
  - intros b Hb. apply A2, elem_of_cons. tauto.
  - intros b. unfold used. cbn [w_bgs set_heap]. fold (used info w1 b). rewrite A3, elem_of_cons.
    assert (r_block r <> 0) by lia. split; [tauto|]. intros [?|[?|[? ?]]]; auto.
  - intros i. unfold inode_at at 1. cbn [w_bgs set_heap]. by apply inode_at_part.
Qed.
End allocation.
