(* ===== verification/ExtentRead.v ===== *)
(** * Reading extents (specification of what extent.c writes)

    A file's blocks as a reader of the image finds them: the extents of the inode,
    or of the leaf block it points at. *)

From S2P Require Import Prelude Bytes Ext4Info Inode Bitmap BlockGroup Regions Alloc AllocSpec Buffers InodeSpec Extent ExtentSpec.

(** ** The reader *)

(** [n] extents at [off], the first of which maps block [fb] of the file. *)
Fixpoint read_extents (b : list Z) (n : nat) (off fb : Z) : option (list Z) :=
  match n with
  | O => Some []
  | S n =>
      ee_block ← load 4 b off;
      ee_len ← load 2 b (off + 4);
      ee_start_hi ← load 2 b (off + 6);
      ee_start_lo ← load 4 b (off + 8);
      if ee_block =? fb then
        rest ← read_extents b n (off + 12) (fb + ee_len);
        Some (seqZ (Z.shiftl ee_start_hi 32 + ee_start_lo) ee_len ++ rest)
      else None
  end.

(** A node of the tree: its header says how many extents follow. *)
Definition read_leaf (b : list Z) : option (list Z) :=
  magic ← load 2 b 0;
  entries ← load 2 b 2;
  depth ← load 2 b 6;
  if (magic =? EXT4_EXT_MAGIC) && (depth =? 0) then read_extents b (Z.to_nat entries) 12 0 else None.

(** The bytes queued for a block. *)
Definition queued_block (w : world) (block : Z) : option (list Z) :=
  match List.find (fun op => so_block op =? block) (w_sparse w) with
  | Some (mk_sparse (SrcBuf id 0) _ _) => w_bufs w !! id
  | _ => None
  end.

(** The blocks of a file, in order: the extents are in the inode, or in the one
    leaf that the inode's only index entry names. *)
Definition file_blocks (w : world) (p : inode_ptr) : option (list Z) :=
  ino ← inode_at w p;
  let b := i_block ino in
  depth ← load 2 b 6;
  if depth =? 0 then read_leaf b
  else
    magic ← load 2 b 0;
    entries ← load 2 b 2;
    lo ← load 4 b 16;
    hi ← load 2 b 20;
    if (magic =? EXT4_EXT_MAGIC) && (entries =? 1) && (depth =? 1)
    then leaf ← queued_block w (Z.shiftl hi 32 + lo); read_leaf leaf
    else None.

(** ** What was written is read *)

Lemma load_prefix n x v z b i :
  b = x ++ le_bytes n v ++ z -> i = Z.of_nat (length x) -> 0 <= v < 256 ^ Z.of_nat n ->
  load n b i = Some v.
Proof.
  intros -> -> Hv. rewrite load_app_r, Z.sub_diag by lia.
  rewrite load_app_l by (rewrite ?length_le_bytes; lia). by rewrite load_le_bytes, Z.mod_small.
Qed.

Lemma read_extents_bytes rs : forall pre post fb,
  Forall region_ok rs -> Forall (fun r => r_len r < 2 ^ 16) rs -> 0 <= fb -> fb + regions_len rs < 2 ^ 32 ->
  read_extents (pre ++ extents_bytes fb rs ++ post) (length rs) (Z.of_nat (length pre)) fb =
    Some (blocks_of rs).
Proof.
  induction rs as [|r rs IH]; intros pre post fb Hok Hl Hfb Hs; [done|].
  apply Forall_cons in Hok as [(H1 & H2 & H3) Hok]. apply Forall_cons in Hl as [H4 Hl].
  pose proof (regions_len_nonneg _ Hok) as Hn. cbn [regions_len foldr] in Hs. change (foldr _ 0 rs) with (regions_len rs) in Hs.
  cbn [extents_bytes read_extents length]. unfold extent_bytes. rewrite <-!app_assoc.
  set (tl := extents_bytes (fb + r_len r) rs ++ post).
  rewrite (load_prefix 4 pre fb _ _ _ eq_refl eq_refl) by (change (256 ^ Z.of_nat 4) with (2 ^ 32); lia).
  cbn [mbind option_bind].
  erewrite (load_prefix 2 (pre ++ le_bytes 4 fb) (r_len r) _ _ (Z.of_nat (length pre) + 4));
    [|by rewrite <-!app_assoc|rewrite length_app, length_le_bytes; lia|change (256 ^ Z.of_nat 2) with (2 ^ 16); lia].
  cbn [mbind option_bind].
  erewrite (load_prefix 2 (pre ++ le_bytes 4 fb ++ le_bytes 2 (r_len r)) 0 _ _ (Z.of_nat (length pre) + 6));
    [|by rewrite <-!app_assoc|rewrite !length_app, !length_le_bytes; lia|done].
  cbn [mbind option_bind].
  erewrite (load_prefix 4 (pre ++ le_bytes 4 fb ++ le_bytes 2 (r_len r) ++ le_bytes 2 0) (r_block r) _ _
              (Z.of_nat (length pre) + 8));
    [|by rewrite <-!app_assoc|rewrite !length_app, !length_le_bytes; lia|change (256 ^ Z.of_nat 4) with (2 ^ 32); lia].
  cbn [mbind option_bind]. rewrite Z.eqb_refl.
  pose proof (IH (pre ++ le_bytes 4 fb ++ le_bytes 2 (r_len r) ++ le_bytes 2 0 ++ le_bytes 4 (r_block r)) post
    (fb + r_len r) Hok Hl ltac:(lia) ltac:(lia)) as E.
  rewrite <-!app_assoc, !length_app, !length_le_bytes in E. fold tl in E.
  replace (Z.of_nat (length pre) + 12) with (Z.of_nat (length pre + (4 + (2 + (2 + 4))))) by lia.
  rewrite E. cbn [mbind option_bind]. rewrite Z.shiftl_0_l, Z.add_0_l. by rewrite blocks_of_cons.
Qed.

Lemma read_leaf_bytes rs max post :
  Forall region_ok rs -> Forall (fun r => r_len r < 2 ^ 16) rs -> regions_len rs < 2 ^ 32 ->
  Z.of_nat (length rs) < 2 ^ 16 ->
  read_leaf (header_bytes (Z.of_nat (length rs)) max 0 ++ extents_bytes 0 rs ++ post) = Some (blocks_of rs).
Proof.
  intros Hok Hl Hs Hn. unfold read_leaf.
  assert (H : forall i v, load 2 (header_bytes (Z.of_nat (length rs)) max 0) i = v -> 0 <= i -> i + 2 <= 12 ->
    load 2 (header_bytes (Z.of_nat (length rs)) max 0 ++ extents_bytes 0 rs ++ post) i = v).
  { intros i v <- Hi Hi2. apply load_app_l; [done|]. rewrite length_header_bytes. lia. }
  rewrite (H 0 (Some EXT4_EXT_MAGIC)) by done.
  rewrite (H 2 (Some (Z.of_nat (length rs)))); [|eapply (load_prefix 2 (le_bytes 2 EXT4_EXT_MAGIC));
    [reflexivity|done|change (256 ^ Z.of_nat 2) with (2 ^ 16); lia]|lia|lia].
  rewrite (H 6 (Some 0)); [|eapply (load_prefix 2 (le_bytes 2 EXT4_EXT_MAGIC ++ le_bytes 2 (Z.of_nat (length rs)) ++ le_bytes 2 max) 0
    (le_bytes 4 0)); [unfold header_bytes; by rewrite <-!app_assoc|done|done]|lia|lia].
  cbn [mbind option_bind]. change ((EXT4_EXT_MAGIC =? EXT4_EXT_MAGIC) && (0 =? 0)) with true. cbv iota.
  rewrite Nat2Z.id. apply (read_extents_bytes rs (header_bytes _ max 0) post 0); (done || lia).
Qed.

(** ** Writing the tree *)

Section fill.
Context (force : bool) (info : fs_info) (p : inode_ptr).

Lemma write_prefix b x : (length x <= length b)%nat -> write_bytes b 0 x = Some (x ++ drop (length x) b).
Proof. intros L. by rewrite write_bytes_some by lia. Qed.

Lemma inode_loc w ino : inode_at w p = Some ino -> loc_bytes (InInode p) w = Some (i_block ino).
Proof. intros E. cbn. by rewrite E. Qed.

Lemma put_loc_inode_bufs b w : w_bufs (put_loc (InInode p) b w) = w_bufs w.
Proof. cbn. destruct (inode_at w p); [|done]. apply put_inode_rest. Qed.

(** The header of an inode and room for the extents behind it. *)
Lemma headers_inode w ino rs :
  inode_at w p = Some ino -> length (i_block ino) = sizeof_i_block -> (length rs <= 3)%nat ->
  Forall region_ok rs -> Forall (fun r => r_len r < 2 ^ 16) rs -> regions_len rs < 2 ^ 32 ->
  exists b1 b2, extent_headers force info p (Z.of_nat (length rs)) 0 w =
      Done (Some (InInode p, 12)) (put_loc (InInode p) b1 w) /\
    write_bytes b1 12 (extents_bytes 0 rs) = Some b2 /\ length b2 = sizeof_i_block /\
    load 2 b2 6 = Some 0 /\ read_leaf b2 = Some (blocks_of rs).
Proof.
  intros E L Hl Hok Hsm Hlen. unfold sizeof_i_block in *.
  set (hdr := header_bytes (Z.of_nat (length rs)) 3 0). set (xs := extents_bytes 0 rs).
  assert (Lx : length (hdr ++ xs) = (12 + 12 * length rs)%nat).
  { rewrite length_app. unfold xs. by rewrite length_extents_bytes. }
  pose proof (write_prefix (i_block ino) (hdr ++ xs) ltac:(lia)) as W.
  apply write_bytes_split in W as (b1 & W1 & W2). exists b1. eexists. split_and!; [|exact W2|..].
  - unfold extent_headers. rewrite Z.eqb_refl.
    rewrite <-(put_loc_id (InInode p) (i_block ino) w) at 1 by (by apply inode_loc).
    erewrite mbind_done by (eapply write_extent_header_put; [by apply inode_loc|exact W1]). done.
  - rewrite length_app, Lx, length_drop. lia.
  - rewrite <-app_assoc. eapply (load_prefix 2 (le_bytes 2 EXT4_EXT_MAGIC ++ le_bytes 2 (Z.of_nat (length rs)) ++ le_bytes 2 3) 0);
      [unfold hdr, header_bytes; by rewrite <-!app_assoc|done|done].
  - rewrite <-app_assoc. apply read_leaf_bytes; (done || lia).
Qed.

(** The index entry of the inode, and the leaf. *)
Definition index_bytes (ex : Z) : list Z :=
  header_bytes 1 3 1 ++ le_bytes 4 0 ++ le_bytes 4 ex ++ le_bytes 2 0 ++ le_bytes 2 0.

Definition leaf_world (b : list Z) (ex : Z) (w : world) : world :=
  set_sparse (mk_sparse (SrcBuf (length (w_bufs w)) 0) (block_size info) ex :: w_sparse w)
    (set_bufs (w_bufs w ++ [replicate (Z.to_nat (block_size info)) 0]) (put_loc (InInode p) b w)).

Lemma headers_leaf w ino rs ex :
  inode_at w p = Some ino -> length (i_block ino) = sizeof_i_block -> ex <> 0 ->
  12 + 12 * Z.of_nat (length rs) <= block_size info < 2 ^ 31 -> Z.of_nat (length rs) < 2 ^ 16 ->
  Forall region_ok rs -> Forall (fun r => r_len r < 2 ^ 16) rs -> regions_len rs < 2 ^ 32 ->
  exists b1 b2,
    let ib := index_bytes ex ++ drop 24 (i_block ino) in
    let data := length (w_bufs w) in
    extent_headers force info p (Z.of_nat (length rs)) ex w =
      Done (Some (InBuf data, 12)) (put_loc (InBuf data) b1 (leaf_world ib ex w)) /\
    write_bytes b1 12 (extents_bytes 0 rs) = Some b2 /\ read_leaf b2 = Some (blocks_of rs).
Proof.
  intros E L Hex Hb Hn Hok Hsm Hlen. unfold sizeof_i_block in *.
  set (zeros := replicate (Z.to_nat (block_size info)) 0). set (n := Z.of_nat (length rs)) in *.
  set (max := u32 (block_size info - sizeof_extent_header) / sizeof_extent).
  set (hdr := header_bytes n max 0). set (xs := extents_bytes 0 rs).
  assert (Lx : length (hdr ++ xs) = (12 + 12 * length rs)%nat).
  { rewrite length_app. unfold xs. by rewrite length_extents_bytes. }
  pose proof (write_prefix zeros (hdr ++ xs)) as W. specialize (W ltac:(unfold zeros; rewrite length_replicate; lia)).
  apply write_bytes_split in W as (b1 & W1 & W2). exists b1. eexists. cbv zeta. split_and!; [|exact W2|].
  2: { rewrite <-app_assoc. apply read_leaf_bytes; done. }
  pose proof (write_prefix (i_block ino) (index_bytes ex) ltac:(cbn; lia)) as V. unfold index_bytes in V.
  apply write_bytes_split in V as (a1 & V1 & V). apply write_bytes_split in V as (a2 & V2 & V).
  apply write_bytes_split in V as (a3 & V3 & V). apply write_bytes_split in V as (a4 & V4 & V5).
  pose proof (inode_loc w ino E) as EL.
  unfold extent_headers. rewrite (proj2 (Z.eqb_neq ex 0)) by done.
  rewrite <-(put_loc_id (InInode p) (i_block ino) w) at 1 by done.
  erewrite mbind_done by (eapply write_extent_header_put; [exact EL|exact V1]).
  erewrite mbind_done by (eapply store_at_put; [exact EL|exact V2]).
  erewrite mbind_done by (eapply store_at_put; [exact EL|exact V3]).
  erewrite mbind_done by (eapply store_at_put; [exact EL|exact V4]).
  erewrite mbind_done by (eapply store_at_put; [exact EL|exact V5]).
  erewrite mbind_done by apply calloc_done. unfold sparse_file_add_data, modify.
  erewrite mbind_done by done.
  change (header_bytes 1 3 1 ++ le_bytes 4 0 ++ le_bytes 4 ex ++ le_bytes 2 0 ++ le_bytes 2 0) with (index_bytes ex).
  change (length (index_bytes ex)) with 24%nat. set (ib := index_bytes ex ++ drop 24 (i_block ino)).
  pose proof (put_loc_inode_bufs ib w) as Hbufs. destruct (put_loc_rest (InInode p) ib w) as (_ & Hsp & _ & _).
  rewrite !Hbufs. set (wl := set_sparse _ _).
  assert (Ewl : wl = leaf_world ib ex w) by (unfold wl, leaf_world; cbn [w_sparse set_bufs]; by rewrite Hsp).
  rewrite Ewl. clear wl Ewl.
  assert (El : loc_bytes (InBuf (length (w_bufs w))) (leaf_world ib ex w) = Some zeros).
  { cbn. by rewrite lookup_app_r, Nat.sub_diag by lia. }
  change (sizeof_extent_header / sizeof_extent) with 1. fold max.
  rewrite (proj2 (Z.ltb_ge _ n)).
  2: { rewrite u32_small by lia. unfold s32. rewrite Z.mod_small by lia. lia. }
  rewrite <-(put_loc_id (InBuf (length (w_bufs w))) zeros (leaf_world ib ex w)) at 1 by done.
  by erewrite mbind_done by (eapply write_extent_header_put; [exact El|exact W1]).
Qed.

(** The sizes of the inode. *)
Definition sized (len block_len : Z) (i : ext4_inode) : ext4_inode :=
  let blocks := u64 (block_len * block_size info) / 512 in
  set_l_i_blocks_high (u16 (Z.shiftr blocks 32))
    (set_i_blocks_lo (u32 blocks)
      (set_i_size_high (u32 (Z.shiftr len 32))
        (set_i_size_lo (u32 len)
          (set_i_flags (Z.lor (i_flags i) EXT4_EXTENTS_FL) i)))).

Lemma set_extent_sizes_done w ino len block_len :
  inode_at w p = Some ino ->
  set_extent_sizes info p len block_len w = Done tt (put_inode p (sized len block_len ino) w).
Proof. intros E. by eapply with_inode_done. Qed.

Lemma file_blocks_inode w ino bs :
  inode_at w p = Some ino -> load 2 (i_block ino) 6 = Some 0 -> read_leaf (i_block ino) = Some bs ->
  file_blocks w p = Some bs.
Proof. intros E E1 E2. unfold file_blocks. rewrite E. cbn [mbind option_bind]. by rewrite E1. Qed.

Lemma index_loads ex rest :
  0 <= ex < 2 ^ 32 -> let b := index_bytes ex ++ rest in
  load 2 b 0 = Some EXT4_EXT_MAGIC /\ load 2 b 2 = Some 1 /\ load 2 b 6 = Some 1 /\
  load 4 b 16 = Some ex /\ load 2 b 20 = Some 0.
Proof.
  intros Hex b. unfold b, index_bytes. rewrite <-!app_assoc. split_and!.
  - by eapply (load_prefix 2 [] EXT4_EXT_MAGIC).
  - by eapply (load_prefix 2 (le_bytes 2 EXT4_EXT_MAGIC) 1).
  - by eapply (load_prefix 2 (le_bytes 2 EXT4_EXT_MAGIC ++ le_bytes 2 1 ++ le_bytes 2 3) 1).
  - eapply (load_prefix 4 (header_bytes 1 3 1 ++ le_bytes 4 0)); [by rewrite <-!app_assoc|done|done].
  - eapply (load_prefix 2 (header_bytes 1 3 1 ++ le_bytes 4 0 ++ le_bytes 4 ex)); [by rewrite <-!app_assoc|done|done].
Qed.

Lemma file_blocks_leaf w ino ex id rest sp leaf bs :
  inode_at w p = Some ino -> i_block ino = index_bytes ex ++ rest -> 0 <= ex < 2 ^ 32 ->
  w_sparse w = mk_sparse (SrcBuf id 0) (block_size info) ex :: sp -> w_bufs w !! id = Some leaf ->
  read_leaf leaf = Some bs -> file_blocks w p = Some bs.
Proof.
  intros E Eb Hex Es El Er. destruct (index_loads ex rest Hex) as (L1 & L2 & L3 & L4 & L5).
  unfold file_blocks. rewrite E. cbn [mbind option_bind]. rewrite Eb, L3. cbn [mbind option_bind].
  change (1 =? 0) with false. cbv iota. rewrite L1, L2, L4, L5. cbn [mbind option_bind].
  change ((EXT4_EXT_MAGIC =? EXT4_EXT_MAGIC) && (1 =? 1) && (1 =? 1)) with true. cbv iota.
  unfold queued_block. rewrite Es. cbn [List.find so_block]. rewrite Z.shiftl_0_l, Z.add_0_l, Z.eqb_refl.
  by rewrite El.
Qed.

(** Everything after the allocation. *)
Definition fill_extents (alloc : block_allocation) (count ex len block_len : Z)
  : M world (option block_allocation) :=
  do headers <- extent_headers force info p count ex;
  match headers with
  | None => mret' None
  | Some (l, off) =>
      do w <- get;
      do alloc <- extents_loop (list_fuel (w_heap w)) l off 0 alloc;
      set_extent_sizes info p len (if ex =? 0 then block_len else u32 (block_len + 1));;;
      mret' (Some (rewind_alloc alloc))
  end.

(** The loop over the regions, from any place. *)
Lemma loop_fill w l b b0 b2 alloc nodes :
  loc_bytes l w = Some b0 -> seg (regs (w_heap w)) (l_iter (a_list alloc)) nodes None ->
  partial_iter (a_list alloc) = 0 -> Forall region_ok nodes.*2 -> regions_len nodes.*2 < 2 ^ 32 ->
  write_bytes b 12 (extents_bytes 0 nodes.*2) = Some b2 ->
  extents_loop (list_fuel (w_heap w)) l 12 0 alloc (put_loc l b w) =
    Done (mk_alloc (set_partial 0 (set_iter None (a_list alloc))) (oob_list alloc)) (put_loc l b2 w).
Proof.
  intros E Hs Hp Hok Hl W. apply (extents_loop_spec _ _ _ b0 b b2 12 0 nodes); (done || (try lia)).
  by eapply seg_fuel.
Qed.

Lemma fill_extents_spec w ino alloc nodes ex len n :
  inode_at w p = Some ino -> length (i_block ino) = sizeof_i_block ->
  seg (regs (w_heap w)) (l_first (a_list alloc)) nodes None ->
  l_iter (a_list alloc) = l_first (a_list alloc) -> partial_iter (a_list alloc) = 0 ->
  Forall region_ok nodes.*2 -> Forall (fun r => r_len r < 2 ^ 16) nodes.*2 -> regions_len nodes.*2 < 2 ^ 32 ->
  ex = 0 /\ (length nodes <= 3)%nat \/ 0 < ex < 2 ^ 32 /\ (3 < length nodes)%nat ->
  12 + 12 * Z.of_nat (length nodes) <= block_size info < 2 ^ 31 -> Z.of_nat (length nodes) < 2 ^ 16 ->
  exists w' ino',
    fill_extents alloc (Z.of_nat (length nodes)) ex len n w = Done (Some (rewind_alloc alloc)) w' /\
    file_blocks w' p = Some (blocks_of nodes.*2) /\ inode_at w' p = Some (sized len (if ex =? 0 then n else u32 (n + 1)) ino') /\
    (exists b, ino' = set_i_block b ino) /\
    block_part <$> w_bgs w' = block_part <$> w_bgs w /\ w_heap w' = w_heap w /\ w_xattrs w' = w_xattrs w.
Proof.
  intros E L Hs Hi Hp Hok Hsm Hlen Hex Hb Hn. rewrite <-(length_fmap snd nodes) in *. rewrite Hi in Hs || rewrite <-Hi in Hs.
  assert (Hrew : rewind_alloc (mk_alloc (set_partial 0 (set_iter None (a_list alloc))) (oob_list alloc)) = rewind_alloc alloc) by done.
  unfold fill_extents. destruct Hex as [[-> H3]|[Hex H3]].
  - destruct (headers_inode w ino nodes.*2 E L H3 Hok Hsm Hlen) as (b1 & b2 & Eh & W & L2 & Ld & Lr).
    rewrite (mbind_done _ _ _ _ _ Eh). unfold get. erewrite mbind_done by done.
    destruct (put_loc_rest (InInode p) b1 w) as (-> & _).
    erewrite mbind_done by (eapply loop_fill; (done || by apply inode_loc)).
    assert (E2 : put_loc (InInode p) b2 w = put_inode p (set_i_block b2 ino) w) by (cbn; by rewrite E).
    assert (E3 : inode_at (put_loc (InInode p) b2 w) p = Some (set_i_block b2 ino)).
    { rewrite E2. by eapply inode_at_put. }
    erewrite mbind_done by (by apply set_extent_sizes_done). rewrite Hrew, E2, put_inode_twice. rewrite Z.eqb_refl.
    assert (E4 : inode_at (put_inode p (sized len n (set_i_block b2 ino)) w) p = Some (sized len n (set_i_block b2 ino)))
      by (by eapply inode_at_put).
    destruct (put_inode_rest p (sized len n (set_i_block b2 ino)) w) as (? & ? & ? & ?).
    eexists _, _. split_and!; [done|by eapply file_blocks_inode|exact E4|by exists b2|apply put_inode_block_part|done|done].
  - destruct (headers_leaf w ino nodes.*2 ex E L ltac:(lia) Hb Hn Hok Hsm Hlen) as (b1 & b2 & Eh & W & Lr).
    cbv zeta in Eh. set (ib := index_bytes ex ++ drop 24 (i_block ino)) in *. set (data := length (w_bufs w)) in *.
    rewrite (mbind_done _ _ _ _ _ Eh). unfold get. erewrite mbind_done by done.
    set (wl := leaf_world ib ex w) in *. change (w_heap (put_loc (InBuf data) b1 wl)) with (w_heap wl).
    assert (Hwl : w_heap wl = w_heap w) by (cbn; rewrite E; apply put_inode_rest).
    assert (Ebuf : loc_bytes (InBuf data) wl = Some (replicate (Z.to_nat (block_size info)) 0)).
    { cbn. by rewrite lookup_app_r, Nat.sub_diag by (unfold data; lia). }
    erewrite mbind_done by (eapply loop_fill; [exact Ebuf|by rewrite Hwl|done..]).
    set (w2 := put_loc (InBuf data) b2 wl).
    assert (E3 : inode_at w2 p = Some (set_i_block ib ino)).
    { change (inode_at (put_loc (InInode p) ib w) p = Some (set_i_block ib ino)). cbn. rewrite E. by eapply inode_at_put. }
    erewrite mbind_done by (by apply set_extent_sizes_done). rewrite Hrew, (proj2 (Z.eqb_neq ex 0)) by lia.
    set (ino2 := sized len (u32 (n + 1)) (set_i_block ib ino)).
    destruct (put_inode_rest p ino2 w2) as (R1 & R2 & R3 & R4).
    eexists _, (set_i_block ib ino). split_and!; [done| |by eapply inode_at_put|by exists ib| | |].
    + eapply (file_blocks_leaf _ ino2 ex data (drop 24 (i_block ino))); [by eapply inode_at_put|done|lia|by rewrite R3| |exact Lr].
      rewrite R2. cbn. apply list_lookup_insert_eq. by eapply lookup_lt_Some.
    + rewrite put_inode_block_part. change (w_bgs w2) with (w_bgs (put_loc (InInode p) ib w)). apply put_loc_rest.
    + by rewrite R1.
    + rewrite R4. cbn. rewrite E. apply put_inode_rest.
Qed.
End fill.
