(* ===== verification/ExtentProps.v ===== *)
(** * Extents (properties of ext4_utils/extent.c)

    [do_inode_allocate_extents] gives a file blocks of its own, and a reader of the
    image finds exactly these behind the inode. *)

From S2P Require Import Prelude Bytes Ext4Info Inode Bitmap BlockGroup Regions Alloc AllocSpec Buffers InodeSpec AllocProps Extent ExtentSpec ExtentRead.

(** What a file gets: its blocks in order and the block of its leaf, if any. *)
Record file_gets (info : fs_info) (aux : fs_aux_info) (p : inode_ptr) (len : Z)
    (w : world) (blocks meta : list Z) (w' : world) : Prop := {
  fg_ok : world_ok info aux w';
  fg_read : file_blocks w' p = Some blocks;
  fg_count : Z.of_nat (length blocks) = DIV_ROUND_UP len (block_size info) /\ (length meta <= 1)%nat;
  fg_nodup : NoDup (blocks ++ meta);
  fg_free b : b ∈ blocks ++ meta -> ~ used info w b;
  fg_used b : used info w' b <-> used info w b \/ b ∈ blocks ++ meta;
  fg_inode : exists ino', inode_at w' p = Some ino' /\
    Z.shiftl (i_size_high ino') 32 + i_size_lo ino' = len /\
    Z.shiftl (l_i_blocks_high ino') 32 + i_blocks_lo ino' =
      Z.of_nat (length (blocks ++ meta)) * block_size info / 512 /\
    Z.land (i_flags ino') EXT4_EXTENTS_FL = EXT4_EXTENTS_FL
}.

(** The halves of a 64-bit number in two members. *)
Lemma halves n : 0 <= n < 2 ^ 64 -> Z.shiftl (u32 (Z.shiftr n 32)) 32 + u32 n = n.
Proof.
  intros Hn. rewrite Z.shiftl_mul_pow2, Z.shiftr_div_pow2 by lia. unfold u32.
  rewrite (Z.mod_small (n / 2 ^ 32)).
  - pose proof (Z.div_mod n (2 ^ 32) ltac:(lia)). lia.
  - split; [apply Z.div_pos; lia|]. apply Z.div_lt_upper_bound; lia.
Qed.
Lemma halves48 n : 0 <= n < 2 ^ 48 -> Z.shiftl (u16 (Z.shiftr n 32)) 32 + u32 n = n.
Proof.
  intros Hn. rewrite Z.shiftl_mul_pow2, Z.shiftr_div_pow2 by lia. unfold u32, u16.
  rewrite (Z.mod_small (n / 2 ^ 32)).
  - pose proof (Z.div_mod n (2 ^ 32) ltac:(lia)). lia.
  - split; [apply Z.div_pos; lia|]. apply Z.div_lt_upper_bound; lia.
Qed.

Section extents.
Context (force : bool) (info : fs_info) (aux : fs_aux_info) (fuel : nat) (p : inode_ptr).
Hypothesis Hgeo : geometry info aux.

(** From the allocation to the inode. *)
Lemma file_gets_filled w n len alloc l ex w1 ino w' ino' :
  file_allocation info aux w n alloc l ex w1 -> n = DIV_ROUND_UP len (block_size info) ->
  0 <= len < 2 ^ 64 -> 0 < block_size info < 2 ^ 20 -> 0 <= n -> n + 1 < 2 ^ 32 ->
  file_blocks w' p = Some (blocks_of l.*2) ->
  inode_at w' p = Some (sized info len (if ex =? 0 then n else u32 (n + 1)) ino') ->
  (exists b, ino' = set_i_block b ino) ->
  block_part <$> w_bgs w' = block_part <$> w_bgs w1 -> w_heap w' = w_heap w1 ->
  file_gets info aux p len w (blocks_of l.*2) (if ex =? 0 then [] else [ex]) w'.
Proof.
  intros [F1 F2 F3 F4 F5 F6 F7 F8 F9 F10 F11] En Hlen Hbs Hn Hn32 Hfile Hino [b ->] Hbp Hh.
  assert (Hex : (ex =? 0) = true /\ ex = 0 \/ (ex =? 0) = false /\ ex <> 0) by lia.
  assert (Hcount : Z.of_nat (length (blocks_of l.*2)) = n).
  { rewrite length_blocks_of by (by eapply regions_in_ok). done. }
  split.
  - eapply world_ok_block_part; [exact Hbp| |exact F1]. rewrite Hh. apply F1.
  - exact Hfile.
  - split; [lia|]. by destruct (ex =? 0); cbn; lia.
  - destruct F7 as [N1 N2]. apply NoDup_app. split_and!; [done| |].
    + intros x Hx. destruct Hex as [[-> _]|[-> Hne]]; [by apply not_elem_of_nil|].
      intros ->%list_elem_of_singleton. by apply N2.
    + destruct (ex =? 0); [constructor|apply NoDup_singleton].
  - intros x Hx. apply F8. apply elem_of_app in Hx as [Hx|Hx]; [by left|].
    destruct Hex as [[Ee _]|[Ee Hne]]; rewrite Ee in Hx; [by apply not_elem_of_nil in Hx|].
    apply list_elem_of_singleton in Hx as ->. by right.
  - intros x. rewrite (used_block_part _ _ _ _ Hbp), F9, elem_of_app.
    destruct Hex as [[-> He]|[-> Hne]]; [rewrite elem_of_nil|rewrite list_elem_of_singleton]; tauto.
  - eexists. split; [exact Hino|].
    set (m := if ex =? 0 then n else u32 (n + 1)).
    assert (Em : m = Z.of_nat (length (blocks_of l.*2 ++ (if ex =? 0 then [] else [ex])))).
    { unfold m. rewrite length_app. destruct (ex =? 0); cbn; [|rewrite u32_small by lia]; lia. }
    rewrite <-Em. assert (Hm : 0 <= m * block_size info < 2 ^ 52) by (unfold m; destruct (ex =? 0); rewrite ?u32_small; nia).
    unfold sized. cbn [i_size_high i_size_lo l_i_blocks_high i_blocks_lo i_flags set_l_i_blocks_high
      set_i_blocks_lo set_i_size_high set_i_size_lo set_i_flags set_i_block].
    rewrite halves, halves48, u64_small; [|lia|rewrite u64_small by lia; dlia|lia]. split_and!; [done..|].
    apply Z.bits_inj'. intros k _. rewrite Z.land_spec, Z.lor_spec.
    by destruct (Z.testbit _ k), (Z.testbit EXT4_EXTENTS_FL k).
Qed.

(** The blocks of a file, from the allocator. *)
Lemma allocate_file_blocks w n alloc q l w1 ino :
  world_ok info aux w -> world_ok info aux w1 -> allocated info w (blocks_of l.*2) w1 ->
  alloc = mk_alloc (mk_region_list (Some q) (Some q) (Some q) 0) (oob_list create_allocation) ->
  seg (regs (w_heap w1)) (Some q) l None -> regions_len l.*2 = n + 1 -> 1 <= n -> n + 1 < 2 ^ 31 ->
  Forall (region_in info) l.*2 -> head_end 2 w1 q -> used info w 0 \/ 0 < first_data_block aux ->
  (2 <= fuel)%nat -> inode_at w p = Some ino ->
  exists alloc' l' ex w2,
    (do allocation_len <- with_heap (block_allocation_num_regions alloc);
     do r <- (if allocation_len <=? 3 then
                do alloc <- reduce_allocation fuel alloc 1; mret' (alloc, 0)
              else
                do (_, alloc) <- with_heap (reserve_oob_blocks alloc 1);
                do extent_block <- with_heap (get_oob_block alloc 0);
                mret' (alloc, extent_block));
     mret' (allocation_len, r)) w1 = Done (Z.of_nat (length l'), (alloc', ex)) w2 /\
    length l' = length l /\ file_allocation info aux w n alloc' l' ex w2.
Proof.
  intros Hw Hw1 Ha Hal Hs Hlen Hn1 Hn31 Hreg (r & bg & (Hq & Hbg & Hprev & Hfb & Hend) & Hr2) H0 Hfuel Hino.
  destruct l as [|[q' r'] rest]; [by cbn in Hlen; lia|]. pose proof Hs as (Eq & Hq' & _).
  injection Eq as <-. rewrite Hq in Hq'. injection Hq' as <-. cbn [fmap list_fmap snd] in *.
  assert (Hcount : Z.of_nat (length ((q, r) :: rest)) < 2 ^ 31).
  { assert (Hle : Z.of_nat (length (r :: rest.*2)) <= regions_len (r :: rest.*2)); [|cbn in *; rewrite length_fmap in Hle; lia].
    clear -Hreg. induction Hreg as [|x xs [_ Hx] _ IH]; [done|]. cbn [length regions_len foldr]. unfold regions_len in IH. lia. }
  pose proof (num_regions_spec (w_heap w1) alloc ((q, r) :: rest)) as Hnum.
  rewrite Hal in Hnum. cbn [a_list l_first] in Hnum. specialize (Hnum Hs Hcount).
  assert (Hnum' : with_heap (block_allocation_num_regions alloc) w1 = Done (Z.of_nat (length ((q, r) :: rest))) w1).
  { rewrite Hal. erewrite with_heap_done by exact Hnum. by rewrite set_heap_id. }
  rewrite (mbind_done _ _ _ _ _ Hnum'). clear Hnum Hnum'.
  destruct (Z.leb_spec (Z.of_nat (length ((q, r) :: rest))) 3) as [H3|H3].
  - destruct (take_last info aux fuel Hgeo w n q r rest bg w1 alloc) as (w2 & E & Hfa); try done; [cbn [length] in H3; lia|].
    eexists _, _, 0, w2. split; [|split; [|exact Hfa]]; [|done].
    erewrite mbind_done by (by erewrite mbind_done by exact E). done.
  - assert (Hpos : 0 < r_block r).
    { destruct (wo_bg _ _ _ Hw1 _ _ Hbg) as [_ Efb]. pose proof (zget_some_inv _ _ _ Hbg).
      pose proof (geo_bpg _ _ Hgeo). destruct H0 as [H0|H0]; [|nia]. apply Forall_cons in Hreg as [[(? & ? & _) _] _].
      destruct (decide (r_block r = 0)) as [Ez|]; [|lia]. exfalso. apply (al_free _ _ _ _ Ha 0); [|done].
      rewrite blocks_of_cons. apply elem_of_app. left. apply elem_of_seqZ. lia. }
    destruct (take_first info aux w n q r rest w1 alloc) as (alloc' & l' & w2 & E1 & E2 & El & Hfa);
      try done; [cbn [length] in H3; lia|].
    eexists alloc', l', (r_block r), w2. split; [|split; [by rewrite El|exact Hfa]].
    erewrite mbind_done by (rewrite (mbind_done _ _ _ _ _ E1); cbv beta iota;
      rewrite (mbind_done _ _ _ _ _ E2); reflexivity).
    by rewrite El.
Qed.
End extents.


(** Two groups of sixteen blocks of 1 KiB, and an inode of the first. *)
Definition extent_info : fs_info :=
  mk_fs_info 33792 1024 16 8 128 16 0 EXT4_FEATURE_RO_COMPAT_SPARSE_SUPER 0 0 0 [] 0.
Definition extent_aux : fs_aux_info := mk_fs_aux_info 1 33 1 2 1 0 0 0 0.
Definition extent_start : world :=
  match block_allocator_init true extent_info extent_aux empty_world with
  | Done _ w => w
  | _ => empty_world
  end.
Definition with_table (w : world) : world :=
  set_bgs (alter (set_inode_table (Some [zero_inode 128])) 0%nat (w_bgs w)) w.
Definition extent_world : world := with_table extent_start.

Lemma with_table_ok info aux w : world_ok info aux w -> world_ok info aux (with_table w).
Proof.
  intros Hw. eapply world_ok_block_part; [|exact (wo_heap _ _ _ Hw)|exact Hw].
  unfold with_table. cbn. by destruct (w_bgs w).
Qed.

Lemma extent_geometry : geometry extent_info extent_aux.
Proof. by split. Qed.

Lemma extent_world_ok : world_ok extent_info extent_aux extent_world.
Proof.
  destruct (block_allocator_init_spec true extent_info extent_aux extent_geometry empty_world
    empty_heap_ok) as (w' & E & Hok & _).
  { intros i Hi. assert (i = 0 \/ i = 1) as [->| ->] by (cbn in Hi; lia);
      split; vm_compute; intuition discriminate. }
  apply with_table_ok. unfold extent_start. by rewrite E.
Qed.

Lemma extent_live : live 2 extent_world.
Proof.
  assert (H : forallb (fun g => 2 <=? free_blocks_count g) (w_bgs extent_world) = true) by (vm_compute; reflexivity).
  intros i g E _. unfold zget in E. case_decide; [|done]. apply list_elem_of_lookup_2, list_elem_of_In in E.
  rewrite forallb_forall in H. specialize (H g E). lia.
Qed.


(** The example's file of nine blocks. *)
Example extents_of_nine_blocks :
  (match do_inode_allocate_extents true extent_info extent_aux 4 (0, 0) 9000 extent_world with
   | Done (Some _) w => file_blocks w (0, 0)
   | _ => None
   end) = Some (seqZ 6 9).
Proof. vm_compute. reflexivity. Qed.
