(* ===== verification/Indirect.v ===== *)
(** * Indirect blocks (indirect.c)

    A file's blocks through the inode's direct, indirect, doubly and triply
    indirect pointers, and the resize inode. [unsigned long] has 64 bits. A
    pointer to words of a block is a buffer, a word's index its offset over four. *)

From S2P Require Import Prelude Bytes Ext4Info Inode Bitmap BlockGroup Regions Alloc Extent.

Definition EXT4_IND_BLOCK : Z := EXT4_NDIR_BLOCKS.
Definition EXT4_DIND_BLOCK : Z := EXT4_IND_BLOCK + 1.
Definition EXT4_TIND_BLOCK : Z := EXT4_DIND_BLOCK + 1.

Section indirect.
Context (force : bool) (info : fs_info) (aux : fs_aux_info) (fuel : nat).

(** [inode->i_block[i] = v] and [block[i] = v]. *)
Definition set_block_word (inode : inode_ptr) (i v : Z) : M world unit :=
  store_at (InInode inode) 4 (4 * i) v.
Definition set_word (data : nat) (i v : Z) : M world unit := store_buf data 4 (4 * i) v.

(** [static u8 *create_backing(alloc, unsigned long backing_len)]. *)
Definition create_backing (alloc : block_allocation) (backing_len : Z) : M world nat :=
  if EXT4_NDIR_BLOCKS <? u64 (backing_len + block_size info - 1) / block_size info then longjmp
  else extent_create_backing info alloc backing_len.

(** ** Reserving the blocks that hold pointers *)

(** [static void reserve_indirect_block(alloc, int len)]. *)
Definition reserve_indirect_block (alloc : block_allocation) (len : Z) : M world block_allocation :=
  do (failed, alloc) <- with_heap (reserve_oob_blocks alloc 1);
  if negb (failed =? 0) then error force;;; mret' alloc
  else
    do (failed, alloc) <- with_heap (advance_blocks alloc (u32 len));
    if negb (failed =? 0) then error force;;; mret' alloc else mret' alloc.

(** The [while (len > 0)] loops of the two functions below. *)
Fixpoint reserve_loop (n : nat) (reserve : block_allocation -> Z -> M world block_allocation)
    (per_block : Z) (alloc : block_allocation) (len : Z) : M world block_allocation :=
  match n with
  | O => fun _ => NoFuel
  | S n =>
      if 0 <? len then
        let block_len := Z.min (s32 per_block) len in
        do alloc <- reserve alloc block_len;
        reserve_loop n reserve per_block alloc (len - block_len)
      else mret' alloc
  end.

(** [static void reserve_dindirect_block(alloc, int len)]. *)
Definition reserve_dindirect_block (alloc : block_allocation) (len : Z) : M world block_allocation :=
  do (failed, alloc) <- with_heap (reserve_oob_blocks alloc 1);
  if negb (failed =? 0) then error force;;; mret' alloc
  else reserve_loop (S (Z.to_nat len)) reserve_indirect_block (blocks_per_ind aux) alloc len.

(** [static void reserve_tindirect_block(alloc, int len)]. *)
Definition reserve_tindirect_block (alloc : block_allocation) (len : Z) : M world block_allocation :=
  do (failed, alloc) <- with_heap (reserve_oob_blocks alloc 1);
  if negb (failed =? 0) then error force;;; mret' alloc
  else reserve_loop (S (Z.to_nat len)) reserve_dindirect_block (blocks_per_dind aux) alloc len.

(** [static void reserve_all_indirect_blocks(alloc, u32 len)]. *)
Definition reserve_all_indirect_blocks (alloc : block_allocation) (len : Z) : M world block_allocation :=
  if len <=? EXT4_NDIR_BLOCKS then mret' alloc
  else
    let len := len - EXT4_NDIR_BLOCKS in
    do (_, alloc) <- with_heap (advance_blocks alloc EXT4_NDIR_BLOCKS);
    let ind_block_len := Z.min (blocks_per_ind aux) len in
    do alloc <- reserve_indirect_block alloc (s32 ind_block_len);
    let len := len - ind_block_len in
    if len =? 0 then mret' alloc
    else
      let dind_block_len := Z.min (blocks_per_dind aux) len in
      do alloc <- reserve_dindirect_block alloc (s32 dind_block_len);
      let len := len - dind_block_len in
      if len =? 0 then mret' alloc
      else
        let tind_block_len := Z.min (blocks_per_tind aux) len in
        do alloc <- reserve_tindirect_block alloc (s32 tind_block_len);
        let len := len - tind_block_len in
        if len =? 0 then mret' alloc
        else error force;;; mret' alloc.

(** [DIV_ROUND_UP] on [u32] operands; a division by zero is stuck. *)
Definition div_round_up32 (x y : Z) : M world Z :=
  if y =? 0 then stuck else mret' (u32 (u32 (x + y) - 1) / y).

(** [static u32 indirect_blocks_needed(u32 len)]. *)
Definition indirect_blocks_needed (len : Z) : M world Z :=
  let ind := 0 in
  if len <=? EXT4_NDIR_BLOCKS then mret' ind
  else
    let len := len - EXT4_NDIR_BLOCKS in
    do n <- div_round_up32 len (blocks_per_ind aux);
    let ind := u32 (ind + n) in
    if len <=? blocks_per_ind aux then mret' ind
    else
      let len := len - blocks_per_ind aux in
      do n <- div_round_up32 len (blocks_per_dind aux);
      let ind := u32 (ind + n) in
      if len <=? blocks_per_dind aux then mret' ind
      else
        let len := len - blocks_per_dind aux in
        do n <- div_round_up32 len (blocks_per_tind aux);
        let ind := u32 (ind + n) in
        if len <=? blocks_per_tind aux then mret' ind else longjmp.

(** ** Filling the blocks that hold pointers *)

(** [static void fill_indirect_block(u32 *ind_block, int len, alloc)]; the loop
    over [i] from [i]. *)
Fixpoint fill_words (n : nat) (put_word : Z -> Z -> M world unit) (alloc : block_allocation) (i : Z)
  : M world unit :=
  match n with
  | O => mret' tt
  | S n =>
      do b <- with_heap (get_block alloc i);
      put_word i b;;;
      fill_words n put_word alloc (i + 1)
  end.
Definition fill_indirect_block (ind_block : nat) (len : Z) (alloc : block_allocation) : M world unit :=
  fill_words (Z.to_nat len) (set_word ind_block) alloc 0.

(** The loop of [fill_dindirect_block]. *)
Fixpoint fill_dindirect_loop (n : nat) (dind_block : nat) (len : Z) (alloc : block_allocation) (i : Z)
  : M world block_allocation :=
  match n with
  | O => fun _ => NoFuel
  | S n =>
      if 0 <? len then
        do ind_block <- with_heap (get_oob_block alloc 0);
        do (failed, alloc) <- with_heap (advance_oob_blocks alloc 1);
        if negb (failed =? 0) then error force;;; mret' alloc
        else
          set_word dind_block i ind_block;;;
          do ind_block_data <- calloc (block_size info);
          sparse_file_add_data (SrcBuf ind_block_data 0) (block_size info) ind_block;;;
          let ind_block_len := Z.min (s32 (blocks_per_ind aux)) len in
          fill_indirect_block ind_block_data ind_block_len alloc;;;
          do (failed, alloc) <- with_heap (advance_blocks alloc (u32 ind_block_len));
          if negb (failed =? 0) then error force;;; mret' alloc
          else fill_dindirect_loop n dind_block (len - ind_block_len) alloc (i + 1)
      else mret' alloc
  end.
Definition fill_dindirect_block (dind_block : nat) (len : Z) (alloc : block_allocation)
  : M world block_allocation :=
  fill_dindirect_loop (S (Z.to_nat len)) dind_block len alloc 0.

(** The loop of [fill_tindirect_block]. *)
Fixpoint fill_tindirect_loop (n : nat) (tind_block : nat) (len : Z) (alloc : block_allocation) (i : Z)
  : M world block_allocation :=
  match n with
  | O => fun _ => NoFuel
  | S n =>
      if 0 <? len then
        do dind_block <- with_heap (get_oob_block alloc 0);
        do (failed, alloc) <- with_heap (advance_oob_blocks alloc 1);
        if negb (failed =? 0) then error force;;; mret' alloc
        else
          set_word tind_block i dind_block;;;
          do dind_block_data <- calloc (block_size info);
          sparse_file_add_data (SrcBuf dind_block_data 0) (block_size info) dind_block;;;
          let dind_block_len := Z.min (s32 (blocks_per_dind aux)) len in
          do alloc <- fill_dindirect_block dind_block_data dind_block_len alloc;
          fill_tindirect_loop n tind_block (len - dind_block_len) alloc (i + 1)
      else mret' alloc
  end.
Definition fill_tindirect_block (tind_block : nat) (len : Z) (alloc : block_allocation)
  : M world block_allocation :=
  fill_tindirect_loop (S (Z.to_nat len)) tind_block len alloc 0.

(** ** Attaching blocks to an inode

    Each function returns the code's result, the allocation and [*block_len]. *)

Definition attach_result : Type := Z * block_allocation * Z.

(** The common end: [advance_blocks(alloc, len)], then [*block_len -= len]. *)
Definition attach_advance (alloc : block_allocation) (len block_len : Z) : M world attach_result :=
  do (failed, alloc) <- with_heap (advance_blocks alloc (u32 len));
  if negb (failed =? 0) then error force;;; mret' (-1, alloc, block_len)
  else mret' (0, alloc, u32 (block_len - len)).

(** [static int inode_attach_direct_blocks(inode, alloc, u32 *block_len)]. *)
Definition inode_attach_direct_blocks (inode : inode_ptr) (alloc : block_allocation) (block_len : Z)
  : M world attach_result :=
  let len := Z.min block_len EXT4_NDIR_BLOCKS in
  fill_words (Z.to_nat len) (set_block_word inode) alloc 0;;;
  attach_advance alloc len block_len.

(** The three other functions differ in the slot of [i_block], the number of
    blocks under one pointer and the function that fills the pointer's block. *)
Definition inode_attach_pointer (slot per_block : Z)
    (fill : nat -> Z -> block_allocation -> M world block_allocation)
    (inode : inode_ptr) (alloc : block_allocation) (block_len : Z) : M world attach_result :=
  let len := s32 (Z.min block_len per_block) in
  do block <- with_heap (get_oob_block alloc 0);
  set_block_word inode slot block;;;
  do (failed, alloc) <- with_heap (advance_oob_blocks alloc 1);
  if negb (failed =? 0) then error force;;; mret' (-1, alloc, block_len)
  else
    do data <- calloc (block_size info);
    sparse_file_add_data (SrcBuf data 0) (block_size info) block;;;
    do alloc <- fill data len alloc;
    attach_advance alloc len block_len.

(** [static int inode_attach_indirect_blocks(inode, alloc, u32 *block_len)]. *)
Definition inode_attach_indirect_blocks : inode_ptr -> block_allocation -> Z -> M world attach_result :=
  inode_attach_pointer EXT4_IND_BLOCK (blocks_per_ind aux)
    (fun data len alloc => fill_indirect_block data len alloc;;; mret' alloc).
(** [static int inode_attach_dindirect_blocks(inode, alloc, u32 *block_len)]. *)
Definition inode_attach_dindirect_blocks : inode_ptr -> block_allocation -> Z -> M world attach_result :=
  inode_attach_pointer EXT4_DIND_BLOCK (blocks_per_dind aux) fill_dindirect_block.
(** [static int inode_attach_tindirect_blocks(inode, alloc, u32 *block_len)]. *)
Definition inode_attach_tindirect_blocks : inode_ptr -> block_allocation -> Z -> M world attach_result :=
  inode_attach_pointer EXT4_TIND_BLOCK (blocks_per_tind aux) fill_tindirect_block.

(** One [if (count > 0)] of [do_inode_attach_indirect]; [None] is [return -1]. *)
Definition attach_stage (attach : block_allocation -> Z -> M world attach_result)
    (state : option block_allocation * Z) : M world (option block_allocation * Z) :=
  match state with
  | (Some alloc, count) =>
      if 0 <? count then
        do r <- attach alloc count;
        let '(failed, alloc, count) := r in
        if negb (failed =? 0) then error force;;; mret' (None, count)
        else mret' (Some alloc, count)
      else mret' (Some alloc, count)
  | (None, count) => mret' (None, count)
  end.

(** [static int do_inode_attach_indirect(inode, alloc, u32 block_len)]: [Some] of
    the rewound allocation is the result 0, [None] is -1. *)
Definition do_inode_attach_indirect (inode : inode_ptr) (alloc : block_allocation) (block_len : Z)
  : M world (option block_allocation) :=
  do r <- inode_attach_direct_blocks inode alloc block_len;
  let '(failed, alloc, count) := r in
  if negb (failed =? 0) then error force;;; mret' None
  else
    do s <- attach_stage (inode_attach_indirect_blocks inode) (Some alloc, count);
    do s <- attach_stage (inode_attach_dindirect_blocks inode) s;
    do s <- attach_stage (inode_attach_tindirect_blocks inode) s;
    match s with
    | (None, _) => mret' None
    | (Some alloc, count) =>
        if negb (count =? 0) then error force;;; mret' None
        else mret' (Some (rewind_alloc alloc))
    end.

(** ** Allocating *)

(** [static struct block_allocation *do_inode_allocate_indirect(u32 block_len)]. *)
Definition do_inode_allocate_indirect (block_len : Z) : M world (option block_allocation) :=
  do indirect_len <- indirect_blocks_needed block_len;
  do alloc <- allocate_blocks force aux fuel (u32 (block_len + indirect_len));
  match alloc with
  | None => error force;;; mret' None
  | Some alloc => mret' (Some alloc)
  end.

(** The blocks of [len] bytes. *)
Definition blocks_of_bytes (len : Z) : Z := u32 (u64 (len + block_size info - 1) / block_size info).

(** [void inode_allocate_indirect(inode, unsigned long len)]. A failed attachment
    leaves the allocation as it was, up to its cursors. *)
Definition inode_allocate_indirect (inode : inode_ptr) (len : Z) : M world unit :=
  let block_len := blocks_of_bytes len in
  do indirect_len <- indirect_blocks_needed block_len;
  do alloc <- do_inode_allocate_indirect block_len;
  match alloc with
  | None => error force
  | Some alloc =>
      do alloc <- reserve_all_indirect_blocks alloc block_len;
      let alloc := rewind_alloc alloc in
      do attached <- do_inode_attach_indirect inode alloc block_len;
      (match attached with None => error force | Some _ => mret' tt end);;;
      with_inode inode (modify (fun i =>
        set_i_size_lo (u32 len)
          (set_i_blocks_lo (u32 (u32 (block_len + indirect_len) * block_size info) / 512)
            (set_i_flags 0 i))));;;
      with_heap (free_alloc alloc)
  end.

(** [u8 *inode_allocate_data_indirect(inode, unsigned long len, unsigned long
    backing_len)]. *)
Definition inode_allocate_data_indirect (inode : inode_ptr) (len backing_len : Z)
  : M world (option nat) :=
  let block_len := blocks_of_bytes len in
  do alloc <- do_inode_allocate_indirect block_len;
  match alloc with
  | None => error force;;; mret' None
  | Some alloc =>
      do data <- (if negb (backing_len =? 0) then
                    do data <- create_backing alloc backing_len; mret' (Some data)
                  else mret' None);
      let alloc := rewind_alloc alloc in
      do attached <- do_inode_attach_indirect inode alloc block_len;
      (match attached with None => error force | Some _ => mret' tt end);;;
      with_heap (free_alloc alloc);;;
      mret' data
  end.

(** ** The resize inode *)

(** [r] of the loop of [inode_attach_resize]: the subtraction and the remainder
    are on [u32] operands. *)
Definition resize_row (i : Z) : Z :=
  let r := s32 (u32 (i - bg_desc_blocks aux) mod bg_desc_reserve_blocks info) in
  if r <? 0 then s32 (u32 (r + bg_desc_reserve_blocks info)) else r.

(** The inner loop over [j]. *)
Fixpoint resize_columns (n : nat) (ind_block_data : nat) (alloc : block_allocation) (r j : Z)
  : M world unit :=
  match n with
  | O => mret' tt
  | S n =>
      let b := u32 (u32 (j * bg_desc_reserve_blocks info) + r) in
      do blk <- with_heap (get_block alloc b);
      set_word ind_block_data (u32 (u32 (u32 (r * blocks_per_ind aux) + j) - 1)) blk;;;
      resize_columns n ind_block_data alloc r (j + 1)
  end.

(** The loop over [i]. *)
Fixpoint resize_rows (n : nat) (dind_block_data ind_block_data : nat) (alloc : block_allocation)
    (superblocks i : Z) : M world unit :=
  match n with
  | O => mret' tt
  | S n =>
      let r := resize_row i in
      do blk <- with_heap (get_block alloc (u32 r));
      set_word dind_block_data i blk;;;
      resize_columns (Z.to_nat (superblocks - 1)) ind_block_data alloc r 1;;;
      resize_rows n dind_block_data ind_block_data alloc superblocks (i + 1)
  end.

(** [void inode_attach_resize(inode, alloc)]; a division by zero is stuck. *)
Definition inode_attach_resize (inode : inode_ptr) (alloc : block_allocation) : M world block_allocation :=
  do block_len <- with_heap (block_allocation_len alloc);
  if bg_desc_reserve_blocks info =? 0 then stuck
  else if negb (block_len mod bg_desc_reserve_blocks info =? 0) then longjmp
  else
    let superblocks := block_len / bg_desc_reserve_blocks info in
    do (_, alloc) <- append_oob_allocation force aux fuel alloc 1;
    do dind_block <- with_heap (get_oob_block alloc 0);
    do dind_block_data <- calloc (block_size info);
    sparse_file_add_data (SrcBuf dind_block_data 0) (block_size info) dind_block;;;
    do ind_block_data <- calloc (block_size info * bg_desc_reserve_blocks info);
    do first <- with_heap (get_block alloc 0);
    sparse_file_add_data (SrcBuf ind_block_data 0)
      (u32 (block_size info * bg_desc_reserve_blocks info)) first;;;
    resize_rows (Z.to_nat (bg_desc_reserve_blocks info)) dind_block_data ind_block_data alloc
      superblocks 0;;;
    let last_block := u32 (u32 (u32 (EXT4_NDIR_BLOCKS + blocks_per_ind aux)
                           + u32 (blocks_per_ind aux * u32 (bg_desc_reserve_blocks info - 1)))
                           + superblocks - 2) in
    let blocks := u64 (u64 (block_len + 1) * block_size info) / 512 in
    let size := u64 (last_block * block_size info) in
    set_block_word inode EXT4_DIND_BLOCK dind_block;;;
    with_inode inode (modify (fun i =>
      set_i_size_high (u32 (Z.shiftr size 32))
        (set_i_size_lo (u32 size)
          (set_l_i_blocks_high (u16 (Z.shiftr blocks 32))
            (set_i_blocks_lo (u32 blocks)
              (set_i_flags 0 i))))));;;
    mret' alloc.
End indirect.
