(* ===== verification/Xattr.v ===== *)
(** * Extended attributes (contents.c, xattr.h)

    The attribute entries in the bytes behind an inode or in a block. A pointer
    into a region is an offset in the list of its bytes. *)

From Stdlib Require Import String.
From S2P Require Import Prelude Bytes Ext4Info Inode Bitmap BlockGroup Regions Alloc.

Definition EXT4_XATTR_INDEX_SECURITY : Z := 6.
Definition EXT4_XATTR_PAD_BITS : Z := 2.
Definition EXT4_XATTR_PAD : Z := Z.shiftl 1 EXT4_XATTR_PAD_BITS.
Definition EXT4_XATTR_ROUND : Z := EXT4_XATTR_PAD - 1.
(** The sizes of [struct ext4_xattr_header], [ext4_xattr_ibody_header] and
    [ext4_xattr_entry]. *)
Definition sizeof_xattr_header : Z := 32.
Definition sizeof_xattr_ibody_header : Z := 4.
Definition sizeof_xattr_entry : Z := 16.
(** The members of an entry, by their offsets. *)
Definition e_name_len : Z := 0.
Definition e_name_index : Z := 1.
Definition e_value_offs : Z := 2.
Definition e_value_block : Z := 4.
Definition e_value_size : Z := 8.
Definition e_hash : Z := 12.
Definition e_name : Z := 16.

Definition EXT4_XATTR_LEN (name_len : Z) : Z :=
  Z.land (name_len + EXT4_XATTR_ROUND + sizeof_xattr_entry) (Z.lnot EXT4_XATTR_ROUND).
Definition EXT4_XATTR_SIZE (size : Z) : Z :=
  Z.land (size + EXT4_XATTR_ROUND) (Z.lnot EXT4_XATTR_ROUND).

(** A region: accesses outside it are stuck. *)
Definition region_load (n : nat) (off : Z) : M (list Z) Z := fun b =>
  match load n b off with Some v => Done v b | None => Stuck end.
Definition region_read (off n : Z) : M (list Z) (list Z) := fun b =>
  match read_bytes b off n with Some bs => Done bs b | None => Stuck end.
Definition region_store (n : nat) (off v : Z) : M (list Z) unit := fun b =>
  match store n b off v with Some b' => Done tt b' | None => Stuck end.
Definition region_write (off : Z) (bs : list Z) : M (list Z) unit := fun b =>
  match write_bytes b off bs with Some b' => Done tt b' | None => Stuck end.

Definition IS_LAST_ENTRY (entry : Z) : M (list Z) bool :=
  do v <- region_load 4 entry; mret' (v =? 0).
Definition EXT4_XATTR_NEXT (entry : Z) : M (list Z) Z :=
  do n <- region_load 1 (entry + e_name_len); mret' (entry + EXT4_XATTR_LEN n).

Section region.
Context (force : bool).

(** [static size_t xattr_free_space(entry, char *end)]. Each turn moves [entry]
    by sixteen bytes or more. *)
Fixpoint free_space_loop (n : nat) (entry end_ : Z) : M (list Z) (Z * Z) :=
  match n with
  | O => fun _ => NoFuel
  | S n =>
      do last <- IS_LAST_ENTRY entry;
      if negb last && (entry <? end_) then
        do size <- region_load 4 (entry + e_value_size);
        do next <- EXT4_XATTR_NEXT entry;
        free_space_loop n next (end_ - u32 (EXT4_XATTR_SIZE size))
      else mret' (entry, end_)
  end.
Definition xattr_free_space (entry end_ : Z) : M (list Z) Z :=
  do b <- get;
  do (entry, end_) <- free_space_loop (S (length b)) entry end_;
  if end_ <? entry then error force;;; mret' 0 else mret' (end_ - entry).

(** [static struct ext4_xattr_entry* xattr_get_last(entry)]. *)
Fixpoint get_last_loop (n : nat) (entry : Z) : M (list Z) Z :=
  match n with
  | O => fun _ => NoFuel
  | S n =>
      do last <- IS_LAST_ENTRY entry;
      if last then mret' entry
      else do next <- EXT4_XATTR_NEXT entry; get_last_loop n next
  end.
Definition xattr_get_last (entry : Z) : M (list Z) Z :=
  do b <- get; get_last_loop (S (length b)) entry.

(** [memcmp] of byte strings of one length. *)
Fixpoint memcmp (a b : list Z) : Z :=
  match a, b with
  | x :: a, y :: b => if x =? y then memcmp a b else if x <? y then -1 else 1
  | _, _ => 0
  end.

(** The comparison of two neighbours in [xattr_assert_sane]. *)
Definition entry_cmp (entry next : Z) : M (list Z) Z :=
  do i1 <- region_load 1 (entry + e_name_index);
  do i2 <- region_load 1 (next + e_name_index);
  if negb (i2 - i1 =? 0) then mret' (i2 - i1)
  else
    do n1 <- region_load 1 (entry + e_name_len);
    do n2 <- region_load 1 (next + e_name_len);
    if negb (n2 - n1 =? 0) then mret' (n2 - n1)
    else
      do s2 <- region_read (next + e_name) n2;
      do s1 <- region_read (entry + e_name) n2;
      mret' (memcmp s2 s1).

(** [static void xattr_assert_sane(entry)]. *)
Fixpoint assert_sane_loop (n : nat) (entry : Z) : M (list Z) unit :=
  match n with
  | O => fun _ => NoFuel
  | S n =>
      do last <- IS_LAST_ENTRY entry;
      if last then mret' tt
      else
        do next <- EXT4_XATTR_NEXT entry;
        do next_last <- IS_LAST_ENTRY next;
        if next_last then mret' tt
        else
          do cmp <- entry_cmp entry next;
          if cmp <? 0 then error force
          else if cmp =? 0 then error force
          else assert_sane_loop n next
  end.
Definition xattr_assert_sane (entry : Z) : M (list Z) unit :=
  do b <- get; assert_sane_loop (S (length b)) entry.

(** ** Hashes *)

Definition NAME_HASH_SHIFT : Z := 5.
Definition VALUE_HASH_SHIFT : Z := 16.

(** A turn of the two loops: [char] is signed, and converted to [__u32]. *)
Definition hash_turn (shift hash x : Z) : Z :=
  u32 (Z.lxor (Z.lxor (u32 (Z.shiftl hash shift)) (Z.shiftr hash (32 - shift))) x).
Definition char_u32 (c : Z) : Z := u32 (if c <? 128 then c else c - 256).
Fixpoint hash_value (n : nat) (value hash : Z) : M (list Z) Z :=
  match n with
  | O => mret' hash
  | S n =>
      do v <- region_load 4 value;
      hash_value n (value + 4) (hash_turn VALUE_HASH_SHIFT hash v)
  end.

(** [static void ext4_xattr_hash_entry(header, entry)]. *)
Definition ext4_xattr_hash_entry (header entry : Z) : M (list Z) unit :=
  do name_len <- region_load 1 (entry + e_name_len);
  do name <- region_read (entry + e_name) name_len;
  let hash := foldl (fun hash c => hash_turn NAME_HASH_SHIFT hash (char_u32 c)) 0 name in
  do value_block <- region_load 4 (entry + e_value_block);
  do value_size <- region_load 4 (entry + e_value_size);
  do hash <-
    (if (value_block =? 0) && negb (value_size =? 0) then
       do value_offs <- region_load 2 (entry + e_value_offs);
       hash_value (Z.to_nat (Z.shiftr (u32 (value_size + EXT4_XATTR_ROUND)) EXT4_XATTR_PAD_BITS))
         (header + value_offs) hash
     else mret' hash);
  region_store 4 (entry + e_hash) hash.

(** ** Adding an entry *)

(** [static struct ext4_xattr_entry* xattr_addto_range(block_start, block_end,
    first, name_index, name, value, value_len)]; [None] is [NULL]. *)
Definition xattr_addto_range (block_start block_end first name_index : Z) (name value : list Z)
  : M (list Z) (option Z) :=
  let name_len := Z.of_nat (length name) in
  let value_len := Z.of_nat (length value) in
  if 255 <? name_len then mret' None
  else
    do available_size <- xattr_free_space first block_end;
    let needed_size := EXT4_XATTR_LEN name_len + EXT4_XATTR_SIZE value_len in
    if available_size <? needed_size then mret' None
    else
      do new_entry <- xattr_get_last first;
      region_write new_entry (replicate (Z.to_nat (EXT4_XATTR_LEN name_len)) 0);;;
      region_store 1 (new_entry + e_name_len) name_len;;;
      region_store 1 (new_entry + e_name_index) name_index;;;
      region_write (new_entry + e_name) name;;;
      region_store 4 (new_entry + e_value_block) 0;;;
      region_store 4 (new_entry + e_value_size) value_len;;;
      let val := new_entry + available_size - EXT4_XATTR_SIZE value_len in
      region_store 2 (new_entry + e_value_offs) (val - block_start);;;
      region_write val (replicate (Z.to_nat (EXT4_XATTR_SIZE value_len)) 0);;;
      region_write val value;;;
      xattr_assert_sane first;;;
      mret' (Some new_entry).
End region.

Section xattr.
Context (force : bool) (info : fs_info) (aux : fs_aux_info) (sparse_result : Z).

(** [static int xattr_addto_inode(inode, name_index, name, value, value_len)].
    The region starts behind the structure and ends with the inode's slot. *)
Definition xattr_addto_inode (inode : inode_ptr) (name_index : Z) (name value : list Z) : M world Z :=
  let first := sizeof_xattr_ibody_header in
  do r <- with_inode inode (zoom (fun i => Some (i_xattr i)) set_i_xattr
            (xattr_addto_range force first (inode_size info - sizeof_inode) first name_index name value));
  match r with
  | None => mret' (-1)
  | Some _ =>
      with_inode inode (zoom (fun i => Some (i_xattr i)) set_i_xattr (region_store 4 0 EXT4_XATTR_MAGIC));;;
      with_inode inode (modify (set_i_extra_isize (u16 (sizeof_inode - EXT4_GOOD_OLD_INODE_SIZE))));;;
      mret' 0
  end.

(** [static int xattr_addto_block(inode, name_index, name, value, value_len)]. *)
Definition xattr_addto_block (inode : inode_ptr) (name_index : Z) (name value : list Z) : M world Z :=
  do header <- get_xattr_block_for_inode force info aux sparse_result inode;
  match header with
  | None => mret' (-1)
  | Some header =>
      do r <- with_buf header
        (xattr_addto_range force 0 (block_size info) sizeof_xattr_header name_index name value);
      match r with
      | None => mret' (-1)
      | Some entry => with_buf header (ext4_xattr_hash_entry 0 entry);;; mret' 0
      end
  end.

(** [static int xattr_add(u32 inode_num, name_index, name, value, value_len)];
    [value] [None] is [NULL]. *)
Definition xattr_add (inode_num name_index : Z) (name : list Z) (value : option (list Z)) : M world Z :=
  match value with
  | None => mret' 0
  | Some value =>
      do inode <- get_inode info aux inode_num;
      do result <- xattr_addto_inode inode name_index name value;
      if negb (result =? 0) then xattr_addto_block inode name_index name value else mret' result
  end.

Definition XATTR_SELINUX_SUFFIX : list Z := str "selinux".
Definition XATTR_CAPS_SUFFIX : list Z := str "capability".

(** [int inode_set_selinux(u32 inode_num, const char *secon)]: the value is the
    context with its terminator. *)
Definition inode_set_selinux (inode_num : Z) (secon : option (list Z)) : M world Z :=
  match secon with
  | None => mret' 0
  | Some secon => xattr_add inode_num EXT4_XATTR_INDEX_SECURITY XATTR_SELINUX_SUFFIX (Some (secon ++ [0]))
  end.

(** [VFS_CAP_REVISION] (revision 2) and [VFS_CAP_FLAGS_EFFECTIVE] of
    linux/capability.h, and its [struct vfs_cap_data]: [magic_etc] and two pairs
    [permitted], [inheritable]. *)
Definition VFS_CAP_REVISION : Z := 0x02000000.
Definition VFS_CAP_FLAGS_EFFECTIVE : Z := 0x000001.
Definition vfs_cap_data (capabilities : Z) : list Z :=
  le_bytes 4 (Z.lor VFS_CAP_REVISION VFS_CAP_FLAGS_EFFECTIVE) ++
  le_bytes 4 (Z.land capabilities 0xffffffff) ++ le_bytes 4 0 ++
  le_bytes 4 (u32 (Z.shiftr capabilities 32)) ++ le_bytes 4 0.

(** [int inode_set_capabilities(u32 inode_num, uint64_t capabilities)]. *)
Definition inode_set_capabilities (inode_num capabilities : Z) : M world Z :=
  if capabilities =? 0 then mret' 0
  else xattr_add inode_num EXT4_XATTR_INDEX_SECURITY XATTR_CAPS_SUFFIX (Some (vfs_cap_data capabilities)).
End xattr.
