(* ===== verification/Contents.v ===== *)
(** * Files, links and directories (contents.c)

    The inodes of regular files, symbolic links and directories, and the records
    of a directory's data. A [char *] is the list of the bytes before the
    terminator; [NULL] is [None]. *)

From Stdlib Require Import String.
From S2P Require Import Prelude Bytes Ext4Info Inode Bitmap BlockGroup Regions Alloc Extent Indirect.

Definition EXT4_ROOT_INO : Z := 2.
Definition EXT4_FT_REG_FILE : Z := 1.
Definition EXT4_FT_DIR : Z := 2.
Definition EXT4_FT_CHRDEV : Z := 3.
Definition EXT4_FT_BLKDEV : Z := 4.
Definition EXT4_FT_FIFO : Z := 5.
Definition EXT4_FT_SOCK : Z := 6.
Definition EXT4_FT_SYMLINK : Z := 7.
(** The file types of [mode_t]. *)
Definition S_IFDIR : Z := 0x4000.
Definition S_IFREG : Z := 0x8000.
Definition S_IFLNK : Z := 0xA000.

(** [struct dentry]; [d_inode] is where the entry's inode number is stored: a
    buffer and an offset in it. *)
Record dentry := mk_dentry {
  d_path : list Z;
  d_full_path : option (list Z);
  d_filename : list Z;
  d_link : list Z;
  d_size : Z;
  d_file_type : Z;
  d_mode : Z;
  d_uid : Z;
  d_gid : Z;
  d_inode : option (nat * Z);
  d_mtime : Z;
  d_secon : option (list Z);
  d_capabilities : Z
}.
Definition set_d_inode (v : option (nat * Z)) (d : dentry) : dentry :=
  mk_dentry (d_path d) (d_full_path d) (d_filename d) (d_link d) (d_size d) (d_file_type d)
    (d_mode d) (d_uid d) (d_gid d) v (d_mtime d) (d_secon d) (d_capabilities d).

(** The members of [struct ext4_dir_entry_2], by their offsets. *)
Definition de_inode : Z := 0.
Definition de_rec_len : Z := 4.
Definition de_name_len : Z := 6.
Definition de_file_type : Z := 7.
Definition de_name : Z := 8.

Section contents.
Context (force : bool) (info : fs_info) (aux : fs_aux_info) (fuel : nat).

(** ** Directories *)

(** One turn of the loop of [dentry_size]. *)
Definition dentry_size_turn (len : Z) (filename : list Z) : Z :=
  let dentry_len := u32 (8 + ALIGN (Z.of_nat (length filename)) 4) in
  let len := if block_size info <? u32 (len mod block_size info + dentry_len)
             then u32 (len + u32 (block_size info - len mod block_size info)) else len in
  u32 (len + dentry_len).
(** [static u32 dentry_size(u32 entries, struct dentry *dentries)]. *)
Definition dentry_size (dentries : list dentry) : Z :=
  foldl dentry_size_turn 24 (d_filename <$> dentries).

(** [static struct ext4_dir_entry_2 *add_dentry(data, offset, prev, inode, name,
    file_type)]: the new record and the new [*offset]. *)
Definition add_dentry (data : nat) (offset : Z) (prev : option Z) (inode : Z) (name : list Z)
    (file_type : Z) : M world (Z * Z) :=
  let name_len := u8 (Z.of_nat (length name)) in
  let rec_len := u16 (8 + ALIGN name_len 4) in
  let start_block := offset / block_size info in
  let end_block := u32 (u32 (offset + rec_len) - 1) / block_size info in
  do offset <-
    (if negb (start_block =? end_block) then
       match prev with
       | None => longjmp
       | Some prev =>
           do prev_len <- load_buf data 2 (prev + de_rec_len);
           store_buf data 2 (prev + de_rec_len)
             (prev_len + u32 (u32 (end_block * block_size info) - offset));;;
           mret' (u32 (end_block * block_size info))
       end
     else mret' offset);
  store_buf data 4 (offset + de_inode) inode;;;
  store_buf data 2 (offset + de_rec_len) rec_len;;;
  store_buf data 1 (offset + de_name_len) name_len;;;
  store_buf data 1 (offset + de_file_type) file_type;;;
  copy_to_buf data (offset + de_name) (take (Z.to_nat name_len) name);;;
  mret' (offset, u32 (offset + rec_len)).

(** The loop of [make_directory] over the entries. *)
Fixpoint add_entries (data : nat) (len offset dentry : Z) (dentries : list Contents.dentry)
  : M world (Z * Z * list Contents.dentry) :=
  match dentries with
  | [] => mret' (dentry, offset, [])
  | d :: ds =>
      do (dentry, offset) <- add_dentry data offset (Some dentry) 0 (d_filename d) (d_file_type d);
      if (len <? offset) || ((offset =? len) && negb (bool_decide (ds = []))) then longjmp
      else
        do r <- add_entries data len offset dentry ds;
        let '(dentry', offset', ds) := r in
        mret' (dentry', offset', set_d_inode (Some (data, dentry + de_inode)) d :: ds)
  end.

(** The records of a directory, from the [.] entry to the padding of the last. *)
Definition fill_directory (data : nat) (len inode_num dir_inode_num : Z) (dentries : list dentry)
  : M world (list dentry) :=
  do (dentry, offset) <- add_dentry data 0 None inode_num (str ".") EXT4_FT_DIR;
  do (dentry, offset) <- add_dentry data offset (Some dentry) dir_inode_num (str "..") EXT4_FT_DIR;
  do r <- add_entries data len offset dentry dentries;
  let '(dentry, offset, dentries) := r in
  do rec_len <- load_buf data 2 (dentry + de_rec_len);
  store_buf data 2 (dentry + de_rec_len) (rec_len + u32 (len - offset));;;
  mret' dentries.

(** [u32 make_directory(u32 dir_inode_num, u32 entries, dentries, u32 dirs)], with
    the entries whose [inode] it set. *)
Definition make_directory (dir_inode_num : Z) (dentries : list dentry) (dirs : Z)
  : M world (Z * list dentry) :=
  let blocks := u32 (u32 (dentry_size dentries + block_size info) - 1) / block_size info in
  let len := u32 (blocks * block_size info) in
  do (dir_inode_num, inode_num) <-
    (if negb (dir_inode_num =? 0)
     then do n <- allocate_inode info aux; mret' (dir_inode_num, n)
     else mret' (EXT4_ROOT_INO, EXT4_ROOT_INO));
  if inode_num =? EXT4_ALLOCATE_FAILED then
    error force;;; mret' (EXT4_ALLOCATE_FAILED, dentries)
  else
    add_directory info inode_num;;;
    do inode <- get_inode info aux inode_num;
    do data <- inode_allocate_data_extents force info aux fuel inode len len;
    match data with
    | None => error force;;; mret' (EXT4_ALLOCATE_FAILED, dentries)
    | Some data =>
        with_inode inode (modify (fun i =>
          set_i_flags (Z.lor (i_flags i) (default_i_flags aux))
            (set_i_links_count (u16 (dirs + 2)) (set_i_mode S_IFDIR i))));;;
        do dentries <- fill_directory data len inode_num dir_inode_num dentries;
        mret' (inode_num, dentries)
    end.

(** ** Files and links *)

(** [u32 make_file(const char *filename, u64 len)]. *)
Definition make_file (filename : list Z) (len : Z) : M world Z :=
  do inode_num <- allocate_inode info aux;
  if inode_num =? EXT4_ALLOCATE_FAILED then error force;;; mret' EXT4_ALLOCATE_FAILED
  else
    do inode <- get_inode info aux inode_num;
    (if 0 <? len then inode_allocate_file_extents force info aux fuel inode len filename
     else mret' tt);;;
    with_inode inode (modify (fun i =>
      set_i_flags (Z.lor (i_flags i) (default_i_flags aux))
        (set_i_links_count 1 (set_i_mode S_IFREG i))));;;
    mret' inode_num.

(** [u32 make_link(const char *link)]. *)
Definition make_link (link : list Z) : M world Z :=
  let len := u32 (Z.of_nat (length link)) in
  do inode_num <- allocate_inode info aux;
  if inode_num =? EXT4_ALLOCATE_FAILED then error force;;; mret' EXT4_ALLOCATE_FAILED
  else
    do inode <- get_inode info aux inode_num;
    with_inode inode (modify (fun i =>
      set_i_size_lo len
        (set_i_flags (Z.lor (i_flags i) (default_i_flags aux))
          (set_i_links_count 1 (set_i_mode S_IFLNK i)))));;;
    (if len + 1 <=? Z.of_nat sizeof_i_block then
       with_inode inode (fun i =>
         match write_bytes (i_block i) 0 link with
         | Some b => Done tt (set_i_block b i)
         | None => Stuck
         end)
     else
       do data <- inode_allocate_data_indirect force info aux fuel inode (block_size info) (block_size info);
       match data with
       | None => stuck
       | Some data =>
           copy_to_buf data 0 link;;;
           with_inode inode (modify (set_i_blocks_lo (block_size info / 512)))
       end);;;
    mret' inode_num.

(** [int inode_set_permissions(u32 inode_num, u16 mode, u16 uid, u16 gid, u32
    mtime)]. [get_inode] is never [NULL]. *)
Definition inode_set_permissions (inode_num mode uid gid mtime : Z) : M world Z :=
  do inode <- get_inode info aux inode_num;
  with_inode inode (modify (fun i =>
    set_i_ctime mtime (set_i_atime mtime (set_i_mtime mtime
      (set_i_gid gid (set_i_uid uid (set_i_mode (Z.lor (i_mode i) mode) i)))))));;;
  mret' 0.
End contents.
