(* ===== verification/Sha1.v ===== *)
(** * SHA-1 (sha1.c)

    The hash behind the image's UUID: the transform of one block with its
    unrolled rounds on five rotating variables and an in-place message schedule,
    and the buffering of [SHA1Update] and [SHA1Final]. *)

From S2P Require Import Prelude Bytes.

(** ** The transform *)

Definition rol (value bits : Z) : Z :=
  Z.lor (u32 (Z.shiftl value bits)) (Z.shiftr value (32 - bits)).

(** The macros [blk0] and [blk] on the sixteen words of [block]: the value and
    the block with the word replaced. *)
Definition blk0 (l : list Z) (i : nat) : Z * list Z :=
  let v := Z.lor (Z.land (rol (l !!! i) 24) 0xFF00FF00) (Z.land (rol (l !!! i) 8) 0x00FF00FF) in
  (v, <[i := v]> l).
Definition blk (l : list Z) (i : nat) : Z * list Z :=
  let at_ k := l !!! Nat.modulo (i + k) 16 in
  let v := rol (Z.lxor (Z.lxor (Z.lxor (at_ 13%nat) (at_ 8%nat)) (at_ 2%nat)) (at_ 0%nat)) 1 in
  (v, <[Nat.modulo i 16 := v]> l).

(** The variables [a] to [e], by index, and the block. *)
Definition regs_block : Type := list Z * list Z.

(** A round macro: [z += f(w,x,y) + expand(i) + k + rol(v,5); w = rol(w,30)]. *)
Definition round (f : Z -> Z -> Z -> Z) (expand : list Z -> nat -> Z * list Z) (k : Z)
    (v w x y z : nat) (i : nat) (s : regs_block) : regs_block :=
  let r := s.1 in
  let (b, l) := expand s.2 i in
  let r' := <[z := u32 (r !!! z + (f (r !!! w) (r !!! x) (r !!! y) + b + k + rol (r !!! v) 5))]> r in
  (<[w := rol (r' !!! w) 30]> r', l).

Definition ch (w x y : Z) : Z := Z.lxor (Z.land w (Z.lxor x y)) y.
Definition parity (w x y : Z) : Z := Z.lxor (Z.lxor w x) y.
Definition maj (w x y : Z) : Z := Z.lor (Z.land (Z.lor w x) y) (Z.land w x).

Definition R0 := round ch blk0 0x5A827999.
Definition R1 := round ch blk 0x5A827999.
Definition R2 := round parity blk 0x6ED9EBA1.
Definition R3 := round maj blk 0x8F1BBCDC.
Definition R4 := round parity blk 0xCA62C1D6.

Definition a_ : nat := 0.
Definition b_ : nat := 1.
Definition c_ : nat := 2.
Definition d_ : nat := 3.
Definition e_ : nat := 4.

(** The eighty calls of [SHA1Transform]. *)
Definition sha1_rounds : list (regs_block -> regs_block) :=
  [R0 a_ b_ c_ d_ e_ 0; R0 e_ a_ b_ c_ d_ 1; R0 d_ e_ a_ b_ c_ 2; R0 c_ d_ e_ a_ b_ 3;
   R0 b_ c_ d_ e_ a_ 4; R0 a_ b_ c_ d_ e_ 5; R0 e_ a_ b_ c_ d_ 6; R0 d_ e_ a_ b_ c_ 7;
   R0 c_ d_ e_ a_ b_ 8; R0 b_ c_ d_ e_ a_ 9; R0 a_ b_ c_ d_ e_ 10; R0 e_ a_ b_ c_ d_ 11;
   R0 d_ e_ a_ b_ c_ 12; R0 c_ d_ e_ a_ b_ 13; R0 b_ c_ d_ e_ a_ 14; R0 a_ b_ c_ d_ e_ 15;
   R1 e_ a_ b_ c_ d_ 16; R1 d_ e_ a_ b_ c_ 17; R1 c_ d_ e_ a_ b_ 18; R1 b_ c_ d_ e_ a_ 19;
   R2 a_ b_ c_ d_ e_ 20; R2 e_ a_ b_ c_ d_ 21; R2 d_ e_ a_ b_ c_ 22; R2 c_ d_ e_ a_ b_ 23;
   R2 b_ c_ d_ e_ a_ 24; R2 a_ b_ c_ d_ e_ 25; R2 e_ a_ b_ c_ d_ 26; R2 d_ e_ a_ b_ c_ 27;
   R2 c_ d_ e_ a_ b_ 28; R2 b_ c_ d_ e_ a_ 29; R2 a_ b_ c_ d_ e_ 30; R2 e_ a_ b_ c_ d_ 31;
   R2 d_ e_ a_ b_ c_ 32; R2 c_ d_ e_ a_ b_ 33; R2 b_ c_ d_ e_ a_ 34; R2 a_ b_ c_ d_ e_ 35;
   R2 e_ a_ b_ c_ d_ 36; R2 d_ e_ a_ b_ c_ 37; R2 c_ d_ e_ a_ b_ 38; R2 b_ c_ d_ e_ a_ 39;
   R3 a_ b_ c_ d_ e_ 40; R3 e_ a_ b_ c_ d_ 41; R3 d_ e_ a_ b_ c_ 42; R3 c_ d_ e_ a_ b_ 43;
   R3 b_ c_ d_ e_ a_ 44; R3 a_ b_ c_ d_ e_ 45; R3 e_ a_ b_ c_ d_ 46; R3 d_ e_ a_ b_ c_ 47;
   R3 c_ d_ e_ a_ b_ 48; R3 b_ c_ d_ e_ a_ 49; R3 a_ b_ c_ d_ e_ 50; R3 e_ a_ b_ c_ d_ 51;
   R3 d_ e_ a_ b_ c_ 52; R3 c_ d_ e_ a_ b_ 53; R3 b_ c_ d_ e_ a_ 54; R3 a_ b_ c_ d_ e_ 55;
   R3 e_ a_ b_ c_ d_ 56; R3 d_ e_ a_ b_ c_ 57; R3 c_ d_ e_ a_ b_ 58; R3 b_ c_ d_ e_ a_ 59;
   R4 a_ b_ c_ d_ e_ 60; R4 e_ a_ b_ c_ d_ 61; R4 d_ e_ a_ b_ c_ 62; R4 c_ d_ e_ a_ b_ 63;
   R4 b_ c_ d_ e_ a_ 64; R4 a_ b_ c_ d_ e_ 65; R4 e_ a_ b_ c_ d_ 66; R4 d_ e_ a_ b_ c_ 67;
   R4 c_ d_ e_ a_ b_ 68; R4 b_ c_ d_ e_ a_ 69; R4 a_ b_ c_ d_ e_ 70; R4 e_ a_ b_ c_ d_ 71;
   R4 d_ e_ a_ b_ c_ 72; R4 c_ d_ e_ a_ b_ 73; R4 b_ c_ d_ e_ a_ 74; R4 a_ b_ c_ d_ e_ 75;
   R4 e_ a_ b_ c_ d_ 76; R4 d_ e_ a_ b_ c_ 77; R4 c_ d_ e_ a_ b_ 78; R4 b_ c_ d_ e_ a_ 79].

Definition run_rounds (rs : list (regs_block -> regs_block)) (s : regs_block) : regs_block :=
  foldl (fun s r => r s) s rs.

(** [memcpy(block, buffer, 64)], read as words. *)
Definition block_words (buffer : list Z) : list Z :=
  (fun i => le_value (take 4 (drop (4 * i) buffer))) <$> seq 0 16.

(** [void SHA1Transform(u_int32_t state[5], const u_char buffer[64])]. *)
Definition SHA1Transform (state : list Z) (buffer : list Z) : list Z :=
  let s := run_rounds sha1_rounds (state, block_words buffer) in
  zip_with (fun x y => u32 (x + y)) state s.1.

(** ** The context *)

Record SHA1_CTX := mk_ctx {
  c_state : list Z;
  c_count0 : Z;
  c_count1 : Z;
  c_buffer : list Z
}.

(** [void SHA1Init(SHA1_CTX *context)]; the buffer is not initialised. *)
Definition SHA1Init (context : SHA1_CTX) : SHA1_CTX :=
  mk_ctx [0x67452301; 0xEFCDAB89; 0x98BADCFE; 0x10325476; 0xC3D2E1F0] 0 0 (c_buffer context).

(** The [for ( ; i + 63 < len; i += 64)] of [SHA1Update]. *)
Fixpoint update_blocks (fuel : nat) (state data : list Z) (len i : Z) : option (list Z * Z) :=
  match fuel with
  | O => None
  | S f =>
      if u32 (i + 63) <? len then
        b ← read_bytes data i 64;
        update_blocks f (SHA1Transform state b) data len (u32 (i + 64))
      else Some (state, i)
  end.

(** [void SHA1Update(SHA1_CTX *context, const u_char *data, u_int len)] with
    [len] the length of [data]; [None] is an access out of bounds. *)
Definition SHA1Update (context : SHA1_CTX) (data : list Z) : option SHA1_CTX :=
  let len := Z.of_nat (length data) in
  let j := c_count0 context in
  let count0 := u32 (c_count0 context + u32 (Z.shiftl len 3)) in
  let count1 := if count0 <? j then u32 (c_count1 context + (Z.shiftr len 29 + 1))
                else c_count1 context in
  let j := Z.land (Z.shiftr j 3) 63 in
  '(state, buffer, i, j) ←
    (if 63 <? u32 (j + len) then
       let i := 64 - j in
       d ← read_bytes data 0 i;
       buffer ← write_bytes (c_buffer context) j d;
       '(state, i) ← update_blocks (S (length data)) (SHA1Transform (c_state context) buffer) data len i;
       Some (state, buffer, i, 0)
     else Some (c_state context, c_buffer context, 0, j));
  d ← read_bytes data i (len - i);
  buffer ← write_bytes buffer j d;
  Some (mk_ctx state count0 count1 buffer).

(** The padding loop of [SHA1Final]. *)
Fixpoint pad_loop (fuel : nat) (context : SHA1_CTX) : option SHA1_CTX :=
  match fuel with
  | O => None
  | S f => if Z.land (c_count0 context) 504 =? 448 then Some context
           else context ← SHA1Update context [0]; pad_loop f context
  end.

(** [void SHA1Final(u_char digest[20], SHA1_CTX *context)]. *)
Definition SHA1Final (context : SHA1_CTX) : option (list Z) :=
  let finalcount := (fun i => Z.land (Z.shiftr (if 4 <=? i then c_count0 context else c_count1 context)
                                        ((3 - Z.land i 3) * 8)) 255) <$> seqZ 0 8 in
  context ← SHA1Update context [0x80];
  context ← pad_loop 65 context;
  context ← SHA1Update context finalcount;
  Some ((fun i => Z.land (Z.shiftr (c_state context !!! Z.to_nat (Z.shiftr i 2))
                            ((3 - Z.land i 3) * 8)) 255) <$> seqZ 0 20).

(** ** Test vectors of FIPS 180-1 *)

Definition sha1_of (pieces : list (list Z)) : option (list Z) :=
  context ← foldl (fun c d => c ← c; SHA1Update c d)
              (Some (SHA1Init (mk_ctx [] 0 0 (replicate 64 0)))) pieces;
  SHA1Final context.

Example sha1_abc :
  sha1_of [[97; 98]; [99]] =
  Some [0xA9; 0x99; 0x3E; 0x36; 0x47; 0x06; 0x81; 0x6A; 0xBA; 0x3E; 0x25; 0x71;
        0x78; 0x50; 0xC2; 0x6C; 0x9C; 0xD0; 0xD8; 0x9D].
Proof. vm_compute. reflexivity. Qed.

(** ** The standard's compression function

    FIPS 180-1, section 7: the message schedule as a list of eighty words, one
    step on five variables. *)

Definition be_value (bs : list Z) : Z := foldl (fun n b => 256 * n + b) 0 bs.

Definition fips_word (block : list Z) (i : nat) : Z := be_value (take 4 (drop (4 * i) block)).

Definition fips_extend (w : list Z) : list Z :=
  let back k := w !!! (length w - k)%nat in
  w ++ [rol (Z.lxor (Z.lxor (Z.lxor (back 3%nat) (back 8%nat)) (back 14%nat)) (back 16%nat)) 1].
Definition fips_schedule (block : list Z) : list Z :=
  Nat.iter 64 fips_extend (fips_word block <$> seq 0 16).

Definition fips_f (t : nat) (x y z : Z) : Z :=
  if decide (t < 20)%nat then Z.lor (Z.land x y) (Z.land (Z.lnot x) z)
  else if decide (t < 40)%nat then Z.lxor (Z.lxor x y) z
  else if decide (t < 60)%nat then Z.lor (Z.lor (Z.land x y) (Z.land x z)) (Z.land y z)
  else Z.lxor (Z.lxor x y) z.
Definition fips_k (t : nat) : Z :=
  if decide (t < 20)%nat then 0x5A827999 else if decide (t < 40)%nat then 0x6ED9EBA1
  else if decide (t < 60)%nat then 0x8F1BBCDC else 0xCA62C1D6.

Definition fips_step (w : list Z) (s : list Z) (t : nat) : list Z :=
  match s with
  | [a; b; c; d; e] =>
      [u32 (rol a 5 + fips_f t b c d + e + w !!! t + fips_k t); a; rol b 30; c; d]
  | _ => s
  end.

Definition fips_compress (state block : list Z) : list Z :=
  zip_with (fun x y => u32 (x + y)) state
    (foldl (fips_step (fips_schedule block)) state (seq 0 80)).

(** ** The rounds *)

(** Which variable plays the role [k] in round [t]. *)
Definition role (k t : nat) : nat := Nat.modulo (k + 4 * Nat.modulo t 5) 5.

Definition code_f (t : nat) : Z -> Z -> Z -> Z :=
  if (t <? 20)%nat then ch else if (t <? 40)%nat then parity
  else if (t <? 60)%nat then maj else parity.
Definition code_expand (t : nat) : list Z -> nat -> Z * list Z := if (t <? 16)%nat then blk0 else blk.
Definition code_k (t : nat) : Z :=
  if (t <? 20)%nat then 0x5A827999 else if (t <? 40)%nat then 0x6ED9EBA1
  else if (t <? 60)%nat then 0x8F1BBCDC else 0xCA62C1D6.
Definition round_at (t : nat) : regs_block -> regs_block :=
  round (code_f t) (code_expand t) (code_k t) (role 0 t) (role 1 t) (role 2 t) (role 3 t) (role 4 t) t.

Lemma sha1_rounds_eq : sha1_rounds = round_at <$> seq 0 80.
Proof. reflexivity. Qed.

Ltac bitwise_eq := apply Z.bits_inj'; intros ? ?;
  repeat (rewrite ?Z.lor_spec, ?Z.land_spec, ?Z.lxor_spec; rewrite ?Z.lnot_spec by lia);
  repeat match goal with |- context [Z.testbit ?x ?n] => destruct (Z.testbit x n) end; reflexivity.

Lemma code_f_fips t x y z : code_f t x y z = fips_f t x y z.
Proof.
  unfold code_f, fips_f.
  destruct (Nat.ltb_spec t 20); [rewrite decide_True by lia; unfold ch; bitwise_eq|].
  destruct (Nat.ltb_spec t 40); [by rewrite decide_False, decide_True by lia|].
  destruct (Nat.ltb_spec t 60).
  - rewrite !decide_False, decide_True by lia. unfold maj. bitwise_eq.
  - by rewrite !decide_False by lia.
Qed.

Lemma code_k_fips t : code_k t = fips_k t.
Proof.
  unfold code_k, fips_k.
  destruct (Nat.ltb_spec t 20); [by rewrite decide_True by lia|].
  destruct (Nat.ltb_spec t 40); [by rewrite decide_False, decide_True by lia|].
  destruct (Nat.ltb_spec t 60); [by rewrite !decide_False, decide_True by lia|].
  by rewrite !decide_False by lia.
Qed.

(** One round on the registers, the expanded word being [b]. *)
Lemma round_regs f expand k t r l b l' :
  length r = 5%nat -> expand l t = (b, l') ->
  exists r', round f expand k (role 0 t) (role 1 t) (role 2 t) (role 3 t) (role 4 t) t (r, l) = (r', l') /\
    length r' = 5%nat /\
    (fun j => r' !!! role j (S t)) <$> seq 0 5 =
      match (fun j => r !!! role j t) <$> seq 0 5 with
      | [x0; x1; x2; x3; x4] => [u32 (x4 + (f x1 x2 x3 + b + k + rol x0 5)); x0; rol x1 30; x2; x3]
      | s => s
      end.
Proof.
  intros Hr E. eexists. unfold round. cbn [fst snd]. rewrite E.
  split; [reflexivity|]. split; [by rewrite !length_insert|].
  destruct r as [|r0 [|r1 [|r2 [|r3 [|r4 [|]]]]]]; try done.
  pose proof (Nat.mod_upper_bound t 5 ltac:(lia)) as Hm.
  assert (Hs : Nat.modulo (S t) 5 = if Nat.eqb (Nat.modulo t 5) 4 then 0%nat else S (Nat.modulo t 5)).
  { replace (S t) with (Nat.modulo t 5 + 1 + Nat.div t 5 * 5)%nat
      by (pose proof (Nat.div_mod_eq t 5); lia).
    rewrite Nat.Div0.mod_add.
    destruct (Nat.eqb_spec (Nat.modulo t 5) 4) as [->|]; [done|].
    rewrite Nat.mod_small; lia. }
  unfold role. rewrite Hs. destruct (Nat.modulo t 5) as [|[|[|[|[|]]]]]; [reflexivity..|lia].
Qed.

(** ** The schedule *)

Lemma fips_extend_iter n w :
  exists v, Nat.iter n fips_extend w = w ++ v /\ length v = n.
Proof.
  induction n as [|n (v & E & L)]; [exists []; by rewrite app_nil_r|].
  rewrite Nat.iter_succ, E. eexists. split; [by unfold fips_extend; rewrite <-app_assoc|].
  rewrite length_app, L. cbn. lia.
Qed.

Lemma fips_extend_lookup n w t :
  (length w <= t < length w + n)%nat ->
  let W := Nat.iter n fips_extend w in
  (16 <= length w)%nat ->
  W !!! t = rol (Z.lxor (Z.lxor (Z.lxor (W !!! (t - 3)%nat) (W !!! (t - 8)%nat))
                           (W !!! (t - 14)%nat)) (W !!! (t - 16)%nat)) 1.
Proof.
  intros Ht W Hw. subst W. induction n as [|n IH]; [lia|]. rewrite Nat.iter_succ.
  destruct (fips_extend_iter n w) as (v & E & L).
  set (W := Nat.iter n fips_extend w) in *.
  assert (HL : length W = (length w + n)%nat) by (rewrite E, length_app; lia).
  destruct (decide (t = length W)) as [->|Hne].
  - unfold fips_extend at 1. rewrite lookup_total_app_r, Nat.sub_diag by lia. cbn [list_lookup_total].
    unfold fips_extend. by rewrite !lookup_total_app_l by lia.
  - unfold fips_extend. rewrite !lookup_total_app_l by lia. apply IH. lia.
Qed.

Lemma fips_schedule_facts block :
  let W := fips_schedule block in
  (forall t, (t < 16)%nat -> W !!! t = fips_word block t) /\
  (forall t, (16 <= t < 80)%nat ->
     W !!! t = rol (Z.lxor (Z.lxor (Z.lxor (W !!! (t - 3)%nat) (W !!! (t - 8)%nat))
                           (W !!! (t - 14)%nat)) (W !!! (t - 16)%nat)) 1).
Proof.
  intros W. split.
  - intros t Ht. subst W. unfold fips_schedule.
    destruct (fips_extend_iter 64 (fips_word block <$> seq 0 16)) as (v & -> & _).
    rewrite lookup_total_app_l by (rewrite length_fmap, length_seq; lia).
    apply list_lookup_total_correct. rewrite list_lookup_fmap, lookup_seq_lt by lia. done.
  - intros t Ht. apply fips_extend_lookup; rewrite length_fmap, length_seq; lia.
Qed.

(** Byte order: a little-endian word with its bytes swapped by [blk0]. *)
Definition is_byte (b : Z) : Prop := 0 <= b < 256.

Lemma byte_high b n : is_byte b -> 8 <= n -> Z.testbit b n = false.
Proof.
  intros Hb Hn. rewrite <-(Z.mod_small b (2 ^ 8)) by exact Hb. apply Z.mod_pow2_bits_high. lia.
Qed.

Lemma testbit_cons b x n :
  is_byte b -> 0 <= n ->
  Z.testbit (b + 256 * x) n = if n <? 8 then Z.testbit b n else Z.testbit x (n - 8).
Proof.
  intros Hb Hn. destruct (Z.ltb_spec n 8).
  - rewrite <-(Z.mod_pow2_bits_low _ 8) by lia. f_equal.
    change (2 ^ 8) with 256. unfold is_byte in Hb. dlia.
  - replace (b + 256 * x) with (b + x * 2 ^ 8) by lia.
    replace x with ((b + x * 2 ^ 8) / 2 ^ 8) at 2.
    + rewrite Z.div_pow2_bits by lia. f_equal. lia.
    + rewrite Z.div_add, Z.div_small by (unfold is_byte in Hb; lia). lia.
Qed.

Lemma testbit_rol x k n :
  0 <= k <= 32 -> 0 <= n < 32 ->
  Z.testbit (rol x k) n = Z.testbit x (n - k) || Z.testbit x (n + (32 - k)).
Proof.
  intros Hk Hn. unfold rol, u32.
  by rewrite Z.lor_spec, Z.mod_pow2_bits_low, Z.shiftl_spec, Z.shiftr_spec by lia.
Qed.

(** Bits at literal positions: normalise the positions, drop the negative ones,
    and look into the bytes. *)
Ltac norm_bits := repeat
  match goal with
  | |- context [Z.testbit ?x (Zneg ?p)] => change (Z.testbit x (Zneg p)) with false
  | |- context [Z.testbit 0 ?n] => rewrite (Z.bits_0 n)
  | |- context [Z.testbit ?x ?n] =>
      let n' := eval vm_compute in n in progress change (Z.testbit x n) with (Z.testbit x n')
  | |- context [Z.testbit (Zpos ?p) ?n] =>
      let b := eval vm_compute in (Z.testbit (Zpos p) n) in change (Z.testbit (Zpos p) n) with b
  | |- context [?a <? 8] => let b := eval vm_compute in (a <? 8) in change (a <? 8) with b; cbv iota
  end.
Ltac swap_bits :=
  norm_bits; repeat (rewrite testbit_cons by (assumption || lia); norm_bits);
  repeat match goal with H : is_byte ?b |- context [Z.testbit ?b ?n] => rewrite (byte_high b n H) by lia end;
  repeat match goal with |- context [Z.testbit ?x ?n] => destruct (Z.testbit x n) end; reflexivity.

Lemma swap_bytes b0 b1 b2 b3 :
  is_byte b0 -> is_byte b1 -> is_byte b2 -> is_byte b3 ->
  let x := le_value [b0; b1; b2; b3] in
  Z.lor (Z.land (rol x 24) 0xFF00FF00) (Z.land (rol x 8) 0x00FF00FF) = be_value [b0; b1; b2; b3].
Proof.
  intros H0 H1 H2 H3 x. subst x. cbn [le_value be_value foldl].
  assert (Hz : is_byte 0) by done.
  replace (256 * (256 * (256 * (256 * 0 + b0) + b1) + b2) + b3)
    with (b3 + 256 * (b2 + 256 * (b1 + 256 * (b0 + 256 * 0)))) by lia.
  apply Z.bits_inj'. intros n Hn. rewrite Z.lor_spec, !Z.land_spec.
  destruct (decide (n < 32)) as [Hlt|Hge].
  - rewrite !testbit_rol by lia.
    assert (Hc : exists m, (m < 32)%nat /\ n = Z.of_nat m) by (exists (Z.to_nat n); lia).
    destruct Hc as (m & Hm & ->).
    do 32 (destruct m as [|m]; [swap_bits|]). lia.
  - replace (Z.testbit 0xFF00FF00 n) with false.
    2: { symmetry. apply (Z.mod_pow2_bits_high 0xFF00FF00 32). lia. }
    replace (Z.testbit 0x00FF00FF n) with false.
    2: { symmetry. apply (Z.mod_pow2_bits_high 0x00FF00FF 32). lia. }
    rewrite !andb_false_r. rewrite !testbit_cons by (done || lia).
    rewrite !(proj2 (Z.ltb_ge _ _)) by lia. by rewrite Z.bits_0.
Qed.

Lemma firstn_four_bytes l :
  length l = 4%nat -> Forall is_byte l ->
  Z.lor (Z.land (rol (le_value l) 24) 0xFF00FF00) (Z.land (rol (le_value l) 8) 0x00FF00FF) = be_value l.
Proof.
  intros Hl Hb. destruct l as [|b0 [|b1 [|b2 [|b3 [|]]]]]; try done.
  rewrite !Forall_cons in Hb. destruct Hb as (? & ? & ? & ? & _). by apply swap_bytes.
Qed.

(** ** One block *)

Section transform.
Context (block : list Z) (Hlen : length block = 64%nat) (Hbytes : Forall is_byte block).

Let W := fips_schedule block.

(** Before round [t] the sixteen words hold the schedule's latest words, and
    the message's words not yet used. *)
Definition block_inv (t : nat) (l : list Z) : Prop :=
  length l = 16%nat /\
  (forall j, (j < t)%nat -> (t <= j + 16)%nat -> l !!! Nat.modulo j 16 = W !!! j) /\
  (forall j, (t <= j < 16)%nat -> l !!! j = le_value (take 4 (drop (4 * j) block))).

Lemma block_inv_start : block_inv 0 (block_words block).
Proof.
  split; [done|]. split; [lia|]. intros j Hj. apply list_lookup_total_correct.
  unfold block_words. rewrite list_lookup_fmap, lookup_seq_lt by lia. done.
Qed.

Lemma block_inv_insert t l :
  block_inv t l -> (t < 80)%nat -> block_inv (S t) (<[Nat.modulo t 16 := W !!! t]> l).
Proof.
  intros (Hl & Hold & Hnew) Ht. pose proof (Nat.mod_upper_bound t 16 ltac:(lia)).
  split; [by rewrite length_insert|]. split.
  - intros j Hj1 Hj2. destruct (decide (j = t)) as [->|Hne].
    + by rewrite list_lookup_total_insert_eq by lia.
    + rewrite list_lookup_total_insert_ne; [apply Hold; lia|].
      intros E. pose proof (Nat.div_mod_eq t 16). pose proof (Nat.div_mod_eq j 16). lia.
  - intros j Hj. rewrite list_lookup_total_insert_ne; [apply Hnew; lia|].
    rewrite Nat.mod_small; lia.
Qed.

Lemma code_expand_spec t l :
  block_inv t l -> (t < 80)%nat ->
  exists l', code_expand t l t = (W !!! t, l') /\ block_inv (S t) l'.
Proof.
  intros Hinv Ht. pose proof (block_inv_insert _ _ Hinv Ht) as Hnext.
  destruct Hinv as (Hl & Hold & Hnew). unfold code_expand.
  destruct (fips_schedule_facts block) as [Hfirst Hrest]. fold W in Hfirst, Hrest.
  destruct (Nat.ltb_spec t 16).
  - eexists. split; [|exact Hnext]. unfold blk0. rewrite Hnew by lia.
    rewrite Nat.mod_small by lia. rewrite firstn_four_bytes.
    + rewrite Hfirst by done. done.
    + rewrite length_take, length_drop. lia.
    + apply Forall_take, Forall_drop. done.
  - eexists. split; [|exact Hnext]. unfold blk.
    assert (Hat : forall k j, (j + 16 = t + k)%nat -> (k < 16)%nat -> l !!! Nat.modulo (t + k) 16 = W !!! j).
    { intros k j E Hk. rewrite <-E. replace (j + 16)%nat with (j + 1 * 16)%nat by lia.
      rewrite Nat.Div0.mod_add. apply Hold; lia. }
    rewrite (Hat 13%nat (t - 3)%nat), (Hat 8%nat (t - 8)%nat), (Hat 2%nat (t - 14)%nat),
      (Hat 0%nat (t - 16)%nat) by lia.
    by rewrite <-Hrest by lia.
Qed.

(** The registers by role. *)
Definition by_role (t : nat) (r : list Z) : list Z := (fun j => r !!! role j t) <$> seq 0 5.

Lemma rounds_spec n t r l :
  (t + n <= 80)%nat -> length r = 5%nat -> block_inv t l ->
  exists r' l', run_rounds (round_at <$> seq t n) (r, l) = (r', l') /\ length r' = 5%nat /\
    by_role (t + n) r' = foldl (fips_step W) (by_role t r) (seq t n).
Proof.
  revert t r l. induction n as [|n IH]; intros t r l Hn Hr Hinv.
  - exists r, l. rewrite Nat.add_0_r. done.
  - destruct (code_expand_spec t l Hinv ltac:(lia)) as (l1 & E & Hinv1).
    destruct (round_regs (code_f t) (code_expand t) (code_k t) t r l _ l1 Hr E) as (r1 & E1 & Hr1 & Hstep).
    destruct (IH (S t) r1 l1 ltac:(lia) Hr1 Hinv1) as (r' & l' & E' & Hr' & Hfold).
    exists r', l'. split_and!; [|done|].
    + rewrite <-E'. unfold run_rounds. cbn [seq fmap list_fmap foldl]. do 2 f_equal. exact E1.
    + replace (t + S n)%nat with (S t + n)%nat by lia. rewrite Hfold. cbn [seq foldl]. f_equal.
      unfold by_role. rewrite Hstep.
      remember ((fun j => r !!! role j t) <$> seq 0 5) as rr eqn:Err.
      cbn in Err. subst rr. unfold fips_step. rewrite code_f_fips, code_k_fips. do 2 f_equal. lia.
Qed.
End transform.

Lemma SHA1Transform_fips (state block : list Z) :
  length state = 5%nat -> length block = 64%nat -> Forall is_byte block ->
  SHA1Transform state block = fips_compress state block.
Proof.
  intros Hs Hb Hbytes.
  unfold SHA1Transform, fips_compress. rewrite sha1_rounds_eq.
  destruct (rounds_spec block Hb Hbytes 80 0 state _ ltac:(lia) Hs (block_inv_start block Hb))
    as (r' & l' & -> & Hr' & E). cbn [fst].
  assert (Hid : forall r, length r = 5%nat -> by_role 0 r = r /\ by_role (0 + 80) r = r).
  { clear. intros r Hr. destruct r as [|? [|? [|? [|? [|? [|]]]]]]; try discriminate Hr.
    split; reflexivity. }
  destruct (Hid state Hs) as [Hid1 _]. destruct (Hid r' Hr') as [_ Hid2].
  rewrite Hid1, Hid2 in E. by rewrite E.
Qed.

(** [SHA1Transform], with its renamed variables and its schedule of sixteen
    words overwritten in place, is the standard's compression function. *)
Theorem SHA1Transform_correct (state block : list Z)
  (Hs : length state = 5%nat) (Hb : length block = 64%nat) (Hbytes : Forall is_byte block) :
  SHA1Transform state block = fips_compress state block.
Proof. by apply SHA1Transform_fips. Qed.

Lemma SHA1Transform_correct_witness :
  SHA1Transform [1; 2; 3; 4; 5] (replicate 64 7) = fips_compress [1; 2; 3; 4; 5] (replicate 64 7).
Proof.
  apply (SHA1Transform_correct [1; 2; 3; 4; 5] (replicate 64 7)); [reflexivity|reflexivity|].
  apply Forall_replicate. split; reflexivity || discriminate.
Defined.

(** ** Streaming *)

(** The state after [n] blocks of a message. *)
Fixpoint absorb (compress : list Z -> list Z -> list Z) (n : nat) (st l : list Z) : list Z :=
  match n with
  | O => st
  | S n => absorb compress n (compress st (take 64 l)) (drop 64 l)
  end.

Definition sha1_iv : list Z := [0x67452301; 0xEFCDAB89; 0x98BADCFE; 0x10325476; 0xC3D2E1F0].

Lemma absorb_app c n st l l2 :
  (64 * n <= length l)%nat -> absorb c n st (l ++ l2) = absorb c n st l.
Proof.
  revert st l. induction n as [|n IH]; intros st l Hl; [done|]. cbn [absorb].
  rewrite take_app_le, drop_app_le by lia. apply IH. rewrite length_drop. lia.
Qed.

Lemma absorb_snoc c n st l b :
  length l = (64 * n)%nat -> length b = 64%nat ->
  absorb c (S n) st (l ++ b) = c (absorb c n st l) b.
Proof.
  revert st l. induction n as [|n IH]; intros st l Hl Hb.
  - destruct l; [|done]. cbn. by rewrite take_ge by (cbn; lia).
  - cbn [absorb] in *. rewrite take_app_le, drop_app_le by lia. apply IH; [|done].
    rewrite length_drop. lia.
Qed.

(** What the context knows of the message [m] given to it so far. *)
Record absorbed_msg (m : list Z) (c : SHA1_CTX) : Prop := {
  am_count0 : c_count0 c = u32 (8 * Z.of_nat (length m));
  am_count1 : c_count1 c = u32 (8 * Z.of_nat (length m) / 2 ^ 32);
  am_state : c_state c = absorb SHA1Transform (length m / 64) sha1_iv m;
  am_buffer : length (c_buffer c) = 64%nat;
  am_rest : take (length m mod 64) (c_buffer c) = drop (64 * (length m / 64)) m
}.

Lemma absorbed_init c : length (c_buffer c) = 64%nat -> absorbed_msg [] (SHA1Init c).
Proof. by split. Qed.

Lemma read_bytes_some (l : list Z) (i n : nat) :
  (i + n <= length l)%nat -> read_bytes l (Z.of_nat i) (Z.of_nat n) = Some (take n (drop i l)).
Proof. intros H. unfold read_bytes. rewrite decide_True by lia. by rewrite !Nat2Z.id. Qed.

Lemma update_blocks_spec m data len n i fuel :
  len = Z.of_nat (length data) -> len < 2 ^ 29 -> (i <= length data)%nat ->
  (length m + i = 64 * n)%nat -> (length data - i < 64 * fuel)%nat ->
  exists k, (i + 64 * k <= length data < i + 64 * k + 64)%nat /\
    update_blocks fuel (absorb SHA1Transform n sha1_iv (m ++ take i data)) data len (Z.of_nat i) =
    Some (absorb SHA1Transform (n + k) sha1_iv (m ++ take (i + 64 * k) data), Z.of_nat (i + 64 * k)).
Proof.
  intros El Hlen. revert n i. induction fuel as [|f IH]; intros n i Hi Hn Hf; [lia|].
  cbn [update_blocks]. rewrite u32_small by lia. destruct (Z.ltb_spec (Z.of_nat i + 63) len).
  - pose proof (read_bytes_some data i 64 ltac:(lia)) as Er. change (Z.of_nat 64) with 64 in Er.
    rewrite Er. cbn [mbind option_bind].
    rewrite u32_small by lia. replace (Z.of_nat i + 64) with (Z.of_nat (i + 64)) by lia.
    rewrite <-absorb_snoc.
    + rewrite <-app_assoc.
      rewrite (take_take_drop data i 64).
      destruct (IH (S n) (i + 64)%nat) as (k & Hk & E); try lia.
      exists (S k). split; [lia|]. rewrite E. do 3 f_equal; [lia|do 2 f_equal; lia|lia].
    + rewrite length_app, length_take. lia.
    + rewrite length_take, length_drop. lia.
  - exists 0%nat. split; [lia|]. rewrite !Nat.mul_0_r, !Nat.add_0_r. done.
Qed.

Lemma count_index n : Z.land (Z.shiftr (u32 (8 * Z.of_nat n)) 3) 63 = Z.of_nat (n mod 64).
Proof.
  rewrite Z.shiftr_div_pow2 by lia. change 63 with (Z.ones 6). rewrite Z.land_ones by lia.
  rewrite Nat2Z.inj_mod. change (Z.of_nat 64) with 64. unfold u32.
  change (2 ^ 6) with 64. change (2 ^ 3) with 8. change (2 ^ 32) with 4294967296. dlia.
Qed.

Lemma count_carry a n :
  0 <= n < 2 ^ 29 -> 0 <= a ->
  let c0 := u32 (u32 (8 * a) + u32 (Z.shiftl n 3)) in
  c0 = u32 (8 * (a + n)) /\
  (if c0 <? u32 (8 * a) then u32 (u32 (8 * a / 2 ^ 32) + (Z.shiftr n 29 + 1))
   else u32 (8 * a / 2 ^ 32)) = u32 (8 * (a + n) / 2 ^ 32).
Proof.
  intros Hn Ha. rewrite Z.shiftl_mul_pow2, Z.shiftr_div_pow2 by lia.
  change (2 ^ 3) with 8. rewrite (Z.div_small n) by lia. rewrite (u32_small (n * 8)) by lia.
  intros c0. unfold u32 in *. change (2 ^ 32) with 4294967296 in *.
  assert (E : c0 = (8 * (a + n)) mod 4294967296) by (subst c0; dlia).
  split; [done|]. rewrite E. clear c0 E.
  destruct (Z.ltb_spec ((8 * (a + n)) mod 4294967296) ((8 * a) mod 4294967296)).
  - assert (8 * (a + n) / 4294967296 = 8 * a / 4294967296 + 1) as -> by dlia. dlia.
  - f_equal. dlia.
Qed.

Lemma div_mod_64 n : (n = 64 * (n / 64) + n mod 64 /\ n mod 64 < 64)%nat.
Proof. split; [apply Nat.div_mod_eq|apply Nat.mod_upper_bound; lia]. Qed.

Lemma write_bytes_nat (buf bs : list Z) (j : nat) :
  (j + length bs <= length buf)%nat ->
  write_bytes buf (Z.of_nat j) bs = Some (take j buf ++ bs ++ drop (j + length bs) buf).
Proof. intros H. rewrite write_bytes_some by lia. by rewrite Nat2Z.id. Qed.

Lemma SHA1Update_spec m c data :
  absorbed_msg m c -> Z.of_nat (length data) < 2 ^ 29 ->
  exists c', SHA1Update c data = Some c' /\ absorbed_msg (m ++ data) c'.
Proof.
  intros [Hc0 Hc1 Hst Hbuf Hrest] Hlen. unfold SHA1Update.
  destruct (count_carry (Z.of_nat (length m)) (Z.of_nat (length data)) ltac:(lia) ltac:(lia)) as [E0 E1].
  rewrite Hc0, Hc1, E1, E0, count_index. clear E0 E1.
  destruct (div_mod_64 (length m)) as [Hdm Hj].
  set (q := (length m / 64)%nat) in *. set (j := (length m mod 64)%nat) in *.
  rewrite (u32_small (Z.of_nat j + _)) by lia.
  assert (Hm : m = take (64 * q) m ++ take j (c_buffer c)) by (by rewrite Hrest, take_drop).
  assert (Hq : length (take (64 * q) m) = (64 * q)%nat) by (rewrite length_take; lia).
  destruct (Z.ltb_spec 63 (Z.of_nat j + Z.of_nat (length data))) as [Hfull|Hpart].
  - pose proof (read_bytes_some data 0 (64 - j) ltac:(lia)) as Er.
    replace (64 - Z.of_nat j) with (Z.of_nat (64 - j)) by lia.
    change (Z.of_nat 0) with 0 in Er. rewrite Er, drop_0. cbn [mbind option_bind].
    assert (Hd : length (take (64 - j) data) = (64 - j)%nat) by (rewrite length_take; lia).
    rewrite write_bytes_nat by lia. cbn [mbind option_bind].
    rewrite Hd, drop_ge, app_nil_r by lia.
    rewrite Hst. fold q.
    assert (Eq : absorb SHA1Transform q sha1_iv m = absorb SHA1Transform q sha1_iv (take (64 * q) m)).
    { rewrite Hm at 1. apply absorb_app. lia. }
    rewrite Eq, <-absorb_snoc by (rewrite ?length_app, ?length_take; lia).
    rewrite app_assoc, <-Hm.
    destruct (update_blocks_spec m data _ (S q) (64 - j) (S (length data)) eq_refl Hlen
      ltac:(lia) ltac:(lia) ltac:(lia)) as (k & Hk & ->). cbn [mbind option_bind].
    set (i := (64 - j + 64 * k)%nat) in *.
    replace (Z.of_nat (length data) - Z.of_nat i) with (Z.of_nat (length data - i)) by lia.
    rewrite read_bytes_some by lia. cbn [mbind option_bind].
    rewrite (take_ge (drop i data)) by (rewrite length_drop; lia).
    rewrite (write_bytes_nat _ _ 0) by (rewrite length_app, length_take, Hd, length_drop; lia).
    cbn [mbind option_bind]. eexists. split; [reflexivity|].
    assert (Hnew : (length (m ++ data) / 64 = S q + k /\ length (m ++ data) mod 64 = length data - i)%nat).
    { rewrite length_app. destruct (div_mod_64 (length m + length data)). lia. }
    destruct Hnew as [Hn1 Hn2]. split; cbn [c_count0 c_count1 c_state c_buffer].
    + by rewrite length_app, Nat2Z.inj_add.
    + by rewrite length_app, Nat2Z.inj_add.
    + rewrite Hn1. replace (m ++ data) with ((m ++ take i data) ++ drop i data)
        by (by rewrite <-app_assoc, take_drop).
      rewrite (absorb_app _ _ _ (m ++ take i data)); [done|]. rewrite length_app, length_take. lia.
    + rewrite !length_app, length_take, length_drop, length_drop, length_app, length_take. lia.
    + rewrite Hn1, Hn2. change (take 0 _) with (@nil Z). cbn [app].
      rewrite take_app_le, take_ge by (rewrite length_drop; lia).
      rewrite drop_app_ge by lia. f_equal. lia.
  - cbn [mbind option_bind]. rewrite Z.sub_0_r.
    pose proof (read_bytes_some data 0 (length data) ltac:(lia)) as Er.
    change (Z.of_nat 0) with 0 in Er. rewrite Er, drop_0, take_ge by lia. cbn [mbind option_bind].
    rewrite write_bytes_nat by lia. cbn [mbind option_bind]. eexists. split; [reflexivity|].
    assert (Hnew : (length (m ++ data) / 64 = q /\ length (m ++ data) mod 64 = j + length data)%nat).
    { rewrite length_app. destruct (div_mod_64 (length m + length data)). lia. }
    destruct Hnew as [Hn1 Hn2]. split; cbn [c_count0 c_count1 c_state c_buffer].
    + by rewrite length_app, Nat2Z.inj_add.
    + by rewrite length_app, Nat2Z.inj_add.
    + rewrite Hn1, Hst. fold q. rewrite absorb_app; [done|lia].
    + rewrite !length_app, length_take, length_drop. lia.
    + rewrite Hn1, Hn2, app_assoc, take_app_le, take_ge by (rewrite length_app, length_take; lia).
      rewrite drop_app_le by lia. by rewrite Hrest.
Qed.

(** ** The digest *)

Definition be_bytes (n : nat) (v : Z) : list Z := rev (le_bytes n v).

(** FIPS 180-1, section 4: a one bit, zeros up to 56 bytes modulo 64, and the
    message's length in bits. *)
Definition fips_pad (m : list Z) : list Z :=
  let k := Z.to_nat ((55 - Z.of_nat (length m)) mod 64) in
  m ++ [0x80] ++ replicate k 0 ++ be_bytes 8 (8 * Z.of_nat (length m)).

Definition fips_sha1 (m : list Z) : list Z :=
  let p := fips_pad m in
  absorb fips_compress (length p / 64) sha1_iv p ≫= be_bytes 4.

Lemma pad_loop_spec fuel m c :
  absorbed_msg m c -> (Z.of_nat fuel > (56 - Z.of_nat (length m)) mod 64) ->
  exists c', pad_loop fuel c = Some c' /\
    absorbed_msg (m ++ replicate (Z.to_nat ((56 - Z.of_nat (length m)) mod 64)) 0) c'.
Proof.
  revert m c. induction fuel as [|f IH]; intros m c Hc Hf; [dlia|]. cbn [pad_loop].
  assert (Hland : Z.land (c_count0 c) 504 = 8 * (Z.of_nat (length m) mod 64)).
  { rewrite (am_count0 _ _ Hc). change 504 with (Z.land (Z.ones 9) (Z.lnot (Z.ones 3))).
    rewrite Z.land_assoc, Z.land_ones by lia.
    rewrite <-Z.ldiff_land, Z.ldiff_ones_r, Z.shiftr_div_pow2, Z.shiftl_mul_pow2 by lia.
    unfold u32. change (2 ^ 9) with 512. change (2 ^ 3) with 8. change (2 ^ 32) with 4294967296. dlia. }
  rewrite Hland. destruct (Z.eqb_spec (8 * (Z.of_nat (length m) mod 64)) 448) as [E|E].
  - exists c. split; [done|]. replace ((56 - Z.of_nat (length m)) mod 64) with 0 by dlia.
    by rewrite app_nil_r.
  - destruct (SHA1Update_spec m c [0] Hc ltac:(cbn; lia)) as (c1 & E1 & Hc1).
    rewrite E1. cbn [mbind option_bind].
    assert (Hl : Z.of_nat (length (m ++ [0])) = Z.of_nat (length m) + 1) by (rewrite length_app; cbn; lia).
    destruct (IH _ _ Hc1) as (c' & E' & Hc'); [rewrite Hl; dlia|].
    exists c'. split; [done|]. rewrite Hl, <-app_assoc in Hc'.
    replace ([0] ++ replicate (Z.to_nat ((56 - (Z.of_nat (length m) + 1)) mod 64)) 0)
      with (replicate (Z.to_nat ((56 - Z.of_nat (length m)) mod 64)) 0) in Hc'; [done|].
    replace (Z.to_nat ((56 - Z.of_nat (length m)) mod 64))
      with (S (Z.to_nat ((56 - (Z.of_nat (length m) + 1)) mod 64))) by dlia. done.
Qed.

Lemma land_255 x : Z.land x 255 = x mod 256.
Proof. change 255 with (Z.ones 8). by rewrite Z.land_ones by lia. Qed.

Lemma be_bytes_4 v :
  be_bytes 4 v = [v / 2 ^ 24 mod 256; v / 2 ^ 16 mod 256; v / 2 ^ 8 mod 256; v mod 256].
Proof.
  unfold be_bytes. cbn [le_bytes rev app]. rewrite !Z.div_div by lia. reflexivity.
Qed.

Lemma byte_of_mod v a : 0 <= a <= 24 -> (v mod 2 ^ 32) / 2 ^ a mod 256 = v / 2 ^ a mod 256.
Proof.
  intros Ha. change 256 with (2 ^ 8). apply Z.bits_inj'. intros n Hn.
  destruct (decide (n < 8)).
  - by rewrite !Z.mod_pow2_bits_low, !Z.div_pow2_bits, Z.mod_pow2_bits_low by lia.
  - by rewrite !Z.mod_pow2_bits_high by lia.
Qed.

Lemma be_bytes_4_mod v : be_bytes 4 (u32 v) = be_bytes 4 v.
Proof.
  rewrite !be_bytes_4. unfold u32. rewrite !byte_of_mod by lia.
  pose proof (byte_of_mod v 0 ltac:(lia)) as E. change (2 ^ 0) with 1 in E.
  rewrite !Z.div_1_r in E. by rewrite E.
Qed.

Lemma be_bytes_8 v : be_bytes 8 v = be_bytes 4 (v / 2 ^ 32) ++ be_bytes 4 v.
Proof. rewrite !be_bytes_4. unfold be_bytes. cbn [le_bytes rev app]. by rewrite !Z.div_div by lia. Qed.

Lemma fips_steps_length w st ts : length st = 5%nat -> length (foldl (fips_step w) st ts) = 5%nat.
Proof.
  revert st. induction ts as [|t ts IH]; intros st Hst; [done|]. cbn. apply IH.
  destruct st as [|? [|? [|? [|? [|? [|]]]]]]; done.
Qed.

Lemma fips_compress_length st b : length st = 5%nat -> length (fips_compress st b) = 5%nat.
Proof.
  intros Hst. unfold fips_compress. rewrite length_zip_with, fips_steps_length by done. lia.
Qed.

Lemma absorb_fips n l st :
  length l = (64 * n)%nat -> Forall is_byte l -> length st = 5%nat ->
  absorb SHA1Transform n st l = absorb fips_compress n st l /\
  length (absorb fips_compress n st l) = 5%nat.
Proof.
  revert l st. induction n as [|n IH]; intros l st Hl Hb Hst; [done|]. cbn [absorb].
  rewrite SHA1Transform_fips; [|done|rewrite length_take; lia|by apply Forall_take].
  apply IH; [rewrite length_drop; lia|by apply Forall_drop|by apply fips_compress_length].
Qed.

Lemma digest_words st :
  length st = 5%nat ->
  ((fun i => Z.land (Z.shiftr (st !!! Z.to_nat (Z.shiftr i 2)) ((3 - Z.land i 3) * 8)) 255) <$> seqZ 0 20)
  = (st ≫= be_bytes 4).
Proof.
  intros Hst. destruct st as [|s0 [|s1 [|s2 [|s3 [|s4 [|]]]]]]; try discriminate Hst.
  cbn [mbind list_bind]. rewrite !be_bytes_4, app_nil_r.
  assert (E : forall x k, 0 <= k -> Z.land (Z.shiftr x k) 255 = x / 2 ^ k mod 256)
    by (intros; by rewrite land_255, Z.shiftr_div_pow2).
  assert (E0 : forall x, Z.land (Z.shiftr x 0) 255 = x mod 256) by (intros; by rewrite land_255).
  rewrite <-!E, <-!E0 by lia. reflexivity.
Qed.

Lemma final_count m c :
  absorbed_msg m c ->
  ((fun i => Z.land (Z.shiftr (if 4 <=? i then c_count0 c else c_count1 c) ((3 - Z.land i 3) * 8)) 255)
     <$> seqZ 0 8) = be_bytes 8 (8 * Z.of_nat (length m)).
Proof.
  intros [E0 E1 _ _ _]. rewrite be_bytes_8, <-(be_bytes_4_mod (_ / _)), <-(be_bytes_4_mod (8 * _)).
  rewrite <-E0, <-E1, !be_bytes_4.
  assert (E : forall x k, 0 <= k -> Z.land (Z.shiftr x k) 255 = x / 2 ^ k mod 256)
    by (intros; by rewrite land_255, Z.shiftr_div_pow2).
  assert (E2 : forall x, Z.land (Z.shiftr x 0) 255 = x mod 256) by (intros; by rewrite land_255).
  rewrite <-!E, <-!E2 by lia. reflexivity.
Qed.

Lemma length_fips_pad m : exists n, length (fips_pad m) = (64 * n)%nat.
Proof.
  exists ((length m + 72) / 64)%nat. unfold fips_pad. rewrite !length_app, length_replicate.
  unfold be_bytes. rewrite length_rev, length_le_bytes. cbn [length].
  destruct (div_mod_64 (length m + 72)). dlia.
Qed.

Lemma fips_pad_bytes m : Forall is_byte m -> Forall is_byte (fips_pad m).
Proof.
  intros Hb. unfold fips_pad. rewrite !Forall_app. split_and!; [done|by repeat constructor| |].
  - by apply Forall_replicate.
  - unfold be_bytes. apply Forall_rev, le_bytes_range.
Qed.

Lemma SHA1Final_spec m c :
  absorbed_msg m c -> Forall is_byte m -> SHA1Final c = Some (fips_sha1 m).
Proof.
  intros Hc Hb. unfold SHA1Final. rewrite (final_count m c Hc).
  destruct (SHA1Update_spec m c [0x80] Hc ltac:(cbn; lia)) as (c1 & -> & Hc1). cbn [mbind option_bind].
  destruct (pad_loop_spec 65 _ _ Hc1 ltac:(dlia)) as (c2 & -> & Hc2). cbn [mbind option_bind].
  set (fc := be_bytes 8 _) in *.
  assert (Hfc : length fc = 8%nat) by (unfold fc, be_bytes; by rewrite length_rev, length_le_bytes).
  destruct (SHA1Update_spec _ c2 fc Hc2 ltac:(lia)) as (c3 & -> & Hc3).
  cbn [mbind option_bind]. f_equal.
  assert (Em : ((m ++ [128]) ++ replicate (Z.to_nat ((56 - Z.of_nat (length (m ++ [128]))) mod 64)) 0) ++ fc
               = fips_pad m).
  { unfold fips_pad. rewrite <-!app_assoc. do 4 f_equal. rewrite length_app. cbn [length].
    f_equal. f_equal. lia. }
  rewrite Em in Hc3. rewrite (am_state _ _ Hc3).
  destruct (length_fips_pad m) as [n Hn].
  assert (Hdiv : (length (fips_pad m) / 64)%nat = n) by (rewrite Hn, Nat.mul_comm; apply Nat.div_mul; lia).
  unfold fips_sha1. rewrite Hdiv.
  destruct (absorb_fips n (fips_pad m) sha1_iv Hn) as [E Hl]; [|done|].
  - by apply fips_pad_bytes.
  - rewrite E. by apply digest_words.
Qed.


