(* ===== verification/Uuid.v ===== *)
(** * The UUID of an image (uuid.c) *)

From S2P Require Import Prelude Bytes Sha1.

(** [ntohl] and [ntohs] on a little-endian host. *)
Definition ntohl (v : Z) : Z := be_value (le_bytes 4 v).
Definition ntohs (v : Z) : Z := be_value (le_bytes 2 v).

(** [static void sha1_hash(namespace, name, sha1)]; [ctx] is the uninitialised
    local context, the strings are given without their terminator. *)
Definition sha1_hash (ctx : SHA1_CTX) (namespace name : list Z) : option (list Z) :=
  let ctx := SHA1Init ctx in
  ctx ← SHA1Update ctx namespace;
  ctx ← SHA1Update ctx name;
  SHA1Final ctx.

(** The offsets of [struct uuid]: [time_low] 0, [time_mid] 4,
    [time_hi_and_version] 6, [clk_seq_hi_res] 8. *)
Definition generate_uuid (ctx : SHA1_CTX) (namespace name : list Z) : option (list Z) :=
  sha1 ← sha1_hash ctx namespace name;
  uuid ← read_bytes sha1 0 16;
  time_low ← load 4 uuid 0;
  uuid ← store 4 uuid 0 (ntohl time_low);
  time_mid ← load 2 uuid 4;
  uuid ← store 2 uuid 4 (ntohs time_mid);
  time_hi_and_version ← load 2 uuid 6;
  uuid ← store 2 uuid 6 (ntohs time_hi_and_version);
  time_hi_and_version ← load 2 uuid 6;
  uuid ← store 2 uuid 6 (Z.land time_hi_and_version 0x0FFF);
  time_hi_and_version ← load 2 uuid 6;
  uuid ← store 2 uuid 6 (Z.lor time_hi_and_version (Z.shiftl 5 12));
  clk_seq_hi_res ← load 1 uuid 8;
  uuid ← store 1 uuid 8 (Z.land clk_seq_hi_res (Z.lnot (Z.shiftl 1 6)));
  clk_seq_hi_res ← load 1 uuid 8;
  store 1 uuid 8 (Z.lor clk_seq_hi_res (Z.shiftl 1 7)).

(** The name-based UUID of a digest: the first eight bytes in the byte order of
    the host's structure, the version 5 and variant bits set. *)
Definition uuid_of_digest (d : list Z) : list Z :=
  match d with
  | b0 :: b1 :: b2 :: b3 :: b4 :: b5 :: b6 :: b7 :: b8 :: rest =>
      [b3; b2; b1; b0; b5; b4; b7; 0x50 + b6 mod 16; 0x80 + b8 mod 64] ++ take 7 rest
  | _ => []
  end.

Lemma length_fips_sha1 m : Forall is_byte m -> length (fips_sha1 m) = 20%nat /\ Forall is_byte (fips_sha1 m).
Proof.
  intros Hm. unfold fips_sha1. destruct (length_fips_pad m) as [n Hn].
  assert (Hdiv : (length (fips_pad m) / 64)%nat = n) by (rewrite Hn, Nat.mul_comm; apply Nat.div_mul; lia).
  rewrite Hdiv. assert (Hl : length (absorb fips_compress n sha1_iv (fips_pad m)) = 5%nat).
  { apply (absorb_fips n (fips_pad m) sha1_iv); [done|by apply fips_pad_bytes|done]. }
  destruct (absorb _ _ _ _) as [|s0 [|s1 [|s2 [|s3 [|s4 [|]]]]]]; try discriminate Hl.
  split; [reflexivity|]. cbn [mbind list_bind]. rewrite !Forall_app.
  unfold be_bytes. repeat split; try (apply Forall_rev, le_bytes_range). constructor.
Qed.

Lemma sha1_hash_spec ctx ns name :
  length (c_buffer ctx) = 64%nat -> Forall is_byte ns -> Forall is_byte name ->
  Z.of_nat (length ns) < 2 ^ 29 -> Z.of_nat (length name) < 2 ^ 29 ->
  sha1_hash ctx ns name = Some (fips_sha1 (ns ++ name)).
Proof.
  intros Hc H1 H2 L1 L2. unfold sha1_hash.
  destruct (SHA1Update_spec [] _ ns (absorbed_init ctx Hc) L1) as (c1 & -> & Hc1). cbn [mbind option_bind].
  destruct (SHA1Update_spec _ c1 name Hc1 L2) as (c2 & -> & Hc2). cbn [mbind option_bind].
  apply SHA1Final_spec; [done|]. by apply Forall_app.
Qed.

Lemma ntohl_bytes b0 b1 b2 b3 :
  is_byte b0 -> is_byte b1 -> is_byte b2 -> is_byte b3 ->
  ntohl (le_value [b0; b1; b2; b3]) = ((b0 * 256 + b1) * 256 + b2) * 256 + b3.
Proof.
  intros. unfold ntohl. change 4%nat with (length [b0; b1; b2; b3]).
  rewrite le_bytes_value by (repeat constructor; apply H || apply H0 || apply H1 || apply H2).
  cbn. lia.
Qed.

Lemma ntohs_bytes b0 b1 :
  is_byte b0 -> is_byte b1 -> ntohs (le_value [b0; b1]) = b0 * 256 + b1.
Proof.
  intros H0 H1. unfold ntohs. change 2%nat with (length [b0; b1]).
  rewrite le_bytes_value by (repeat constructor; apply H0 || apply H1).
  cbn. lia.
Qed.

Lemma variant_byte b :
  is_byte b -> Z.lor (Z.land b (-65) mod 256) 128 mod 256 = 0x80 + b mod 64.
Proof.
  intros Hb. assert (H : forallb (fun b => Z.lor (Z.land b (-65) mod 256) 128 mod 256 =? 0x80 + b mod 64)
    (seqZ 0 256) = true) by (vm_compute; reflexivity).
  rewrite List.forallb_forall in H. apply Z.eqb_eq, H, list_elem_of_In, elem_of_seqZ.
  unfold is_byte in Hb. lia.
Qed.

Lemma generate_uuid_spec ctx ns name :
  length (c_buffer ctx) = 64%nat -> Forall is_byte ns -> Forall is_byte name ->
  Z.of_nat (length ns) < 2 ^ 29 -> Z.of_nat (length name) < 2 ^ 29 ->
  generate_uuid ctx ns name = Some (uuid_of_digest (fips_sha1 (ns ++ name))) /\
  length (uuid_of_digest (fips_sha1 (ns ++ name))) = 16%nat.
Proof.
  intros Hc H1 H2 L1 L2.
  unfold generate_uuid. rewrite sha1_hash_spec by done. cbn [mbind option_bind].
  destruct (length_fips_sha1 (ns ++ name)) as [Hl Hb]; [by apply Forall_app|].
  destruct (fips_sha1 (ns ++ name)) as [|b0 [|b1 [|b2 [|b3 [|b4 [|b5 [|b6 [|b7 [|b8 [|b9
    [|b10 [|b11 [|b12 [|b13 [|b14 [|b15 [|b16 [|b17 [|b18 [|b19 [|]]]]]]]]]]]]]]]]]]]]]; try discriminate Hl.
  rewrite !Forall_cons in Hb. unfold is_byte in Hb.
  split; [|reflexivity].
  match goal with |- ?l = _ =>
    let x := eval cbv -[Z.modulo Z.div Z.land Z.lor le_value ntohl ntohs] in l in change l with x
  end.
  destruct Hb as (? & ? & ? & ? & ? & ? & ? & ? & ? & _).
  rewrite ntohl_bytes, !ntohs_bytes by done. f_equal.
  set (h := b6 * 256 + b7).
  assert (Eh : le_value [h mod 256; h / 256 mod 256] = h) by (cbn; subst h; dlia).
  rewrite Eh. change 4095 with (Z.ones 12). rewrite Z.land_ones by lia.
  set (m := h mod 2 ^ 12). assert (Hm : m = b6 mod 16 * 256 + b7).
  { subst m h. change (2 ^ 12) with 4096. dlia. }
  assert (Em : le_value [m mod 256; m / 256 mod 256] = m) by (cbn; dlia).
  rewrite Em. change 20480 with (Z.shiftl 5 12). rewrite lor_high by (change (2 ^ 12) with 4096; dlia).
  change (Z.shiftl 5 12) with 20480. clearbody m. subst m.
  replace (le_value [Z.land (le_value [b8]) (-65) mod 256]) with (Z.land b8 (-65) mod 256) by (cbn [le_value]; rewrite !Z.mul_0_r, !Z.add_0_r; done).
  rewrite variant_byte by done. cbn [uuid_of_digest app take].
  repeat f_equal; dlia.
Qed.

(** [generate_uuid] succeeds and is the version 5, variant 1 UUID of the
    SHA-1 digest of the name in the name space. *)
Theorem generate_uuid_correct (ctx : SHA1_CTX) (ns name : list Z)
  (Hc : length (c_buffer ctx) = 64%nat) (H1 : Forall is_byte ns) (H2 : Forall is_byte name)
  (L1 : Z.of_nat (length ns) < 2 ^ 29) (L2 : Z.of_nat (length name) < 2 ^ 29) :
  generate_uuid ctx ns name = Some (uuid_of_digest (fips_sha1 (ns ++ name))) /\
  length (uuid_of_digest (fips_sha1 (ns ++ name))) = 16%nat.
Proof. by apply generate_uuid_spec. Qed.

Lemma generate_uuid_correct_witness :
  generate_uuid (mk_ctx [] 0 0 (replicate 64 0)) [97; 98] [99] =
    Some (uuid_of_digest (fips_sha1 ([97; 98] ++ [99]))) /\
  length (uuid_of_digest (fips_sha1 ([97; 98] ++ [99]))) = 16%nat.
Proof.
  apply (generate_uuid_correct (mk_ctx [] 0 0 (replicate 64 0)) [97; 98] [99]);
    try reflexivity; repeat constructor; (reflexivity || discriminate).
Defined.
