(* ===== verification/Super.v ===== *)
(** * The superblock and the group descriptors (ext4_utils.c, ext4.h)

    [struct ext4_super_block] and [struct ext2_group_desc] as the byte layouts of
    ext4.h and ext4_utils.h, and the functions of ext4_utils.c that fill them, read
    them back and total the free counts. [sb] and [bg_desc] are the pointers of
    [aux_info]. *)

From Stdlib Require Import String.
From S2P Require Import Prelude Bytes Layout Crc16 Sha1 Uuid Ext4Info Inode Bitmap BlockGroup Regions Alloc.

(** ** Layouts *)

Definition s_inodes_count : field := (0, 4%nat).
Definition s_blocks_count_lo : field := (4, 4%nat).
Definition s_r_blocks_count_lo : field := (8, 4%nat).
Definition s_free_blocks_count_lo : field := (12, 4%nat).
Definition s_free_inodes_count : field := (16, 4%nat).
Definition s_first_data_block : field := (20, 4%nat).
Definition s_log_block_size : field := (24, 4%nat).
Definition s_obso_log_frag_size : field := (28, 4%nat).
Definition s_blocks_per_group : field := (32, 4%nat).
Definition s_obso_frags_per_group : field := (36, 4%nat).
Definition s_inodes_per_group : field := (40, 4%nat).
Definition s_mtime : field := (44, 4%nat).
Definition s_wtime : field := (48, 4%nat).
Definition s_mnt_count : field := (52, 2%nat).
Definition s_max_mnt_count : field := (54, 2%nat).
Definition s_magic : field := (56, 2%nat).
Definition s_state : field := (58, 2%nat).
Definition s_errors : field := (60, 2%nat).
Definition s_minor_rev_level : field := (62, 2%nat).
Definition s_lastcheck : field := (64, 4%nat).
Definition s_checkinterval : field := (68, 4%nat).
Definition s_creator_os : field := (72, 4%nat).
Definition s_rev_level : field := (76, 4%nat).
Definition s_def_resuid : field := (80, 2%nat).
Definition s_def_resgid : field := (82, 2%nat).
Definition s_first_ino : field := (84, 4%nat).
Definition s_inode_size : field := (88, 2%nat).
Definition s_block_group_nr : field := (90, 2%nat).
Definition s_feature_compat : field := (92, 4%nat).
Definition s_feature_incompat : field := (96, 4%nat).
Definition s_feature_ro_compat : field := (100, 4%nat).
Definition s_uuid : field := (104, 16%nat).
Definition s_volume_name : field := (120, 16%nat).
Definition s_last_mounted : field := (136, 64%nat).
Definition s_algorithm_usage_bitmap : field := (200, 4%nat).
Definition s_prealloc_blocks : field := (204, 1%nat).
Definition s_prealloc_dir_blocks : field := (205, 1%nat).
Definition s_reserved_gdt_blocks : field := (206, 2%nat).
Definition s_journal_inum : field := (224, 4%nat).
Definition s_journal_dev : field := (228, 4%nat).
Definition s_last_orphan : field := (232, 4%nat).
Definition s_hash_seed0 : field := (236, 4%nat).
Definition s_def_hash_version : field := (252, 1%nat).
Definition s_reserved_char_pad : field := (253, 1%nat).
Definition s_desc_size : field := (254, 2%nat).
Definition s_default_mount_opts : field := (256, 4%nat).
Definition s_first_meta_bg : field := (260, 4%nat).
Definition s_mkfs_time : field := (264, 4%nat).
Definition s_jnl_blocks : field := (268, 68%nat).
Definition s_blocks_count_hi : field := (336, 4%nat).
Definition s_r_blocks_count_hi : field := (340, 4%nat).
Definition s_free_blocks_count_hi : field := (344, 4%nat).
Definition s_min_extra_isize : field := (348, 2%nat).
Definition s_want_extra_isize : field := (350, 2%nat).
Definition s_flags : field := (352, 4%nat).
Definition s_raid_stride : field := (356, 2%nat).
Definition s_mmp_interval : field := (358, 2%nat).
Definition s_mmp_block : field := (360, 8%nat).
Definition s_raid_stripe_width : field := (368, 4%nat).
Definition s_log_groups_per_flex : field := (372, 1%nat).
Definition s_kbytes_written : field := (376, 8%nat).
Definition sizeof_super_block : Z := 1024.

Definition bg_block_bitmap : field := (0, 4%nat).
Definition bg_inode_bitmap : field := (4, 4%nat).
Definition bg_inode_table : field := (8, 4%nat).
Definition bg_free_blocks_count : field := (12, 2%nat).
Definition bg_free_inodes_count : field := (14, 2%nat).
Definition bg_used_dirs_count : field := (16, 2%nat).
Definition bg_flags_field : field := (18, 2%nat).
Definition bg_checksum : field := (30, 2%nat).

(** Member access at a byte offset of a buffer. *)
Definition assign (buf : nat) (base : Z) (f : field) (v : Z) : M world unit :=
  store_buf buf f.2 (base + f.1) v.
Definition member (buf : nat) (base : Z) (f : field) : M world Z := load_buf buf f.2 (base + f.1).

(** ** Values of the superblock *)

Definition EXT4_VALID_FS : Z := 0x0001.
Definition EXT4_ERRORS_RO : Z := 2.
Definition EXT4_OS_LINUX : Z := 0.
Definition EXT4_DYNAMIC_REV : Z := 1.
Definition EXT4_DEF_RESUID : Z := 0.
Definition EXT4_DEF_RESGID : Z := 0.
Definition EXT4_GOOD_OLD_FIRST_INO : Z := 11.
Definition EXT4_RESIZE_INO : Z := 7.
Definition EXT4_JOURNAL_INO : Z := 8.
Definition DX_HASH_TEA : Z := 2.
Definition EXT4_JNL_BACKUP_BLOCKS : Z := 1.

(** [strncpy(dst, src, n)] of a string without its terminator. *)
Definition strncpy (n : nat) (s : list Z) : list Z := take n (s ++ replicate n 0).

Section super.
Context (force : bool) (info : fs_info) (aux : fs_aux_info) (sb bg_desc : nat).

(** The assignments of [ext4_fill_in_sb] before its loop, in order. *)
Definition sb_asgs (lg : Z) (uuid : list Z) : list asg :=
  [Num s_inodes_count (inodes_per_group info * groups aux);
   Num s_blocks_count_lo (len_blocks aux);
   Num s_r_blocks_count_lo 0;
   Num s_free_blocks_count_lo 0;
   Num s_free_inodes_count 0;
   Num s_first_data_block (first_data_block aux);
   Num s_log_block_size lg;
   Num s_obso_log_frag_size lg;
   Num s_blocks_per_group (blocks_per_group info);
   Num s_obso_frags_per_group (blocks_per_group info);
   Num s_inodes_per_group (inodes_per_group info);
   Num s_mtime 0;
   Num s_wtime 0;
   Num s_mnt_count 0;
   Num s_max_mnt_count 0xFFFF;
   Num s_magic EXT4_SUPER_MAGIC;
   Num s_state EXT4_VALID_FS;
   Num s_errors EXT4_ERRORS_RO;
   Num s_minor_rev_level 0;
   Num s_lastcheck 0;
   Num s_checkinterval 0;
   Num s_creator_os EXT4_OS_LINUX;
   Num s_rev_level EXT4_DYNAMIC_REV;
   Num s_def_resuid EXT4_DEF_RESUID;
   Num s_def_resgid EXT4_DEF_RESGID;
   Num s_first_ino EXT4_GOOD_OLD_FIRST_INO;
   Num s_inode_size (inode_size info);
   Num s_block_group_nr 0;
   Num s_feature_compat (feat_compat info);
   Num s_feature_incompat (feat_incompat info);
   Num s_feature_ro_compat (feat_ro_compat info);
   Raw s_uuid uuid;
   Raw s_volume_name (replicate 16 0);
   Raw s_volume_name (strncpy 16 (fs_label info));
   Raw s_last_mounted (replicate 64 0);
   Num s_algorithm_usage_bitmap 0;
   Num s_reserved_gdt_blocks (bg_desc_reserve_blocks info);
   Num s_prealloc_blocks 0;
   Num s_prealloc_dir_blocks 0] ++
  (if negb (Z.land (feat_compat info) EXT4_FEATURE_COMPAT_HAS_JOURNAL =? 0)
   then [Num s_journal_inum EXT4_JOURNAL_INO] else []) ++
  [Num s_journal_dev 0;
   Num s_last_orphan 0;
   Num s_hash_seed0 0;
   Num s_def_hash_version DX_HASH_TEA;
   Num s_reserved_char_pad EXT4_JNL_BACKUP_BLOCKS;
   Num s_desc_size sizeof_group_desc;
   Num s_default_mount_opts 0;
   Num s_first_meta_bg 0;
   Num s_mkfs_time 0;
   Num s_blocks_count_hi (Z.shiftr (len_blocks aux) 32);
   Num s_r_blocks_count_hi 0;
   Num s_free_blocks_count_hi 0;
   Num s_min_extra_isize (sizeof_inode - EXT4_GOOD_OLD_INODE_SIZE);
   Num s_want_extra_isize (sizeof_inode - EXT4_GOOD_OLD_INODE_SIZE);
   Num s_flags 0;
   Num s_raid_stride 0;
   Num s_mmp_interval 0;
   Num s_mmp_block 0;
   Num s_raid_stripe_width 0;
   Num s_log_groups_per_flex 0;
   Num s_kbytes_written 0].

Definition group_start_block (i : Z) : Z :=
  u32 (first_data_block aux + u32 (i * blocks_per_group info)).

(** The backup superblock of group [i], a copy with its group number. *)
Definition queue_backup_sb (i : Z) : M world unit :=
  do backup <- calloc (block_size info);
  do bytes <- copy_from_buf sb 0 (block_size info);
  copy_to_buf backup 0 bytes;;;
  assign backup 0 s_block_group_nr i;;;
  sparse_file_add_data (SrcBuf backup 0) (block_size info) (group_start_block i).

(** One turn of the loop over the groups. *)
Definition fill_group (i : Z) : M world unit :=
  do header_size <-
    (if ext4_bg_has_super_block info i then
       (if i =? 0 then mret' tt else queue_backup_sb i);;;
       sparse_file_add_data (SrcBuf bg_desc 0) (u32 (bg_desc_blocks aux * block_size info))
         (u32 (group_start_block i + 1));;;
       mret' (u32 (1 + bg_desc_blocks aux + bg_desc_reserve_blocks info))
     else mret' 0);
  let gd := i * sizeof_group_desc in
  assign bg_desc gd bg_block_bitmap (group_start_block i + header_size);;;
  assign bg_desc gd bg_inode_bitmap (group_start_block i + header_size + 1);;;
  assign bg_desc gd bg_inode_table (group_start_block i + header_size + 2);;;
  do bpg <- member sb 0 s_blocks_per_group;
  assign bg_desc gd bg_free_blocks_count bpg;;;
  do ipg <- member sb 0 s_inodes_per_group;
  assign bg_desc gd bg_free_inodes_count ipg;;;
  assign bg_desc gd bg_used_dirs_count 0.

Fixpoint fill_groups (gs : list Z) : M world unit :=
  match gs with
  | [] => mret' tt
  | i :: gs => fill_group i;;; fill_groups gs
  end.

(** [void ext4_fill_in_sb()]; [ctx] is the uninitialised hash context. *)
Definition ext4_fill_in_sb (ctx : SHA1_CTX) : M world unit :=
  do lg <- deref (log_2 (block_size info / 1024));
  do uuid <- deref (generate_uuid ctx (str "extandroid/make_ext4fs") (fs_label info));
  with_buf sb (fun b => match run_asgs 0 (sb_asgs lg uuid) b with
                        | Some b' => Done tt b'
                        | None => Stuck
                        end);;;
  fill_groups (seqZ 0 (groups aux)).

(** [void ext4_queue_sb(void)]. *)
Definition ext4_queue_sb : M world unit :=
  if 1024 <? block_size info then
    do buf <- calloc (block_size info);
    do bytes <- copy_from_buf sb 0 1024;
    copy_to_buf buf 1024 bytes;;;
    sparse_file_add_data (SrcBuf buf 0) (block_size info) 0
  else sparse_file_add_data (SrcBuf sb 0) 1024 1.

(** One turn of the loop of [ext4_update_free]; [offsetof(bg_checksum)] is 30. *)
Definition update_free_group (i : Z) : M world unit :=
  let gd := i * sizeof_group_desc in
  do bg_free_blocks <- get_free_blocks i;
  do bg_free_inodes <- get_free_inodes i;
  assign bg_desc gd bg_free_blocks_count bg_free_blocks;;;
  do n <- member sb 0 s_free_blocks_count_lo;
  assign sb 0 s_free_blocks_count_lo (n + bg_free_blocks);;;
  assign bg_desc gd bg_free_inodes_count bg_free_inodes;;;
  do n <- member sb 0 s_free_inodes_count;
  assign sb 0 s_free_inodes_count (n + bg_free_inodes);;;
  do n <- member bg_desc gd bg_used_dirs_count;
  do dirs <- get_directories i;
  assign bg_desc gd bg_used_dirs_count (n + dirs);;;
  do flags <- get_bg_flags i;
  assign bg_desc gd bg_flags_field flags;;;
  do uuid <- copy_from_buf sb s_uuid.1 16;
  do desc <- copy_from_buf bg_desc gd bg_checksum.1;
  let crc := ext4_crc16 (u16 (Z.lnot 0)) uuid in
  let crc := ext4_crc16 crc (le_bytes 4 i) in
  let crc := ext4_crc16 crc desc in
  assign bg_desc gd bg_checksum crc.

Fixpoint update_free_groups (gs : list Z) : M world unit :=
  match gs with
  | [] => mret' tt
  | i :: gs => update_free_group i;;; update_free_groups gs
  end.
Definition ext4_update_free : M world unit := update_free_groups (seqZ 0 (groups aux)).
End super.

(** [void ext4_create_fs_aux_info()] with its buffers: the derived geometry, the
    superblock and the descriptor table. Dividing by zero is undefined. *)
Definition create_fs_aux_info (info : fs_info) : M world (fs_aux_info * nat * nat) :=
  if (block_size info =? 0) || (blocks_per_group info =? 0) then stuck
  else
    let aux := ext4_create_fs_aux_info info in
    do sb <- calloc (block_size info);
    do bg_desc <- calloc (block_size info * bg_desc_blocks aux);
    modify (set_xattrs []);;;
    mret' (aux, sb, bg_desc).

(** A string read from a buffer: the bytes before the first zero. *)
Fixpoint c_string (bs : list Z) : list Z :=
  match bs with
  | [] => []
  | b :: bs => if b =? 0 then [] else b :: c_string bs
  end.

(** [void ext4_parse_sb(struct ext4_super_block *sb)]: the new globals. A shift of
    the [int] 1024 by more than 20 is undefined. *)
Definition ext4_parse_sb (force : bool) (info : fs_info) (src : nat)
  : M world (fs_info * fs_aux_info * nat * nat) :=
  do magic <- member src 0 s_magic;
  (if magic =? EXT4_SUPER_MAGIC then mret' tt else error force);;;
  do state <- member src 0 s_state;
  (if Z.land state EXT4_VALID_FS =? EXT4_VALID_FS then mret' tt else error force);;;
  do lg <- member src 0 s_log_block_size;
  (if lg <=? 20 then mret' tt else stuck);;;
  let bs := Z.shiftl 1024 lg in
  do bpg <- member src 0 s_blocks_per_group;
  do ipg <- member src 0 s_inodes_per_group;
  do isz <- member src 0 s_inode_size;
  do inodes <- member src 0 s_inodes_count;
  do ro <- member src 0 s_feature_ro_compat;
  do compat <- member src 0 s_feature_compat;
  do incompat <- member src 0 s_feature_incompat;
  do reserve <- member src 0 s_reserved_gdt_blocks;
  do label <- copy_from_buf src s_volume_name.1 (sizeof_super_block - s_volume_name.1);
  do hi <- member src 0 s_blocks_count_hi;
  do lo <- member src 0 s_blocks_count_lo;
  let len_blocks := u64 (Z.shiftl hi 32 + lo) in
  let info' := mk_fs_info (s64 (u64 (bs * len_blocks))) bs bpg ipg isz inodes (journal_blocks info)
                 (u16 ro) (u16 compat) (u16 incompat) reserve (c_string label) (no_journal info) in
  do (aux, sb, bg_desc) <- create_fs_aux_info info';
  do bytes <- copy_from_buf src 0 sizeof_super_block;
  copy_to_buf sb 0 bytes;;;
  do fdb <- member src 0 s_first_data_block;
  if first_data_block aux =? fdb then mret' (info', aux, sb, bg_desc) else longjmp.

(** [u64 parse_num(const char *arg)]: [strtoull] in base ten, which skips leading
    white space, takes a sign and saturates, and a unit. *)
Definition is_space (c : Z) : bool := (c =? 32) || ((9 <=? c) && (c <=? 13)).
Definition is_digit (c : Z) : bool := (48 <=? c) && (c <=? 57).
Fixpoint skip_space (s : list Z) : list Z :=
  match s with c :: s' => if is_space c then skip_space s' else s | [] => [] end.
Fixpoint digits (s : list Z) (n : Z) : Z * list Z :=
  match s with
  | c :: s' => if is_digit c then digits s' (10 * n + (c - 48)) else (n, s)
  | [] => (n, [])
  end.
Definition strtoull (s : list Z) : Z * list Z :=
  let s1 := skip_space s in
  let (neg, s2) := match s1 with
                   | c :: s' => if c =? 45 then (true, s') else if c =? 43 then (false, s') else (false, s1)
                   | [] => (false, [])
                   end in
  match s2 with
  | c :: _ => if is_digit c then
                let (n, rest) := digits s2 0 in
                (if 2 ^ 64 <=? n then 2 ^ 64 - 1 else if neg then u64 (- n) else n, rest)
              else (0, s)
  | [] => (0, s)
  end.
Definition parse_num (arg : list Z) : Z :=
  let (num, endptr) := strtoull arg in
  match endptr with
  | c :: _ =>
      if (c =? 107) || (c =? 75) then u64 (num * 1024)
      else if (c =? 109) || (c =? 77) then u64 (num * (1024 * 1024))
      else if (c =? 103) || (c =? 71) then u64 (num * (1024 * 1024 * 1024))
      else num
  | [] => num
  end.

(** [u64 get_file_size(int fd)]; [st] is what [fstat] tells: the kind of the file
    and its size ([BLKGETSIZE64] for a device, 0 when it fails). *)
Inductive file_stat := StatFails | RegularFile (st_size : Z) | BlockDevice (size : Z) | OtherFile.
Definition get_file_size (info : fs_info) (st : file_stat) : Z :=
  match st with
  | StatFails => 0
  | _ =>
      let reserve_len := if fs_len info <? 0 then - fs_len info else 0 in
      let computed_size := match st with
                           | RegularFile n | BlockDevice n => s64 (n - reserve_len)
                           | _ => 0
                           end in
      if computed_size <? 0 then 0 else computed_size
  end.
