(* ===== verification/MakeExt4fs.v ===== *)
(** * Making an image (make_ext4fs.c; the resize and journal inodes of ext4_utils.c, jbd2.h)

    [make_ext4fs_internal] from the parameters to the queued image. What the host
    answers is given: a tree of files for [scandir], [lstat] and [readlink], the
    permissions and labels as functions, the size of the output. Messages are left
    out, and so is the output by libsparse. *)

From Stdlib Require Import Ascii String.
From S2P Require Import Prelude Bytes Layout Crc16 Ext4Info Bitmap Inode BlockGroup Regions Alloc Extent Indirect Xattr Contents Sha1 Uuid Super.

Definition S_IRUSR : Z := 0x100.
Definition S_IWUSR : Z := 0x080.
Definition JBD2_MAGIC_NUMBER : Z := 0xc03b3998.
Definition JBD2_SUPERBLOCK_V2 : Z := 4.
(** The members of [journal_superblock_t]. *)
Definition j_h_magic : field := (0, 4%nat).
Definition j_h_blocktype : field := (4, 4%nat).
Definition j_blocksize : field := (12, 4%nat).
Definition j_maxlen : field := (16, 4%nat).
Definition j_first : field := (20, 4%nat).
Definition j_sequence : field := (24, 4%nat).
Definition j_nr_users : field := (64, 4%nat).

(** [htonl] on a little-endian host; a swap of bytes is its own inverse. *)
Definition htonl (v : Z) : Z := ntohl v.

Section special.
Context (force : bool) (info : fs_info) (aux : fs_aux_info) (fuel : nat) (sb : nat).

(** The loop of [ext4_create_resize_inode] over the groups; [reserve_inode_len]
    is never read. *)
Fixpoint resize_regions (gs : list Z) (alloc : block_allocation) : M world block_allocation :=
  match gs with
  | [] => mret' alloc
  | i :: gs =>
      if ext4_bg_has_super_block info i then
        let reserved_block_start := u32 (group_start_block info aux i + 1 + bg_desc_blocks aux) in
        do alloc <- with_heap (append_region alloc reserved_block_start (bg_desc_reserve_blocks info) i);
        resize_regions gs alloc
      else resize_regions gs alloc
  end.

(** [void ext4_create_resize_inode()]. *)
Definition ext4_create_resize_inode : M world unit :=
  do inode <- get_inode info aux EXT4_RESIZE_INO;
  do alloc <- resize_regions (seqZ 0 (groups aux)) create_allocation;
  do alloc <- inode_attach_resize force info aux fuel inode alloc;
  with_inode inode (modify (fun i =>
    set_i_links_count 1 (set_i_mode (Z.lor S_IFREG (Z.lor S_IRUSR S_IWUSR)) i)));;;
  with_heap (free_alloc alloc).

(** [void ext4_create_journal_inode()]. *)
Definition ext4_create_journal_inode : M world unit :=
  do inode <- get_inode info aux EXT4_JOURNAL_INO;
  let len := u32 (journal_blocks info * block_size info) in
  do journal_data <- inode_allocate_data_extents force info aux fuel inode len len;
  match journal_data with
  | None => error force
  | Some jsb =>
      with_inode inode (modify (fun i =>
        set_i_links_count 1 (set_i_mode (Z.lor S_IFREG (Z.lor S_IRUSR S_IWUSR)) i)));;;
      assign jsb 0 j_h_magic (htonl JBD2_MAGIC_NUMBER);;;
      assign jsb 0 j_h_blocktype (htonl JBD2_SUPERBLOCK_V2);;;
      assign jsb 0 j_blocksize (htonl (block_size info));;;
      assign jsb 0 j_maxlen (htonl (journal_blocks info));;;
      assign jsb 0 j_nr_users (htonl 1);;;
      assign jsb 0 j_first (htonl 1);;;
      assign jsb 0 j_sequence (htonl 1);;;
      do i <- with_inode inode get;
      copy_to_buf sb s_jnl_blocks.1 (i_block i)
  end.
End special.

(** ** Parameters *)

Definition compute_block_size : Z := 4096.
(** [DIV_ROUND_UP(info.len, info.block_size)] on a signed 64-bit length. *)
Definition info_blocks (info : fs_info) : Z :=
  Z.quot (s64 (fs_len info + block_size info) - 1) (block_size info).
Definition compute_journal_blocks (info : fs_info) : Z :=
  let journal_blocks := u32 (Z.quot (info_blocks info) 64) in
  let journal_blocks := if journal_blocks <? 1024 then 1024 else journal_blocks in
  if 32768 <? journal_blocks then 32768 else journal_blocks.
Definition compute_blocks_per_group (info : fs_info) : Z := u32 (block_size info * 8).
Definition compute_inodes (info : fs_info) : Z := u32 (Z.quot (info_blocks info) 4).

(** [DIV_ROUND_UP] and [ALIGN] on [u32] operands; [None] is a division by zero. *)
Definition div_round_up_u32 (x y : Z) : option Z :=
  if y =? 0 then None else Some (u32 (u32 (x + y) - 1) / y).
Definition align_u32 (x y : Z) : option Z :=
  n ← div_round_up_u32 x y; Some (u32 (y * n)).

(** The inodes per group and the new [info.inodes]. *)
Definition compute_inodes_per_group (info : fs_info) : option (Z * Z) :=
  let blocks := u32 (info_blocks info) in
  block_groups ← div_round_up_u32 blocks (blocks_per_group info);
  inodes ← div_round_up_u32 (inodes info) block_groups;
  inodes ← align_u32 inodes (block_size info / inode_size info);
  Some (inodes, u32 (inodes * block_groups)).

Definition compute_bg_desc_reserve_blocks (info : fs_info) : option Z :=
  let blocks := u32 (info_blocks info) in
  block_groups ← div_round_up_u32 blocks (blocks_per_group info);
  let bg_desc_blocks := u32 (u64 (block_groups * sizeof_group_desc + block_size info - 1)
                             / block_size info) in
  let bg_desc_reserve_blocks :=
    u32 (u64 (u32 (block_groups * 1024) * sizeof_group_desc + block_size info - 1)
         / block_size info - bg_desc_blocks) in
  Some (if block_size info / sizeof_u32 <? bg_desc_reserve_blocks
        then block_size info / sizeof_u32 else bg_desc_reserve_blocks).

(** ** Strings *)

(** [static char *canonicalize_slashes(const char *str, bool absolute)]; the empty
    string has no character before its end, the access is stuck. *)
Definition slash : Z := 47.
Definition canonicalize_slashes (s : list Z) (absolute : bool) : option (list Z) :=
  match s, last s with
  | c :: _, Some e =>
      Some ((if negb (c =? slash) && absolute then [slash] else []) ++ s ++
            (if negb (e =? slash) then [slash] else []))
  | _, _ => if absolute then Some [slash] else None
  end.
Definition canonicalize_abs_slashes (s : list Z) : option (list Z) := canonicalize_slashes s true.
Definition canonicalize_rel_slashes (s : list Z) : option (list Z) := canonicalize_slashes s false.

(** ** The source tree *)

Record file_info := mk_stat { st_mode : Z; st_size : Z; st_mtime : Z }.

(** A file of the host: [None] is a call that fails. The directory entries are
    those of [scandir] in the order of [alphasort], before its filter. *)
Inductive host_file := mk_host {
  h_lstat : option file_info;
  h_readlink : option (list Z);
  h_entries : option (list (list Z * host_file))
}.

Definition filter_dot (name : list Z) : bool :=
  negb (bool_decide (name = str "..")) && negb (bool_decide (name = str ".")).

Definition S_IFMT : Z := 0xF000.
Definition S_IFCHR : Z := 0x2000.
Definition S_IFBLK : Z := 0x6000.
Definition S_IFIFO : Z := 0x1000.
Definition S_IFSOCK : Z := 0xC000.
Definition S_IRWXU : Z := 0x1C0.
Definition S_IRGRP : Z := 0x020.
Definition S_IXGRP : Z := 0x008.
Definition S_IROTH : Z := 0x004.
Definition S_IXOTH : Z := 0x001.
(** [S_ISUID|S_ISGID|S_ISVTX|S_IRWXU|S_IRWXG|S_IRWXO]. *)
Definition PERM_BITS : Z := 0xFFF.

(** What [fs_config_func] and [selabel_lookup] answer; the outer [None] is a null
    function or handle, an inner [None] a failed lookup. *)
Record fs_config := mk_config { c_uid : Z; c_gid : Z; c_mode : Z; c_capabilities : Z }.
Definition config_fun : Type := option (list Z -> bool -> fs_config).
Definition label_fun : Type := option (list Z -> Z -> option (list Z)).

Section build.
Context (force : bool) (info : fs_info) (aux : fs_aux_info) (fuel : nat) (sparse_result : Z).
Context (fs_config_func : config_fun) (sehnd : label_fun).

(** [static u32 build_default_directory_structure()]. *)
Definition store_inode (d : dentry) (inode : Z) : M world unit :=
  match d_inode d with
  | Some (buf, off) => store_buf buf 4 off inode
  | None => stuck
  end.
Definition lost_and_found : dentry :=
  mk_dentry [] None (str "lost+found") [] 0 EXT4_FT_DIR S_IRWXU 0 0 None 0 None 0.
Definition build_default_directory_structure : M world Z :=
  do (root_inode, dentries) <- make_directory force info aux fuel 0 [lost_and_found] 1;
  do (inode, _) <- make_directory force info aux fuel root_inode [] 0;
  match dentries with
  | [d] =>
      store_inode d inode;;;
      do _ <- inode_set_permissions info aux inode (d_mode d) (d_uid d) (d_gid d) (d_mtime d);
      mret' root_inode
  | _ => stuck
  end.

(** [selabel_lookup] on a path; a failure leaves the [NULL] of [calloc]. *)
Definition lookup_label (path : list Z) (mode : Z) : M world (option (list Z)) :=
  match sehnd with
  | None => mret' None
  | Some lookup =>
      match lookup path mode with
      | None => error force;;; mret' None
      | Some secon => mret' (Some secon)
      end
  end.

(** The file type of a mode; [None] is an unknown type. *)
Definition file_type_of (mode : Z) : option Z :=
  let fmt := Z.land mode S_IFMT in
  if fmt =? S_IFREG then Some EXT4_FT_REG_FILE
  else if fmt =? S_IFDIR then Some EXT4_FT_DIR
  else if fmt =? S_IFCHR then Some EXT4_FT_CHRDEV
  else if fmt =? S_IFBLK then Some EXT4_FT_BLKDEV
  else if fmt =? S_IFIFO then Some EXT4_FT_FIFO
  else if fmt =? S_IFSOCK then Some EXT4_FT_SOCK
  else if fmt =? S_IFLNK then Some EXT4_FT_SYMLINK
  else None.

(** One turn of the loop over [namelist]: [None] where the code does [i--] and
    [entries--]. The build defines [ANDROID]. *)
Definition scan_entry (full_path dir_path : list Z) (entry : list Z * host_file)
  : M world (option dentry) :=
  let (name, file) := entry in
  let path := dir_path ++ name in
  match h_lstat file with
  | None => error force;;; mret' None
  | Some stat =>
      let mode := Z.land (st_mode stat) PERM_BITS in
      let is_dir := Z.land (st_mode stat) S_IFMT =? S_IFDIR in
      let cfg := match fs_config_func with
                 | None => mk_config 0 0 mode 0
                 | Some f => f path is_dir
                 end in
      do secon <- lookup_label path (st_mode stat);
      let d link ty := mk_dentry path (Some (full_path ++ name)) name link (st_size stat) ty
        (u16 (c_mode cfg)) (u16 (c_uid cfg)) (u16 (c_gid cfg)) None (u32 (st_mtime stat)) secon
        (c_capabilities cfg) in
      match file_type_of (st_mode stat) with
      | None => error force;;; mret' None
      | Some ty =>
          let link := if ty =? EXT4_FT_SYMLINK then
                        match h_readlink file with
                        | None => []
                        | Some l => c_string (take (Z.to_nat (block_size info - 1)) l)
                        end
                      else [] in
          mret' (Some (d link ty))
      end
  end.

(** The loop. A turn that drops its entry repeats its index, whose name it has
    already freed: only the last entry can be dropped without a use after free. *)
Fixpoint scan_entries (full_path dir_path : list Z) (entries : list (list Z * host_file))
  : M world (list (dentry * host_file)) :=
  match entries with
  | [] => mret' []
  | e :: es =>
      do d <- scan_entry full_path dir_path e;
      match d with
      | Some d => do ds <- scan_entries full_path dir_path es; mret' ((d, e.2) :: ds)
      | None => match es with [] => mret' [] | _ => stuck end
      end
  end.

(** A directory that is not on disk. *)
Definition no_host : host_file := mk_host None None None.

(** One turn of the loop that makes the entries; [build] is the recursive call. *)
Definition make_entry (build : option (list Z) -> list Z -> Z -> host_file -> M world Z)
    (inode : Z) (d : dentry) (file : host_file) : M world unit :=
  do entry_inode <-
    (if d_file_type d =? EXT4_FT_REG_FILE then
       do path <- deref (d_full_path d); make_file force info aux fuel path (d_size d)
     else if d_file_type d =? EXT4_FT_DIR then
       build ((fun p => p ++ [slash]) <$> d_full_path d) (d_path d ++ [slash]) inode file
     else if d_file_type d =? EXT4_FT_SYMLINK then make_link force info aux fuel (d_link d)
     else error force;;; mret' 0);
  store_inode d entry_inode;;;
  do ret <- inode_set_permissions info aux entry_inode (d_mode d) (d_uid d) (d_gid d) (d_mtime d);
  (if negb (ret =? 0) then error force else mret' tt);;;
  do ret <- inode_set_selinux force info aux sparse_result entry_inode (d_secon d);
  (if negb (ret =? 0) then error force else mret' tt);;;
  do ret <- inode_set_capabilities force info aux sparse_result entry_inode (d_capabilities d);
  (if negb (ret =? 0) then error force else mret' tt).
Fixpoint make_entries (build : option (list Z) -> list Z -> Z -> host_file -> M world Z)
    (inode : Z) (ds : list (dentry * host_file)) : M world unit :=
  match ds with
  | [] => mret' tt
  | (d, file) :: ds => make_entry build inode d file;;; make_entries build inode ds
  end.

(** [static u32 build_directory_structure(full_path, dir_path, u32 dir_inode,
    fs_config_func, sehnd, verbose)]; [n] bounds the depth of the tree. *)
Fixpoint build_directory_structure (n : nat) (full_path : option (list Z)) (dir_path : list Z)
    (dir_inode : Z) (file : host_file) : M world Z :=
  match n with
  | O => fun _ => NoFuel
  | S n =>
      let scanned := match full_path with
                     | None => Some []
                     | Some _ => (fun l => filter (fun e => filter_dot e.1 = true) l) <$> h_entries file
                     end in
      match scanned with
      | None => error force;;; mret' EXT4_ALLOCATE_FAILED
      | Some namelist =>
          let needs_lost_and_found :=
            (dir_inode =? 0) && negb (bool_decide (str "lost+found" ∈ namelist.*1)) in
          do ds <- scan_entries (default [] full_path) dir_path namelist;
          do ds <-
            (if needs_lost_and_found then
               let path := dir_path ++ str "lost+found" in
               do secon <- lookup_label path S_IRWXU;
               mret' ((mk_dentry path None (str "lost+found") [] 0 EXT4_FT_DIR S_IRWXU 0 0 None 0
                         secon 0, no_host) :: ds)
             else mret' ds);
          let dirs := Z.of_nat (length (filter (fun d => d_file_type d = EXT4_FT_DIR) ds.*1)) in
          do (inode, dentries) <- make_directory force info aux fuel dir_inode ds.*1 dirs;
          make_entries (build_directory_structure n) inode (zip dentries ds.*2);;;
          mret' inode
      end
  end.
End build.

(** ** [make_ext4fs_internal] *)

Definition set_fs_len (v : Z) (i : fs_info) : fs_info :=
  mk_fs_info v (block_size i) (blocks_per_group i) (inodes_per_group i) (inode_size i) (inodes i) (journal_blocks i) (feat_ro_compat i) (feat_compat i) (feat_incompat i) (bg_desc_reserve_blocks i) (fs_label i) (no_journal i).
Definition set_block_size (v : Z) (i : fs_info) : fs_info :=
  mk_fs_info (fs_len i) v (blocks_per_group i) (inodes_per_group i) (inode_size i) (inodes i) (journal_blocks i) (feat_ro_compat i) (feat_compat i) (feat_incompat i) (bg_desc_reserve_blocks i) (fs_label i) (no_journal i).
Definition set_journal (blocks compat : Z) (i : fs_info) : fs_info :=
  mk_fs_info (fs_len i) (block_size i) (blocks_per_group i) (inodes_per_group i) (inode_size i) (inodes i) blocks (feat_ro_compat i) compat (feat_incompat i) (bg_desc_reserve_blocks i) (fs_label i) (no_journal i).
Definition set_blocks_per_group (v : Z) (i : fs_info) : fs_info :=
  mk_fs_info (fs_len i) (block_size i) v (inodes_per_group i) (inode_size i) (inodes i) (journal_blocks i) (feat_ro_compat i) (feat_compat i) (feat_incompat i) (bg_desc_reserve_blocks i) (fs_label i) (no_journal i).
Definition set_inodes (v : Z) (i : fs_info) : fs_info :=
  mk_fs_info (fs_len i) (block_size i) (blocks_per_group i) (inodes_per_group i) (inode_size i) v (journal_blocks i) (feat_ro_compat i) (feat_compat i) (feat_incompat i) (bg_desc_reserve_blocks i) (fs_label i) (no_journal i).
Definition set_inode_size (v : Z) (i : fs_info) : fs_info :=
  mk_fs_info (fs_len i) (block_size i) (blocks_per_group i) (inodes_per_group i) v (inodes i) (journal_blocks i) (feat_ro_compat i) (feat_compat i) (feat_incompat i) (bg_desc_reserve_blocks i) (fs_label i) (no_journal i).
Definition set_inodes_per_group (per_group total : Z) (i : fs_info) : fs_info :=
  mk_fs_info (fs_len i) (block_size i) (blocks_per_group i) per_group (inode_size i) total (journal_blocks i) (feat_ro_compat i) (feat_compat i) (feat_incompat i) (bg_desc_reserve_blocks i) (fs_label i) (no_journal i).
Definition set_features (ro compat incompat : Z) (i : fs_info) : fs_info :=
  mk_fs_info (fs_len i) (block_size i) (blocks_per_group i) (inodes_per_group i) (inode_size i) (inodes i) (journal_blocks i) ro compat incompat (bg_desc_reserve_blocks i) (fs_label i) (no_journal i).
Definition set_reserve_blocks (v : Z) (i : fs_info) : fs_info :=
  mk_fs_info (fs_len i) (block_size i) (blocks_per_group i) (inodes_per_group i) (inode_size i) (inodes i) (journal_blocks i) (feat_ro_compat i) (feat_compat i) (feat_incompat i) v (fs_label i) (no_journal i).

(** The parameters an image is made with: the defaults for what was left at zero.
    [None] is a division by zero. *)
Definition fill_in_info (i : fs_info) : option fs_info :=
  let i := if block_size i <=? 0 then set_block_size compute_block_size i else i in
  let i := set_fs_len (s64 (Z.land (u64 (fs_len i)) (u64 (Z.lnot (block_size i - 1))))) i in
  let i := if journal_blocks i =? 0
           then set_journal (compute_journal_blocks i) (feat_compat i) i else i in
  let i := if no_journal i =? 0
           then set_journal (journal_blocks i) EXT4_FEATURE_COMPAT_HAS_JOURNAL i
           else set_journal 0 (feat_compat i) i in
  let i := if blocks_per_group i <=? 0 then set_blocks_per_group (compute_blocks_per_group i) i else i in
  let i := if inodes i <=? 0 then set_inodes (compute_inodes i) i else i in
  let i := if inode_size i <=? 0 then set_inode_size 256 i else i in
  '(per_group, total) ← compute_inodes_per_group i;
  let i := set_inodes_per_group per_group total i in
  let i := set_features
             (Z.lor (feat_ro_compat i)
                (Z.lor (Z.lor EXT4_FEATURE_RO_COMPAT_SPARSE_SUPER EXT4_FEATURE_RO_COMPAT_LARGE_FILE)
                       EXT4_FEATURE_RO_COMPAT_GDT_CSUM))
             (Z.lor (feat_compat i)
                (Z.lor EXT4_FEATURE_COMPAT_RESIZE_INODE EXT4_FEATURE_COMPAT_EXT_ATTR))
             (Z.lor (feat_incompat i)
                (Z.lor EXT4_FEATURE_INCOMPAT_EXTENTS EXT4_FEATURE_INCOMPAT_FILETYPE)) i in
  reserve ← compute_bg_desc_reserve_blocks i;
  Some (set_reserve_blocks reserve i).

Section make.
Context (force : bool) (fuel : nat) (sparse_result : Z) (ctx : SHA1_CTX).
Context (fs_config_func : config_fun) (sehnd : label_fun) (depth : nat).

(** The image behind the parameters, up to its writing. [directory] is its path
    and the host's tree. *)
Definition make_image (info : fs_info) (mountpoint : list Z) (directory : option (list Z * host_file))
  : M world unit :=
  do (aux, sb, bg_desc) <- create_fs_aux_info info;
  block_allocator_init force info aux;;;
  ext4_fill_in_sb info aux sb bg_desc ctx;;;
  do first <- reserve_inodes 0 10;
  (if first =? EXT4_ALLOCATE_FAILED then error force else mret' tt);;;
  (if negb (Z.land (feat_compat info) EXT4_FEATURE_COMPAT_HAS_JOURNAL =? 0)
   then ext4_create_journal_inode force info aux fuel sb else mret' tt);;;
  (if negb (Z.land (feat_compat info) EXT4_FEATURE_COMPAT_RESIZE_INODE =? 0)
   then ext4_create_resize_inode force info aux fuel else mret' tt);;;
  do root_inode_num <-
    match directory with
    | Some (path, tree) =>
        build_directory_structure force info aux fuel sparse_result fs_config_func sehnd depth
          (Some path) mountpoint 0 tree
    | None => build_default_directory_structure force info aux fuel
    end;
  let root_mode := Z.lor S_IRWXU (Z.lor (Z.lor S_IRGRP S_IXGRP) (Z.lor S_IROTH S_IXOTH)) in
  do _ <- inode_set_permissions info aux root_inode_num root_mode 0 0 0;
  do secontext <- lookup_label force sehnd mountpoint S_IFDIR;
  do _ <- inode_set_selinux force info aux sparse_result root_inode_num secontext;
  ext4_update_free aux sb bg_desc;;;
  ext4_queue_sb info sb.

(** [int make_ext4fs_internal(fd, directory, mountpoint, ...)]: the exit status;
    [longjmp] comes back to its [setjmp]. *)
Definition EXIT_FAILURE : Z := 1.
Definition make_ext4fs_internal (info : fs_info) (st : file_stat)
    (_directory : option (list Z * host_file)) (_mountpoint : option (list Z)) : M world Z := fun w =>
  let body : M world Z :=
    do mountpoint <- match _mountpoint with
                     | None => mret' []
                     | Some m => deref (canonicalize_abs_slashes m)
                     end;
    do directory <- match _directory with
                    | None => mret' None
                    | Some (d, tree) => do d <- deref (canonicalize_rel_slashes d); mret' (Some (d, tree))
                    end;
    let info := if fs_len info <=? 0 then set_fs_len (s64 (get_file_size info st)) info else info in
    if fs_len info <=? 0 then mret' EXIT_FAILURE
    else
      do info <- deref (fill_in_info info);
      make_image info mountpoint directory;;;
      mret' 0 in
  match body w with
  | Longjmp w => Done EXIT_FAILURE w
  | r => r
  end.
End make.

(** ** Entry points *)

(** [void reset_ext4fs_info()]: the globals as zero bytes. The sparse file is
    zeroed before it is tested, so it is never destroyed. *)
Definition zero_info : fs_info := mk_fs_info 0 0 0 0 0 0 0 0 0 0 0 [] 0.
Definition empty_world : world := mk_world [] (mk_rheap ∅ 0) [] [] [].
Definition reset_ext4fs_info : fs_info * world := (zero_info, empty_world).

(** [int make_ext4fs_sparse_fd(fd, len, mountpoint, sehnd)] and [int
    make_ext4fs(filename, len, mountpoint, sehnd)]: no directory, no
    [fs_config_func]. [opened] tells whether the file could be opened. *)
Section entry.
Context (force : bool) (fuel : nat) (sparse_result : Z) (ctx : SHA1_CTX) (sehnd : label_fun).

Definition make_ext4fs_sparse_fd (len : Z) (mountpoint : option (list Z)) (st : file_stat)
  : outcome world Z :=
  let (info, w) := reset_ext4fs_info in
  make_ext4fs_internal force fuel sparse_result ctx None sehnd 0 (set_fs_len len info) st None mountpoint w.
Definition make_ext4fs (opened : bool) (len : Z) (mountpoint : option (list Z)) (st : file_stat)
  : outcome world Z :=
  let (info, w) := reset_ext4fs_info in
  if opened then
    make_ext4fs_internal force fuel sparse_result ctx None sehnd 0 (set_fs_len len info) st None mountpoint w
  else (error force;;; mret' EXIT_FAILURE) w.
End entry.

(** ** Wiping (wipe.c) *)

(** [int wipe_block_device(int fd, s64 len)]; the two [ioctl] answers. *)
Definition wipe_block_device (secdiscard discard : list Z -> Z) (len : Z) : Z :=
  if secdiscard [0; u64 len] <? 0 then
    if discard [0; u64 len] <? 0 then 1 else 0
  else 0.

(** ** The command (make_ext4fs_main.c) *)

Record main_options := mk_options {
  mo_info : fs_info;
  mo_force : bool;
  mo_mountpoint : option (list Z);
  mo_wipe : bool;
  mo_gzip : bool;
  mo_sparse : bool;
  mo_crc : bool;
  mo_sehnd : label_fun
}.
Definition set_label (v : list Z) (i : fs_info) : fs_info :=
  mk_fs_info (fs_len i) (block_size i) (blocks_per_group i) (inodes_per_group i) (inode_size i) (inodes i) (journal_blocks i) (feat_ro_compat i) (feat_compat i) (feat_incompat i) (bg_desc_reserve_blocks i) v (no_journal i).
Definition set_no_journal (v : Z) (i : fs_info) : fs_info :=
  mk_fs_info (fs_len i) (block_size i) (blocks_per_group i) (inodes_per_group i) (inode_size i) (inodes i) (journal_blocks i) (feat_ro_compat i) (feat_compat i) (feat_incompat i) (bg_desc_reserve_blocks i) (fs_label i) v.
Definition on_info (f : fs_info -> fs_info) (o : main_options) : main_options :=
  mk_options (f (mo_info o)) (mo_force o) (mo_mountpoint o) (mo_wipe o) (mo_gzip o) (mo_sparse o) (mo_crc o) (mo_sehnd o).

Section main.
(** Built for the host ([HOST]) and for Android, with the function [fs_config], or not;
    [selabel_open] and [selinux_android_file_context_handle] give no handle when they
    fail. *)
Context (on_host : bool) (fs_config_func : config_fun) (selabel_open : list Z -> label_fun) (context_handle : label_fun).
Context (fuel : nat) (sparse_result : Z) (ctx : SHA1_CTX) (depth : nat).
(** The host: a directory's tree, and whether and as what a file is opened. *)
Context (host : list Z -> host_file) (open_output : list Z -> option file_stat) (stdout : file_stat).

Definition is_some {A} (o : option A) : bool := match o with Some _ => true | None => false end.

(** An option that [getopt] returns, with its argument; [None] is [exit]. *)
Definition main_option (o : main_options) (opt : ascii) (optarg : list Z) : option main_options :=
  let '(mk_options info force mountpoint wipe gzip sparse crc sehnd) := o in
  match opt with
  | "l"%char => Some (on_info (set_fs_len (s64 (parse_num optarg))) o)
  | "j"%char => Some (on_info (fun i => set_journal (u32 (parse_num optarg)) (feat_compat i) i) o)
  | "b"%char => Some (on_info (set_block_size (u32 (parse_num optarg))) o)
  | "g"%char => Some (on_info (set_blocks_per_group (u32 (parse_num optarg))) o)
  | "i"%char => Some (on_info (set_inodes (u32 (parse_num optarg))) o)
  | "I"%char => Some (on_info (set_inode_size (u32 (parse_num optarg))) o)
  | "L"%char => Some (on_info (set_label optarg) o)
  | "f"%char => Some (mk_options info true mountpoint wipe gzip sparse crc sehnd)
  | "a"%char =>
      if is_some fs_config_func then Some (mk_options info force (Some optarg) wipe gzip sparse crc sehnd) else None
  | "w"%char => Some (mk_options info force mountpoint true gzip sparse crc sehnd)
  | "z"%char => Some (mk_options info force mountpoint wipe true sparse crc sehnd)
  | "J"%char => Some (on_info (set_no_journal 1) o)
  | "c"%char => Some (mk_options info force mountpoint wipe gzip sparse true sehnd)
  | "s"%char => Some (mk_options info force mountpoint wipe gzip true crc sehnd)
  | "t"%char | "v"%char => Some o
  | "S"%char =>
      if is_some (selabel_open optarg) then Some (mk_options info force mountpoint wipe gzip sparse crc (selabel_open optarg)) else None
  | _ => None
  end.
Fixpoint main_options_loop (o : main_options) (opts : list (ascii * list Z)) : option main_options :=
  match opts with
  | [] => Some o
  | (opt, optarg) :: opts => o ← main_option o opt optarg; main_options_loop o opts
  end.
(** The checks after the options: the file and the directory. *)
Definition main_arguments (o : main_options) (args : list (list Z)) : option (main_options * list Z * option (list Z)) :=
  let '(mk_options info force mountpoint wipe gzip sparse crc sehnd) := o in
  let unlabelled := negb on_host && negb (is_some sehnd) && is_some mountpoint in
  if unlabelled && negb (is_some context_handle) then None
  else
    let o := mk_options info force mountpoint wipe gzip sparse crc (if unlabelled then context_handle else sehnd) in
    if (wipe && sparse) || (wipe && gzip) then None
    else
      match args with
      | [filename] => Some (o, filename, None)
      | [filename; directory] => Some (o, filename, Some directory)
      | _ => None
      end.
(** [int main(int argc, char **argv)], from what [getopt] returns of the arguments. *)
Definition make_ext4fs_main (info : fs_info) (opts : list (ascii * list Z)) (args : list (list Z)) : M world Z :=
  match o ← main_options_loop (mk_options info false None false false false false None) opts; main_arguments o args with
  | None => mret' EXIT_FAILURE
  | Some (o, filename, directory) =>
      match (if bool_decide (filename = str "-"%string) then Some stdout else open_output filename) with
      | None => mret' EXIT_FAILURE
      | Some st =>
          make_ext4fs_internal (mo_force o) fuel sparse_result ctx (if is_some (mo_mountpoint o) then fs_config_func else None)
            (mo_sehnd o) depth (mo_info o) st ((fun d => (d, host d)) <$> directory) (mo_mountpoint o)
      end
  end.
End main.
