(* ===== verification/Fixup.v ===== *)
(** * Renumbering inodes in place (ext4fixup.c, ext4fixup_main.c)

    The tool that rounds an image's inodes per group up to whole blocks: it marks
    the inode numbers in every directory, rewrites them, then rewrites the
    superblocks, with its progress kept in the first bytes of the device. The
    state is the device with its file position, the buffers of [aux_info], the two
    globals of the dry run and the debugging counter. A failed [malloc] and the
    messages are left out. *)

From Stdlib Require Import Ascii String.
From S2P Require Import Prelude Scanf Bytes Layout Crc16 Sha1 Uuid Ext4Info Inode Bitmap BlockGroup Regions Alloc Extent Indirect Contents Super MakeExt4fs.

(** ** State and file operations *)

Record fixup := mk_fixup {
  fx_world : world;
  fx_dev : list Z;
  fx_pos : Z;
  fx_no_write : bool;
  fx_no_write_state : Z;
  fx_count : Z
}.
Definition set_fx_world v s := mk_fixup v (fx_dev s) (fx_pos s) (fx_no_write s) (fx_no_write_state s) (fx_count s).
Definition set_fx_dev d p s := mk_fixup (fx_world s) d p (fx_no_write s) (fx_no_write_state s) (fx_count s).
Definition set_fx_no_write v s := mk_fixup (fx_world s) (fx_dev s) (fx_pos s) v (fx_no_write_state s) (fx_count s).
Definition set_fx_no_write_state v s := mk_fixup (fx_world s) (fx_dev s) (fx_pos s) (fx_no_write s) v (fx_count s).
Definition set_fx_count v s := mk_fixup (fx_world s) (fx_dev s) (fx_pos s) (fx_no_write s) (fx_no_write_state s) v.

Definition in_world {A} (m : M world A) : M fixup A := zoom (fun s => Some (fx_world s)) set_fx_world m.

(** [lseek64(fd, off, SEEK_SET)] fails on a negative offset; [read] stops at the
    end of the device, and so does [write]. *)
Definition lseek64 (off : Z) : M fixup Z := fun s =>
  if off <? 0 then Done (-1) s else Done off (set_fx_dev (fx_dev s) off s).
Definition read_dev (n : Z) : M fixup (list Z) := fun s =>
  let bs := take (Z.to_nat n) (drop (Z.to_nat (fx_pos s)) (fx_dev s)) in
  Done bs (set_fx_dev (fx_dev s) (fx_pos s + Z.of_nat (length bs)) s).
Definition write_dev (bs : list Z) : M fixup Z := fun s =>
  let room := Z.max 0 (Z.of_nat (length (fx_dev s)) - fx_pos s) in
  let bs := take (Z.to_nat room) bs in
  match write_bytes (fx_dev s) (Z.min (fx_pos s) (Z.of_nat (length (fx_dev s)))) bs with
  | Some d => Done (Z.of_nat (length bs)) (set_fx_dev d (fx_pos s + Z.of_nat (length bs)) s)
  | None => Stuck
  end.
Definition check {S} (ok : bool) : M S unit := if ok then mret' tt else longjmp.
Definition length_is (bs : list Z) (n : Z) : bool := Z.of_nat (length bs) =? n.

(** Members of a structure in memory. *)
Definition raw_get {S} (b : list Z) (base : Z) (f : field) : M S Z := deref (load f.2 b (base + f.1)).
Definition raw_set {S} (b : list Z) (base : Z) (f : field) (v : Z) : M S (list Z) :=
  deref (store f.2 b (base + f.1) v).

Definition INODE_BLOCK_SIZE : Z := 512.
Definition MAX_EXT4_BLOCK_SIZE : Z := 4096.
Definition SANITY_CHECK_PASS : Z := 1.
Definition MARK_INODE_NUMS : Z := 2.
Definition UPDATE_INODE_NUMS : Z := 3.
Definition MAGIC_STATE_MARKING_INUMS : Z := 0x7000151515565512.
Definition MAGIC_STATE_UPDATING_INUMS : Z := 0x6121131211735123.
Definition MAGIC_STATE_UPDATING_SB : Z := 0x15e1715151558477.
Definition STATE_UNSET : Z := 0.
Definition STATE_MARKING_INUMS : Z := 1.
Definition STATE_UPDATING_INUMS : Z := 2.
Definition STATE_UPDATING_SB : Z := 3.
Definition INUM_MARK : Z := 0x80000000.
Definition INUM_BITS : Z := 0x7fffffff.
Definition EXT4_FT_UNKNOWN : Z := 0.

(** The members of [struct ext4_inode] that are read, and [S_ISDIR]. *)
Definition in_mode : field := (0, 2%nat).
Definition in_blocks_lo : field := (28, 4%nat).
Definition in_flags : field := (32, 4%nat).
Definition in_block : Z := 40.
Definition S_ISDIR (mode : Z) : bool := Z.land mode S_IFMT =? S_IFDIR.

(** [if (no_write) return;] before what writes. *)
Definition unless_no_write (m : M fixup unit) : M fixup unit :=
  do s <- get;
  if fx_no_write s then mret' tt else m.

(** ** The superblock and the state of the tool *)

(** [static void read_sb(fd, sb)] and [static void write_sb(fd, offset, sb)]. *)
Definition read_sb : M fixup (list Z) :=
  do ret <- lseek64 1024;
  check (0 <=? ret);;;
  do sb <- read_dev sizeof_super_block;
  check (length_is sb sizeof_super_block);;;
  mret' sb.
Definition write_sb (offset : Z) (sb : list Z) : M fixup unit :=
  unless_no_write (
    do ret <- lseek64 offset;
    check (0 <=? ret);;;
    do n <- write_dev sb;
    check (n =? sizeof_super_block)).

(** [static int get_fs_fixup_state(int fd)]. *)
Definition state_of_magic (magic : Z) : Z :=
  if magic =? MAGIC_STATE_MARKING_INUMS then STATE_MARKING_INUMS
  else if magic =? MAGIC_STATE_UPDATING_INUMS then STATE_UPDATING_INUMS
  else if magic =? MAGIC_STATE_UPDATING_SB then STATE_UPDATING_SB
  else STATE_UNSET.
Definition get_fs_fixup_state : M fixup Z :=
  do s <- get;
  if fx_no_write s then mret' (fx_no_write_state s)
  else
    do _ <- lseek64 0;
    do magic <- read_dev 8;
    check (length_is magic 8);;;
    mret' (state_of_magic (le_value magic)).

(** [static int set_fs_fixup_state(int fd, int state)]. *)
Definition magic_of_state (state : Z) : Z :=
  if state =? STATE_MARKING_INUMS then MAGIC_STATE_MARKING_INUMS
  else if state =? STATE_UPDATING_INUMS then MAGIC_STATE_UPDATING_INUMS
  else if state =? STATE_UPDATING_SB then MAGIC_STATE_UPDATING_SB
  else 0.
Definition set_fs_fixup_state (state : Z) : M fixup unit :=
  do s <- get;
  if fx_no_write s then modify (set_fx_no_write_state state)
  else
    let magic := magic_of_state state in
    do _ <- lseek64 0;
    do n <- write_dev (le_bytes 8 magic);
    check (n =? 8);;;
    do sb <- read_sb;
    do size <- raw_get sb 0 s_desc_size;
    do sb <- raw_set sb 0 s_desc_size
      (if negb (magic =? 0) then Z.lor size 1 else Z.land size (Z.lnot 1));
    write_sb 1024 sb.

Section parse.
Context (force : bool).

(** [static int read_ext(int fd)]: the globals it sets. *)
Definition read_ext (info : fs_info) : M fixup (fs_info * fs_aux_info * nat) :=
  do sb <- read_sb;
  do src <- in_world (calloc sizeof_super_block);
  in_world (copy_to_buf src 0 sb);;;
  do r <- in_world (ext4_parse_sb force info src);
  let '(info, aux, _, bg_desc) := r in
  check (Z.land (feat_incompat info) EXT4_FEATURE_INCOMPAT_RECOVER =? 0);;;
  do size <- raw_get sb 0 s_desc_size;
  let size := Z.land size (Z.lnot 1) in
  check ((size =? sizeof_group_desc) || (size =? 0));;;
  do ret <- lseek64 (fs_len info);
  check (0 <=? ret);;;
  do ret <- lseek64 (u32 (block_size info * u32 (first_data_block aux + 1)));
  check (0 <=? ret);;;
  do desc <- read_dev (u32 (block_size info * bg_desc_blocks aux));
  check (length_is desc (s32 (block_size info) * s32 (bg_desc_blocks aux)));;;
  in_world (copy_to_buf bg_desc 0 desc);;;
  mret' (info, aux, bg_desc).
End parse.

Section fixup.
Context (info : fs_info) (aux : fs_aux_info) (bg_desc : nat) (new_inodes_per_group : Z).
Context (bail_phase bail_loc bail_count : Z).

(** [static int compute_new_inum(unsigned int old_inum)]. *)
Definition compute_new_inum (old_inum : Z) : Z :=
  let group := u32 (old_inum - 1) / inodes_per_group info in
  let offset := u32 (old_inum - 1) mod inodes_per_group info in
  s32 (u32 (group * new_inodes_per_group + offset + 1)).

(** ** Blocks and inodes *)

(** [static int read_inode(fd, inum, inode)]. *)
Definition read_inode (inum : Z) : M fixup (list Z) :=
  if inodes_per_group info =? 0 then stuck
  else
    let bg_num := u32 (inum - 1) / inodes_per_group info in
    let bg_offset := u32 (inum - 1) mod inodes_per_group info in
    do table <- in_world (member bg_desc (bg_num * sizeof_group_desc) bg_inode_table);
    do ret <- lseek64 (s64 (u64 (table * block_size info + u32 (bg_offset * inode_size info))));
    check (0 <=? ret);;;
    do inode <- read_dev sizeof_inode;
    check (length_is inode sizeof_inode);;;
    mret' inode.

(** [static int read_block(fd, block_num, block)]: the result of the seek is
    dropped by a comma. [static int write_block(fd, block_num, block)]. *)
Definition read_block (block_num : Z) : M fixup (list Z) :=
  do _ <- lseek64 (s64 (u64 (block_num * block_size info)));
  do block <- read_dev (block_size info);
  check (length_is block (block_size info));;;
  mret' block.
Definition write_block (block_num : Z) (block : list Z) : M fixup unit :=
  unless_no_write (
    do ret <- lseek64 (s64 (u64 (block_num * block_size info)));
    check (0 <=? ret);;;
    do n <- write_dev block;
    check (n =? block_size info)).

(** ** Superblocks and descriptors *)

(** [static int bitmap_get_bit(u8 *bitmap, u32 bit)]. *)
Definition bitmap_get_bit (bitmap : list Z) (bit : Z) : option bool :=
  byte ← zget bitmap (bit / 8);
  Some (negb (Z.land byte (Z.shiftl 1 (bit mod 8)) =? 0)).

(** [read_block] into a local array of [MAX_EXT4_BLOCK_SIZE] bytes. *)
Definition read_local_block (block_num : Z) : M fixup (list Z) :=
  if MAX_EXT4_BLOCK_SIZE <? block_size info then stuck else read_block block_num.

(** [static void check_inode_bitmap(fd, bg_num)] and its loop over [i]. *)
Fixpoint clear_bits (n : nat) (block : list Z) (i : Z) (updated : bool) : option (list Z * bool) :=
  match n with
  | O => Some (block, updated)
  | S n =>
      b ← bitmap_get_bit block i;
      if b : bool then block ← bitmap_clear_bit block i; clear_bits n block (i + 1) true
      else clear_bits n block (i + 1) updated
  end.
Definition check_inode_bitmap (bg_num : Z) : M fixup unit :=
  do num <- in_world (member bg_desc (bg_num * sizeof_group_desc) bg_inode_bitmap);
  do block <- read_local_block num;
  do (block, updated) <- deref (clear_bits (Z.to_nat (new_inodes_per_group - inodes_per_group info))
                                  block (inodes_per_group info) false);
  if updated : bool then write_block num block else mret' tt.

(** The two loops of [update_superblocks_and_bg_desc]. *)
Fixpoint update_descs (gs : list Z) (state delta : Z) : M fixup unit :=
  match gs with
  | [] => mret' tt
  | i :: gs =>
      let gd := i * sizeof_group_desc in
      (if state =? STATE_UPDATING_SB then
         do n <- in_world (member bg_desc gd bg_free_inodes_count);
         in_world (assign bg_desc gd bg_free_inodes_count (n + delta))
       else mret' tt);;;
      check_inode_bitmap i;;;
      update_descs gs state delta
  end.
Definition write_group_copy (i : Z) (sb : list Z) : M fixup (list Z) :=
  let sb_offset := if i =? 0 then 1024 else 0 in
  let base := u64 (u64 (i * blocks_per_group info) * block_size info) in
  do sb <- raw_set sb 0 s_block_group_nr i;
  do size <- raw_get sb 0 s_desc_size;
  do sb <- (if negb (i =? 0) then raw_set sb 0 s_desc_size (Z.land size (Z.lnot 1)) else mret' sb);
  write_sb (s64 (u64 (base + sb_offset))) sb;;;
  do ret <- lseek64 (s64 (u64 (base + u32 (block_size info * u32 (first_data_block aux + 1)))));
  check (0 <=? ret);;;
  unless_no_write (
     do desc <- in_world (copy_from_buf bg_desc 0 (u32 (block_size info * bg_desc_blocks aux)));
     do n <- write_dev desc;
     check (n =? s32 (block_size info) * s32 (bg_desc_blocks aux)));;;
  mret' sb.
Fixpoint write_copies (gs : list Z) (sb : list Z) : M fixup unit :=
  match gs with
  | [] => mret' tt
  | i :: gs =>
      do sb <- (if ext4_bg_has_super_block info i then write_group_copy i sb else mret' sb);
      check (negb ((bail_phase =? 4) && (bail_count =? i)));;;
      write_copies gs sb
  end.

(** [static int update_superblocks_and_bg_desc(fd, state)]. *)
Definition update_superblocks_and_bg_desc (state : Z) : M fixup unit :=
  do sb <- read_sb;
  do ipg <- raw_get sb 0 s_inodes_per_group;
  do inodes <- raw_get sb 0 s_inodes_count;
  do free <- raw_get sb 0 s_free_inodes_count;
  if (blocks_per_group info =? 0) || (inode_size info =? 0) || (block_size info / inode_size info =? 0)
  then stuck
  else
    let num_block_groups :=
      u32 (u64 (len_blocks aux + blocks_per_group info - 1) / blocks_per_group info) in
    let delta := u32 (new_inodes_per_group - ipg) in
    let total_new_inodes := u32 (num_block_groups * delta) in
    update_descs (seqZ 0 num_block_groups) state delta;;;
    check (u32 (inodes + total_new_inodes) =? u32 (new_inodes_per_group * num_block_groups));;;
    check (u32 new_inodes_per_group mod (block_size info / inode_size info) =? 0);;;
    do sb <- raw_set sb 0 s_inodes_count (inodes + total_new_inodes);
    do sb <- raw_set sb 0 s_free_inodes_count (free + total_new_inodes);
    do sb <- raw_set sb 0 s_inodes_per_group new_inodes_per_group;
    write_copies (seqZ 0 (groups aux)) sb.

(** ** The blocks of a directory

    [block_list] is a [malloc]ed array: [None] is an element not yet written. *)

Definition blist : Type := list (option Z).
Definition bl_set (l : blist) (i v : Z) : M fixup blist := deref (zset l i (Some v)).

(** [static int get_direct_blocks(inode, block_list, count)]: whether there are
    more blocks. *)
Definition inode_blocks (inode : list Z) : M fixup Z :=
  do n <- raw_get inode 0 in_blocks_lo;
  let sectors_per_block := block_size info / INODE_BLOCK_SIZE in
  if sectors_per_block =? 0 then stuck else mret' (n / sectors_per_block).
Fixpoint copy_pointers (n : nat) (src : list Z) (base i : Z) (l : blist) : M fixup blist :=
  match n with
  | O => mret' l
  | S n =>
      do b <- raw_get src (base + 4 * i) (0, 4%nat);
      do l <- bl_set l i b;
      copy_pointers n src base (i + 1) l
  end.
Definition get_direct_blocks (inode : list Z) (l : blist) : M fixup (blist * bool) :=
  do blocks <- inode_blocks inode;
  do l <- copy_pointers (Z.to_nat (Z.min blocks EXT4_NDIR_BLOCKS)) inode in_block 0 l;
  mret' (l, EXT4_NDIR_BLOCKS <? blocks).

(** [static int get_indirect_blocks(fd, inode, block_list, count)]. *)
Definition get_indirect_blocks (inode : list Z) (l : blist) : M fixup blist :=
  do ind <- raw_get inode (in_block + 4 * EXT4_NDIR_BLOCKS) (0, 4%nat);
  do indirect_block <- read_block ind;
  do blocks <- inode_blocks inode;
  copy_pointers (Z.to_nat (blocks - EXT4_NDIR_BLOCKS)) indirect_block (- 4 * EXT4_NDIR_BLOCKS)
    EXT4_NDIR_BLOCKS l.
(** [static int get_block_list_indirect(fd, inode, block_list)]. *)
Definition get_block_list_indirect (inode : list Z) (l : blist) : M fixup blist :=
  do (l, more) <- get_direct_blocks inode l;
  if more : bool then get_indirect_blocks inode l else mret' l.

(** The members of the extent structures, at an offset. *)
Definition eh_magic : field := (0, 2%nat).
Definition eh_entries : field := (2, 2%nat).
Definition eh_depth : field := (6, 2%nat).
Definition ee_block : field := (0, 4%nat).
Definition ee_len : field := (4, 2%nat).
Definition ee_start_hi : field := (6, 2%nat).
Definition ee_start_lo : field := (8, 4%nat).
Definition ei_leaf_lo : field := (4, 4%nat).
Definition ei_leaf_hi : field := (8, 2%nat).

(** [static int get_extent_ents(ext_hdr, block_list)] and its loops. *)
Fixpoint extent_blocks (n : nat) (first block j : Z) (l : blist) : M fixup blist :=
  match n with
  | O => mret' l
  | S n =>
      do l <- bl_set l (u32 (first + j)) (block + j);
      extent_blocks n first block (j + 1) l
  end.
Fixpoint extent_ents (n : nat) (hdr : list Z) (base extent : Z) (l : blist) : M fixup blist :=
  match n with
  | O => mret' l
  | S n =>
      do hi <- raw_get hdr (base + extent) ee_start_hi;
      do lo <- raw_get hdr (base + extent) ee_start_lo;
      do len <- raw_get hdr (base + extent) ee_len;
      do first <- raw_get hdr (base + extent) ee_block;
      do l <- extent_blocks (Z.to_nat len) first (Z.lor (Z.shiftl hi 32) lo) 0 l;
      extent_ents n hdr base (extent + sizeof_extent) l
  end.
Definition get_extent_ents (hdr : list Z) (base : Z) (l : blist) : M fixup blist :=
  do depth <- raw_get hdr base eh_depth;
  check (depth =? 0);;;
  do entries <- raw_get hdr base eh_entries;
  extent_ents (Z.to_nat entries) hdr base sizeof_extent_header l.

(** [static int get_extent_idx(fd, ext_hdr, block_list)]: the loop never moves
    [extent_idx], so each turn reads the first leaf. [n] bounds the depth. *)
Fixpoint get_extent_idx (n : nat) (hdr : list Z) (base : Z) (l : blist) : M fixup blist :=
  match n with
  | O => fun _ => NoFuel
  | S n =>
      do depth <- raw_get hdr base eh_depth;
      check (negb (depth =? 0));;;
      do entries <- raw_get hdr base eh_entries;
      let extent_idx := base + sizeof_extent_header in
      let turn l :=
        do hi <- raw_get hdr extent_idx ei_leaf_hi;
        do lo <- raw_get hdr extent_idx ei_leaf_lo;
        do block <- read_local_block (Z.lor (Z.shiftl hi 32) lo);
        do depth <- raw_get block 0 eh_depth;
        if depth =? 0 then get_extent_ents block 0 l else get_extent_idx n block 0 l in
      Nat.iter (Z.to_nat entries) (fun m => mbind' m turn) (mret' l)
  end.

(** [static int get_block_list_extents(fd, inode, block_list)]. *)
Definition get_block_list_extents (n : nat) (inode : list Z) (l : blist) : M fixup blist :=
  do magic <- raw_get inode in_block eh_magic;
  check (magic =? EXT4_EXT_MAGIC);;;
  do depth <- raw_get inode in_block eh_depth;
  if depth =? 0 then get_extent_ents inode in_block l else get_extent_idx n inode in_block l.

(** ** The walk over the directories *)

(** [static int is_entry_dir(fd, dirp, pass)]. *)
Definition is_entry_dir (inum file_type pass : Z) : M fixup bool :=
  if file_type =? EXT4_FT_DIR then mret' true
  else if file_type =? EXT4_FT_UNKNOWN then
    if (pass =? UPDATE_INODE_NUMS) && (Z.land inum INUM_MARK =? 0) then mret' false
    else
      do inode <- read_inode (Z.land inum INUM_BITS);
      do mode <- raw_get inode 0 in_mode;
      mret' (S_ISDIR mode)
  else mret' false.

(** [strncpy(name, dirp->name, dirp->name_len)] and the terminator. *)
Definition entry_name (dirbuf : list Z) (off name_len : Z) : option (list Z) :=
  let avail := take (Z.to_nat name_len) (drop (Z.to_nat off) dirbuf) in
  if bool_decide (0 ∈ avail) || length_is avail name_len then Some (c_string avail) else None.

(** The new inode number of an entry in a pass. *)
Definition process_inum (mode inum : Z) : Z :=
  if mode =? MARK_INODE_NUMS then Z.lor inum INUM_MARK
  else if (mode =? UPDATE_INODE_NUMS) && negb (Z.land inum INUM_MARK =? 0)
  then u32 (compute_new_inum (Z.land inum INUM_BITS))
  else inum.

(** Whether an entry's directory is walked. *)
Definition must_recurse (is_dir : bool) (name : list Z) (mode inum : Z) : bool :=
  is_dir && negb (bool_decide (name = str ".")) && negb (bool_decide (name = str "..")) &&
  ((mode =? SANITY_CHECK_PASS) || (mode =? MARK_INODE_NUMS) ||
   ((mode =? UPDATE_INODE_NUMS) && negb (Z.land inum INUM_MARK =? 0))).

(** The recursion on an entry; [recurse] is [recurse_dir] on the inode read and
    its size. *)
Definition recurse_entry (recurse : list Z -> Z -> M fixup unit) (inum : Z) : M fixup unit :=
  do tmp_inode <- read_inode (Z.land inum INUM_BITS);
  do mode <- raw_get tmp_inode 0 in_mode;
  check (S_ISDIR mode);;;
  do blocks <- raw_get tmp_inode 0 in_blocks_lo;
  let tmp_dirsize := s32 (u32 (blocks * INODE_BLOCK_SIZE)) in
  check (0 <=? tmp_dirsize);;;
  recurse tmp_inode tmp_dirsize.

(** One turn of the [while] loop: the changed buffer and the next [dirp], or
    [None] for the [break] at an entry with inode 0. *)
Definition entry_step (recurse : list Z -> Z -> M fixup unit) (mode : Z) (dirbuf : list Z) (dirp : Z)
  : M fixup (list Z * option Z) :=
  do inum <- raw_get dirbuf dirp (de_inode, 4%nat);
  if inum =? 0 then mret' (dirbuf, None)
  else
    do name_len <- raw_get dirbuf dirp (de_name_len, 1%nat);
    do name <- deref (entry_name dirbuf (dirp + de_name) name_len);
    do file_type <- raw_get dirbuf dirp (de_file_type, 1%nat);
    do is_dir <- is_entry_dir inum file_type mode;
    (if must_recurse is_dir name mode inum then recurse_entry recurse inum else mret' tt);;;
    do dirbuf <- raw_set dirbuf dirp (de_inode, 4%nat) (process_inum mode inum);
    do s <- get;
    check (negb ((bail_phase =? mode) && (bail_loc =? 1) && (bail_count =? fx_count s)));;;
    do rec_len <- raw_get dirbuf dirp (de_rec_len, 2%nat);
    mret' (dirbuf, Some (dirp + rec_len)).

(** The workaround for directories of an older version: a tail too short for an
    entry goes to the entry before it. *)
Definition short_tail (mode dirsize dirp : Z) (prev_dirp : option Z) : option Z :=
  if ((mode =? SANITY_CHECK_PASS) || (mode =? UPDATE_INODE_NUMS)) && (dirsize - dirp <=? 8)
  then prev_dirp else None.

(** The [while] loop over the entries; [m] bounds its turns. *)
Fixpoint entries_loop (m : nat) (recurse : list Z -> Z -> M fixup unit) (mode : Z) (dirbuf : list Z)
    (dirp : Z) (prev_dirp : option Z) : M fixup (list Z) :=
  match m with
  | O => fun _ => NoFuel
  | S m =>
      let dirsize := Z.of_nat (length dirbuf) in
      if dirsize <=? dirp then mret' dirbuf
      else
        modify (fun s => set_fx_count (s32 (fx_count s + 1)) s);;;
        match short_tail mode dirsize dirp prev_dirp with
        | Some prev =>
            do rec_len <- raw_get dirbuf prev (de_rec_len, 2%nat);
            raw_set dirbuf prev (de_rec_len, 2%nat) (rec_len + (dirsize - dirp))
        | None =>
            do (dirbuf, next) <- entry_step recurse mode dirbuf dirp;
            match next with
            | None => mret' dirbuf
            | Some next => entries_loop m recurse mode dirbuf next (Some dirp)
            end
        end
  end.

(** The loops that read and write the directory's blocks. *)
Fixpoint read_blocks (l : blist) : M fixup (list Z) :=
  match l with
  | [] => mret' []
  | b :: l =>
      do b <- deref b;
      do block <- read_block b;
      do rest <- read_blocks l;
      mret' (block ++ rest)
  end.
Fixpoint write_blocks (mode : Z) (l : blist) (dirbuf : list Z) : M fixup unit :=
  match l with
  | [] => mret' tt
  | b :: l =>
      do b <- deref b;
      write_block b (take (Z.to_nat (block_size info)) dirbuf);;;
      do s <- get;
      check (negb ((bail_phase =? mode) && (bail_loc =? 2) && (bail_count <=? fx_count s)));;;
      write_blocks mode l (drop (Z.to_nat (block_size info)) dirbuf)
  end.

(** [static int recurse_dir(fd, inode, dirbuf, dirsize, mode)]; [n] bounds the
    depth of the tree. An entry has a record length of one or more in a directory
    the loop leaves, so [dirsize] turns are enough. *)
Fixpoint recurse_dir (n : nat) (mode : Z) (inode : list Z) (dirsize : Z) : M fixup unit :=
  match n with
  | O => fun _ => NoFuel
  | S n =>
      check ((mode =? SANITY_CHECK_PASS) || (mode =? MARK_INODE_NUMS) || (mode =? UPDATE_INODE_NUMS));;;
      check (u32 dirsize mod block_size info =? 0);;;
      let num_blocks := u32 dirsize / block_size info in
      let block_list := replicate (Z.to_nat (num_blocks + 1)) None in
      do flags <- raw_get inode 0 in_flags;
      do block_list <-
        (if negb (Z.land flags EXT4_EXTENTS_FL =? 0) then get_block_list_extents n inode block_list
         else
           check (negb (u32 (block_size info / 4 + EXT4_NDIR_BLOCKS) <? num_blocks));;;
           get_block_list_indirect inode block_list);
      let block_list := take (Z.to_nat num_blocks) block_list in
      do dirbuf <- read_blocks block_list;
      do dirbuf <- entries_loop (S (length dirbuf)) (recurse_dir n mode) mode dirbuf 0 None;
      write_blocks mode block_list dirbuf
  end.
End fixup.

(** ** [ext4fixup_internal] *)

Section internal.
Context (force : bool) (depth : nat).

(** The dry run before anything is changed. *)
Definition sanity_check (info : fs_info) (aux : fs_aux_info) (bg_desc : nat) (new_ipg : Z)
    (stop_phase stop_loc stop_count : Z) (root_inode : list Z) (dirsize : Z) : M fixup unit :=
  modify (set_fx_no_write true);;;
  recurse_dir info bg_desc new_ipg stop_phase stop_loc stop_count depth SANITY_CHECK_PASS
    root_inode (s32 dirsize);;;
  update_superblocks_and_bg_desc info aux bg_desc new_ipg stop_phase stop_count STATE_UNSET.

(** The passes, from the state on the device. *)
Definition fixup_passes (info : fs_info) (aux : fs_aux_info) (bg_desc : nat) (new_ipg : Z) (n_flag : bool)
    (stop_phase stop_loc stop_count : Z) (root_inode : list Z) (dirsize : Z) : M fixup unit :=
  let recurse := fun mode => recurse_dir info bg_desc new_ipg stop_phase stop_loc stop_count
                               depth mode root_inode (s32 dirsize) in
  let update := update_superblocks_and_bg_desc info aux bg_desc new_ipg stop_phase stop_count in
  do state <- get_fs_fixup_state;
  (if state =? STATE_UNSET then
     sanity_check info aux bg_desc new_ipg stop_phase stop_loc stop_count root_inode dirsize;;;
     modify (set_fx_no_write n_flag);;;
     set_fs_fixup_state STATE_MARKING_INUMS
   else mret' tt);;;
  do state <- get_fs_fixup_state;
  (if state =? STATE_MARKING_INUMS then
     modify (set_fx_count 0);;;
     recurse MARK_INODE_NUMS;;;
     set_fs_fixup_state STATE_UPDATING_INUMS
   else mret' tt);;;
  do state <- get_fs_fixup_state;
  (if state =? STATE_UPDATING_INUMS then
     modify (set_fx_count 0);;;
     recurse UPDATE_INODE_NUMS;;;
     set_fs_fixup_state STATE_UPDATING_SB
   else mret' tt);;;
  do state <- get_fs_fixup_state;
  if state =? STATE_UPDATING_SB then
    update STATE_UPDATING_SB;;;
    set_fs_fixup_state STATE_UNSET
  else mret' tt.

(** The body of [ext4fixup_internal] once the device is open. *)
Definition fixup_body (info : fs_info) (n_flag : bool) (stop_phase stop_loc stop_count : Z) : M fixup Z :=
  do r <- read_ext force info;
  let '(info, aux, bg_desc) := r in
  check (negb (Z.land (feat_incompat info) EXT4_FEATURE_INCOMPAT_FILETYPE =? 0));;;
  do new_ipg <- (if inode_size info =? 0 then stuck
                 else deref (align_u32 (inodes_per_group info) (block_size info / inode_size info)));
  do root_inode <- read_inode info bg_desc EXT4_ROOT_INO;
  do mode <- raw_get root_inode 0 in_mode;
  check (S_ISDIR mode);;;
  do blocks <- raw_get root_inode 0 in_blocks_lo;
  fixup_passes info aux bg_desc (s32 new_ipg) n_flag stop_phase stop_loc stop_count root_inode
    (u32 (blocks * INODE_BLOCK_SIZE));;;
  mret' 0.

(** [int ext4fixup_internal(fsdev, v_flag, n_flag, stop_phase, stop_loc,
    stop_count)] on a device that could be opened; [longjmp] gives
    [EXIT_FAILURE]. *)
Definition ext4fixup_internal (info : fs_info) (n_flag : bool) (stop_phase stop_loc stop_count : Z)
  : M fixup Z := fun s =>
  match fixup_body info n_flag stop_phase stop_loc stop_count (set_fx_no_write n_flag s) with
  | Longjmp s => Done EXIT_FAILURE s
  | r => r
  end.
Definition ext4fixup (info : fs_info) : M fixup Z := ext4fixup_internal info false 0 0 0.
End internal.

(** ** The command (ext4fixup_main.c) *)

Record fixup_options := mk_fixup_options { fo_no_write : bool; fo_phase : Z; fo_loc : Z; fo_count : Z }.
(** The point to stop at: what is not in the argument keeps its value. *)
Definition stop_at (optarg : list Z) (o : fixup_options) : fixup_options :=
  match sscanf (length optarg) [Dec true; Lit 44; Dec true; Lit 44; Dec true] optarg with
  | [Num_ a] => mk_fixup_options (fo_no_write o) a (fo_loc o) (fo_count o)
  | [Num_ a; Num_ b] => mk_fixup_options (fo_no_write o) a b (fo_count o)
  | [Num_ a; Num_ b; Num_ c] => mk_fixup_options (fo_no_write o) a b c
  | _ => o
  end.
(** An option that [getopt] returns; others are passed over. *)
Definition fixup_option (o : fixup_options) (opt : ascii * list Z) : fixup_options :=
  match opt with
  | ("n"%char, _) => mk_fixup_options true (fo_phase o) (fo_loc o) (fo_count o)
  | ("d"%char, optarg) => stop_at optarg o
  | _ => o
  end.
(** [int main(int argc, char **argv)], from what [getopt] returns of the arguments;
    [openable] tells whether the device can be opened. *)
Definition ext4fixup_main (force : bool) (depth : nat) (info : fs_info) (openable : bool)
    (opts : list (ascii * list Z)) (args : list (list Z)) : M fixup Z :=
  let o := foldl fixup_option (mk_fixup_options false 0 0 0) opts in
  match args with
  | [_] =>
      if openable then ext4fixup_internal force depth info (fo_no_write o) (fo_phase o) (fo_loc o) (fo_count o)
      else mret' EXIT_FAILURE
  | _ => mret' EXIT_FAILURE
  end.
