(* ===== verification/FixupProps.v ===== *)
(** * What ext4fixup guarantees

    A dry run never writes, a run whose sanity check fails has not written, a run
    that succeeds has gone through every pass and left the tool's state unset. *)

From Stdlib Require Import Ascii String.
From S2P Require Import Prelude Logic Bytes Layout Ext4Info Inode Bitmap BlockGroup Regions Alloc Extent Indirect Contents Super MakeExt4fs Fixup.

(** ** Stable invariants

    An invariant that reading, moving in the device, the buffers and the debugging
    counter keep, and that what is guarded by [no_write] keeps. *)
Class Stable (I : fixup -> Prop) : Prop := {
  stable_pos s p : I s -> I (set_fx_dev (fx_dev s) p s);
  stable_world s w : I s -> I (set_fx_world w s);
  stable_count s n : I s -> I (set_fx_count n s);
  stable_unless (m : M fixup unit) :
    (forall b, keeps (fun s => fx_no_write s = b) m any) -> keeps I (unless_no_write m) any
}.

#[export] Hint Extern 1 (Stable _) => typeclasses eauto : keeps.

(** Writing is off, or on. *)
Definition flag (b : bool) (s : fixup) : Prop := fx_no_write s = b.
#[export] Instance flag_stable b : Stable (flag b).
Proof.
  constructor; [done..|]. intros m Hm s Hs. unfold unless_no_write, mbind', get.
  destruct (fx_no_write s); [done|]. by apply (Hm b).
Qed.

(** The device is [d] and writing is off. *)
Definition dry (d : list Z) (s : fixup) : Prop := fx_dev s = d /\ fx_no_write s = true.
#[export] Instance dry_stable d : Stable (dry d).
Proof.
  constructor; [done..|]. intros m _ s Hs. unfold unless_no_write, mbind', get. by rewrite (proj2 Hs).
Qed.

Section file.
Context (I : fixup -> Prop) `{!Stable I}.

Lemma keeps_lseek64 off : keeps I (lseek64 off) any.
Proof. intros s Hs. unfold lseek64. destruct (off <? 0); [done|]. split; [by apply stable_pos|done]. Qed.
Lemma keeps_read_dev n : keeps I (read_dev n) any.
Proof. intros s Hs. split; [by apply stable_pos|done]. Qed.
Lemma keeps_check (ok : bool) : keeps I (check ok) any.
Proof. destruct ok; by intros s Hs. Qed.
Lemma keeps_in_world {A} (m : M world A) : keeps I (in_world m) any.
Proof.
  apply (keeps_zoom _ _ _ any); [|done|intros; by apply stable_world].
  intros w _. by destruct (m w).
Qed.
Lemma keeps_raw_get b base f : keeps I (raw_get b base f) any.
Proof. by apply keeps_deref. Qed.
Lemma keeps_raw_set b base f v : keeps I (raw_set b base f v) any.
Proof. by apply keeps_deref. Qed.
Lemma keeps_count f : keeps I (modify (fun s => set_fx_count (f s) s)) any.
Proof. apply keeps_modify. intros s. apply stable_count. Qed.
Lemma keeps_set_count n : keeps I (modify (set_fx_count n)) any.
Proof. apply keeps_modify. intros s. apply stable_count. Qed.
End file.
#[export] Hint Resolve keeps_set_count keeps_lseek64 keeps_read_dev keeps_check keeps_in_world keeps_raw_get
  keeps_raw_set keeps_count : keeps.

Lemma flag_write_dev b bs : keeps (flag b) (write_dev bs) any.
Proof. intros s Hs. unfold write_dev. by destruct (write_bytes _ _ _). Qed.
#[export] Hint Resolve flag_write_dev : keeps.

(** A guarded computation, by its own steps. *)
Lemma keeps_unless I `{!Stable I} m :
  (forall b, keeps (flag b) m any) -> keeps I (unless_no_write m) any.
Proof. apply stable_unless. Qed.
Ltac guarded := apply keeps_unless; [typeclasses eauto|]; intros ?; keep.

Section walk.
Context (I : fixup -> Prop) `{!Stable I}.
Context (info : fs_info) (aux : fs_aux_info) (bg_desc : nat) (new_ipg bail_phase bail_loc bail_count : Z).

Lemma keeps_read_sb : keeps I read_sb any.
Proof. unfold read_sb. keep. Qed.
Lemma keeps_write_sb off sb : keeps I (write_sb off sb) any.
Proof. guarded. Qed.
Lemma keeps_read_inode inum : keeps I (read_inode info bg_desc inum) any.
Proof. unfold read_inode. keep. Qed.
Lemma keeps_read_block b : keeps I (read_block info b) any.
Proof. unfold read_block. keep. Qed.
Lemma keeps_write_block b block : keeps I (write_block info b block) any.
Proof. guarded. Qed.
#[local] Hint Resolve keeps_read_sb keeps_write_sb keeps_read_inode keeps_read_block keeps_write_block : keeps.
Lemma keeps_bl_set l i v : keeps (I) (bl_set l i v) any.
Proof. by apply keeps_deref. Qed.
#[local] Hint Resolve keeps_bl_set : keeps.
Lemma keeps_copy_pointers n src base i l : keeps (I) (copy_pointers n src base i l) any.
Proof. revert i l. induction n as [|n IH]; intros i l; cbn; keep. Qed.
Lemma keeps_inode_blocks inode : keeps (I) (inode_blocks info inode) any.
Proof. unfold inode_blocks. keep. Qed.
#[local] Hint Resolve keeps_copy_pointers keeps_inode_blocks : keeps.
Lemma keeps_get_block_list_indirect inode l : keeps (I) (get_block_list_indirect info inode l) any.
Proof. unfold get_block_list_indirect, get_direct_blocks, get_indirect_blocks. keep. Qed.

Lemma keeps_extent_blocks n first block j l : keeps (I) (extent_blocks n first block j l) any.
Proof. revert j l. induction n as [|n IH]; intros j l; cbn; keep. Qed.
#[local] Hint Resolve keeps_extent_blocks : keeps.
Lemma keeps_extent_ents n hdr base extent l : keeps (I) (extent_ents n hdr base extent l) any.
Proof. revert extent l. induction n as [|n IH]; intros extent l; cbn; keep. Qed.
#[local] Hint Resolve keeps_extent_ents : keeps.
Lemma keeps_get_extent_ents hdr base l : keeps (I) (get_extent_ents hdr base l) any.
Proof. unfold get_extent_ents. keep. Qed.
Lemma keeps_read_local_block b : keeps (I) (read_local_block info b) any.
Proof. unfold read_local_block. keep. Qed.
#[local] Hint Resolve keeps_get_extent_ents keeps_read_local_block : keeps.

Lemma keeps_iter {S A} (J : S -> Prop) n (f : A -> M S A) (m : M S A) :
  keeps J m any -> (forall a, keeps J (f a) any) -> keeps J (Nat.iter n (fun m => mbind' m f) m) any.
Proof.
  intros Hm Hf. induction n as [|n IH]; [done|]. rewrite Nat.iter_succ.
  eapply keeps_bind; [exact IH|]. intros a _. apply Hf.
Qed.
Lemma keeps_get_extent_idx n hdr base l : keeps (I) (get_extent_idx info n hdr base l) any.
Proof.
  revert hdr base l. induction n as [|n IH]; intros hdr base l; cbn [get_extent_idx]; keep.
  apply keeps_iter; [keep|]. intros l'. keep.
Qed.
#[local] Hint Resolve keeps_get_extent_idx keeps_get_block_list_indirect : keeps.
Lemma keeps_get_block_list_extents n inode l : keeps (I) (get_block_list_extents info n inode l) any.
Proof. unfold get_block_list_extents. keep. Qed.
Lemma keeps_read_blocks l : keeps (I) (read_blocks info l) any.
Proof. induction l as [|b l IH]; cbn; keep. Qed.
Lemma keeps_write_blocks mode l buf :
  keeps (I) (write_blocks info bail_phase bail_loc bail_count mode l buf) any.
Proof. revert buf. induction l as [|b l IH]; intros buf; cbn; keep. Qed.
#[local] Hint Resolve keeps_get_block_list_extents keeps_read_blocks keeps_write_blocks : keeps.

Lemma keeps_entry_step recurse mode buf dirp :
  (forall inode size, keeps (I) (recurse inode size) any) ->
  keeps (I) (entry_step info bg_desc new_ipg bail_phase bail_loc bail_count recurse mode buf dirp) any.
Proof. intros Hr. unfold entry_step, is_entry_dir, recurse_entry. keep. Qed.
Lemma keeps_entries_loop m recurse mode buf dirp prev :
  (forall inode size, keeps (I) (recurse inode size) any) ->
  keeps (I) (entries_loop info bg_desc new_ipg bail_phase bail_loc bail_count m recurse mode buf dirp prev) any.
Proof.
  intros Hr. revert buf dirp prev. induction m as [|m IH]; intros buf dirp prev; cbn [entries_loop]; [keep|].
  pose proof (fun buf dirp => keeps_entry_step recurse mode buf dirp Hr). keep.
Qed.
Lemma keeps_recurse_dir n mode inode size :
  keeps (I) (recurse_dir info bg_desc new_ipg bail_phase bail_loc bail_count n mode inode size) any.
Proof.
  revert inode size. induction n as [|n IH]; intros inode size; cbn [recurse_dir]; [keep|].
  pose proof (fun m buf dirp prev => keeps_entries_loop m _ mode buf dirp prev IH). keep.
Qed.

Lemma keeps_update_descs gs state delta :
  keeps (I) (update_descs info bg_desc new_ipg gs state delta) any.
Proof. induction gs as [|i gs IH]; cbn; [keep|]. unfold check_inode_bitmap. keep. Qed.
Lemma keeps_write_group_copy i sb : keeps (I) (write_group_copy info aux bg_desc i sb) any.
Proof. unfold write_group_copy. keep. guarded. Qed.
#[local] Hint Resolve keeps_update_descs keeps_write_group_copy : keeps.
Lemma keeps_write_copies gs sb :
  keeps (I) (write_copies info aux bg_desc bail_phase bail_count gs sb) any.
Proof. revert sb. induction gs as [|i gs IH]; intros sb; cbn; keep. Qed.
#[local] Hint Resolve keeps_write_copies : keeps.
Lemma keeps_update state :
  keeps (I) (update_superblocks_and_bg_desc info aux bg_desc new_ipg bail_phase bail_count state) any.
Proof. unfold update_superblocks_and_bg_desc. keep. Qed.
End walk.
#[export] Hint Resolve keeps_read_sb keeps_write_sb keeps_read_inode keeps_recurse_dir keeps_update : keeps.

Lemma dry_read_ext d force info : keeps (dry d) (read_ext force info) any.
Proof. unfold read_ext. keep. Qed.
#[export] Hint Resolve dry_read_ext : keeps.

Lemma dry_get_state d : keeps (dry d) get_fs_fixup_state any.
Proof. intros s Hs. unfold get_fs_fixup_state, mbind', get. by rewrite (proj2 Hs). Qed.
Lemma dry_set_state d st : keeps (dry d) (set_fs_fixup_state st) any.
Proof. intros s Hs. unfold set_fs_fixup_state, mbind', get. by rewrite (proj2 Hs). Qed.
Lemma dry_modify_no_write d : keeps (dry d) (modify (set_fx_no_write true)) any.
Proof. apply keeps_modify. by intros s [??]. Qed.
#[export] Hint Resolve dry_get_state dry_set_state dry_modify_no_write : keeps.

Lemma dry_fixup_passes d depth info aux bg_desc new_ipg a b c root size :
  keeps (dry d) (fixup_passes depth info aux bg_desc new_ipg true a b c root size) any.
Proof. unfold fixup_passes, sanity_check. keep. Qed.
#[export] Hint Resolve dry_fixup_passes : keeps.

(** ** The state on the device *)

Lemma check_inv {S} ok (s s' : S) : check ok s = Done tt s' -> ok = true /\ s' = s.
Proof. destruct ok; [|done]. by intros [= <-]. Qed.
Lemma lseek64_inv off s r s' :
  lseek64 off s = Done r s' -> 0 <= r -> off = r /\ s' = set_fx_dev (fx_dev s) off s.
Proof. unfold lseek64. destruct (Z.ltb_spec off 0); intros [= <- <-] ?; [lia|done]. Qed.

(** A [write] of all its bytes at the file position. *)
Lemma write_dev_inv bs s s' :
  write_dev bs s = Done (Z.of_nat (length bs)) s' -> 0 <= fx_pos s -> (0 < length bs)%nat ->
  exists d, write_bytes (fx_dev s) (fx_pos s) bs = Some d /\
    s' = set_fx_dev d (fx_pos s + Z.of_nat (length bs)) s.
Proof.
  unfold write_dev. intros H Hp Hb. destruct (write_bytes _ _ _) as [d|] eqn:E; [|done].
  injection H as Hn <-. rewrite length_take in Hn. rewrite take_ge in E by lia.
  rewrite Z.min_l in E by lia. rewrite take_ge by lia. eauto.
Qed.

(** Seek, write all, or jump. *)
Lemma write_at_inv off bs n s s' :
  (do ret <- lseek64 off; check (0 <=? ret);;; do k <- write_dev bs; check (k =? n)) s = Done tt s' ->
  n = Z.of_nat (length bs) -> (0 < length bs)%nat ->
  exists d p, write_bytes (fx_dev s) off bs = Some d /\ s' = set_fx_dev d p s.
Proof.
  intros H -> Hb.
  apply mbind_done_inv in H as (ret & s1 & E1 & H). apply mbind_done_inv in H as ([] & s2 & E2 & H).
  apply mbind_done_inv in H as (k & s3 & E3 & H). apply check_inv in H as [Hk ->].
  apply check_inv in E2 as [Hr ->]. apply Z.leb_le in Hr. apply Z.eqb_eq in Hk as ->.
  apply lseek64_inv in E1 as [<- ->]; [|done].
  apply write_dev_inv in E3 as (d & Ed & ->); [|done..]. by exists d, (off + Z.of_nat (length bs)).
Qed.

Lemma read_sb_inv s sb s' :
  read_sb s = Done sb s' ->
  read_bytes (fx_dev s) 1024 sizeof_super_block = Some sb /\ exists p, s' = set_fx_dev (fx_dev s) p s.
Proof.
  unfold read_sb. intros H.
  apply mbind_done_inv in H as (ret & s1 & E1 & H). apply mbind_done_inv in H as ([] & s2 & E2 & H).
  apply mbind_done_inv in H as (b & s3 & E3 & H). apply mbind_done_inv in H as ([] & s4 & E4 & H).
  injection H as <- <-. apply check_inv in E2 as [Hr ->]. apply Z.leb_le in Hr.
  apply lseek64_inv in E1 as [<- ->]; [|done]. injection E3 as <- <-. apply check_inv in E4 as [Hl ->].
  apply Z.eqb_eq in Hl. cbn [fx_dev fx_pos set_fx_dev] in *. rewrite length_take, length_drop in Hl.
  unfold sizeof_super_block in *. split; [|eauto]. unfold read_bytes. rewrite decide_True by lia. done.
Qed.

Lemma raw_get_inv {S} b base f (s s' : S) v :
  raw_get b base f s = Done v s' -> load f.2 b (base + f.1) = Some v /\ s' = s.
Proof. unfold raw_get. destruct (load _ _ _); [|done]. by intros [= <- <-]. Qed.
Lemma raw_set_inv {S} b base f v (s s' : S) b' :
  raw_set b base f v s = Done b' s' -> store f.2 b (base + f.1) v = Some b' /\ s' = s.
Proof. unfold raw_set. destruct (store _ _ _ _); [|done]. by intros [= <- <-]. Qed.

(** What [set_fs_fixup_state] leaves on the device. *)
Definition state_set (st : Z) (d : list Z) : Prop :=
  read_bytes d 0 8 = Some (le_bytes 8 (magic_of_state st)) /\
  exists size, load 2 d (1024 + s_desc_size.1) = Some size /\
    Z.odd size = negb (magic_of_state st =? 0).

Lemma odd_desc_size magic size :
  Z.odd ((if negb (magic =? 0) then Z.lor size 1 else Z.land size (Z.lnot 1)) mod 256 ^ Z.of_nat 2)
  = negb (magic =? 0).
Proof.
  rewrite <-!Z.bit0_odd. change (256 ^ Z.of_nat 2) with (2 ^ 16). rewrite Z.mod_pow2_bits_low by lia.
  destruct (magic =? 0); cbn [negb]; rewrite ?Z.lor_spec, ?Z.land_spec.
  - apply andb_false_r.
  - apply orb_true_r.
Qed.

Lemma set_state_spec st s s' :
  set_fs_fixup_state st s = Done tt s' -> fx_no_write s = false ->
  fx_no_write s' = false /\ state_set st (fx_dev s').
Proof.
  intros H Hw. unfold set_fs_fixup_state, mbind' at 1, get in H. rewrite Hw in H.
  apply mbind_done_inv in H as (r & s1 & E1 & H). apply mbind_done_inv in H as (n & s2 & E2 & H).
  apply mbind_done_inv in H as ([] & s3 & E3 & H). apply check_inv in E3 as [Hn ->]. apply Z.eqb_eq in Hn as ->.
  injection E1 as <- <-.
  apply (write_dev_inv (le_bytes 8 (magic_of_state st))) in E2 as (d & Ed & ->); [|done|by rewrite length_le_bytes; lia].
  apply mbind_done_inv in H as (sb & s4 & E4 & H). apply read_sb_inv in E4 as (Esb & p & ->).
  apply mbind_done_inv in H as (size & s5 & E5 & H). apply raw_get_inv in E5 as (_ & ->).
  apply mbind_done_inv in H as (sb' & s6 & E6 & H). apply raw_set_inv in E6 as (Es & ->).
  unfold write_sb, unless_no_write, mbind' at 1, get in H. cbn [fx_no_write set_fx_dev fx_dev fx_pos] in *.
  rewrite Hw in H. pose proof (store_length _ _ _ _ _ Es) as L.
  assert (Lsb : length sb = 1024%nat).
  { unfold read_bytes, sizeof_super_block in Esb. case_decide as Hd; [|done]. injection Esb as <-.
    rewrite length_take, length_drop. lia. }
  apply write_at_inv in H as (d' & p' & Ed' & ->); [|unfold sizeof_super_block; lia|lia].
  cbn [fx_no_write set_fx_dev fx_dev] in *. split; [done|]. split.
  - rewrite (read_write_ne _ _ _ _ _ _ Ed') by lia. apply read_write_same in Ed. by rewrite length_le_bytes in Ed.
  - pose proof (read_write_same _ _ _ _ Ed') as Er. pose proof (load_store_same _ _ _ _ _ Es) as El.
    eexists. split; [|apply (odd_desc_size _ size)].
    rewrite (load_read 2 _ _ _ _ _ Er) by (cbn; lia). exact El.
Qed.

Lemma state_magic_state st :
  st = STATE_UNSET \/ st = STATE_MARKING_INUMS \/ st = STATE_UPDATING_INUMS \/ st = STATE_UPDATING_SB ->
  state_of_magic (le_value (le_bytes 8 (magic_of_state st))) = st.
Proof. by intros [->|[->|[->| ->]]]. Qed.

Lemma get_state_spec s :
  fx_no_write s = false ->
  get_fs_fixup_state s =
    match read_bytes (fx_dev s) 0 8 with
    | Some m => Done (state_of_magic (le_value m)) (set_fx_dev (fx_dev s) 8 s)
    | None => Longjmp (set_fx_dev (fx_dev s) (Z.of_nat (length (take 8 (fx_dev s)))) s)
    end.
Proof.
  intros Hw. unfold get_fs_fixup_state, mbind' at 1, get. rewrite Hw.
  unfold lseek64, read_dev, mbind', check, read_bytes, length_is. cbn [fx_pos fx_dev set_fx_dev Z.ltb Z.compare].
  change (Z.to_nat 8) with 8%nat. change (Z.to_nat 0) with 0%nat. rewrite drop_0, length_take.
  case_decide as Hd.
  - replace (Z.of_nat (8 `min` length (fx_dev s))) with 8 by lia. done.
  - rewrite (proj2 (Z.eqb_neq _ _)) by lia. done.
Qed.

(** The state a device is in. *)
Definition dev_state (d : list Z) : option Z :=
  (fun m => state_of_magic (le_value m)) <$> read_bytes d 0 8.

Lemma dev_state_set st d :
  st = STATE_UNSET \/ st = STATE_MARKING_INUMS \/ st = STATE_UPDATING_INUMS \/ st = STATE_UPDATING_SB ->
  state_set st d -> dev_state d = Some st.
Proof. intros Hst [E _]. unfold dev_state. rewrite E. cbn. f_equal. by apply state_magic_state. Qed.

Lemma dev_state_range d x : dev_state d = Some x ->
  x = STATE_UNSET \/ x = STATE_MARKING_INUMS \/ x = STATE_UPDATING_INUMS \/ x = STATE_UPDATING_SB.
Proof.
  unfold dev_state, state_of_magic. destruct (read_bytes d 0 8); [|done]. intros [= <-].
  repeat case_match; auto.
Qed.

Lemma get_state_inv s x s' :
  get_fs_fixup_state s = Done x s' -> flag false s ->
  dev_state (fx_dev s) = Some x /\ fx_dev s' = fx_dev s /\ flag false s'.
Proof.
  intros H Hw. rewrite get_state_spec in H by exact Hw. unfold dev_state.
  destruct (read_bytes _ 0 8); [|done]. by injection H as <- <-.
Qed.

(** One stage of the passes: in state [st] its body runs and leaves [next],
    otherwise nothing happens. *)
Lemma stage_inv {B} st next (body : M fixup unit) (k : M fixup B) s b s'' :
  (do state <- get_fs_fixup_state; (if state =? st then body else mret' tt);;; k) s = Done b s'' ->
  flag false s ->
  (forall s1 s2, body s1 = Done tt s2 -> flag false s1 -> flag false s2 /\ state_set next (fx_dev s2)) ->
  exists x s1, dev_state (fx_dev s) = Some x /\ k s1 = Done b s'' /\ flag false s1 /\
    if x =? st then state_set next (fx_dev s1) else fx_dev s1 = fx_dev s.
Proof.
  intros H Hw Hbody. apply mbind_done_inv in H as (x & s1 & E1 & H).
  apply get_state_inv in E1 as (Ex & Ed & Hw1); [|done].
  apply mbind_done_inv in H as ([] & s2 & E2 & H). exists x, s2.
  destruct (x =? st).
  - apply Hbody in E2 as [Hw2 Hs2]; [|done]. auto.
  - injection E2 as <-. auto.
Qed.

Lemma work_then_set (work : M fixup unit) next s s' :
  (work;;; set_fs_fixup_state next) s = Done tt s' -> keeps (flag false) work any -> flag false s ->
  flag false s' /\ state_set next (fx_dev s').
Proof.
  intros H Hk Hw. apply mbind_done_inv in H as ([] & s1 & E1 & H).
  specialize (Hk s Hw). rewrite E1 in Hk.
  by apply (set_state_spec _ _ _ H (proj1 Hk)).
Qed.

Lemma passes_complete depth info aux bg_desc new_ipg p l c root size s s' :
  fixup_passes depth info aux bg_desc new_ipg false p l c root size s = Done tt s' ->
  flag false s -> state_set STATE_UNSET (fx_dev s').
Proof.
  intros H Hw. unfold fixup_passes in H.
  apply (stage_inv _ STATE_MARKING_INUMS) in H as (x0 & s1 & E0 & H & Hw1 & D1); [|done|].
  2: { intros t1 t2 Ht Hf. rewrite mbind_assoc in Ht. apply mbind_done_inv in Ht as ([] & t3 & Ea & Ht).
       apply set_state_spec in Ht; [done|]. apply mbind_done_inv in Ea as ([] & t4 & _ & Ea). by injection Ea as <-. }
  apply (stage_inv _ STATE_UPDATING_INUMS) in H as (x1 & s2 & E1 & H & Hw2 & D2); [|done|].
  2: { intros t1 t2 Ht Hf. rewrite mbind_assoc in Ht. apply work_then_set in Ht; [done| |done]. keep. }
  apply (stage_inv _ STATE_UPDATING_SB) in H as (x2 & s3 & E2 & H & Hw3 & D3); [|done|].
  2: { intros t1 t2 Ht Hf. rewrite mbind_assoc in Ht. apply work_then_set in Ht; [done| |done]. keep. }
  apply mbind_done_inv in H as (x3 & s4 & E3 & H). apply get_state_inv in E3 as (E3 & Ed4 & Hw4); [|done].
  assert (Hx : x3 = STATE_UPDATING_SB).
  { pose proof (dev_state_range _ _ E0) as R0.
    destruct (Z.eqb_spec x0 STATE_UNSET).
    - apply dev_state_set in D1; [|auto]. rewrite D1 in E1. injection E1 as <-.
      cbn in D2. apply dev_state_set in D2; [|auto]. rewrite D2 in E2. injection E2 as <-.
      cbn in D3. apply dev_state_set in D3; [|auto]. congruence.
    - rewrite D1, E0 in E1. injection E1 as <-. destruct (Z.eqb_spec x0 STATE_MARKING_INUMS).
      + apply dev_state_set in D2; [|auto]. rewrite D2 in E2. injection E2 as <-.
        cbn in D3. apply dev_state_set in D3; [|auto]. congruence.
      + rewrite D2, D1, E0 in E2. injection E2 as <-. destruct (Z.eqb_spec x0 STATE_UPDATING_INUMS).
        * apply dev_state_set in D3; [|auto]. congruence.
        * rewrite D3, D2, D1, E0 in E3. injection E3 as <-. naive_solver. }
  subst x3. cbn [Z.eqb] in H. apply work_then_set in H; [by apply H| |done]. keep.
Qed.

(** ** An image

    Two groups of eight 2 KiB blocks with ten inodes each; the root directory in
    block 6 has the file [f] with inode 11, the first of group 1. *)

Definition put_all (b : list Z) (l : list (Z * list Z)) : list Z :=
  foldl (fun b p => default b (write_bytes b p.1 p.2)) b l.
Definition example_fields (base : Z) (l : list (field * Z)) : list (Z * list Z) :=
  (fun p => (base + p.1.1, le_bytes p.1.2 p.2)) <$> l.
Definition example_sb : list Z :=
  put_all (replicate 1024 0) (example_fields 0
    [(s_inodes_count, 20); (s_blocks_count_lo, 16); (s_free_inodes_count, 8); (s_log_block_size, 1);
     (s_blocks_per_group, 8); (s_inodes_per_group, 10); (s_magic, EXT4_SUPER_MAGIC);
     (s_state, EXT4_VALID_FS); (s_inode_size, 256); (s_desc_size, 32);
     (s_feature_incompat, Z.lor EXT4_FEATURE_INCOMPAT_FILETYPE EXT4_FEATURE_INCOMPAT_EXTENTS)]).
Definition example_desc : list Z :=
  put_all (replicate 64 0) (example_fields 0
    [(bg_block_bitmap, 2); (bg_inode_bitmap, 3); (bg_inode_table, 4)] ++ example_fields 32
    [(bg_block_bitmap, 10); (bg_inode_bitmap, 11); (bg_inode_table, 12)]).
Definition example_root : list Z :=
  put_all (replicate 156 0) (example_fields 0
    [(in_mode, S_IFDIR); (in_blocks_lo, 4); (in_flags, EXT4_EXTENTS_FL)] ++ example_fields in_block
    [(eh_magic, EXT4_EXT_MAGIC); (eh_entries, 1)] ++ example_fields (in_block + 12)
    [(ee_len, 1); (ee_start_lo, 6)]).
Definition example_dir (inum : Z) : list Z :=
  put_all (replicate 2048 0)
    [(0, le_bytes 4 2 ++ le_bytes 2 12 ++ [1; 2] ++ str ".");
     (12, le_bytes 4 2 ++ le_bytes 2 12 ++ [2; 2] ++ str "..");
     (24, le_bytes 4 inum ++ le_bytes 2 2024 ++ [1; 1] ++ str "f")].
Definition example_dev : list Z :=
  put_all (replicate (Z.to_nat (16 * 2048)) 0)
    [(1024, example_sb); (2048, example_desc); (4 * 2048 + 256, example_root);
     (6 * 2048, example_dir 11); (8 * 2048, example_sb); (9 * 2048, example_desc)].
Definition example_state : fixup := mk_fixup empty_world example_dev 0 false 0 0.
(** The same image with the globals as [read_ext] sets them. *)
Definition example_fixup_info : fs_info :=
  mk_fs_info 32768 2048 8 10 256 20 0 0 0
    (Z.lor EXT4_FEATURE_INCOMPAT_FILETYPE EXT4_FEATURE_INCOMPAT_EXTENTS) 0 [] 0.
Definition example_open : fixup :=
  mk_fixup (set_bufs [example_desc] empty_world) example_dev 0 false 0 0.

Lemma example_renumbered :
  match ext4fixup false 3 zero_info example_state with
  | Done r s => r = 0 /\ read_bytes (fx_dev s) (6 * 2048) 2048 = Some (example_dir 17)
  | _ => False
  end.
Proof. vm_compute. auto. Qed.

(** ** Properties *)

Lemma dry_body d force depth info p l c : keeps (dry d) (fixup_body force depth info true p l c) any.
Proof. unfold fixup_body. keep. Qed.

Lemma dry_internal force depth info p l c s s' r :
  ext4fixup_internal force depth info true p l c s = Done r s' -> fx_dev s' = fx_dev s.
Proof.
  unfold ext4fixup_internal. intros H.
  pose proof (dry_body (fx_dev s) force depth info p l c (set_fx_no_write true s) (conj eq_refl eq_refl)) as K.
  destruct (fixup_body _ _ _ _ _ _ _ _); [|injection H as _ <-; apply K|done..].
  injection H as _ <-. apply K.
Qed.
Lemma no_write_stays o opts : fo_no_write o = true -> fo_no_write (foldl fixup_option o opts) = true.
Proof.
  revert o. induction opts as [|[c arg] opts IH]; intros o Ho; [done|]. cbn [foldl]. apply IH. unfold fixup_option, stop_at.
  repeat case_match; done.
Qed.
Lemma no_write_given o opts arg : ("n"%char, arg) ∈ opts -> fo_no_write (foldl fixup_option o opts) = true.
Proof. intros (l1 & l2 & ->)%list_elem_of_split. rewrite foldl_app. cbn [foldl]. apply no_write_stays. reflexivity. Qed.
(** C9: a dry run of ext4fixup never writes. With the option -n, alone or among others in
    any order, whatever the device holds and wherever the run is to stop, a command that
    comes back leaves every byte of the device as it was. *)
Theorem ext4fixup_dry_run (force : bool) (depth : nat) (info : fs_info) (openable : bool)
    (opts : list (ascii * list Z)) (args : list (list Z)) (optarg : list Z) (s s' : fixup) (r : Z)
  (Hn : ("n"%char, optarg) ∈ opts) (H : ext4fixup_main force depth info openable opts args s = Done r s') :
  fx_dev s' = fx_dev s.
Proof.
  revert H. unfold ext4fixup_main. rewrite (no_write_given _ _ _ Hn). destruct args as [|a [|]]; try by intros [= _ ->].
  destruct openable; [apply dry_internal|by intros [= _ ->]].
Qed.

Lemma run_returns {S A} (o : outcome S A) :
  match o with Done _ _ => true | _ => false end = true -> exists a s, o = Done a s.
Proof. destruct o; try discriminate. eauto. Qed.

Lemma run_returns_value {S} (o : outcome S Z) v :
  match o with Done a _ => a =? v | _ => false end = true -> exists s, o = Done v s.
Proof. destruct o; try discriminate. intros ->%Z.eqb_eq. eauto. Qed.

Lemma ext4fixup_dry_run_witness :
  let run := ext4fixup_main false 3 zero_info true [("d"%char, str "2,1"%string); ("n"%char, [])] [str "img"%string] in
  exists r s', run example_state = Done r s' /\ fx_dev s' = fx_dev example_state.
Proof.
  intros run. destruct (run_returns (run example_state) ltac:(vm_compute; reflexivity)) as (r & s' & E).
  exists r, s'. split; [exact E|].
  exact (ext4fixup_dry_run false 3 zero_info true _ _ [] _ _ _ ltac:(right; left) E).
Defined.

Lemma dry_sanity d depth info aux bg_desc new_ipg p l c root size s :
  fx_dev s = d ->
  match sanity_check depth info aux bg_desc new_ipg p l c root size s with
  | Done _ s' | Longjmp s' => fx_dev s' = d
  | _ => True
  end.
Proof.
  intros Hs. unfold sanity_check. unfold mbind' at 1, modify.
  match goal with |- match ?m _ with _ => _ end => assert (K : keeps (dry d) m any) by keep end.
  specialize (K (set_fx_no_write true s) (conj Hs eq_refl)).
  match goal with |- match ?o with _ => _ end => destruct o end; [apply K|apply K|done..].
Qed.

(** C10: from the unset state, ext4fixup first walks the whole tree and computes the
    superblocks with writing off: the device is unchanged when that ends, and if it
    fails the run ends there, so an image the tool cannot convert is never touched. *)
Theorem ext4fixup_checks_first (depth : nat) (info : fs_info) (aux : fs_aux_info) (bg_desc : nat)
    (new_ipg p l c : Z) (root : list Z) (size : Z) (s s1 : fixup)
  (Hs : get_fs_fixup_state s = Done STATE_UNSET s1) :
  let run := fixup_passes depth info aux bg_desc new_ipg false p l c root size s in
  match sanity_check depth info aux bg_desc new_ipg p l c root size s1 with
  | Done _ s2 => fx_dev s2 = fx_dev s1
  | Longjmp s2 => run = Longjmp s2 /\ fx_dev s2 = fx_dev s1
  | Stuck => run = Stuck
  | NoFuel => run = NoFuel
  end.
Proof.
  intros run. subst run. unfold fixup_passes. rewrite (mbind_done _ _ _ _ _ Hs).
  change (STATE_UNSET =? STATE_UNSET) with true. cbn iota beta.
  pose proof (dry_sanity (fx_dev s1) depth info aux bg_desc new_ipg p l c root size s1 eq_refl) as K.
  destruct (sanity_check _ _ _ _ _ _ _ _ _ _ s1) as [[] s2|s2| |] eqn:E; [done|..];
    unfold mbind'; rewrite E; done.
Qed.


Lemma ext4fixup_checks_first_witness :
  exists s1, get_fs_fixup_state example_open = Done STATE_UNSET s1 /\
    let run := fixup_passes 3 example_fixup_info (ext4_create_fs_aux_info example_fixup_info) 0 16 false 0 0 0 example_root 2048 example_open in
    match sanity_check 3 example_fixup_info (ext4_create_fs_aux_info example_fixup_info) 0 16 0 0 0 example_root 2048 s1 with
    | Done _ s2 => fx_dev s2 = fx_dev s1
    | Longjmp s2 => run = Longjmp s2 /\ fx_dev s2 = fx_dev s1
    | Stuck => run = Stuck
    | NoFuel => run = NoFuel
    end.
Proof.
  destruct (run_returns_value (get_fs_fixup_state example_open) STATE_UNSET
              ltac:(vm_compute; reflexivity)) as (s1 & E).
  exists s1. split; [exact E|]. exact (ext4fixup_checks_first _ _ _ _ _ _ _ _ _ _ _ _ E).
Defined.


(** ** Renumbering *)

Lemma u32_pred o : 1 <= o <= 2 ^ 31 -> u32 (o - 1) = o - 1.
Proof. intros. apply u32_small. lia. Qed.

Lemma compute_new_inum_split info new o :
  let q := (o - 1) / inodes_per_group info in let r := (o - 1) mod inodes_per_group info in
  0 < inodes_per_group info <= new -> 1 <= o <= 2 ^ 31 -> q * new + new < 2 ^ 31 ->
  compute_new_inum info new o = q * new + r + 1 /\ 0 <= q /\ 0 <= r < new.
Proof.
  intros q r Hi Ho Hb.
  assert (0 <= r < inodes_per_group info) by (apply Z.mod_pos_bound; lia).
  assert (0 <= q) by (apply Z.div_pos; lia).
  split; [|lia]. unfold compute_new_inum. rewrite u32_pred by lia. fold q r.
  assert (0 <= q * new) by nia. rewrite u32_small by lia. unfold s32. rewrite Z.mod_small; lia.
Qed.

(** renumbering keeps the inodes where they are: under the new number of
    inodes per group, the new number of an inode names the bytes on the device
    that the old number named, and different inodes get different numbers. *)
Theorem compute_new_inum_same_inode (info : fs_info) (bg_desc : nat) (new total o o' : Z) (s : fixup)
  (Hi : 0 < inodes_per_group info <= new) (Ho : 1 <= o <= 2 ^ 31) (Ho' : 1 <= o' <= 2 ^ 31)
  (Hb : (o - 1) / inodes_per_group info * new + new < 2 ^ 31)
  (Hb' : (o' - 1) / inodes_per_group info * new + new < 2 ^ 31) :
  read_inode (set_inodes_per_group new total info) bg_desc (compute_new_inum info new o) s
    = read_inode info bg_desc o s /\
  (compute_new_inum info new o = compute_new_inum info new o' -> o = o').
Proof.
  destruct (compute_new_inum_split info new o Hi Ho Hb) as (E & Hq & Hr).
  destruct (compute_new_inum_split info new o' Hi Ho' Hb') as (E' & Hq' & Hr').
  set (q := (o - 1) / _) in *. set (r := (o - 1) mod _) in *.
  set (q' := (o' - 1) / _) in *. set (r' := (o' - 1) mod _) in *. split.
  - rewrite E. unfold read_inode. cbn [inodes_per_group set_inodes_per_group block_size inode_size].
    rewrite (u32_pred o), (u32_small (q * new + r + 1 - 1)) by nia.
    replace (q * new + r + 1 - 1) with (r + q * new) by lia.
    rewrite Z.div_add, Z.div_small, Z.mod_add, Z.mod_small by lia. fold q r.
    rewrite (proj2 (Z.eqb_neq new 0)), (proj2 (Z.eqb_neq (inodes_per_group info) 0)) by lia. done.
  - rewrite E, E'. intros He.
    assert (q = q') by nia. assert (r = r') by nia.
    pose proof (Z.div_mod (o - 1) (inodes_per_group info) ltac:(lia)).
    pose proof (Z.div_mod (o' - 1) (inodes_per_group info) ltac:(lia)). lia.
Qed.

Lemma compute_new_inum_same_inode_witness :
  read_inode (set_inodes_per_group 16 32 example_fixup_info) 0 (compute_new_inum example_fixup_info 16 11) example_open
    = read_inode example_fixup_info 0 11 example_open /\
  (compute_new_inum example_fixup_info 16 11 = compute_new_inum example_fixup_info 16 3 -> 11 = 3).
Proof.
  apply (compute_new_inum_same_inode example_fixup_info 0 16 32 11 3 example_open);
    cbn [inodes_per_group example_fixup_info]; try lia; vm_compute; reflexivity.
Defined.
