(* ===== verification/SuperSpec.v ===== *)
(** * What the superblock functions write (lemmas on Super) *)

From Stdlib Require Import String.
From S2P Require Import Prelude Bytes Layout Crc16 Sha1 Uuid Ext4Info Inode Bitmap BlockGroup Regions Alloc AllocSpec Buffers Super.

(** ** The assignments of [ext4_fill_in_sb] *)

Lemma sb_asgs_wf info aux lg uuid : length uuid = 16%nat -> Forall asg_wf (sb_asgs info aux lg uuid).
Proof.
  intros Hu. unfold sb_asgs. rewrite !Forall_app. split_and!.
  - repeat constructor; unfold asg_wf; cbn [asg_bytes asg_len]; try apply length_le_bytes; try done.
    unfold strncpy. rewrite length_take, length_app, length_replicate, Nat.min_l by lia. done.
  - destruct (negb _); repeat constructor.
  - repeat constructor; unfold asg_wf; cbn [asg_bytes asg_len]; apply length_le_bytes.
Qed.

Lemma sb_asgs_in info aux lg uuid : forallb (asg_in sizeof_super_block) (sb_asgs info aux lg uuid) = true.
Proof.
  unfold sb_asgs. rewrite !forallb_app. by destruct (negb _).
Qed.

(** What each member read back by [ext4_parse_sb] holds. *)
Lemma sb_asgs_find info aux lg uuid :
  let l := sb_asgs info aux lg uuid in
  let num f v := find_asg f l = Some (le_bytes f.2 v) in
  num s_inodes_count (inodes_per_group info * groups aux) /\
  num s_blocks_count_lo (len_blocks aux) /\ num s_blocks_count_hi (Z.shiftr (len_blocks aux) 32) /\
  num s_first_data_block (first_data_block aux) /\ num s_log_block_size lg /\
  num s_blocks_per_group (blocks_per_group info) /\ num s_inodes_per_group (inodes_per_group info) /\
  num s_magic EXT4_SUPER_MAGIC /\ num s_state EXT4_VALID_FS /\ num s_inode_size (inode_size info) /\
  num s_feature_compat (feat_compat info) /\ num s_feature_incompat (feat_incompat info) /\
  num s_feature_ro_compat (feat_ro_compat info) /\
  num s_reserved_gdt_blocks (bg_desc_reserve_blocks info) /\
  find_asg s_volume_name l = Some (strncpy 16 (fs_label info)) /\
  find_asg s_last_mounted l = Some (replicate 64 0) /\ find_asg s_uuid l = Some uuid /\
  num s_free_blocks_count_lo 0 /\ num s_free_inodes_count 0.
Proof.
  cbv zeta. unfold sb_asgs. destruct (negb _); cbn [app]; repeat split.
Qed.

(** ** Buffer updates *)

Lemma assign_put buf base f v w b b' :
  w_bufs w !! buf = Some b -> write_bytes b (base + f.1) (le_bytes f.2 v) = Some b' ->
  assign buf base f v w = Done tt (put_buf buf b' w).
Proof. intros E Ew. by apply store_buf_done with (b := b). Qed.

Lemma assign_put_again buf base f v w b0 b b' :
  w_bufs w !! buf = Some b0 -> write_bytes b (base + f.1) (le_bytes f.2 v) = Some b' ->
  assign buf base f v (put_buf buf b w) = Done tt (put_buf buf b' w).
Proof.
  intros E Ew. rewrite (assign_put _ _ _ _ _ b b') by (by eapply put_buf_lookup || done).
  by rewrite put_buf_twice.
Qed.

Lemma member_done buf base f w b v :
  w_bufs w !! buf = Some b -> load f.2 b (base + f.1) = Some v -> member buf base f w = Done v w.
Proof. intros E El. by apply load_buf_done with (b := b). Qed.

Lemma sparse_add_done src len b w :
  sparse_file_add_data src len b w = Done tt (set_sparse (mk_sparse src len b :: w_sparse w) w).
Proof. done. Qed.

(** ** The group descriptors *)

(** The assignments to one descriptor. *)
Definition desc_asgs (start header bpg ipg : Z) : list asg :=
  [Num bg_block_bitmap (start + header); Num bg_inode_bitmap (start + header + 1);
   Num bg_inode_table (start + header + 2); Num bg_free_blocks_count bpg;
   Num bg_free_inodes_count ipg; Num bg_used_dirs_count 0].

Lemma desc_asgs_wf start header bpg ipg : Forall asg_wf (desc_asgs start header bpg ipg).
Proof. repeat constructor; apply length_le_bytes. Qed.

Section fill.
Context (info : fs_info) (aux : fs_aux_info) (sb bg_desc : nat) (s : list Z) (bpg ipg : Z).
Context (Hne : sb <> bg_desc) (Hlen : Z.of_nat (length s) = block_size info)
  (Hbs : sizeof_super_block <= block_size info)
  (Hbpg : load 4 s 32 = Some bpg) (Hipg : load 4 s 40 = Some ipg).

Definition header_size (i : Z) : Z := super_blocks info (bg_desc_blocks aux) i.

Lemma queue_backup_done i w :
  w_bufs w !! sb = Some s ->
  exists b, run_asgs 0 [Num s_block_group_nr i] s = Some b /\
    queue_backup_sb info aux sb i w =
      Done tt (set_sparse (mk_sparse (SrcBuf (length (w_bufs w)) 0) (block_size info)
                 (group_start_block info aux i) :: w_sparse w)
              (set_bufs (w_bufs w ++ [b]) w)).
Proof.
  intros E. destruct (run_asgs_some 0 sizeof_super_block [Num s_block_group_nr i] s) as [b Eb];
    [lia|lia|repeat constructor|done|].
  exists b. split; [done|]. cbn in Eb. apply bind_Some in Eb as (b' & Eb & [= ->]).
  unfold queue_backup_sb. rewrite (mbind_done _ _ _ _ _ (calloc_done _ w)).
  set (w1 := set_bufs _ w). set (id := length (w_bufs w)).
  assert (E1 : w_bufs w1 !! sb = Some s).
  { cbn. rewrite lookup_app_l; [done|]. by eapply lookup_lt_Some. }
  assert (E2 : w_bufs w1 !! id = Some (replicate (Z.to_nat (block_size info)) 0)).
  { cbn. by rewrite lookup_app_r, Nat.sub_diag by lia. }
  erewrite mbind_done.
  2: { eapply copy_from_buf_done; [exact E1|]. unfold read_bytes. rewrite decide_True by lia.
       rewrite drop_0, take_ge by lia. done. }
  erewrite mbind_done.
  2: { eapply copy_to_buf_done; [exact E2|]. rewrite write_bytes_some by (rewrite ?length_replicate; lia).
       rewrite drop_ge, app_nil_r by (rewrite length_replicate; lia). cbn [take app Z.to_nat]. done. }
  change (set_bufs (<[id := s]> (w_bufs w1)) w1) with (put_buf id s w1).
  erewrite mbind_done by (eapply assign_put_again; [exact E2|exact Eb]).
  unfold sparse_file_add_data, modify. f_equal. unfold put_buf, w1, id, set_sparse, set_bufs. cbn.
  f_equal. rewrite insert_app_r_alt by lia. by rewrite Nat.sub_diag.
Qed.

Lemma fill_group_spec i w d :
  w_bufs w !! sb = Some s -> w_bufs w !! bg_desc = Some d -> 0 <= i ->
  (i + 1) * sizeof_group_desc <= Z.of_nat (length d) ->
  exists w' d',
    fill_group info aux sb bg_desc i w = Done tt w' /\
    run_asgs (i * sizeof_group_desc)
      (desc_asgs (group_start_block info aux i) (header_size i) bpg ipg) d = Some d' /\
    w_bufs w' !! sb = Some s /\ w_bufs w' !! bg_desc = Some d' /\
    w_bgs w' = w_bgs w /\ w_heap w' = w_heap w.
Proof.
  intros Es Ed Hi Hd. unfold sizeof_group_desc in *.
  assert (Hstart : exists w1, (if ext4_bg_has_super_block info i then
       (if i =? 0 then mret' tt else queue_backup_sb info aux sb i);;;
       sparse_file_add_data (SrcBuf bg_desc 0) (u32 (bg_desc_blocks aux * block_size info))
         (u32 (group_start_block info aux i + 1));;;
       mret' (u32 (1 + bg_desc_blocks aux + bg_desc_reserve_blocks info))
     else mret' 0) w = Done (header_size i) w1 /\
     w_bufs w1 !! sb = Some s /\ w_bufs w1 !! bg_desc = Some d /\
     w_bgs w1 = w_bgs w /\ w_heap w1 = w_heap w).
  { unfold header_size, super_blocks. destruct (ext4_bg_has_super_block info i); [|by exists w].
    destruct (Z.eqb_spec i 0); [by eexists|].
    destruct (queue_backup_done i w Es) as (b & _ & Eq). rewrite (mbind_done _ _ _ _ _ Eq).
    eexists. split; [done|]. cbn. rewrite !lookup_app_l by (by eapply lookup_lt_Some). done. }
  destruct Hstart as (w1 & E1 & Es1 & Ed1 & Hg & Hh).
  destruct (run_asgs_some (i * 32) 32 (desc_asgs (group_start_block info aux i) (header_size i) bpg ipg) d)
    as [d' Ed']; [lia|lia|apply desc_asgs_wf|done|].
  exists (put_buf bg_desc d' w1), d'. unfold fill_group. rewrite (mbind_done _ _ _ _ _ E1).
  split; [|split; [done|]].
  2: { rewrite put_buf_lookup_ne by done. by erewrite put_buf_lookup. }
  cbn in Ed'. repeat match goal with H : _ ≫= _ = Some _ |- _ => apply bind_Some in H as (? & ? & ?) end.
  simplify_eq.
  erewrite mbind_done by (eapply assign_put; [exact Ed1|eassumption]).
  do 2 (erewrite mbind_done by (eapply assign_put_again; [exact Ed1|eassumption])).
  erewrite mbind_done by (eapply member_done; [rewrite put_buf_lookup_ne by done; exact Es1|exact Hbpg]).
  erewrite mbind_done by (eapply assign_put_again; [exact Ed1|eassumption]).
  erewrite mbind_done by (eapply member_done; [rewrite put_buf_lookup_ne by done; exact Es1|exact Hipg]).
  erewrite mbind_done by (eapply assign_put_again; [exact Ed1|eassumption]).
  eapply assign_put_again; [exact Ed1|eassumption].
Qed.

(** A member of descriptor [i] in the table [d]. *)
Definition desc_member (d : list Z) (i : Z) (f : field) : option Z :=
  load f.2 d (i * sizeof_group_desc + f.1).

Lemma fill_groups_spec gs w d :
  w_bufs w !! sb = Some s -> w_bufs w !! bg_desc = Some d -> NoDup gs ->
  (forall i, i ∈ gs -> 0 <= i /\ (i + 1) * sizeof_group_desc <= Z.of_nat (length d)) ->
  exists w' d',
    fill_groups info aux sb bg_desc gs w = Done tt w' /\
    w_bufs w' !! sb = Some s /\ w_bufs w' !! bg_desc = Some d' /\ length d' = length d /\
    w_bgs w' = w_bgs w /\ w_heap w' = w_heap w /\
    (forall i f v, i ∈ gs -> 0 <= f.1 -> f.1 + Z.of_nat f.2 <= sizeof_group_desc ->
       find_asg f (desc_asgs (group_start_block info aux i) (header_size i) bpg ipg) = Some (le_bytes f.2 v) ->
       desc_member d' i f = Some (v mod 256 ^ Z.of_nat f.2)) /\
    (forall j f, j ∉ gs -> 0 <= f.1 -> f.1 + Z.of_nat f.2 <= sizeof_group_desc ->
       desc_member d' j f = desc_member d j f).
Proof.
  revert w d. induction gs as [|i gs IH]; intros w d Es Ed Hnd Hgs.
  { exists w, d. split_and!; try done. by intros i f v ?%not_elem_of_nil. }
  apply NoDup_cons in Hnd as [Hni Hnd].
  destruct (Hgs i) as [Hi Hd]; [apply elem_of_cons; by left|].
  destruct (fill_group_spec i w d Es Ed Hi Hd) as (w1 & d1 & E1 & Er & Es1 & Ed1 & Hg1 & Hh1).
  pose proof (run_asgs_length _ _ _ _ Er) as Hl1.
  destruct (IH w1 d1 Es1 Ed1 Hnd) as (w' & d' & E' & Es' & Ed' & Hl' & Hg' & Hh' & Hin & Hout).
  { intros j Hj. rewrite Hl1. apply Hgs, elem_of_cons. by right. }
  exists w', d'. cbn [fill_groups]. rewrite (mbind_done _ _ _ _ _ E1).
  split_and!; [done..|congruence|congruence|congruence| |].
  - intros j f v Hj H1 H2 Hf. destruct (decide (j ∈ gs)) as [Hjg|Hjg]; [by apply Hin|].
    apply elem_of_cons in Hj as [->|]; [|done].
    rewrite Hout by done. unfold desc_member.
    by apply (run_asgs_load _ _ _ d d1 v Er (desc_asgs_wf _ _ _ _)).
  - intros j f [Hji Hjg]%not_elem_of_cons H1 H2. rewrite Hout by done.
    unfold desc_member, load. f_equal.
    apply (run_asgs_outside _ sizeof_group_desc _ _ _ _ _ Er (desc_asgs_wf _ _ _ _)); [done|].
    unfold sizeof_group_desc in *. lia.
Qed.
End fill.

(** ** The whole of [ext4_fill_in_sb] *)

Lemma log_2_pow k : 0 <= k <= 20 -> log_2 (2 ^ k) = Some k.
Proof.
  intros Hk. assert (H : forallb (fun k => bool_decide (log_2 (2 ^ k) = Some k)) (seqZ 0 21) = true)
    by (vm_compute; reflexivity).
  rewrite List.forallb_forall in H. eapply bool_decide_eq_true. apply H, list_elem_of_In, elem_of_seqZ. lia.
Qed.

Lemma block_size_log info k :
  block_size info = 1024 * 2 ^ k -> 0 <= k <= 20 -> log_2 (block_size info / 1024) = Some k.
Proof. intros -> Hk. rewrite Z.mul_comm, Z.div_mul by lia. by apply log_2_pow. Qed.

(** What the caller of [ext4_fill_in_sb] must have set up: the two buffers, and a
    label and a hash context that the hash accepts. *)
Record super_ready (info : fs_info) (aux : fs_aux_info) (sb bg_desc : nat) (ctx : SHA1_CTX) (k : Z)
    (w : world) : Prop := {
  sr_ne : sb <> bg_desc;
  sr_ctx : length (c_buffer ctx) = 64%nat;
  sr_label : Forall is_byte (fs_label info) /\ Z.of_nat (length (fs_label info)) < 2 ^ 29;
  sr_bs : block_size info = 1024 * 2 ^ k /\ 0 <= k <= 20;
  sr_sb : exists s, w_bufs w !! sb = Some s /\ Z.of_nat (length s) = block_size info;
  sr_desc : exists d, w_bufs w !! bg_desc = Some d /\
              groups aux * sizeof_group_desc <= Z.of_nat (length d);
  sr_groups : 0 <= groups aux
}.

Lemma block_size_min info k : block_size info = 1024 * 2 ^ k -> 0 <= k -> 1024 <= block_size info.
Proof. intros -> Hk. pose proof (Z.pow_pos_nonneg 2 k). lia. Qed.

Lemma ext4_fill_in_sb_spec info aux sb bg_desc ctx k w :
  super_ready info aux sb bg_desc ctx k w ->
  exists w' s s' d' uuid,
    ext4_fill_in_sb info aux sb bg_desc ctx w = Done tt w' /\
    w_bufs w !! sb = Some s /\ w_bufs w' !! sb = Some s' /\ w_bufs w' !! bg_desc = Some d' /\
    length s' = length s /\ length uuid = 16%nat /\
    run_asgs 0 (sb_asgs info aux k uuid) s = Some s' /\
    w_bgs w' = w_bgs w /\ w_heap w' = w_heap w /\
    groups aux * sizeof_group_desc <= Z.of_nat (length d') /\
    (forall i f v, 0 <= i < groups aux -> 0 <= f.1 -> f.1 + Z.of_nat f.2 <= sizeof_group_desc ->
       find_asg f (desc_asgs (group_start_block info aux i) (header_size info aux i)
         (u32 (blocks_per_group info)) (u32 (inodes_per_group info))) = Some (le_bytes f.2 v) ->
       desc_member d' i f = Some (v mod 256 ^ Z.of_nat f.2)).
Proof.
  intros [Hne Hctx [Hlb Hll] [Hbs Hk] (s & Es & Hs) (d & Ed & Hd) Hgr].
  pose proof (block_size_min _ _ Hbs ltac:(lia)) as Hmin.
  assert (Hu : exists uuid, generate_uuid ctx (str "extandroid/make_ext4fs") (fs_label info) = Some uuid /\
                 length uuid = 16%nat).
  { eexists. apply generate_uuid_spec; try done. repeat constructor; done. }
  destruct Hu as (uuid & Eu & Hu).
  destruct (run_asgs_some 0 sizeof_super_block (sb_asgs info aux k uuid) s) as [s' Es'];
    [lia|unfold sizeof_super_block; lia|by apply sb_asgs_wf|apply sb_asgs_in|].
  pose proof (run_asgs_length _ _ _ _ Es') as Hs'.
  pose proof (sb_asgs_find info aux k uuid) as Hf. cbv zeta in Hf.
  pose proof (sb_asgs_wf info aux k uuid Hu) as Hwf.
  destruct Hf as (_ & _ & _ & _ & _ & Hbpg & Hipg & _).
  pose proof (run_asgs_load _ _ _ _ _ _ Es' Hwf Hbpg) as Lb.
  pose proof (run_asgs_load _ _ _ _ _ _ Es' Hwf Hipg) as Li.
  set (w1 := put_buf sb s' w).
  destruct (fill_groups_spec info aux sb bg_desc s' (u32 (blocks_per_group info))
      (u32 (inodes_per_group info)) Hne ltac:(lia) ltac:(unfold sizeof_super_block; lia) Lb Li
      (seqZ 0 (groups aux)) w1 d) as (w' & d' & E & Es1 & Ed1 & Hl & Hg & Hh & Hin & _).
  - by eapply put_buf_lookup.
  - unfold w1. by rewrite put_buf_lookup_ne.
  - apply NoDup_seqZ.
  - intros i Hi%elem_of_seqZ. unfold sizeof_group_desc in *. lia.
  - exists w', s, s', d', uuid. unfold ext4_fill_in_sb.
    rewrite (block_size_log _ k) by done. cbn [deref]. rewrite (mbind_done _ _ _ k w) by done.
    rewrite Eu. cbn [deref]. rewrite (mbind_done _ _ _ uuid w) by done.
    erewrite mbind_done by (eapply with_buf_done; [exact Es|by rewrite Es']).
    split_and!; try done.
    + by rewrite Hl.
    + intros i f v Hi. apply Hin, elem_of_seqZ. lia.
Qed.
