(* ===== verification/Geometry.v ===== *)
(** * The derived geometry (ext4_create_fs_aux_info and the sparse superblocks) *)

From S2P Require Import Prelude Bytes Ext4Info Inode Bitmap BlockGroup Regions Alloc AllocSpec.

(** ** The sparse superblock rule *)

(** [ext4_bg_has_super_block] is the sparse rule: every group without the
    feature, otherwise groups 0 and 1 and the powers of 3, 5 and 7; the division
    loop always ends. *)
Theorem ext4_bg_has_super_block_correct (info : fs_info) (bg : Z) (Hbg : 0 <= bg) :
  ext4_bg_has_super_block info bg = true <->
  Z.land (feat_ro_compat info) EXT4_FEATURE_RO_COMPAT_SPARSE_SUPER = 0 \/ bg = 0 \/
  exists b k, (b = 3 \/ b = 5 \/ b = 7) /\ 0 <= k /\ bg = b ^ k.
Proof.
  unfold ext4_bg_has_super_block.
  destruct (Z.eqb_spec (Z.land (feat_ro_compat info) EXT4_FEATURE_RO_COMPAT_SPARSE_SUPER) 0) as [|Hf];
    [by split; auto|].
  destruct (Z.eqb_spec bg 0) as [->|H0]; [by split; auto|].
  destruct (Z.eqb_spec bg 1) as [->|H1].
  { split; [|done]. intros _. do 2 right. exists 3, 0. split_and!; [by left|lia|reflexivity]. }
  cbn [orb]. rewrite !orb_true_iff, !power_test_spec by lia. split.
  - intros [[(k & Hk & ->)|(k & Hk & ->)]|(k & Hk & ->)]; do 2 right;
      [exists 3, k|exists 5, k|exists 7, k]; (split_and!; [by auto|lia|done]).
  - intros [|[|(b & k & Hb & Hk & E)]]; [done|done|].
    assert (k <> 0) by (intros ->; rewrite Z.pow_0_r in E; done).
    destruct Hb as [->|[->| ->]]; [left; left|left; right|right]; exists k; (split; [lia|done]).
Qed.

Lemma ext4_bg_has_super_block_correct_witness :
  ext4_bg_has_super_block (mk_fs_info 0 4096 1 1 1 1 1 1 0 0 0 [] 0) 49 = true <->
  Z.land 1 EXT4_FEATURE_RO_COMPAT_SPARSE_SUPER = 0 \/ 49 = 0 \/
  exists b k, (b = 3 \/ b = 5 \/ b = 7) /\ 0 <= k /\ 49 = b ^ k.
Proof.
  apply (ext4_bg_has_super_block_correct (mk_fs_info 0 4096 1 1 1 1 1 1 0 0 0 [] 0) 49). discriminate.
Defined.

(** ** The groups *)

(** Parameters for which no computation of [ext4_create_fs_aux_info] wraps, with
    blocks above 1024 bytes, and a group larger than the largest header. *)
Record sane_info (info : fs_info) : Prop := {
  si_bs : 1024 < block_size info < 2 ^ 28;
  si_bpg : 3 <= blocks_per_group info <= 8 * block_size info;
  si_len : 0 <= fs_len info;
  si_blocks : fs_len info / block_size info + blocks_per_group info < 2 ^ 32 - 1;
  si_inodes : 0 <= inodes_per_group info /\ 0 <= inode_size info /\
    inodes_per_group info * inode_size info + block_size info < 2 ^ 32;
  si_reserve : 0 <= bg_desc_reserve_blocks info;
  si_header : 3 + DIV_ROUND_UP (inodes_per_group info * inode_size info) (block_size info) +
    DIV_ROUND_UP (DIV_ROUND_UP (fs_len info / block_size info) (blocks_per_group info) * 32)
      (block_size info) + bg_desc_reserve_blocks info <= blocks_per_group info
}.

(** The geometry without the machine's reductions: [n] blocks, the tail of the
    last group dropped when it does not hold its header. *)
Definition plain_itb (info : fs_info) : Z :=
  DIV_ROUND_UP (inodes_per_group info * inode_size info) (block_size info).
Definition plain_desc (info : fs_info) : Z :=
  DIV_ROUND_UP (DIV_ROUND_UP (fs_len info / block_size info) (blocks_per_group info) * 32) (block_size info).
Definition plain_header (info : fs_info) (i : Z) : Z :=
  2 + plain_itb info +
  (if ext4_bg_has_super_block info i then 1 + plain_desc info + bg_desc_reserve_blocks info else 0).
Definition plain_geometry (info : fs_info) : Z * Z :=
  let n := fs_len info / block_size info in
  let g := DIV_ROUND_UP n (blocks_per_group info) in
  let r := n mod blocks_per_group info in
  if (0 <? r) && (r <? plain_header info (g - 1)) then (n - r, g - 1) else (n, g).

Lemma DIV_ROUND_UP_bounds x y : 0 <= x -> 0 < y -> x <= y * DIV_ROUND_UP x y < x + y.
Proof.
  intros Hx Hy. unfold DIV_ROUND_UP.
  pose proof (Z.div_mod (x + y - 1) y ltac:(lia)). pose proof (Z.mod_pos_bound (x + y - 1) y Hy). lia.
Qed.

Lemma create_fs_aux_info_plain info :
  sane_info info ->
  let aux := ext4_create_fs_aux_info info in
  first_data_block aux = 0 /\ inode_table_blocks aux = plain_itb info /\
  bg_desc_blocks aux = plain_desc info /\ (len_blocks aux, groups aux) = plain_geometry info.
Proof.
  intros [Hbs Hbpg Hlen Hblk (Hi1 & Hi2 & Hi3) Hres Hhdr].
  set (n := fs_len info / block_size info) in *.
  assert (Hn : 0 <= n) by (apply Z.div_pos; lia).
  pose proof (DIV_ROUND_UP_bounds n (blocks_per_group info) Hn ltac:(lia)) as Hg.
  set (g := DIV_ROUND_UP n (blocks_per_group info)) in *.
  assert (Hg0 : 0 <= g) by (apply Z.div_pos; lia).
  assert (Hg1 : g < 2 ^ 31) by nia.
  pose proof (DIV_ROUND_UP_bounds (g * 32) (block_size info) ltac:(lia) ltac:(lia)) as Hd.
  set (d := DIV_ROUND_UP (g * 32) (block_size info)) in *.
  assert (Hd0 : 0 <= d) by (apply Z.div_pos; lia).
  set (t := DIV_ROUND_UP (inodes_per_group info * inode_size info) (block_size info)) in *.
  assert (Hip : 0 <= inodes_per_group info * inode_size info) by nia.
  assert (Ht0 : 0 <= t) by (apply Z.div_pos; lia).
  assert (Efdb : (if 1024 <? block_size info then 0 else 1) = 0)
    by (destruct (Z.ltb_spec 1024 (block_size info)); lia).
  assert (En : u64 (Z.quot (fs_len info) (block_size info)) = n)
    by (rewrite Z.quot_div_nonneg, u64_small by lia; done).
  assert (Et : u32 (u32 (inodes_per_group info * inode_size info) + block_size info - 1) / block_size info = t)
    by (rewrite (u32_small (_ * _)), u32_small by lia; done).
  assert (Eg : u32 (u64 (u64 (n - 0) + blocks_per_group info - 1) / blocks_per_group info) = g).
  { rewrite (u64_small (n - 0)), u64_small, Z.sub_0_r by lia. apply u32_small.
    change ((n + blocks_per_group info - 1) / blocks_per_group info) with g. lia. }
  assert (Ed : u32 (u64 (g * sizeof_group_desc + block_size info - 1) / block_size info) = d).
  { unfold sizeof_group_desc. rewrite u64_small by lia. apply u32_small.
    change ((g * 32 + block_size info - 1) / block_size info) with d. nia. }
  pose proof (Z.mod_pos_bound n (blocks_per_group info) ltac:(lia)) as Hr.
  unfold ext4_create_fs_aux_info. cbv zeta. rewrite Efdb, En, Et, Eg, Ed.
  cbn [first_data_block inode_table_blocks bg_desc_blocks len_blocks groups].
  split_and!; [done..|].
  unfold plain_geometry, plain_header, plain_itb, plain_desc. fold n g d t.
  rewrite (u32_small (n mod _)) by lia.
  destruct (Z.ltb_spec 0 (n mod blocks_per_group info)) as [Hpos|]; [|done]. cbn [andb].
  pose proof (Z.mod_le n (blocks_per_group info) ltac:(lia) ltac:(lia)) as Hrn.
  assert (1 <= g) by nia.
  rewrite (u32_small (g - 1)), s32_small by lia.
  unfold super_blocks. rewrite (u32_small (1 + d + _)) by lia.
  rewrite u32_small by (destruct (ext4_bg_has_super_block _ _); lia).
  destruct (n mod blocks_per_group info <? _); [|done].
  rewrite u64_small; [done|lia].
Qed.

Lemma bg_header_plain info i :
  sane_info info -> bg_header_blocks info (ext4_create_fs_aux_info info) i = plain_header info i.
Proof.
  intros Hs. destruct (create_fs_aux_info_plain info Hs) as (_ & Et & Ed & _).
  unfold bg_header_blocks, super_blocks, plain_header. rewrite Et, Ed.
  destruct Hs as [Hbs Hbpg Hlen _ (? & ? & _) Hres Hhdr]. fold (plain_itb info) (plain_desc info) in Hhdr.
  assert (0 <= plain_itb info) by (apply Z.div_pos; nia).
  assert (0 <= plain_desc info).
  { apply Z.div_pos; [|lia]. assert (0 <= DIV_ROUND_UP (fs_len info / block_size info) (blocks_per_group info)); [|lia].
    apply Z.div_pos; [|lia]. pose proof (Z.div_pos (fs_len info) (block_size info) Hlen ltac:(lia)). lia. }
  destruct (ext4_bg_has_super_block info i); [|done]. by rewrite u32_small by lia.
Qed.

Lemma geometry_spec info :
  sane_info info ->
  let aux := ext4_create_fs_aux_info info in
  geometry info aux /\ (forall i, 0 <= i < groups aux -> group_fits info aux i).
Proof.
  intros Hs aux. destruct (create_fs_aux_info_plain info Hs) as (Ef & Et & Ed & Eg).
  pose proof (fun i => bg_header_plain info i Hs) as Hh. fold aux in Ef, Et, Ed, Eg, Hh.
  clearbody aux.
  destruct Hs as [Hbs Hbpg Hlen Hblk (Hi1 & Hi2 & _) Hres Hhdr].
  fold (plain_itb info) (plain_desc info) in Hhdr.
  set (n := fs_len info / block_size info) in *.
  assert (Hn : 0 <= n) by (apply Z.div_pos; lia).
  assert (Hitb : 0 <= plain_itb info) by (apply Z.div_pos; nia).
  pose proof (DIV_ROUND_UP_bounds n (blocks_per_group info) Hn ltac:(lia)) as Hg.
  assert (Hd0 : 0 <= plain_desc info).
  { apply Z.div_pos; [|lia]. fold n. assert (0 <= DIV_ROUND_UP n (blocks_per_group info)); [|lia].
    apply Z.div_pos; lia. }
  unfold plain_geometry in Eg. fold n in Eg.
  set (g := DIV_ROUND_UP n (blocks_per_group info)) in *.
  pose proof (Z.div_mod n (blocks_per_group info) ltac:(lia)) as Hdm.
  pose proof (Z.mod_pos_bound n (blocks_per_group info) ltac:(lia)) as Hr.
  set (r := n mod blocks_per_group info) in *. set (q := n / blocks_per_group info) in *.
  assert (Hq : 0 <= q) by (apply Z.div_pos; lia).
  assert (Hgq : (r = 0 /\ g = q) \/ (0 < r /\ g = q + 1)) by nia.
  assert (Hsmall : forall i, plain_header info i <= blocks_per_group info).
  { intros i. unfold plain_header. destruct (ext4_bg_has_super_block info i); lia. }
  assert (Hcase : (len_blocks aux = blocks_per_group info * groups aux /\ 0 <= groups aux /\ len_blocks aux <= n) \/
    (len_blocks aux = n /\ groups aux = q + 1 /\ plain_header info q <= r)).
  { destruct (Z.ltb_spec 0 r) as [Hr0|Hr0]; cbn [andb] in Eg.
    - destruct (Z.ltb_spec r (plain_header info (g - 1))) as [Hd|Hd]; injection Eg as -> ->.
      + left. nia.
      + right. replace (g - 1) with q in Hd by lia. lia.
    - injection Eg as -> ->. left. nia. }
  split.
  - split; rewrite ?Ef; nia.
  - intros i Hi. split; rewrite ?Ef, ?Et, ?Hh; try lia; [apply Hsmall|].
    destruct Hcase as [(-> & _)|(-> & Hg' & Hlast)].
    + specialize (Hsmall i). nia.
    + destruct (decide (i = q)) as [->|]; [lia|]. specialize (Hsmall i). nia.
Qed.

(** C7: on parameters that do not overflow, the geometry of
    [ext4_create_fs_aux_info] is one the block allocator accepts: the header of
    each group fits in what the file system has of it, and all block numbers are
    below the allocator's failure value. *)
Theorem ext4_create_fs_aux_info_fits (info : fs_info) (Hs : sane_info info) :
  let aux := ext4_create_fs_aux_info info in
  geometry info aux /\ (forall i, 0 <= i < groups aux -> group_fits info aux i).
Proof.
  intros aux. destruct (geometry_spec info Hs) as [Hgeo Hfit].
  split; [exact Hgeo|]. intros i Hi. by apply Hfit.
Qed.

(** A 64 MB image of 4096-byte blocks. *)
Definition image_info : fs_info :=
  mk_fs_info 67108864 4096 32768 4096 256 4096 1024 EXT4_FEATURE_RO_COMPAT_SPARSE_SUPER 0 0 7 [] 0.

Lemma image_info_sane : sane_info image_info.
Proof. split; vm_compute; intuition discriminate. Qed.

Lemma ext4_create_fs_aux_info_fits_witness :
  let aux := ext4_create_fs_aux_info image_info in
  geometry image_info aux /\ (forall i, 0 <= i < groups aux -> group_fits image_info aux i).
Proof. apply (ext4_create_fs_aux_info_fits image_info image_info_sane). Defined.
