(* ===== verification/SuperProps.v ===== *)
(** * Properties of the superblock and the group descriptors (ext4_utils.c) *)

From Stdlib Require Import String.
From S2P Require Import Prelude Bytes Layout Crc16 Sha1 Uuid Ext4Info Inode Bitmap BlockGroup Regions Alloc AllocSpec Buffers Super SuperSpec Geometry.

(** ** The descriptors and the allocator *)

(** C5: [ext4_fill_in_sb] succeeds, and the three block numbers of each group's
    descriptor are the blocks at which the allocator queues that group's bitmaps
    and inode table. *)
Theorem ext4_fill_in_sb_correct (force : bool) (info : fs_info) (aux : fs_aux_info) (sb bg_desc : nat)
    (ctx : SHA1_CTX) (k : Z) (w : world)
  (Hready : super_ready info aux sb bg_desc ctx k w) :
  exists w' d, ext4_fill_in_sb info aux sb bg_desc ctx w = Done tt w' /\
    w_bufs w' !! bg_desc = Some d /\ w_bgs w' = w_bgs w /\
    forall i, 0 <= i < groups aux ->
      desc_member d i bg_inode_bitmap = (fun b => u32 (b + 1)) <$> desc_member d i bg_block_bitmap /\
      (forall w1 w2, init_group force info aux i w1 = Done tt w2 ->
         exists b, desc_member d i bg_block_bitmap = Some b /\
           w_sparse w2 = mk_sparse (SrcBitmaps i) (u32 (2 * block_size info)) b :: w_sparse w1) /\
      (forall w1 bg, zget (w_bgs w1) i = Some bg -> inode_table bg = None ->
         first_block bg = group_start_block info aux i ->
         has_superblock bg = ext4_bg_has_super_block info i ->
         exists b w2, desc_member d i bg_inode_table = Some b /\
           allocate_bg_inode_table info aux i w1 = Done tt w2 /\
           w_sparse w2 = mk_sparse (SrcInodeTable i)
             (u32 (inode_table_blocks aux * block_size info)) b :: w_sparse w1).
Proof.
  destruct (ext4_fill_in_sb_spec _ _ _ _ _ _ _ Hready)
    as (w' & s & s' & d & uuid & E & _ & _ & Ed & _ & _ & _ & Hg & _ & _ & Hin).
  exists w', d. split_and!; [done..|]. intros i Hi.
  set (st := group_start_block info aux i) in *. set (h := header_size info aux i) in *.
  pose proof (Hin i bg_block_bitmap (st + h) Hi ltac:(done) ltac:(done) eq_refl) as H0.
  pose proof (Hin i bg_inode_bitmap (st + h + 1) Hi ltac:(done) ltac:(done) eq_refl) as H1.
  pose proof (Hin i bg_inode_table (st + h + 2) Hi ltac:(done) ltac:(done) eq_refl) as H2.
  change (256 ^ Z.of_nat bg_block_bitmap.2) with (2 ^ 32) in H0.
  change (256 ^ Z.of_nat bg_inode_bitmap.2) with (2 ^ 32) in H1.
  change (256 ^ Z.of_nat bg_inode_table.2) with (2 ^ 32) in H2.
  split_and!.
  - rewrite H0, H1. cbn. f_equal. unfold u32. by rewrite Zplus_mod_idemp_l.
  - intros w1 w2 Ei. eexists. split; [exact H0|].
    unfold init_group in Ei.
    rewrite (mbind_done _ _ _ _ _ (sparse_add_done _ _ _ _)) in Ei. unfold with_bg, zoom in Ei.
    destruct (zget _ i); [|done]. destruct (init_bg force info aux i _); try done.
    injection Ei as _ <-. done.
  - intros w1 bg Ebg Hnone Hf Hsup. unfold allocate_bg_inode_table.
    eexists _, _. split; [exact H2|]. unfold get.
    rewrite (mbind_done _ _ _ _ _ (with_bg_get (fun g => g) _ _ _ Ebg)), Hnone.
    erewrite mbind_done by (eapply with_bg_done; [exact Ebg|done]).
    rewrite (mbind_done _ _ _ _ _ (sparse_add_done _ _ _ _)).
    erewrite with_bg_done; [|cbn; rewrite zget_insert, decide_True by (done || by eapply zget_some_inv); done|done].
    split; [done|]. cbn. do 2 f_equal. rewrite Hf, Hsup. subst h st. unfold header_size, super_blocks.
    generalize (group_start_block info aux i) as st. intros st.
    unfold u32. change (2 ^ 32) with 4294967296.
    destruct (ext4_bg_has_super_block info i); dlia.
Qed.

(** A superblock and a descriptor buffer for [image_info]. *)
Definition image_aux : fs_aux_info := ext4_create_fs_aux_info image_info.
Definition image_world : world :=
  mk_world [] (mk_rheap ∅ 0) [] [replicate (Z.to_nat 4096) 0; replicate (Z.to_nat 4096) 0] [].
Definition image_ctx : SHA1_CTX := mk_ctx [] 0 0 (replicate 64 0).

Lemma image_ready : super_ready image_info image_aux 0 1 image_ctx 2 image_world.
Proof.
  split; try done.
  - exists (replicate (Z.to_nat 4096) 0). split; [done|]. by rewrite length_replicate.
  - exists (replicate (Z.to_nat 4096) 0). split; [done|]. by rewrite length_replicate.
Qed.

Lemma ext4_fill_in_sb_correct_witness :
  exists w' d, ext4_fill_in_sb image_info image_aux 0 1 image_ctx image_world = Done tt w' /\
    w_bufs w' !! 1%nat = Some d /\ w_bgs w' = w_bgs image_world /\
    forall i, 0 <= i < groups image_aux ->
      desc_member d i bg_inode_bitmap = (fun b => u32 (b + 1)) <$> desc_member d i bg_block_bitmap /\
      (forall w1 w2, init_group true image_info image_aux i w1 = Done tt w2 ->
         exists b, desc_member d i bg_block_bitmap = Some b /\
           w_sparse w2 = mk_sparse (SrcBitmaps i) (u32 (2 * block_size image_info)) b :: w_sparse w1) /\
      (forall w1 bg, zget (w_bgs w1) i = Some bg -> inode_table bg = None ->
         first_block bg = group_start_block image_info image_aux i ->
         has_superblock bg = ext4_bg_has_super_block image_info i ->
         exists b w2, desc_member d i bg_inode_table = Some b /\
           allocate_bg_inode_table image_info image_aux i w1 = Done tt w2 /\
           w_sparse w2 = mk_sparse (SrcInodeTable i)
             (u32 (inode_table_blocks image_aux * block_size image_info)) b :: w_sparse w1).
Proof.
  apply (ext4_fill_in_sb_correct true image_info image_aux 0 1 image_ctx 2 image_world image_ready).
Defined.

(** ** Reading the superblock back *)

(** What [ext4_parse_sb] makes of the parameters: the length becomes the blocks'
    total and the inode count is the groups'. *)
Definition parsed_info (old info : fs_info) (aux : fs_aux_info) : fs_info :=
  mk_fs_info (block_size info * len_blocks aux) (block_size info) (blocks_per_group info)
    (inodes_per_group info) (inode_size info) (u32 (inodes_per_group info * groups aux))
    (journal_blocks old) (feat_ro_compat info) (feat_compat info) (feat_incompat info)
    (bg_desc_reserve_blocks info) (fs_label info) (no_journal old).

(** Parameters whose members fit their superblock fields. *)
Record fits_fields (info : fs_info) : Prop := {
  ff_ipg : 0 <= inodes_per_group info < 2 ^ 32;
  ff_isize : 0 <= inode_size info < 2 ^ 16;
  ff_ro : 0 <= feat_ro_compat info < 2 ^ 16;
  ff_compat : 0 <= feat_compat info < 2 ^ 16;
  ff_incompat : 0 <= feat_incompat info < 2 ^ 16;
  ff_reserve : 0 <= bg_desc_reserve_blocks info < 2 ^ 16;
  ff_label : (length (fs_label info) <= 16)%nat /\ Forall (fun c => c <> 0) (fs_label info)
}.

(** The geometry depends on the number of whole blocks, not on the length. *)
Lemma create_same i i' :
  block_size i' = block_size i -> blocks_per_group i' = blocks_per_group i ->
  inodes_per_group i' = inodes_per_group i -> inode_size i' = inode_size i ->
  feat_ro_compat i' = feat_ro_compat i -> bg_desc_reserve_blocks i' = bg_desc_reserve_blocks i ->
  Z.quot (fs_len i') (block_size i) = Z.quot (fs_len i) (block_size i) ->
  ext4_create_fs_aux_info i' = ext4_create_fs_aux_info i.
Proof.
  intros E1 E2 E3 E4 E5 E6 E7.
  unfold ext4_create_fs_aux_info, super_blocks, ext4_bg_has_super_block.
  by rewrite E1, E2, E3, E4, E5, E6, E7.
Qed.

(** Nothing of the geometry changes when the last group was kept. *)
Lemma parsed_geometry old info :
  0 < block_size info -> 0 <= fs_len info ->
  len_blocks (ext4_create_fs_aux_info info) = fs_len info / block_size info ->
  ext4_create_fs_aux_info (parsed_info old info (ext4_create_fs_aux_info info)) = ext4_create_fs_aux_info info.
Proof.
  intros Hb Hl E.
  assert (Eq : Z.quot (fs_len (parsed_info old info (ext4_create_fs_aux_info info))) (block_size info) =
    Z.quot (fs_len info) (block_size info)).
  { cbn [fs_len parsed_info]. rewrite E.
    assert (0 <= fs_len info / block_size info) by (by apply Z.div_pos).
    rewrite !Z.quot_div_nonneg by nia. by rewrite Z.mul_comm, Z.div_mul by lia. }
  by apply create_same.
Qed.

Lemma read_bytes_split b off n m x :
  read_bytes b off (n + m) = Some x -> 0 <= n -> 0 <= m ->
  exists y z, x = y ++ z /\ read_bytes b off n = Some y /\ read_bytes b (off + n) m = Some z.
Proof.
  intros E Hn Hm. unfold read_bytes in *. case_decide; [|done]. injection E as <-.
  rewrite !decide_True by lia. eexists _, _. split; [|done].
  replace (Z.to_nat (off + n)) with (Z.to_nat off + Z.to_nat n)%nat by lia.
  rewrite <-drop_drop, take_take_drop. f_equal. lia.
Qed.

Lemma c_string_app l rest :
  Forall (fun c => c <> 0) l -> c_string (l ++ 0 :: rest) = l.
Proof.
  induction 1 as [|c l Hc _ IH]; [done|]. cbn. rewrite (proj2 (Z.eqb_neq c 0) Hc). by rewrite IH.
Qed.

Lemma strncpy_short n l : (length l <= n)%nat -> exists m, strncpy n l = l ++ replicate m 0.
Proof.
  intros Hl. exists (n - length l)%nat. unfold strncpy.
  rewrite take_app_ge by done. f_equal. rewrite take_replicate. f_equal. lia.
Qed.

Lemma label_read b label :
  (length label <= 16)%nat -> Forall (fun c => c <> 0) label -> (1024 <= length b)%nat ->
  read_bytes b 120 16 = Some (strncpy 16 label) -> read_bytes b 136 64 = Some (replicate 64 0) ->
  exists x, read_bytes b 120 904 = Some x /\ c_string x = label.
Proof.
  intros Hl Hnz Hb H1 H2.
  assert (exists x, read_bytes b 120 (16 + (64 + 824)) = Some x) as [x Hx].
  { unfold read_bytes. rewrite decide_True by lia. by eexists. }
  exists x. split; [exact Hx|].
  destruct (read_bytes_split _ _ _ _ _ Hx ltac:(lia) ltac:(lia)) as (y & z & -> & Ey & Ez).
  rewrite H1 in Ey. injection Ey as <-.
  destruct (read_bytes_split _ _ _ _ _ Ez ltac:(lia) ltac:(lia)) as (y' & z' & -> & Ey & _).
  change (120 + 16) with 136 in Ey. rewrite H2 in Ey. injection Ey as <-.
  destruct (strncpy_short 16 label Hl) as [m ->]. rewrite <-app_assoc.
  destruct m as [|m]; cbn [replicate app]; by apply c_string_app.
Qed.

(** The members as [ext4_parse_sb] loads them. *)
Lemma sb_member info aux lg uuid s s' f v w sb :
  length uuid = 16%nat -> run_asgs 0 (sb_asgs info aux lg uuid) s = Some s' -> w_bufs w !! sb = Some s' ->
  find_asg f (sb_asgs info aux lg uuid) = Some (le_bytes f.2 v) ->
  0 <= v < 256 ^ Z.of_nat f.2 -> member sb 0 f w = Done v w.
Proof.
  intros Hu Er Es Hf Hv. eapply member_done; [exact Es|].
  rewrite (run_asgs_load _ _ _ _ _ _ Er (sb_asgs_wf _ _ _ _ Hu) Hf). by rewrite Z.mod_small.
Qed.

Lemma sb_member_mod info aux lg uuid s s' f v w sb :
  length uuid = 16%nat -> run_asgs 0 (sb_asgs info aux lg uuid) s = Some s' -> w_bufs w !! sb = Some s' ->
  find_asg f (sb_asgs info aux lg uuid) = Some (le_bytes f.2 v) ->
  member sb 0 f w = Done (v mod 256 ^ Z.of_nat f.2) w.
Proof.
  intros Hu Er Es Hf. eapply member_done; [exact Es|].
  apply (run_asgs_load _ _ _ _ _ _ Er (sb_asgs_wf _ _ _ _ Hu) Hf).
Qed.

(** The two halves of the block count. *)
Lemma join_blocks n :
  0 <= n < 2 ^ 64 -> u64 (Z.shiftl (Z.shiftr n 32 mod 2 ^ 32) 32 + n mod 2 ^ 32) = n.
Proof.
  intros Hn. rewrite Z.shiftl_mul_pow2, Z.shiftr_div_pow2 by lia.
  rewrite (Z.mod_small (n / 2 ^ 32)).
  - pose proof (Z.div_mod n (2 ^ 32) ltac:(lia)). rewrite u64_small; lia.
  - split; [apply Z.div_pos; lia|]. apply Z.div_lt_upper_bound; lia.
Qed.

(** The buffers that [ext4_create_fs_aux_info] allocates. *)
Definition created (info : fs_info) (w : world) : world :=
  set_xattrs [] (set_bufs (w_bufs w ++
    [replicate (Z.to_nat (block_size info)) 0;
     replicate (Z.to_nat (block_size info * bg_desc_blocks (ext4_create_fs_aux_info info))) 0]) w).

Lemma create_fs_aux_info_done info w :
  block_size info <> 0 -> blocks_per_group info <> 0 ->
  create_fs_aux_info info w =
    Done (ext4_create_fs_aux_info info, length (w_bufs w), S (length (w_bufs w))) (created info w).
Proof.
  intros H1 H2. unfold create_fs_aux_info. rewrite (proj2 (Z.eqb_neq _ _) H1), (proj2 (Z.eqb_neq _ _) H2).
  cbn [orb]. unfold mbind'. rewrite !calloc_done. unfold modify, mret', created. cbn.
  rewrite <-app_assoc, length_app, Nat.add_1_r. done.
Qed.

Lemma created_old info w id b : w_bufs w !! id = Some b -> w_bufs (created info w) !! id = Some b.
Proof. intros H. cbn. rewrite lookup_app_l; [done|by eapply lookup_lt_Some]. Qed.

(** The superblock copied from another buffer. *)
Lemma created_copy info w src b :
  w_bufs w !! src = Some b -> sizeof_super_block <= Z.of_nat (length b) -> 1024 <= block_size info ->
  exists x w', copy_from_buf src 0 sizeof_super_block (created info w) = Done x (created info w) /\
    copy_to_buf (length (w_bufs w)) 0 x (created info w) = Done tt w' /\
    w_bufs w' !! src = Some b.
Proof.
  intros Hb Hl Hbs. pose proof (lookup_lt_Some _ _ _ Hb) as Hlt.
  assert (exists x, read_bytes b 0 sizeof_super_block = Some x /\ length x = 1024%nat) as (x & Ex & Lx).
  { unfold read_bytes, sizeof_super_block in *. rewrite decide_True by lia. eexists. split; [done|].
    rewrite length_take, length_drop. lia. }
  assert (Hnew : w_bufs (created info w) !! length (w_bufs w)
                 = Some (replicate (Z.to_nat (block_size info)) 0))
    by (cbn; by rewrite lookup_app_r, Nat.sub_diag by lia).
  destruct (write_bytes (replicate (Z.to_nat (block_size info)) 0) 0 x) as [n|] eqn:Ew.
  2: { unfold write_bytes in Ew. rewrite decide_True in Ew by (rewrite length_replicate; lia). done. }
  exists x. eexists. rewrite (copy_from_buf_done _ _ _ _ _ _ (created_old _ _ _ _ Hb) Ex).
  rewrite (copy_to_buf_done _ _ _ _ _ _ Hnew Ew). split_and!; [done|done|].
  cbn [w_bufs set_bufs]. rewrite list_lookup_insert_ne by lia. by apply created_old.
Qed.

(** The end of [ext4_parse_sb], on a superblock whose first data block is the derived one. *)
Lemma parse_rest info aux src b w :
  1024 <= block_size info -> blocks_per_group info <> 0 -> ext4_create_fs_aux_info info = aux ->
  w_bufs w !! src = Some b -> sizeof_super_block <= Z.of_nat (length b) ->
  (forall w', w_bufs w' !! src = Some b -> member src 0 s_first_data_block w' = Done (first_data_block aux) w') ->
  exists sb' bg_desc' w2,
    (do (aux, sb, bg_desc) <- create_fs_aux_info info;
     do bytes <- copy_from_buf src 0 sizeof_super_block;
     copy_to_buf sb 0 bytes;;;
     do fdb <- member src 0 s_first_data_block;
     if first_data_block aux =? fdb then mret' (info, aux, sb, bg_desc) else longjmp) w = Done (info, aux, sb', bg_desc') w2.
Proof.
  intros Hbs Hbpg <- Hb Hl Hm. rewrite (mbind_done _ _ _ _ _ (create_fs_aux_info_done info w ltac:(lia) Hbpg)).
  destruct (created_copy info w src b Hb Hl Hbs) as (x & w' & Ex & Ew & Hsb).
  rewrite (mbind_done _ _ _ _ _ Ex), (mbind_done _ _ _ _ _ Ew), (mbind_done _ _ _ _ _ (Hm w' Hsb)), Z.eqb_refl.
  by eexists _, _, _.
Qed.
(** The parameters, from the values of the members. *)
Lemma parsed_members old info aux k label :
  fits_fields info -> block_size info = 1024 * 2 ^ k -> 0 <= k -> 0 <= len_blocks aux < 2 ^ 53 ->
  0 <= block_size info * len_blocks aux < 2 ^ 63 -> c_string label = fs_label info ->
  mk_fs_info (s64 (u64 (Z.shiftl 1024 k *
      u64 (Z.shiftl (Z.shiftr (len_blocks aux) 32 mod 2 ^ 32) 32 + len_blocks aux mod 2 ^ 32))))
    (Z.shiftl 1024 k) (blocks_per_group info) (inodes_per_group info) (inode_size info)
    (u32 (inodes_per_group info * groups aux)) (journal_blocks old) (u16 (feat_ro_compat info)) (u16 (feat_compat info))
    (u16 (feat_incompat info)) (bg_desc_reserve_blocks info) (c_string label) (no_journal old)
  = parsed_info old info aux.
Proof.
  intros [Hipg His Hro Hc Hi Hres [Hl16 Hlz]] Hbs Hk Hn Hmax Hlab.
  assert (Ebs : Z.shiftl 1024 k = block_size info) by (rewrite Z.shiftl_mul_pow2, Hbs by lia; done).
  rewrite Ebs, Hlab, join_blocks by lia. unfold parsed_info, u16.
  rewrite (Z.mod_small (feat_ro_compat info)), (Z.mod_small (feat_compat info)), (Z.mod_small (feat_incompat info)) by lia.
  by rewrite u64_small, s64_small by lia.
Qed.

(** C4: [ext4_parse_sb] of the superblock that [ext4_fill_in_sb] wrote gives the
    parameters and the derived geometry back, for parameters that fit their fields
    and an image whose last group was kept. *)
Theorem superblock_roundtrip (force : bool) (old info : fs_info) (sb bg_desc : nat) (ctx : SHA1_CTX)
    (k : Z) (w : world)
  (Hready : super_ready info (ext4_create_fs_aux_info info) sb bg_desc ctx k w)
  (Hfits : fits_fields info) (Hlen : 0 <= fs_len info) (Hbpg : 0 < blocks_per_group info < 2 ^ 32)
  (Hkept : len_blocks (ext4_create_fs_aux_info info) = fs_len info / block_size info)
  (Hmax : block_size info * len_blocks (ext4_create_fs_aux_info info) < 2 ^ 63) :
  let aux := ext4_create_fs_aux_info info in
  exists w1, ext4_fill_in_sb info aux sb bg_desc ctx w = Done tt w1 /\
  exists sb' bg_desc' w2, ext4_parse_sb force old sb w1 =
    Done (parsed_info old info aux, aux, sb', bg_desc') w2.
Proof.
  intros aux.
  destruct (ext4_fill_in_sb_spec _ _ _ _ _ _ _ Hready)
    as (w1 & s & s' & d & uuid & E & Es & Es' & _ & Hl & Hu & Er & _).
  exists w1. split; [done|]. fold aux in E, Er.
  pose proof (sb_asgs_find info aux k uuid) as Hf. cbv zeta in Hf.
  destruct Hf as (F1 & F2 & F3 & F4 & F5 & F6 & F7 & F8 & F9 & F10 & F11 & F12 & F13 & F14 & F15 & F16 & _).
  destruct Hready as [_ _ _ [Hbs Hk] (s0 & Es0 & Hls) _ Hg]. rewrite Es in Es0. injection Es0 as <-.
  pose proof (block_size_min _ _ Hbs ltac:(lia)) as Hmin.
  pose proof Hfits as [Hipg His Hro Hc Hi Hres [Hl16 Hlz]].
  fold aux in Hkept, Hmax.
  assert (Hn : 0 <= len_blocks aux) by (rewrite Hkept; apply Z.div_pos; lia).
  assert (Hn63 : len_blocks aux < 2 ^ 53) by nia.
  pose proof (parsed_geometry old info ltac:(lia) Hlen Hkept) as Hgeo. fold aux in Hgeo.
  pose proof (Z.mod_pos_bound (len_blocks aux) (2 ^ 32) ltac:(lia)) as Hlo.
  destruct (label_read s' (fs_label info) Hl16 Hlz ltac:(lia)) as (lab & Elab & Hlab);
    [exact (run_asgs_find _ _ _ _ _ _ Er (sb_asgs_wf _ _ _ _ Hu) F15)
    |exact (run_asgs_find _ _ _ _ _ _ Er (sb_asgs_wf _ _ _ _ Hu) F16)|].
  unfold ext4_parse_sb.
  assert (Hmem : forall f v, find_asg f (sb_asgs info aux k uuid) = Some (le_bytes f.2 v) ->
    0 <= v < 256 ^ Z.of_nat f.2 -> member sb 0 f w1 = Done v w1) by (intros; by eapply sb_member).
  erewrite mbind_done by (apply Hmem; [exact F8|done]).
  erewrite mbind_done by reflexivity.
  erewrite mbind_done by (apply Hmem; [exact F9|done]).
  erewrite mbind_done by reflexivity.
  erewrite mbind_done by (apply Hmem; [exact F5|cbn; lia]).
  rewrite (proj2 (Z.leb_le _ _)) by lia. erewrite mbind_done by reflexivity.
  erewrite mbind_done by (apply Hmem; [exact F6|cbn; lia]).
  erewrite mbind_done by (apply Hmem; [exact F7|cbn; lia]).
  erewrite mbind_done by (apply Hmem; [exact F10|cbn; lia]).
  erewrite mbind_done by (eapply sb_member_mod; [exact Hu|exact Er|exact Es'|exact F1]).
  erewrite mbind_done by (apply Hmem; [exact F13|cbn; lia]).
  erewrite mbind_done by (apply Hmem; [exact F11|cbn; lia]).
  erewrite mbind_done by (apply Hmem; [exact F12|cbn; lia]).
  erewrite mbind_done by (apply Hmem; [exact F14|cbn; lia]).
  erewrite mbind_done by (eapply copy_from_buf_done; [exact Es'|exact Elab]).
  erewrite mbind_done by (eapply sb_member_mod; [exact Hu|exact Er|exact Es'|exact F3]).
  erewrite mbind_done by (eapply sb_member_mod; [exact Hu|exact Er|exact Es'|exact F2]).
  assert (Hmem1 : forall w', w_bufs w' !! sb = Some s' -> member sb 0 s_first_data_block w' = Done (first_data_block aux) w').
  { intros w' Hsb. eapply (sb_member info aux k uuid s s'); [exact Hu|exact Er|exact Hsb|exact F4|].
    assert (Hfdb : first_data_block aux = 0 \/ first_data_block aux = 1)
      by (unfold aux; cbn [first_data_block ext4_create_fs_aux_info]; destruct (1024 <? block_size info); auto).
    change (256 ^ Z.of_nat s_first_data_block.2) with (2 ^ 32). lia. }
  pose proof (parsed_members old info aux k lab Hfits Hbs ltac:(lia) ltac:(lia) ltac:(nia) Hlab) as Ei.
  cbv zeta. change (256 ^ Z.of_nat s_blocks_count_hi.2) with (2 ^ 32). change (256 ^ Z.of_nat s_blocks_count_lo.2) with (2 ^ 32).
  change ((inodes_per_group info * groups aux) mod 256 ^ Z.of_nat s_inodes_count.2) with (u32 (inodes_per_group info * groups aux)).
  rewrite Ei. apply (parse_rest _ _ _ s'); try done; unfold sizeof_super_block; cbn; lia.
Qed.

Lemma image_fits : fits_fields image_info.
Proof. split; try (vm_compute; intuition discriminate). split; [cbn; lia|constructor]. Qed.

Lemma superblock_roundtrip_witness :
  let aux := ext4_create_fs_aux_info image_info in
  exists w1, ext4_fill_in_sb image_info aux 0 1 image_ctx image_world = Done tt w1 /\
  exists sb' bg_desc' w2, ext4_parse_sb true image_info 0 w1 =
    Done (parsed_info image_info image_info aux, aux, sb', bg_desc') w2.
Proof.
  apply (superblock_roundtrip true image_info image_info 0 1 image_ctx 2 image_world image_ready image_fits);
    vm_compute; intuition discriminate.
Defined.

(** ** The free counts and the checksums *)

(** The checksum of a group descriptor: the UUID, the group's number and the 30
    bytes before the checksum. *)
Definition group_checksum (uuid : list Z) (i : Z) (desc : list Z) : Z :=
  ext4_crc16 (ext4_crc16 (ext4_crc16 0xFFFF uuid) (le_bytes 4 i)) desc.

(** What descriptor [i] says of the group [bg], [dirs] being its earlier count of
    directories. *)
Definition desc_updated (uuid d : list Z) (i : Z) (bg : block_group_info) (dirs : Z) : Prop :=
  desc_member d i bg_free_blocks_count = Some (u16 (free_blocks_count bg)) /\
  desc_member d i bg_free_inodes_count = Some (u16 (free_inodes_count bg)) /\
  desc_member d i bg_used_dirs_count = Some (u16 (dirs + used_dirs bg)) /\
  desc_member d i bg_flags_field = Some (u16 (bg_flags bg)) /\
  exists x, read_bytes d (i * sizeof_group_desc) 30 = Some x /\
    desc_member d i bg_checksum = Some (u16 (group_checksum uuid i x)).

Definition update_asgs (bg : block_group_info) (dirs : Z) : list asg :=
  [Num bg_free_blocks_count (free_blocks_count bg); Num bg_free_inodes_count (free_inodes_count bg);
   Num bg_used_dirs_count (dirs + used_dirs bg); Num bg_flags_field (bg_flags bg)].

Lemma asgs_num_wf l : Forall (fun a => match a with Num _ _ => True | Raw _ _ => False end) l -> Forall asg_wf l.
Proof.
  intros H. eapply Forall_impl; [exact H|]. intros [f v|f bs] Hf; [|done].
  unfold asg_wf. cbn. apply length_le_bytes.
Qed.

Lemma read_bytes_exists b off n :
  0 <= off -> 0 <= n -> off + n <= Z.of_nat (length b) -> exists x, read_bytes b off n = Some x.
Proof. intros. unfold read_bytes. rewrite decide_True by lia. by eexists. Qed.

Section update.
Context (sb bg_desc : nat) (Hne : sb <> bg_desc).

(** The world with the two buffers replaced. *)
Definition with_bufs (w : world) (s d : list Z) : world := put_buf bg_desc d (put_buf sb s w).

Lemma with_bufs_id w s d :
  w_bufs w !! sb = Some s -> w_bufs w !! bg_desc = Some d -> with_bufs w s d = w.
Proof.
  intros Es Ed. unfold with_bufs, put_buf. rewrite (set_bufs_id _ _ _ Es). by apply set_bufs_id.
Qed.

Section with_bufs.
Context (w : world) (Hs : (sb < length (w_bufs w))%nat) (Hd : (bg_desc < length (w_bufs w))%nat).

Lemma with_bufs_sb s d : w_bufs (with_bufs w s d) !! sb = Some s.
Proof. unfold with_bufs. rewrite put_buf_lookup_ne by done. cbn. by apply list_lookup_insert_eq. Qed.
Lemma with_bufs_desc s d : w_bufs (with_bufs w s d) !! bg_desc = Some d.
Proof. cbn. apply list_lookup_insert_eq. by rewrite length_insert. Qed.

Lemma assign_sb base f v s s' d :
  write_bytes s (base + f.1) (le_bytes f.2 v) = Some s' ->
  assign sb base f v (with_bufs w s d) = Done tt (with_bufs w s' d).
Proof.
  intros E. rewrite (assign_put _ _ _ _ _ _ _ (with_bufs_sb s d) E). f_equal.
  unfold with_bufs, put_buf, set_bufs. cbn.
  by rewrite (list_insert_insert_ne _ sb bg_desc), list_insert_insert_eq by done.
Qed.
Lemma assign_desc base f v s d d' :
  write_bytes d (base + f.1) (le_bytes f.2 v) = Some d' ->
  assign bg_desc base f v (with_bufs w s d) = Done tt (with_bufs w s d').
Proof.
  intros E. rewrite (assign_put _ _ _ _ _ _ _ (with_bufs_desc s d) E). f_equal.
  apply put_buf_twice.
Qed.
Lemma member_sb base f v s d :
  load f.2 s (base + f.1) = Some v -> member sb base f (with_bufs w s d) = Done v (with_bufs w s d).
Proof. intros E. eapply member_done; [apply with_bufs_sb|exact E]. Qed.
Lemma member_desc base f v s d :
  load f.2 d (base + f.1) = Some v -> member bg_desc base f (with_bufs w s d) = Done v (with_bufs w s d).
Proof. intros E. eapply member_done; [apply with_bufs_desc|exact E]. Qed.
End with_bufs.

Lemma update_free_group_spec i w s d uuid bg :
  w_bufs w !! sb = Some s -> w_bufs w !! bg_desc = Some d ->
  sizeof_super_block <= Z.of_nat (length s) -> 0 <= i ->
  (i + 1) * sizeof_group_desc <= Z.of_nat (length d) ->
  zget (w_bgs w) i = Some bg -> read_bytes s s_uuid.1 16 = Some uuid ->
  exists w' s' d' nb ni dirs,
    update_free_group sb bg_desc i w = Done tt w' /\
    w_bufs w' !! sb = Some s' /\ w_bufs w' !! bg_desc = Some d' /\ w_bgs w' = w_bgs w /\
    load 4 s s_free_blocks_count_lo.1 = Some nb /\ load 4 s s_free_inodes_count.1 = Some ni /\
    run_asgs 0 [Num s_free_blocks_count_lo (nb + free_blocks_count bg);
                Num s_free_inodes_count (ni + free_inodes_count bg)] s = Some s' /\
    length d' = length d /\ desc_member d i bg_used_dirs_count = Some dirs /\
    desc_updated uuid d' i bg dirs /\
    (forall j f, j <> i -> 0 <= f.1 -> f.1 + Z.of_nat f.2 <= sizeof_group_desc ->
       read_bytes d' (j * sizeof_group_desc + f.1) (Z.of_nat f.2) =
       read_bytes d (j * sizeof_group_desc + f.1) (Z.of_nat f.2)).
Proof.
  intros Es Ed Hs Hi Hd Ebg Eu. unfold sizeof_super_block, sizeof_group_desc in *.
  destruct (load_some 4 s 12) as [nb Lnb]; [lia|lia|].
  destruct (load_some 4 s 16) as [ni Lni]; [lia|lia|].
  destruct (load_some 2 d (i * 32 + 16)) as [dirs Ldirs]; [lia|lia|].
  set (sasgs := [Num s_free_blocks_count_lo (nb + free_blocks_count bg);
                 Num s_free_inodes_count (ni + free_inodes_count bg)]).
  assert (Hsw : Forall asg_wf sasgs) by (apply asgs_num_wf; repeat constructor).
  destruct (run_asgs_some 0 20 sasgs s) as [s' Es']; [lia|lia|done|done|].
  assert (Hdw : Forall asg_wf (update_asgs bg dirs)) by (apply asgs_num_wf; repeat constructor).
  destruct (run_asgs_some (i * 32) 32 (update_asgs bg dirs) d) as [d4 Ed4]; [lia|lia|done|done|].
  pose proof (run_asgs_length _ _ _ _ Ed4) as Hl4.
  destruct (read_bytes_exists d4 (i * 32) 30) as [x Ex]; [lia|lia|lia|].
  set (crc := group_checksum uuid i x).
  destruct (run_asgs_some (i * 32) 32 [Num bg_checksum crc] d4) as [d' Ed'];
    [lia|lia|apply asgs_num_wf; repeat constructor|done|].
  exists (with_bufs w s' d'), s', d', nb, ni, dirs.
  pose proof (lookup_lt_Some _ _ _ Es) as Hsl. pose proof (lookup_lt_Some _ _ _ Ed) as Hdl.
  split_and!; [|by apply with_bufs_sb|by apply with_bufs_desc|done|done|done|done| |done| |].
  - rewrite <-(with_bufs_id w s d Es Ed) at 1. unfold update_free_group.
    assert (Hget : forall {A} (f : block_group_info -> A) s d,
      with_bg i (fun g => Done (f g) g) (with_bufs w s d) = Done (f bg) (with_bufs w s d))
      by (intros A f s0 d0; by apply with_bg_get).
    assert (Hu' : read_bytes s' 104 16 = Some uuid).
    { rewrite <-Eu. apply (run_asgs_disjoint 0 s_uuid sasgs s s' Es' Hsw). done. }
    assert (Hni : forall s1, run_asgs 0 [Num s_free_blocks_count_lo (nb + free_blocks_count bg)] s = Some s1 ->
      load 4 s1 16 = Some ni).
    { intros s1 E1. rewrite <-Lni. unfold load. f_equal.
      apply (run_asgs_disjoint 0 s_free_inodes_count _ s s1 E1); [|done].
      apply asgs_num_wf; repeat constructor. }
    assert (Hdirs : forall d2, run_asgs (i * 32) [Num bg_free_blocks_count (free_blocks_count bg);
        Num bg_free_inodes_count (free_inodes_count bg)] d = Some d2 -> load 2 d2 (i * 32 + 16) = Some dirs).
    { intros d2 E2. rewrite <-Ldirs. unfold load. f_equal.
      apply (run_asgs_disjoint (i * 32) bg_used_dirs_count _ d d2 E2); [|done].
      apply asgs_num_wf; repeat constructor. }
    cbn in Es', Ed4, Ed', Hni, Hdirs.
    repeat match goal with H : _ ≫= _ = Some _ |- _ => apply bind_Some in H as (? & ? & ?) end.
    simplify_eq.
    unfold get_free_blocks, get_free_inodes, get_directories, get_bg_flags.
    do 2 erewrite mbind_done by apply Hget.
    erewrite mbind_done by (eapply assign_desc; eassumption).
    erewrite mbind_done by (eapply member_sb; eassumption).
    erewrite mbind_done by (eapply assign_sb; eassumption).
    erewrite mbind_done by (eapply assign_desc; eassumption).
    erewrite mbind_done by (eapply member_sb; [eassumption..|]; apply Hni; cbn;
      repeat match goal with H : write_bytes _ _ _ = Some _ |- _ => rewrite H; cbn end; done).
    erewrite mbind_done by (eapply assign_sb; eassumption).
    erewrite mbind_done by (eapply member_desc; [eassumption..|]; apply Hdirs; cbn;
      repeat match goal with H : write_bytes _ _ _ = Some _ |- _ => rewrite H; cbn end; done).
    erewrite mbind_done by apply Hget.
    erewrite mbind_done by (eapply assign_desc; eassumption).
    erewrite mbind_done by apply Hget.
    erewrite mbind_done by (eapply assign_desc; eassumption).
    erewrite mbind_done by (eapply copy_from_buf_done; [by apply with_bufs_sb|exact Hu']).
    erewrite mbind_done by (eapply copy_from_buf_done; [by apply with_bufs_desc|exact Ex]).
    eapply assign_desc; eassumption.
  - by rewrite (run_asgs_length _ _ _ _ Ed').
  - assert (Hcw : Forall asg_wf [Num bg_checksum crc]) by (apply asgs_num_wf; repeat constructor).
    assert (Hm : forall f v, find_asg f (update_asgs bg dirs) = Some (le_bytes f.2 v) ->
      asg_disjoint f (Num bg_checksum crc) = true -> desc_member d' i f = Some (v mod 256 ^ Z.of_nat f.2)).
    { intros f v Hf Hdis. rewrite <-(run_asgs_load _ _ _ _ _ _ Ed4 Hdw Hf).
      unfold desc_member, load. f_equal. apply (run_asgs_disjoint _ f _ _ _ Ed' Hcw). cbn [forallb].
      by rewrite Hdis. }
    unfold desc_updated. split_and!; [by apply Hm..|].
    exists x. split.
    + rewrite <-Ex. pose proof (run_asgs_disjoint (i * 32) (0, 30%nat) _ _ _ Ed' Hcw eq_refl) as E.
      cbn in E. by rewrite Z.add_0_r in E.
    + by apply (run_asgs_load (i * 32) bg_checksum _ d4 d' crc Ed' Hcw).
  - intros j f Hj H1 H2.
    rewrite (run_asgs_outside _ 32 _ _ _ _ _ Ed' ltac:(apply asgs_num_wf; repeat constructor) eq_refl) by lia.
    by rewrite (run_asgs_outside _ 32 _ _ _ _ _ Ed4 Hdw eq_refl) by lia.
Qed.

(** The sums of the groups' free counts. *)
Definition total (f : block_group_info -> Z) (bgs : list block_group_info) (gs : list Z) : Z :=
  foldr (fun i n => match zget bgs i with Some bg => f bg + n | None => n end) 0 gs.

Lemma update_free_groups_spec gs w s d uuid nb ni :
  w_bufs w !! sb = Some s -> w_bufs w !! bg_desc = Some d ->
  sizeof_super_block <= Z.of_nat (length s) -> NoDup gs ->
  (forall i, i ∈ gs -> 0 <= i < Z.of_nat (length (w_bgs w)) /\
                       (i + 1) * sizeof_group_desc <= Z.of_nat (length d)) ->
  read_bytes s s_uuid.1 16 = Some uuid ->
  load 4 s s_free_blocks_count_lo.1 = Some (u32 nb) -> load 4 s s_free_inodes_count.1 = Some (u32 ni) ->
  exists w' s' d',
    update_free_groups sb bg_desc gs w = Done tt w' /\
    w_bufs w' !! sb = Some s' /\ w_bufs w' !! bg_desc = Some d' /\ w_bgs w' = w_bgs w /\
    load 4 s' s_free_blocks_count_lo.1 = Some (u32 (nb + total free_blocks_count (w_bgs w) gs)) /\
    load 4 s' s_free_inodes_count.1 = Some (u32 (ni + total free_inodes_count (w_bgs w) gs)) /\
    (forall i bg, i ∈ gs -> zget (w_bgs w) i = Some bg ->
       exists dirs, desc_member d i bg_used_dirs_count = Some dirs /\ desc_updated uuid d' i bg dirs) /\
    (forall j f, j ∉ gs -> 0 <= f.1 -> f.1 + Z.of_nat f.2 <= sizeof_group_desc ->
       read_bytes d' (j * sizeof_group_desc + f.1) (Z.of_nat f.2) =
       read_bytes d (j * sizeof_group_desc + f.1) (Z.of_nat f.2)).
Proof.
  revert w s d nb ni. induction gs as [|i gs IH]; intros w s d nb ni Es Ed Hs Hnd Hgs Eu Lb Li.
  { exists w, s, d. cbn. rewrite !Z.add_0_r. split_and!; try done. by intros i bg ?%not_elem_of_nil. }
  apply NoDup_cons in Hnd as [Hni Hnd].
  destruct (Hgs i) as [Hi Hd]; [apply elem_of_cons; by left|].
  destruct (zget_some _ _ Hi) as [bg Ebg].
  destruct (update_free_group_spec i w s d uuid bg Es Ed Hs ltac:(lia) Hd Ebg Eu)
    as (w1 & s1 & d1 & nb' & ni' & dirs & E1 & Es1 & Ed1 & Hg1 & Lb' & Li' & Er & Hl1 & Hdirs & Hup & Hfr).
  cbn [fst s_free_blocks_count_lo s_free_inodes_count] in *.
  rewrite Lb in Lb'. rewrite Li in Li'. injection Lb' as <-. injection Li' as <-.
  assert (Hw : Forall asg_wf [Num s_free_blocks_count_lo (u32 nb + free_blocks_count bg);
                              Num s_free_inodes_count (u32 ni + free_inodes_count bg)])
    by (apply asgs_num_wf; repeat constructor).
  assert (Hsum : forall a b, u32 (u32 a + b) = u32 (a + b)) by (intros; apply Zplus_mod_idemp_l).
  destruct (IH w1 s1 d1 (nb + free_blocks_count bg) (ni + free_inodes_count bg) Es1 Ed1)
    as (w' & s' & d' & E' & Es' & Ed' & Hg' & Lb2 & Li2 & Hin & Hout).
  - by rewrite (run_asgs_length _ _ _ _ Er).
  - done.
  - intros j Hj. rewrite Hg1, Hl1. apply Hgs, elem_of_cons. by right.
  - rewrite <-Eu. by apply (run_asgs_disjoint 0 s_uuid _ _ _ Er Hw).
  - rewrite <-Hsum. by apply (run_asgs_load 0 s_free_blocks_count_lo _ _ _ _ Er Hw).
  - rewrite <-Hsum. by apply (run_asgs_load 0 s_free_inodes_count _ _ _ _ Er Hw).
  - exists w', s', d'. cbn [update_free_groups]. rewrite (mbind_done _ _ _ _ _ E1).
    cbn [total foldr]. rewrite Ebg.
    change (foldr _ 0 gs) with (total free_blocks_count (w_bgs w) gs) at 1.
    change (foldr (fun i n => match zget (w_bgs w) i with Some bg => free_inodes_count bg + n | None => n end) 0 gs)
      with (total free_inodes_count (w_bgs w) gs).
    rewrite Hg1 in *. rewrite !Z.add_assoc. split_and!; try done.
    + intros j bg' Hj Ej. destruct (decide (j ∈ gs)) as [Hjg|Hjg].
      * destruct (Hin j bg' Hjg Ej) as (dirs' & Hdirs' & Hup'). exists dirs'. split; [|done].
        rewrite <-Hdirs'. unfold desc_member, load. f_equal. symmetry. apply Hfr; [by intros ->|done|done].
      * apply elem_of_cons in Hj as [->|]; [|done]. rewrite Ebg in Ej. injection Ej as <-.
        exists dirs. split; [done|]. destruct Hup as (U1 & U2 & U3 & U4 & x & U5 & U6).
        assert (Hkeep : forall f, 0 <= f.1 -> f.1 + Z.of_nat f.2 <= sizeof_group_desc ->
          desc_member d' i f = desc_member d1 i f)
          by (intros f H1 H2; unfold desc_member, load; f_equal; by apply Hout).
        unfold desc_updated. rewrite !Hkeep by done. split_and!; try done.
        exists x. split; [|done]. rewrite <-U5.
        pose proof (Hout i (0, 30%nat) Hjg ltac:(done) ltac:(done)) as Ho. cbn in Ho.
        by rewrite !Z.add_0_r in Ho.
    + intros j f [Hji Hjg]%not_elem_of_cons H1 H2. rewrite Hout by done. by apply Hfr.
Qed.
End update.

(** C6: [ext4_update_free] after [ext4_fill_in_sb] makes the superblock's free
    counts the totals of the groups, and each group's descriptor agree with the
    allocator: free counts, directories and flags, under a valid checksum. *)
Theorem ext4_update_free_correct (aux : fs_aux_info) (sb bg_desc : nat) (w : world) (s d uuid : list Z)
  (Hne : sb <> bg_desc) (Hs : w_bufs w !! sb = Some s) (Hd : w_bufs w !! bg_desc = Some d)
  (Hsl : sizeof_super_block <= Z.of_nat (length s))
  (Hdl : groups aux * sizeof_group_desc <= Z.of_nat (length d))
  (Hg : Z.of_nat (length (w_bgs w)) = groups aux) (Hu : read_bytes s s_uuid.1 16 = Some uuid)
  (Hb0 : load 4 s s_free_blocks_count_lo.1 = Some 0) (Hi0 : load 4 s s_free_inodes_count.1 = Some 0) :
  exists w' s' d', ext4_update_free aux sb bg_desc w = Done tt w' /\
    w_bufs w' !! sb = Some s' /\ w_bufs w' !! bg_desc = Some d' /\ w_bgs w' = w_bgs w /\
    load 4 s' s_free_blocks_count_lo.1 =
      Some (u32 (total free_blocks_count (w_bgs w) (seqZ 0 (groups aux)))) /\
    load 4 s' s_free_inodes_count.1 =
      Some (u32 (total free_inodes_count (w_bgs w) (seqZ 0 (groups aux)))) /\
    forall i bg, zget (w_bgs w) i = Some bg ->
      exists dirs, desc_member d i bg_used_dirs_count = Some dirs /\ desc_updated uuid d' i bg dirs.
Proof.
  destruct (update_free_groups_spec sb bg_desc Hne (seqZ 0 (groups aux)) w s d uuid 0 0 Hs Hd Hsl)
    as (w' & s' & d' & E & Es & Ed & Hw & Lb & Li & Hin & _); try done.
  - apply NoDup_seqZ.
  - intros i Hi%elem_of_seqZ. unfold sizeof_group_desc in *. lia.
  - exists w', s', d'. split_and!; try done. intros i bg E'. apply Hin; [|done].
    apply elem_of_seqZ. apply zget_some_inv in E'. lia.
Qed.

(** Two groups, a blank superblock and a blank table. *)
Definition update_world : world :=
  mk_world (replicate 2 (mk_bg 0 0 0 false [] [] None 7 0 11 0 0 1)) (mk_rheap ∅ 0) []
    [replicate 1024 0; replicate 64 0] [].
Definition update_aux : fs_aux_info := mk_fs_aux_info 0 16 1 2 1 0 0 0 0.

Lemma ext4_update_free_correct_witness :
  exists w' s' d', ext4_update_free update_aux 0 1 update_world = Done tt w' /\
    w_bufs w' !! 0%nat = Some s' /\ w_bufs w' !! 1%nat = Some d' /\ w_bgs w' = w_bgs update_world /\
    load 4 s' s_free_blocks_count_lo.1 =
      Some (u32 (total free_blocks_count (w_bgs update_world) (seqZ 0 (groups update_aux)))) /\
    load 4 s' s_free_inodes_count.1 =
      Some (u32 (total free_inodes_count (w_bgs update_world) (seqZ 0 (groups update_aux)))) /\
    forall i bg, zget (w_bgs update_world) i = Some bg ->
      exists dirs, desc_member (replicate 64 0) i bg_used_dirs_count = Some dirs /\
        desc_updated (replicate 16 0) d' i bg dirs.
Proof.
  apply (ext4_update_free_correct update_aux 0 1 update_world (replicate 1024 0) (replicate 64 0)
    (replicate 16 0)); (reflexivity || discriminate).
Defined.
