(* ===== verification/DirSpec.v ===== *)
(** * The records of a directory (specification and properties of the directory part of Contents)

    The directory data of ext4 as a list of records: their bytes, the rule that no
    record crosses a block boundary, and the layout that puts entries one after
    the other. What [make_directory] lays out is a valid directory, and the pointers it
    gives the entries lead to their inode numbers. *)

From Stdlib Require Import String.
From S2P Require Import Prelude Bytes Ext4Info Bitmap Inode BlockGroup Regions Alloc Buffers AllocSpec Extent Indirect Contents MakeExt4fs Geometry.

(** ** Writing and reading in the middle of a buffer *)

Lemma write_bytes_mid x y y' z :
  length y' = length y -> write_bytes (x ++ y ++ z) (Z.of_nat (length x)) y' = Some (x ++ y' ++ z).
Proof.
  intros L. rewrite write_bytes_some by (rewrite ?length_app; lia). rewrite Nat2Z.id.
  rewrite take_app_length. do 3 f_equal. rewrite app_assoc.
  apply drop_app_length'. rewrite length_app. lia.
Qed.

Lemma write_bytes_fresh x y n :
  (length y <= n)%nat ->
  write_bytes (x ++ replicate n 0) (Z.of_nat (length x)) y = Some (x ++ y ++ replicate (n - length y) 0).
Proof.
  intros L. replace n with (length y + (n - length y))%nat at 1 by lia.
  rewrite replicate_add. apply write_bytes_mid. by rewrite length_replicate.
Qed.

Lemma load_mid n x y z i :
  0 <= i -> i + Z.of_nat n <= Z.of_nat (length y) ->
  load n (x ++ y ++ z) (Z.of_nat (length x) + i) = load n y i.
Proof.
  intros Hi Hn. rewrite load_app_r by lia.
  replace (Z.of_nat (length x) + i - Z.of_nat (length x)) with i by lia.
  by apply load_app_l.
Qed.

Lemma store_mid n x y z i v y' :
  store n y i v = Some y' ->
  store n (x ++ y ++ z) (Z.of_nat (length x) + i) v = Some (x ++ y' ++ z).
Proof.
  unfold store. intros E. assert (H : 0 <= i /\ i + Z.of_nat n <= Z.of_nat (length y)).
  { unfold write_bytes in E. case_decide as H; [|done]. by rewrite length_le_bytes in H. }
  rewrite write_bytes_some in E by (rewrite ?length_le_bytes; lia). injection E as <-.
  rewrite write_bytes_some by (rewrite ?length_app, ?length_le_bytes; lia). f_equal.
  replace (Z.to_nat (Z.of_nat (length x) + i)) with (length x + Z.to_nat i)%nat by lia.
  rewrite take_app_add, take_app_le by lia. rewrite <-!app_assoc. do 3 f_equal.
  rewrite length_le_bytes, <-Nat.add_assoc, drop_app_add, drop_app_le by lia. done.
Qed.

(** ** Records *)

(** A record of a directory: the inode it names, its type, its name and the bytes
    behind the name that [rec_len] covers beyond the alignment. *)
Record dent := mk_dent { e_inode : Z; e_type : Z; e_name : list Z; e_pad : Z }.
Definition e_base (e : dent) : Z := 8 + ALIGN (Z.of_nat (length (e_name e))) 4.
Definition e_rec_len (e : dent) : Z := e_base e + e_pad e.
Definition dent_ok (e : dent) : Prop :=
  (length (e_name e) <= 255)%nat /\ 0 <= e_pad e /\ e_rec_len e < 2 ^ 16.

Definition set_e_inode (v : Z) (e : dent) : dent := mk_dent v (e_type e) (e_name e) (e_pad e).
Definition add_pad (v : Z) (e : dent) : dent := mk_dent (e_inode e) (e_type e) (e_name e) (e_pad e + v).

Definition dent_head (e : dent) : list Z :=
  le_bytes 4 (e_inode e) ++ le_bytes 2 (e_rec_len e) ++
  le_bytes 1 (Z.of_nat (length (e_name e))) ++ le_bytes 1 (e_type e) ++ e_name e.
Definition dent_bytes (e : dent) : list Z :=
  dent_head e ++ replicate (Z.to_nat (e_rec_len e) - length (dent_head e)) 0.
Definition dir_bytes (es : list dent) : list Z := concat (dent_bytes <$> es).
Definition dir_len (es : list dent) : Z := foldr (fun e n => e_rec_len e + n) 0 es.

(** No record crosses the end of a block, the first one being at [off]. *)
Fixpoint in_blocks (bs off : Z) (es : list dent) : Prop :=
  match es with
  | [] => True
  | e :: es => off mod bs + e_rec_len e <= bs /\ in_blocks bs (off + e_rec_len e) es
  end.

(** The offsets of the records. *)
Fixpoint offsets (off : Z) (es : list dent) : list Z :=
  match es with
  | [] => []
  | e :: es => off :: offsets (off + e_rec_len e) es
  end.

Lemma align_4 n : 0 <= n -> n <= ALIGN n 4 < n + 4.
Proof. intros Hn. unfold ALIGN, DIV_ROUND_UP. dlia. Qed.

Lemma e_base_bounds e : (length (e_name e) <= 255)%nat -> 8 + Z.of_nat (length (e_name e)) <= e_base e <= 264.
Proof. intros L. unfold e_base, ALIGN, DIV_ROUND_UP. dlia. Qed.

Lemma length_dent_head e : length (dent_head e) = (8 + length (e_name e))%nat.
Proof. unfold dent_head. rewrite !length_app, !length_le_bytes. lia. Qed.

Lemma length_dent_bytes e : dent_ok e -> Z.of_nat (length (dent_bytes e)) = e_rec_len e.
Proof.
  intros (L & Hp & _). pose proof (e_base_bounds e L). unfold dent_bytes.
  rewrite length_app, length_replicate, length_dent_head. unfold e_rec_len in *. lia.
Qed.

Lemma length_dir_bytes es : Forall dent_ok es -> Z.of_nat (length (dir_bytes es)) = dir_len es.
Proof.
  induction 1 as [|e es He _ IH]; [done|]. unfold dir_bytes in *. cbn [fmap list_fmap concat dir_len foldr].
  rewrite length_app, Nat2Z.inj_add, length_dent_bytes by done. rewrite IH. done.
Qed.

Lemma dir_len_nonneg es : Forall dent_ok es -> 0 <= dir_len es.
Proof. intros H. rewrite <-length_dir_bytes by done. lia. Qed.

Lemma dir_bytes_app es es' : dir_bytes (es ++ es') = dir_bytes es ++ dir_bytes es'.
Proof. unfold dir_bytes. by rewrite fmap_app, concat_app. Qed.
Lemma dir_bytes_one e : dir_bytes [e] = dent_bytes e.
Proof. apply (app_nil_r (dent_bytes e)). Qed.
Lemma dir_len_app es es' : dir_len (es ++ es') = dir_len es + dir_len es'.
Proof.
  induction es as [|e es IH]; [done|]. cbn [app dir_len foldr].
  change (foldr _ 0 (es ++ es')) with (dir_len (es ++ es')). rewrite IH. unfold dir_len. lia.
Qed.
Lemma in_blocks_app bs off es es' :
  in_blocks bs off (es ++ es') <-> in_blocks bs off es /\ in_blocks bs (off + dir_len es) es'.
Proof.
  revert off. induction es as [|e es IH]; intros off; cbn [app in_blocks dir_len foldr].
  - rewrite Z.add_0_r. naive_solver.
  - rewrite IH. change (foldr _ 0 es) with (dir_len es). rewrite <-Z.add_assoc. naive_solver.
Qed.
Lemma offsets_app off es es' : offsets off (es ++ es') = offsets off es ++ offsets (off + dir_len es) es'.
Proof.
  revert off. induction es as [|e es IH]; intros off; cbn [app offsets dir_len foldr].
  - by rewrite Z.add_0_r.
  - rewrite IH. change (foldr _ 0 es) with (dir_len es). by rewrite <-Z.add_assoc.
Qed.

(** The members of a record. *)
Lemma dent_members e :
  dent_ok e -> load 4 (dent_bytes e) 0 = Some (e_inode e mod 2 ^ 32) /\
  load 2 (dent_bytes e) 4 = Some (e_rec_len e) /\
  load 1 (dent_bytes e) 6 = Some (Z.of_nat (length (e_name e))) /\
  load 1 (dent_bytes e) 7 = Some (e_type e mod 2 ^ 8).
Proof.
  intros (L & Hp & Hr). pose proof (e_base_bounds e L). unfold dent_bytes, dent_head.
  rewrite <-!app_assoc.
  assert (M : forall n (x z : list Z) v, load n (x ++ le_bytes n v ++ z) (Z.of_nat (length x)) =
                               Some (v mod 256 ^ Z.of_nat n)).
  { intros n x z v. rewrite <-(Z.add_0_r (Z.of_nat (length x))), load_mid; rewrite ?length_le_bytes; try lia.
    apply load_le_bytes. }
  split_and!.
  - apply (M 4%nat []).
  - rewrite (M 2%nat (le_bytes 4 (e_inode e)) _ (e_rec_len e)). f_equal. apply Z.mod_small. unfold e_rec_len in *. lia.
  - rewrite app_assoc. rewrite (M 1%nat (le_bytes 4 _ ++ le_bytes 2 _)). f_equal. apply Z.mod_small. lia.
  - rewrite app_assoc, app_assoc. by rewrite (M 1%nat ((le_bytes 4 _ ++ le_bytes 2 _) ++ le_bytes 1 _)).
Qed.

(** ** Adding a record *)

Lemma dent_bytes_fresh e x n :
  dent_ok e -> e_rec_len e <= Z.of_nat n ->
  write_bytes (x ++ replicate n 0) (Z.of_nat (length x)) (dent_head e) =
    Some (x ++ dent_bytes e ++ replicate (n - Z.to_nat (e_rec_len e)) 0).
Proof.
  intros (L & Hp & Hr) Hn. pose proof (e_base_bounds e L). unfold e_rec_len in *.
  rewrite write_bytes_fresh by (rewrite length_dent_head; lia). unfold dent_bytes, e_rec_len.
  rewrite <-app_assoc, <-replicate_add, length_dent_head. do 4 f_equal. lia.
Qed.

(** A longer record over the zeros behind it. *)
Lemma dent_bytes_pad p d x n :
  dent_ok p -> 0 <= d <= Z.of_nat n -> e_rec_len p + d < 2 ^ 16 ->
  store 2 (x ++ dent_bytes p ++ replicate n 0) (Z.of_nat (length x) + 4) (e_rec_len p + d) =
    Some (x ++ dent_bytes (add_pad d p) ++ replicate (n - Z.to_nat d) 0).
Proof.
  intros (L & Hp & Hr) Hd Hpd. pose proof (e_base_bounds p L). unfold e_rec_len in *.
  rewrite (store_mid 2 x (dent_bytes p) _ 4 _
    (le_bytes 4 (e_inode p) ++ le_bytes 2 (e_base p + e_pad p + d) ++
     le_bytes 1 (Z.of_nat (length (e_name p))) ++ le_bytes 1 (e_type p) ++ e_name p ++
     replicate (Z.to_nat (e_rec_len p) - length (dent_head p)) 0)).
  - f_equal. unfold dent_bytes, dent_head, e_rec_len, add_pad. cbn [e_inode e_type e_name e_pad].
    change (e_base (mk_dent _ _ (e_name p) _)) with (e_base p).
    rewrite <-!app_assoc, <-!replicate_add. rewrite Z.add_assoc. do 7 f_equal.
    rewrite !length_app, !length_le_bytes. lia.
  - unfold store, dent_bytes, dent_head. rewrite <-!app_assoc.
    apply (write_bytes_mid (le_bytes 4 (e_inode p)) (le_bytes 2 (e_rec_len p)) (le_bytes 2 _)).
    by rewrite !length_le_bytes.
Qed.

Section add.
Context (force : bool) (info : fs_info).
Let bs := block_size info.
Hypothesis Hbs : 1024 <= bs < 2 ^ 16.

(** The five stores of a record. *)
Lemma put_dent data e w x n :
  dent_ok e -> e_rec_len e <= Z.of_nat n -> w_bufs w !! data = Some (x ++ replicate n 0) ->
  let off := Z.of_nat (length x) in
  (store_buf data 4 (off + de_inode) (e_inode e);;;
   store_buf data 2 (off + de_rec_len) (e_rec_len e);;;
   store_buf data 1 (off + de_name_len) (Z.of_nat (length (e_name e)));;;
   store_buf data 1 (off + de_file_type) (e_type e);;;
   copy_to_buf data (off + de_name) (e_name e)) w =
  Done tt (put_buf data (x ++ dent_bytes e ++ replicate (n - Z.to_nat (e_rec_len e)) 0) w).
Proof.
  intros He Hn E off. pose proof (dent_bytes_fresh e x n He Hn) as W. unfold dent_head in W.
  apply write_bytes_split in W as (b1 & W1 & W). apply write_bytes_split in W as (b2 & W2 & W).
  apply write_bytes_split in W as (b3 & W3 & W). apply write_bytes_split in W as (b4 & W4 & W5).
  rewrite !length_le_bytes in *. rewrite <-!Z.add_assoc in *. rewrite <-(Z.add_0_r (Z.of_nat _)) in W1.
  assert (S : forall n o v b b', write_bytes b (off + o) (le_bytes n v) = Some b' ->
    store_buf data n (off + o) v (put_buf data b w) = Done tt (put_buf data b' w)).
  { intros m o v b b' Eb. rewrite <-(put_buf_twice data b b' w).
    eapply store_buf_done; [by eapply put_buf_lookup|exact Eb]. }
  erewrite mbind_done by (eapply store_buf_done; [exact E|exact W1]).
  change (set_bufs (<[data := b1]> (w_bufs w)) w) with (put_buf data b1 w).
  erewrite mbind_done by (apply S; exact W2). erewrite mbind_done by (apply S; exact W3).
  erewrite mbind_done by (apply S; exact W4).
  erewrite copy_to_buf_done; [|by eapply put_buf_lookup|exact W5].
  f_equal. apply put_buf_twice.
Qed.

(** The records [es] at the start of a buffer of [len] bytes. *)
Definition dir_buf (len : Z) (es : list dent) : list Z :=
  dir_bytes es ++ replicate (Z.to_nat (len - dir_len es)) 0.
Definition new_dent (inode : Z) (name : list Z) (type : Z) : dent := mk_dent inode type name 0.

Lemma new_dent_ok inode name type : (length name <= 255)%nat -> dent_ok (new_dent inode name type).
Proof.
  intros L. pose proof (e_base_bounds (new_dent inode name type) L).
  split_and!; [done|cbn; lia|unfold e_rec_len; cbn [e_pad new_dent]; lia].
Qed.

(** The records before a new one: the last is made longer up to the end of its
    block if the new one does not fit there. *)
Definition crosses (off : Z) (e : dent) : bool := bs <? off mod bs + e_base e.
Definition close (es : list dent) (p e : dent) : list dent :=
  let off := dir_len (es ++ [p]) in
  es ++ [if crosses off e then add_pad (bs - off mod bs) p else p].

Lemma crossing off r :
  0 <= off -> 0 < r <= bs -> off + r < 2 ^ 32 ->
  negb (off / bs =? u32 (u32 (off + r) - 1) / bs) = (bs <? off mod bs + r) /\
  (bs < off mod bs + r -> u32 (u32 (off + r) - 1) / bs * bs = off + (bs - off mod bs)).
Proof.
  intros Ho Hr Hs. rewrite (u32_small (off + r)), (u32_small (off + r - 1)) by lia.
  pose proof (Z.div_mod off bs ltac:(lia)) as D. pose proof (Z.mod_pos_bound off bs ltac:(lia)) as M.
  replace (off + r - 1) with (off / bs * bs + (off mod bs + r - 1)) by lia.
  rewrite Z.div_add_l by lia.
  destruct (Z.ltb_spec bs (off mod bs + r)).
  - replace ((off mod bs + r - 1) / bs) with 1
      by (apply Z.div_unique with (off mod bs + r - 1 - bs); lia).
    split; [|lia]. destruct (Z.eqb_spec (off / bs) (off / bs + 1)); [lia|done].
  - rewrite (Z.div_small (off mod bs + r - 1)) by lia. split; [|lia].
    by rewrite Z.add_0_r, Z.eqb_refl.
Qed.

Lemma close_len es p e : dir_len (close es p e) =
  if crosses (dir_len (es ++ [p])) e
  then dir_len (es ++ [p]) + (bs - dir_len (es ++ [p]) mod bs) else dir_len (es ++ [p]).
Proof.
  unfold close. destruct (crosses _ _); rewrite !dir_len_app; cbn; [|lia].
  unfold e_rec_len. cbn [e_pad add_pad]. change (e_base (add_pad _ p)) with (e_base p). lia.
Qed.

(** The last record ends in its block. *)
Lemma last_in_block es p :
  dent_ok p -> in_blocks bs 0 (es ++ [p]) ->
  let m := dir_len (es ++ [p]) mod bs in
  0 <= m < bs /\ 0 <= dir_len es mod bs /\
  dir_len es mod bs + e_rec_len p = if m =? 0 then bs else m.
Proof.
  intros (Lp & Hp & _) Hb. cbv zeta. pose proof (e_base_bounds p Lp).
  rewrite in_blocks_app in Hb. destruct Hb as (_ & Hb & _). rewrite Z.add_0_l in Hb.
  rewrite dir_len_app in *. cbn [dir_len foldr] in *. rewrite Z.add_0_r in *.
  pose proof (Z.mod_pos_bound (dir_len es + e_rec_len p) bs ltac:(lia)).
  pose proof (Z.mod_pos_bound (dir_len es) bs ltac:(lia)). split_and!; [lia..|].
  assert (E : (dir_len es + e_rec_len p) mod bs = (dir_len es mod bs + e_rec_len p) mod bs)
    by (by rewrite Z.add_mod_idemp_l by lia).
  unfold e_rec_len in *. rewrite E in *. change (foldr _ 0 es) with (dir_len es) in *.
  destruct (decide (dir_len es mod bs + (e_base p + e_pad p) = bs)) as [F|F].
  - by rewrite F, Z.mod_same by lia.
  - rewrite (Z.mod_small (_ mod bs + _)) by lia. destruct (Z.eqb_spec (dir_len es mod bs + (e_base p + e_pad p)) 0); lia.
Qed.

Lemma crosses_last es p e :
  (length (e_name e) <= 255)%nat -> dent_ok p -> in_blocks bs 0 (es ++ [p]) ->
  crosses (dir_len (es ++ [p])) e = true ->
  let m := dir_len (es ++ [p]) mod bs in
  0 < m < bs /\ dir_len es mod bs + e_rec_len p = m.
Proof.
  intros L Hp Hb Hc%Z.ltb_lt m. pose proof (e_base_bounds e L). fold m in Hc.
  destruct (last_in_block es p Hp Hb) as (Hm & _ & E). fold m in Hm, E.
  destruct (Z.eqb_spec m 0); lia.
Qed.

Lemma close_ok es p e :
  (length (e_name e) <= 255)%nat -> e_pad e = 0 -> Forall dent_ok (es ++ [p]) ->
  in_blocks bs 0 (es ++ [p]) ->
  Forall dent_ok (close es p e) /\ in_blocks bs 0 (close es p e ++ [e]).
Proof.
  intros L Hpad Hok Hb. apply Forall_app in Hok as [Hes Hp]. rewrite Forall_singleton in Hp.
  pose proof (e_base_bounds e L). pose proof (crosses_last es p e L Hp Hb) as C. unfold close in *.
  assert (He : e_rec_len e = e_base e) by (unfold e_rec_len; lia).
  rewrite !in_blocks_app, dir_len_app, !Z.add_0_l in *. cbn [dir_len foldr in_blocks] in *.
  rewrite Z.add_0_r in *. change (foldr _ 0 es) with (dir_len es) in *.
  destruct Hb as (Hb1 & Hb2 & _). destruct Hp as (Lp & Hpp & Hr).
  destruct (crosses _ e) eqn:Ec.
  - destruct C as [C1 C2]; [done|]. unfold e_rec_len in *. cbn [e_pad add_pad].
    change (e_base (add_pad _ p)) with (e_base p).
    set (m := (dir_len es + (e_base p + e_pad p)) mod bs) in *.
    split_and!; [|done|lia|done| |done].
    + apply Forall_app. split; [done|]. rewrite Forall_singleton. split_and!; [done|cbn; lia|].
      unfold e_rec_len. cbn [e_pad add_pad]. change (e_base (add_pad _ p)) with (e_base p).
      pose proof (Z.mod_pos_bound (dir_len es) bs ltac:(lia)). lia.
    + rewrite dir_len_app. cbn [dir_len foldr]. unfold e_rec_len. cbn [e_pad add_pad].
      change (e_base (add_pad _ p)) with (e_base p).
      replace (dir_len es + (e_base p + (e_pad p + (bs - m)) + 0)) with
        ((dir_len es + (e_base p + e_pad p) - m) + 1 * bs) by lia.
      rewrite Z_mod_plus_full. unfold m. rewrite Zminus_mod_idemp_r, Z.sub_diag, Z.mod_0_l by lia. lia.
  - unfold crosses in Ec. apply Z.ltb_ge in Ec. split_and!; [|done|done|done| |done].
    + apply Forall_app. split; [done|]. by rewrite Forall_singleton.
    + rewrite dir_len_app. cbn [dir_len foldr]. rewrite Z.add_0_r. lia.
Qed.

Lemma dir_buf_app len es es' : dir_buf len (es ++ es') =
  dir_bytes es ++ dir_bytes es' ++ replicate (Z.to_nat (len - dir_len (es ++ es'))) 0.
Proof. unfold dir_buf. by rewrite dir_bytes_app, <-app_assoc. Qed.

(** The stores of a record behind [es]. *)
Lemma put_dent_buf data w len es e :
  Forall dent_ok (es ++ [e]) -> dir_len (es ++ [e]) <= len ->
  w_bufs w !! data = Some (dir_buf len es) ->
  (store_buf data 4 (dir_len es + de_inode) (e_inode e);;;
   store_buf data 2 (dir_len es + de_rec_len) (e_rec_len e);;;
   store_buf data 1 (dir_len es + de_name_len) (Z.of_nat (length (e_name e)));;;
   store_buf data 1 (dir_len es + de_file_type) (e_type e);;;
   copy_to_buf data (dir_len es + de_name) (e_name e)) w =
  Done tt (put_buf data (dir_buf len (es ++ [e])) w).
Proof.
  intros [Hes He]%Forall_app Hlen E. rewrite Forall_singleton in He.
  pose proof (dir_len_nonneg es Hes). rewrite <-length_dir_bytes by done.
  rewrite dir_buf_app, dir_bytes_one, dir_len_app in *. cbn [dir_len foldr] in *.
  assert (0 <= e_rec_len e) by (rewrite <-length_dent_bytes by done; lia).
  rewrite (put_dent data e w _ _ He) with (2 := E) by lia. repeat f_equal. lia.
Qed.

Lemma put_dent_then {A} data w len es inode name type (k : M world A) :
  let e := new_dent inode name type in
  Forall dent_ok (es ++ [e]) -> dir_len (es ++ [e]) <= len ->
  w_bufs w !! data = Some (dir_buf len es) ->
  (store_buf data 4 (dir_len es + de_inode) inode;;;
   store_buf data 2 (dir_len es + de_rec_len) (e_rec_len e);;;
   store_buf data 1 (dir_len es + de_name_len) (Z.of_nat (length name));;;
   store_buf data 1 (dir_len es + de_file_type) type;;;
   copy_to_buf data (dir_len es + de_name) (take (Z.to_nat (Z.of_nat (length name))) name);;;
   k) w = k (put_buf data (dir_buf len (es ++ [e])) w).
Proof.
  intros e Hok Hlen E. rewrite Nat2Z.id, firstn_all.
  pose proof (put_dent_buf data w len es e Hok Hlen E) as P. cbn [e_inode e_name e_type e new_dent] in P.
  revert P. unfold mbind'. repeat (case_match; [|done..]). by intros [= _ ->].
Qed.

(** The last record made longer. *)
Lemma pad_last data w len es p d :
  Forall dent_ok (es ++ [p]) -> 0 <= d -> dir_len (es ++ [p]) + d <= len -> e_rec_len p + d < 2 ^ 16 ->
  w_bufs w !! data = Some (dir_buf len (es ++ [p])) ->
  (do prev_len <- load_buf data 2 (dir_len es + de_rec_len);
   store_buf data 2 (dir_len es + de_rec_len) (prev_len + d)) w =
  Done tt (put_buf data (dir_buf len (es ++ [add_pad d p])) w).
Proof.
  intros [Hes Hp]%Forall_app Hd Hlen Hr E. rewrite Forall_singleton in Hp.
  rewrite dir_buf_app, dir_bytes_one in E. rewrite dir_len_app in E, Hlen. cbn [dir_len foldr] in *.
  rewrite Z.add_0_r in *. rewrite <-(length_dir_bytes es) by done.
  assert (0 <= e_rec_len p) by (rewrite <-length_dent_bytes by done; lia).
  destruct (dent_members p Hp) as (_ & Hl & _). unfold de_rec_len.
  erewrite mbind_done.
  2: { eapply load_buf_done; [exact E|]. rewrite load_mid; [exact Hl|lia|].
       rewrite length_dent_bytes by done. pose proof (e_base_bounds p ltac:(apply Hp)).
       destruct Hp as (_ & ? & _). unfold e_rec_len. lia. }
  eapply store_buf_done; [exact E|]. rewrite dent_bytes_pad; [|done|lia|lia].
  unfold dir_buf. rewrite dir_bytes_app, dir_bytes_one, dir_len_app, <-app_assoc. cbn [dir_len foldr].
  unfold e_rec_len. cbn [e_pad add_pad]. change (e_base (add_pad _ p)) with (e_base p).
  repeat f_equal. lia.
Qed.

Lemma rec_len_small name :
  (length name <= 255)%nat ->
  u8 (Z.of_nat (length name)) = Z.of_nat (length name) /\
  u16 (8 + ALIGN (Z.of_nat (length name)) 4) = e_base (new_dent 0 name 0).
Proof.
  intros L. pose proof (e_base_bounds (new_dent 0 name 0) L). unfold e_base in *. cbn [e_name new_dent] in *.
  split; apply Z.mod_small; lia.
Qed.

(** [add_dentry] behind the records [es] and [p], and as the first one. *)
Lemma add_dentry_spec data w len es p inode name type :
  let e := new_dent inode name type in
  let es' := close es p e in
  Forall dent_ok (es ++ [p]) -> in_blocks bs 0 (es ++ [p]) -> (length name <= 255)%nat ->
  w_bufs w !! data = Some (dir_buf len (es ++ [p])) ->
  dir_len (es' ++ [e]) <= len < 2 ^ 32 ->
  add_dentry info data (dir_len (es ++ [p])) (Some (dir_len es)) inode name type w =
    Done (dir_len es', dir_len (es' ++ [e])) (put_buf data (dir_buf len (es' ++ [e])) w).
Proof.
  intros e es' Hok Hb L E Hlen. pose proof (new_dent_ok inode name type L) as Heok.
  destruct (rec_len_small name L) as [Hn Hr]. pose proof (e_base_bounds e L) as He.
  destruct (close_ok es p e L eq_refl Hok Hb) as [Hok' Hb']. fold es' in Hok', Hb'.
  pose proof (close_len es p e) as Hcl. fold es' in Hcl. pose proof (dir_len_nonneg _ Hok) as Ho.
  set (off := dir_len (es ++ [p])) in *.
  assert (Hel : dir_len (es' ++ [e]) = dir_len es' + e_base e).
  { rewrite dir_len_app. cbn. unfold e_rec_len, e, new_dent. cbn. lia. }
  assert (Hrl : e_rec_len e = e_base e) by (unfold e_rec_len; cbn; lia).
  assert (Hm : 0 <= off mod bs < bs) by (apply Z.mod_pos_bound; lia).
  assert (Hoff : off <= dir_len es') by (rewrite Hcl; destruct (crosses off e); lia).
  destruct (crossing off (e_base e) Ho ltac:(lia) ltac:(lia)) as [Hc1 Hc2]. fold (crosses off e) in Hc1.
  unfold add_dentry. cbv zeta. rewrite Hn, Hr. change (e_base (new_dent 0 name 0)) with (e_base e).
  fold bs. rewrite Hc1.
  assert (P : (if crosses off e then
       do prev_len <- load_buf data 2 (dir_len es + de_rec_len);
       store_buf data 2 (dir_len es + de_rec_len)
         (prev_len + u32 (u32 (u32 (u32 (off + e_base e) - 1) / bs * bs) - off));;;
       mret' (u32 (u32 (u32 (off + e_base e) - 1) / bs * bs))
     else mret' off) w = Done (dir_len es') (put_buf data (dir_buf len es') w)).
  { unfold es', close. fold off. destruct (crosses off e) eqn:Ec.
    - apply Z.ltb_lt in Ec as Ec'. rewrite (Hc2 Ec'), !(u32_small (off + _)), u32_small by lia. replace (off + (bs - off mod bs) - off) with (bs - off mod bs) by lia.
      apply Forall_app in Hok as H2. destruct H2 as [Hes Hp]. rewrite Forall_singleton in Hp.
      destruct (crosses_last es p e L Hp Hb Ec) as [C1 C2]. fold off in C1, C2.
      rewrite mbind_assoc. erewrite mbind_done.
      2: { apply (pad_last data w len es p (bs - off mod bs)); [done|lia|fold off; lia| |done].
           pose proof (Z.mod_pos_bound (dir_len es) bs). lia. }
      unfold mret'. f_equal. rewrite <-Hcl. unfold es', close. fold off. by rewrite Ec.
    - unfold mret', put_buf. by rewrite set_bufs_id. }
  rewrite (mbind_done _ _ _ _ _ P).
  pose proof (@put_dent_then (Z * Z) data (put_buf data (dir_buf len es') w) len es' inode name type) as T.
  cbv zeta in T. fold e in T. rewrite <-Hrl, T; [|apply Forall_app; split; [done|by apply Forall_singleton]|lia|by eapply put_buf_lookup].
  unfold mret'. rewrite u32_small by lia. by rewrite put_buf_twice, Hel, Hrl.
Qed.

Lemma add_dentry_first data w len inode name type :
  let e := new_dent inode name type in
  (length name <= 255)%nat -> e_base e <= len < 2 ^ 32 ->
  w_bufs w !! data = Some (replicate (Z.to_nat len) 0) ->
  add_dentry info data 0 None inode name type w =
    Done (0, dir_len [e]) (put_buf data (dir_buf len [e]) w).
Proof.
  intros e L Hlen E. destruct (rec_len_small name L) as [Hn Hr]. pose proof (e_base_bounds e L) as He.
  destruct (crossing 0 (e_base e) ltac:(lia) ltac:(lia) ltac:(lia)) as [Hc _].
  unfold add_dentry. cbv zeta. rewrite Hn, Hr. change (e_base (new_dent 0 name 0)) with (e_base e).
  fold bs. rewrite Hc, Z.mod_0_l by lia. rewrite (proj2 (Z.ltb_ge _ _)) by lia.
  erewrite (mbind_done (mret' 0)) by done.
  assert (Hrl : e_rec_len e = e_base e) by (unfold e_rec_len; cbn; lia). rewrite <-Hrl.
  assert (Hd : dir_len [e] = e_rec_len e) by (cbn; lia).
  pose proof (@put_dent_then (Z * Z) data w len [] inode name type) as P. cbv zeta in P.
  change (dir_len []) with 0 in P. rewrite P; [|by apply Forall_singleton, new_dent_ok|fold e; rewrite app_nil_l; lia|].
  - unfold mret'. fold e. by rewrite u32_small, app_nil_l, Hd by lia.
  - rewrite E. unfold dir_buf. cbn [dir_bytes dir_len foldr fmap list_fmap concat app]. by rewrite Z.sub_0_r.
Qed.

(** ** All the records *)

(** The bytes used once a name was added behind [len] bytes. *)
Definition dir_turn (len : Z) (name : list Z) : Z :=
  let r := 8 + ALIGN (Z.of_nat (length name)) 4 in
  (if bs <? len mod bs + r then len + (bs - len mod bs) else len) + r.
Definition dir_size (len : Z) (names : list (list Z)) : Z := foldl dir_turn len names.

Lemma dir_turn_gt len name : len < dir_turn len name.
Proof.
  unfold dir_turn. pose proof (align_4 (Z.of_nat (length name)) ltac:(lia)).
  pose proof (Z.mod_pos_bound len bs ltac:(lia)). case_match; lia.
Qed.
Lemma dir_size_ge len names : len <= dir_size len names.
Proof.
  revert len. induction names as [|n names IH]; intros len; [done|]. cbn.
  pose proof (dir_turn_gt len n). pose proof (IH (dir_turn len n)). unfold dir_size in *. lia.
Qed.
Lemma dir_size_gt len n names : len < dir_size len (n :: names).
Proof. pose proof (dir_turn_gt len n). pose proof (dir_size_ge (dir_turn len n) names). cbn. unfold dir_size in *. lia. Qed.

Lemma close_turn es p inode name type :
  let e := new_dent inode name type in
  dir_len (close es p e ++ [e]) = dir_turn (dir_len (es ++ [p])) name.
Proof.
  intros e. rewrite dir_len_app, close_len. cbn [dir_len foldr].
  unfold e_rec_len, dir_turn, crosses, e_base, e, new_dent. cbn [e_name e_pad]. lia.
Qed.

(** What identifies an entry, and the entries of the directory's files. *)
Definition ident (e : dent) : Z * Z * list Z := (e_inode e, e_type e, e_name e).
Definition entry_of (d : dentry) : Z * Z * list Z := (0, d_file_type d, d_filename d).

Lemma close_ident es p e : ident <$> close es p e = ident <$> es ++ [p].
Proof. unfold close. rewrite !fmap_app. by destruct (crosses _ _). Qed.
Lemma close_offsets es p e : offsets 0 (close es p e) = offsets 0 (es ++ [p]).
Proof. unfold close. rewrite !offsets_app. by destruct (crosses _ _). Qed.

Definition with_inodes (data : nat) (ds : list dentry) (os : list Z) : list dentry :=
  zip_with (fun d o => set_d_inode (Some (data, o)) d) ds os.

Lemma add_entries_spec data len ds es p w :
  len < 2 ^ 32 -> Forall dent_ok (es ++ [p]) -> in_blocks bs 0 (es ++ [p]) ->
  Forall (fun d => length (d_filename d) <= 255)%nat ds ->
  w_bufs w !! data = Some (dir_buf len (es ++ [p])) ->
  dir_size (dir_len (es ++ [p])) (d_filename <$> ds) <= len ->
  exists es' p' os,
    add_entries info data len (dir_len (es ++ [p])) (dir_len es) ds w =
      Done (dir_len es', dir_len (es' ++ [p']), with_inodes data ds os)
        (put_buf data (dir_buf len (es' ++ [p'])) w) /\
    Forall dent_ok (es' ++ [p']) /\ in_blocks bs 0 (es' ++ [p']) /\
    ident <$> es' ++ [p'] = (ident <$> es ++ [p]) ++ (entry_of <$> ds) /\
    offsets 0 (es' ++ [p']) = offsets 0 (es ++ [p]) ++ os /\
    dir_len (es' ++ [p']) = dir_size (dir_len (es ++ [p])) (d_filename <$> ds).
Proof.
  intros Hlen. revert es p w. induction ds as [|d ds IH]; intros es p w Hok Hb Hn E Hs.
  { exists es, p, []. cbn. rewrite !app_nil_r. split_and!; try done.
    unfold mret', put_buf. by rewrite set_bufs_id. }
  apply Forall_cons in Hn as [Hd Hn]. set (e := new_dent 0 (d_filename d) (d_file_type d)).
  pose proof (close_turn es p 0 (d_filename d) (d_file_type d)) as Ht. cbv zeta in Ht. fold e in Ht.
  rewrite fmap_cons in Hs. pose proof (dir_size_ge (dir_turn (dir_len (es ++ [p])) (d_filename d)) (d_filename <$> ds)) as Hge.
  change (dir_size _ (d_filename d :: _)) with
    (dir_size (dir_turn (dir_len (es ++ [p])) (d_filename d)) (d_filename <$> ds)) in Hs.
  pose proof (add_dentry_spec data w len es p 0 (d_filename d) (d_file_type d)) as A. cbv zeta in A. fold e in A.
  specialize (A Hok Hb Hd E ltac:(lia)).
  destruct (close_ok es p e Hd eq_refl Hok Hb) as [Hok' Hb']. set (es1 := close es p e) in *.
  destruct (IH es1 e (put_buf data (dir_buf len (es1 ++ [e])) w)) as (es' & p' & os & E' & Hok2 & Hb2 & Hi & Hof & Hl).
  - apply Forall_app. split; [done|]. by apply Forall_singleton, new_dent_ok.
  - done.
  - done.
  - by eapply put_buf_lookup.
  - by rewrite Ht.
  - exists es', p', (dir_len es1 :: os). cbn [add_entries]. rewrite (mbind_done _ _ _ _ _ A).
    rewrite (proj2 (Z.ltb_ge _ _)) by lia. cbn [orb].
    replace ((_ =? len) && _) with false.
    2: { symmetry. apply andb_false_iff. destruct ds as [|d' ds]; [right; by rewrite bool_decide_true|left].
         pose proof (dir_size_gt (dir_turn (dir_len (es ++ [p])) (d_filename d)) (d_filename d') (d_filename <$> ds)).
         rewrite fmap_cons in Hs. lia. }
    rewrite (mbind_done _ _ _ _ _ E'). split_and!; [| done | done | | |].
    + unfold mret'. rewrite put_buf_twice. unfold de_inode. by rewrite Z.add_0_r.
    + rewrite Hi, fmap_app. unfold es1. by rewrite close_ident, fmap_cons, <-app_assoc.
    + rewrite Hof, offsets_app. unfold es1 at 1. rewrite close_offsets, <-app_assoc. cbn [offsets app].
      by rewrite Z.add_0_l.
    + rewrite Hl, Ht. done.
Qed.

(** [dentry_size] counts the bytes of the records. *)
Lemma dentry_size_turn_small len name :
  0 <= len -> (length name <= 255)%nat -> dir_turn len name < 2 ^ 32 ->
  dentry_size_turn info len name = dir_turn len name.
Proof.
  intros Hl L Hs. unfold dentry_size_turn, dir_turn in *. fold bs.
  pose proof (e_base_bounds (new_dent 0 name 0) L) as He. unfold e_base in He. cbn [e_name new_dent] in He.
  pose proof (Z.mod_pos_bound len bs ltac:(lia)).
  rewrite (u32_small (8 + _)), (u32_small (len mod bs + _)) by lia.
  case_match.
  - by rewrite (u32_small (bs - _)), (u32_small (len + (bs - _))), u32_small by lia.
  - by rewrite u32_small by lia.
Qed.

Lemma dentry_size_spec ds :
  Forall (fun d => length (d_filename d) <= 255)%nat ds ->
  dir_size 24 (d_filename <$> ds) < 2 ^ 32 ->
  dentry_size info ds = dir_size 24 (d_filename <$> ds).
Proof.
  unfold dentry_size. intros Hn. assert (H0 : 0 <= 24) by lia. revert H0. generalize 24.
  induction Hn as [|d ds Hd _ IH]; intros n Hn Hs; [done|]. cbn [fmap list_fmap foldl] in *.
  change (dir_size n (d_filename d :: _)) with (dir_size (dir_turn n (d_filename d)) (d_filename <$> ds)) in *.
  pose proof (dir_turn_gt n (d_filename d)). pose proof (dir_size_ge (dir_turn n (d_filename d)) (d_filename <$> ds)).
  rewrite dentry_size_turn_small by (done || lia). apply IH; [lia|done].
Qed.

(** [len] of [make_directory]: the size rounded up to blocks. *)
Lemma round_up_blocks n :
  0 < n -> n + bs < 2 ^ 32 ->
  let len := u32 (u32 (u32 (n + bs) - 1) / bs * bs) in
  len mod bs = 0 /\ n <= len < 2 ^ 32 /\ len - n = if n mod bs =? 0 then 0 else bs - n mod bs.
Proof.
  intros Hn Hs. cbv zeta. rewrite (u32_small (n + bs)), (u32_small (n + bs - 1)) by lia.
  pose proof (Z.div_mod n bs ltac:(lia)) as D. pose proof (Z.mod_pos_bound n bs ltac:(lia)) as M.
  assert (E : (n + bs - 1) / bs = n / bs + if n mod bs =? 0 then 0 else 1).
  { destruct (Z.eqb_spec (n mod bs) 0).
    - symmetry. apply Z.div_unique with (bs - 1); lia.
    - symmetry. apply Z.div_unique with (n mod bs - 1); lia. }
  rewrite E. assert (0 <= n / bs) by (apply Z.div_pos; lia).
  rewrite u32_small by (destruct (_ =? 0); nia).
  rewrite Z_mod_mult. destruct (Z.eqb_spec (n mod bs) 0); nia.
Qed.

(** The last record takes the rest of its block. *)
Lemma pad_directory data len es p w :
  let size := dir_len (es ++ [p]) in
  len < 2 ^ 32 -> len mod bs = 0 -> Forall dent_ok (es ++ [p]) -> in_blocks bs 0 (es ++ [p]) ->
  size <= len -> len - size = (if size mod bs =? 0 then 0 else bs - size mod bs) ->
  w_bufs w !! data = Some (dir_buf len (es ++ [p])) ->
  (do prev_len <- load_buf data 2 (dir_len es + de_rec_len);
   store_buf data 2 (dir_len es + de_rec_len) (prev_len + (len - size))) w =
    Done tt (put_buf data (dir_buf len (es ++ [add_pad (len - size) p])) w) /\
  Forall dent_ok (es ++ [add_pad (len - size) p]) /\
  in_blocks bs 0 (es ++ [add_pad (len - size) p]) /\
  dir_len (es ++ [add_pad (len - size) p]) = len.
Proof.
  intros size Hlen Hm Hok Hin Hs Hd E. pose proof Hok as H2.
  apply Forall_app in H2 as [Hes Hp]. rewrite Forall_singleton in Hp.
  destruct (last_in_block es p Hp Hin) as (Hm1 & Hm2 & Hl). fold size in Hm1, Hl.
  assert (Hfit : dir_len es mod bs + e_rec_len p + (len - size) <= bs)
    by (destruct (size mod bs =? 0); lia).
  assert (Hr : e_rec_len (add_pad (len - size) p) = e_rec_len p + (len - size)).
  { unfold e_rec_len. cbn [e_pad add_pad]. change (e_base (add_pad _ p)) with (e_base p). lia. }
  split_and!.
  - apply pad_last; [done|lia|fold size; lia|lia|done].
  - apply Forall_app. split; [done|]. rewrite Forall_singleton. destruct Hp as (? & ? & ?).
    split_and!; [done|cbn; lia|lia].
  - rewrite in_blocks_app in *. destruct Hin as [Hin _]. split; [done|]. cbn [in_blocks].
    rewrite Z.add_0_l, Hr. split; [lia|done].
  - rewrite dir_len_app. cbn [dir_len foldr]. rewrite Hr. unfold size. rewrite dir_len_app.
    cbn [dir_len foldr]. change (foldr _ 0 es) with (dir_len es). lia.
Qed.

Lemma fill_directory_spec data ds inode_num dir_inode_num w :
  let len := u32 (u32 (u32 (dentry_size info ds + bs) - 1) / bs * bs) in
  Forall (fun d => length (d_filename d) <= 255)%nat ds ->
  dir_size 24 (d_filename <$> ds) + bs < 2 ^ 32 ->
  w_bufs w !! data = Some (replicate (Z.to_nat len) 0) ->
  exists es, fill_directory info data len inode_num dir_inode_num ds w =
      Done (with_inodes data ds (drop 2 (offsets 0 es))) (put_buf data (dir_bytes es) w) /\
    Forall dent_ok es /\ in_blocks bs 0 es /\ dir_len es = len /\ len mod bs = 0 /\
    ident <$> es = (inode_num, EXT4_FT_DIR, str ".") :: (dir_inode_num, EXT4_FT_DIR, str "..") ::
                   (entry_of <$> ds).
Proof.
  intros len Hn Hs E. unfold len in *. clear len. rewrite dentry_size_spec in * by (done || lia).
  set (size := dir_size 24 (d_filename <$> ds)) in *.
  pose proof (dir_size_ge 24 (d_filename <$> ds)) as Hge. fold size in Hge.
  destruct (round_up_blocks size ltac:(lia) Hs) as (Hm & Hl & Hr).
  set (len := u32 (u32 (u32 (size + bs) - 1) / bs * bs)) in *.
  set (e1 := new_dent inode_num (str ".") EXT4_FT_DIR). set (e2 := new_dent dir_inode_num (str "..") EXT4_FT_DIR).
  assert (L1 : (length (str ".") <= 255)%nat) by (cbn; lia). assert (L2 : (length (str "..") <= 255)%nat) by (cbn; lia).
  assert (Hb1 : e_base e1 = 12) by reflexivity. assert (Hb2 : e_base e2 = 12) by reflexivity.
  pose proof (add_dentry_first data w len inode_num (str ".") EXT4_FT_DIR L1) as A1. cbv zeta in A1. fold e1 in A1.
  specialize (A1 ltac:(lia) E).
  assert (Ec : close [] e1 e2 = [e1]).
  { unfold close, crosses. cbn [app dir_len foldr]. change (e_rec_len e1 + 0) with 12. rewrite Hb2.
    rewrite Z.mod_small by lia. by rewrite (proj2 (Z.ltb_ge _ _)) by lia. }
  set (w1 := put_buf data (dir_buf len [e1]) w) in A1.
  pose proof (add_dentry_spec data w1 len [] e1 dir_inode_num (str "..") EXT4_FT_DIR) as A2.
  cbv zeta in A2. fold e2 in A2. rewrite Ec in A2. cbn [app] in A2.
  assert (Hok1 : Forall dent_ok [e1]) by (by apply Forall_singleton, new_dent_ok).
  assert (Hin1 : in_blocks bs 0 [e1]) by (cbn [in_blocks]; change (e_rec_len e1) with 12; rewrite Z.mod_0_l by lia; lia).
  specialize (A2 Hok1 Hin1 L2 ltac:(by eapply put_buf_lookup)).
  change (dir_len [e1; e2]) with 24 in A2. specialize (A2 ltac:(lia)).
  set (w2 := put_buf data (dir_buf len [e1; e2]) w1) in A2.
  pose proof (close_ok [] e1 e2 L2 eq_refl Hok1 Hin1) as [_ Hin2]. rewrite Ec in Hin2.
  destruct (add_entries_spec data len ds [e1] e2 w2) as (es & p & os & A3 & Hok & Hin & Hid & Hof & Hlen).
  - lia.
  - apply Forall_app. split; [done|]. by apply Forall_singleton, new_dent_ok.
  - done.
  - done.
  - cbn [app]. unfold w2. eapply put_buf_lookup. by eapply put_buf_lookup.
  - cbn [app]. change (dir_len [e1; e2]) with 24. fold size. lia.
  - cbn [app] in A3, Hid, Hof, Hlen. change (dir_len [e1; e2]) with 24 in A3, Hlen. fold size in Hlen.
    change (dir_len []) with 0 in A2. unfold fill_directory.
    rewrite (mbind_done _ _ _ _ _ A1), (mbind_done _ _ _ _ _ A2), (mbind_done _ _ _ _ _ A3).
    destruct (pad_directory data len es p (put_buf data (dir_buf len (es ++ [p])) w2))
      as (A4 & Hok4 & Hin4 & Hlen4); [lia|done|done|done|lia|by rewrite Hlen|..].
    { eapply put_buf_lookup. eapply put_buf_lookup. by eapply put_buf_lookup. }
    rewrite Hlen in A4, Hok4, Hin4, Hlen4. exists (es ++ [add_pad (len - size) p]). split_and!; [|done..|].
    + rewrite mbind_assoc, u32_small, Hlen by lia. rewrite (mbind_done _ _ _ _ _ A4). unfold mret'. f_equal.
      * rewrite !offsets_app in *. cbn [offsets] in *. by rewrite Hof.
      * unfold w2, w1. rewrite !put_buf_twice. unfold dir_buf. rewrite Hlen4, Z.sub_diag. cbn [replicate Z.to_nat].
        by rewrite app_nil_r.
    + rewrite fmap_app in *. exact Hid.
Qed.
End add.

(** ** Access to a record of a directory *)

Lemma dir_bytes_split es1 e es2 :
  dir_bytes (es1 ++ e :: es2) = dir_bytes es1 ++ dent_bytes e ++ dir_bytes es2.
Proof. change (e :: es2) with ([e] ++ es2). by rewrite !dir_bytes_app, dir_bytes_one. Qed.

Lemma load_dent n es1 e es2 i :
  Forall dent_ok es1 -> dent_ok e -> 0 <= i -> i + Z.of_nat n <= e_rec_len e ->
  load n (dir_bytes (es1 ++ e :: es2)) (dir_len es1 + i) = load n (dent_bytes e) i.
Proof.
  intros H1 He Hi Hn. rewrite dir_bytes_split, <-length_dir_bytes by done.
  apply load_mid; [done|]. by rewrite length_dent_bytes.
Qed.

Lemma set_e_inode_ok v e : dent_ok e -> dent_ok (set_e_inode v e).
Proof. done. Qed.

Lemma store_dent_inode es1 e es2 v :
  Forall dent_ok es1 -> dent_ok e ->
  store 4 (dir_bytes (es1 ++ e :: es2)) (dir_len es1 + de_inode) v =
    Some (dir_bytes (es1 ++ set_e_inode v e :: es2)).
Proof.
  intros H1 He. rewrite !dir_bytes_split, <-length_dir_bytes by done. apply store_mid.
  unfold store, dent_bytes, dent_head, de_inode. rewrite <-!app_assoc, !length_app, !length_le_bytes.
  apply (write_bytes_mid [] (le_bytes 4 _) (le_bytes 4 _)). by rewrite !length_le_bytes.
Qed.

Lemma dir_bytes_length es1 e es2 : Forall dent_ok es1 -> dent_ok e -> Forall dent_ok es2 ->
  Z.of_nat (length (dir_bytes (es1 ++ e :: es2))) = dir_len es1 + e_rec_len e + dir_len es2.
Proof.
  intros H1 He H2. rewrite dir_bytes_split, !length_app, !Nat2Z.inj_add.
  rewrite !length_dir_bytes, length_dent_bytes by done. lia.
Qed.

Lemma length_offsets off es : length (offsets off es) = length es.
Proof. revert off. induction es as [|e es IH]; intros off; [done|]. cbn. by rewrite IH. Qed.

Lemma offsets_lookup off es k e :
  es !! k = Some e -> exists es1 es2, es = es1 ++ e :: es2 /\ length es1 = k /\
    offsets off es !! k = Some (off + dir_len es1).
Proof.
  intros E. exists (take k es), (drop (S k) es). split_and!.
  - by rewrite take_drop_middle.
  - rewrite length_take_le; [done|]. apply lookup_lt_Some in E. lia.
  - revert off es E. induction k as [|k IH]; intros off [|e' es]; cbn; [done|..]; [|done|].
    + intros [= ->]. by rewrite Z.add_0_r.
    + intros E. rewrite (IH _ _ E). f_equal. unfold dir_len. lia.
Qed.

(** C14: the directory that [make_directory] writes. Into the zeroed buffer of the
    length it computes with [dentry_size], the records of [.], [..] and the entries
    are laid out in order with the names and types given; they fill the buffer
    exactly, no record crosses a block boundary, the internal error of
    [add_entries] never occurs, and each entry gets the address of its record. *)
Theorem fill_directory_correct (info : fs_info) (data : nat) (ds : list dentry)
  (inode_num dir_inode_num : Z) (w : world)
  (Hbs : 1024 <= block_size info < 2 ^ 16)
  (Hn : Forall (fun d => length (d_filename d) <= 255)%nat ds)
  (Hs : dir_size info 24 (d_filename <$> ds) + block_size info < 2 ^ 32)
  (E : let len := u32 (u32 (u32 (dentry_size info ds + block_size info) - 1) / block_size info
                       * block_size info) in
       w_bufs w !! data = Some (replicate (Z.to_nat len) 0)) :
  let len := u32 (u32 (u32 (dentry_size info ds + block_size info) - 1) / block_size info
                  * block_size info) in
  exists es,
    fill_directory info data len inode_num dir_inode_num ds w =
      Done (with_inodes data ds (drop 2 (offsets 0 es))) (put_buf data (dir_bytes es) w) /\
    Forall dent_ok es /\ in_blocks (block_size info) 0 es /\ dir_len es = len /\
    ident <$> es = (inode_num, EXT4_FT_DIR, str ".") :: (dir_inode_num, EXT4_FT_DIR, str "..") ::
                   (entry_of <$> ds).
Proof.
  cbv zeta in *. destruct (fill_directory_spec info Hbs data ds inode_num dir_inode_num w Hn Hs E)
    as (es & E' & Hok & Hin & Hl & _ & Hid).
  by exists es.
Qed.

(** Two files and a directory, in blocks of 1 KiB. *)
Definition example_names : list dentry :=
  (fun n => mk_dentry [] None n [] 0 EXT4_FT_REG_FILE 0 0 0 None 0 None 0) <$>
    [str "init.rc"; replicate 200 97; replicate 255 98; replicate 255 99; replicate 254 100; str "bin"].
Definition dir_info : fs_info := set_block_size 1024 image_info.
Definition dir_world : world := set_bufs [replicate 2048 0] empty_world.

Lemma fill_directory_correct_witness :
  exists es,
    fill_directory dir_info 0 2048 12 2 example_names dir_world =
      Done (with_inodes 0 example_names (drop 2 (offsets 0 es))) (put_buf 0 (dir_bytes es) dir_world) /\
    Forall dent_ok es /\ in_blocks 1024 0 es /\ dir_len es = 2048 /\
    ident <$> es = (12, EXT4_FT_DIR, str ".") :: (2, EXT4_FT_DIR, str "..") :: (entry_of <$> example_names).
Proof.
  apply (fill_directory_correct dir_info 0 example_names 12 2 dir_world).
  - split; [discriminate|reflexivity].
  - apply (bool_decide_unpack _). vm_compute. exact I.
  - vm_compute. reflexivity.
  - vm_compute. reflexivity.
Defined.

(** the pointers are good. Storing a number through the [inode] pointer of the
    [k]th entry changes that entry's record to name it, and no other byte of the
    directory, whatever was stored through the other pointers before. *)
Theorem store_inode_correct (data : nat) (ds : list dentry) (es : list dent) (w : world)
  (k : nat) (d : dentry) (v : Z)
  (Hok : Forall dent_ok es)
  (E : w_bufs w !! data = Some (dir_bytes es))
  (Hd : with_inodes data ds (drop 2 (offsets 0 es)) !! k = Some d) :
  store_inode d v w =
    Done tt (put_buf data (dir_bytes (alter (set_e_inode v) (2 + k)%nat es)) w) /\
  with_inodes data ds (drop 2 (offsets 0 (alter (set_e_inode v) (2 + k)%nat es))) =
    with_inodes data ds (drop 2 (offsets 0 es)).
Proof.
  unfold with_inodes in Hd. apply lookup_zip_with_Some in Hd as (d0 & off & -> & _ & Ho).
  rewrite lookup_drop in Ho. destruct (lookup_lt_is_Some_2 es (2 + k)%nat) as [e He].
  { rewrite <-(length_offsets 0). by apply lookup_lt_is_Some; exists off. }
  destruct (offsets_lookup 0 es _ _ He) as (es1 & es2 & -> & Hl & Ho').
  rewrite Ho in Ho'. injection Ho' as ->. rewrite Z.add_0_l, <-Hl.
  apply Forall_app in Hok as [H1 [H2 H3]%Forall_cons].
  rewrite alter_app_r_alt, Nat.sub_diag by lia. cbn [alter list_alter]. split.
  - unfold store_inode. cbn [d_inode set_d_inode].
    apply store_buf_done with (b := dir_bytes (es1 ++ e :: es2)); [done|].
    pose proof (store_dent_inode es1 e es2 v H1 H2) as W. unfold de_inode in W. by rewrite Z.add_0_r in W.
  - by rewrite !offsets_app.
Qed.

Definition example_dents : list dent :=
  [new_dent 12 (str ".") EXT4_FT_DIR; new_dent 2 (str "..") EXT4_FT_DIR;
   new_dent 0 (str "init.rc") EXT4_FT_REG_FILE; mk_dent 0 EXT4_FT_REG_FILE (str "bin") 968].
Definition dents_world : world := set_bufs [dir_bytes example_dents] empty_world.

Lemma example_dents_ok : Forall dent_ok example_dents.
Proof. by repeat constructor. Qed.

Lemma store_inode_correct_witness :
  let ds := take 2 example_names in
  exists d, with_inodes 0 ds (drop 2 (offsets 0 example_dents)) !! 1%nat = Some d /\
  (store_inode d 77 dents_world =
    Done tt (put_buf 0 (dir_bytes (alter (set_e_inode 77) 3%nat example_dents)) dents_world) /\
  with_inodes 0 ds (drop 2 (offsets 0 (alter (set_e_inode 77) 3%nat example_dents))) =
    with_inodes 0 ds (drop 2 (offsets 0 example_dents))).
Proof.
  eexists. split; [reflexivity|].
  apply (store_inode_correct 0 (take 2 example_names) example_dents dents_world 1).
  - exact example_dents_ok.
  - reflexivity.
  - reflexivity.
Defined.
