(* ===== verification/FixupDir.v ===== *)
(** * Renumbering a directory (refinement of the walk of Fixup)

    On the bytes of a list of records, a pass of ext4fixup over a directory is a
    map over the records; and a pass that was interrupted can be run again. *)

From Stdlib Require Import String.
From S2P Require Import Prelude Logic Bytes Layout Ext4Info Inode Bitmap BlockGroup Regions Alloc Buffers Extent Indirect Contents Super MakeExt4fs Fixup FixupProps DirSpec.

Section renumber.
Context (info : fs_info) (bg_desc : nat) (new_ipg bail_phase bail_loc bail_count : Z).

(** A record as a pass leaves it. *)
Definition renumber (mode : Z) (e : dent) : dent :=
  set_e_inode (process_inum info new_ipg mode (e_inode e)) e.

(** An entry in use, of a known type. *)
Definition entry_ok (e : dent) : Prop :=
  dent_ok e /\ 0 < e_inode e < 2 ^ 32 /\ 0 < e_type e < 2 ^ 8 /\ e_name e <> [].

(** Whether the pass walks the directory an entry names. *)
Definition walked (mode : Z) (e : dent) : bool :=
  must_recurse (e_type e =? EXT4_FT_DIR) (c_string (e_name e)) mode (e_inode e).

(** The walk of subdirectories: it returns, in states that [P] describes. *)
Context (P : fixup -> Prop) (recurse : list Z -> Z -> M fixup unit) (mode : Z).
Hypothesis Pcount : forall n s, P s -> P (set_fx_count n s).
Hypothesis Hbail : bail_phase <> mode.
Definition walks (e : dent) : Prop := forall s, P s ->
  exists s', recurse_entry info bg_desc recurse (e_inode e) s = Done tt s' /\ P s'.

Lemma entry_name_dent es1 e es2 :
  Forall dent_ok es1 -> dent_ok e ->
  entry_name (dir_bytes (es1 ++ e :: es2)) (dir_len es1 + de_name) (Z.of_nat (length (e_name e))) =
    Some (c_string (e_name e)).
Proof.
  intros H1 He. unfold entry_name. rewrite Nat2Z.id.
  assert (E : take (length (e_name e)) (drop (Z.to_nat (dir_len es1 + de_name)) (dir_bytes (es1 ++ e :: es2))) = e_name e).
  { rewrite dir_bytes_split, <-length_dir_bytes by done.
    replace (Z.to_nat (Z.of_nat (length (dir_bytes es1)) + de_name)) with (length (dir_bytes es1) + 8)%nat
      by (unfold de_name; lia).
    rewrite drop_app_add. unfold dent_bytes, dent_head. rewrite <-!app_assoc.
    cbn [le_bytes app drop]. by rewrite drop_0, take_app_length. }
  rewrite E. unfold length_is. by rewrite Z.eqb_refl, orb_true_r.
Qed.

Lemma is_entry_dir_known inum type s : 0 < type ->
  is_entry_dir info bg_desc inum type mode s = Done (type =? EXT4_FT_DIR) s.
Proof.
  intros Ht. unfold is_entry_dir. destruct (type =? EXT4_FT_DIR); [done|].
  unfold EXT4_FT_UNKNOWN. by rewrite (proj2 (Z.eqb_neq type 0)) by lia.
Qed.

(** One turn of the loop. *)
Lemma entry_step_spec es1 e es2 s :
  Forall dent_ok es1 -> entry_ok e -> P s -> (walked mode e = true -> walks e) ->
  exists s', entry_step info bg_desc new_ipg bail_phase bail_loc bail_count recurse mode
      (dir_bytes (es1 ++ e :: es2)) (dir_len es1) s =
    Done (dir_bytes (es1 ++ renumber mode e :: es2), Some (dir_len es1 + e_rec_len e)) s' /\ P s'.
Proof.
  intros H1 (He & Hi & Ht & _) Hs Hw. destruct (dent_members e He) as (M1 & M2 & M3 & M4).
  pose proof (e_base_bounds e ltac:(apply He)) as Hb.
  assert (Hr : 8 <= e_rec_len e) by (destruct He as (_ & ? & _); unfold e_rec_len; lia).
  assert (L : forall f : field, 0 <= f.1 -> f.1 + Z.of_nat f.2 <= 8 ->
    forall s0 : fixup, raw_get (dir_bytes (es1 ++ e :: es2)) (dir_len es1) f s0 = deref (load f.2 (dent_bytes e) f.1) s0).
  { intros f Hf1 Hf2 s0. unfold raw_get. by rewrite load_dent by (done || lia). }
  rewrite Z.mod_small in M1 by lia. rewrite Z.mod_small in M4 by lia.
  unfold entry_step.
  erewrite mbind_done by (rewrite L by (by vm_compute); unfold fst, snd, de_inode; by rewrite M1).
  rewrite (proj2 (Z.eqb_neq (e_inode e) 0)) by lia.
  erewrite mbind_done by (rewrite L by (by vm_compute); unfold fst, snd, de_name_len; by rewrite M3).
  erewrite mbind_done by (by rewrite (entry_name_dent es1 e es2 H1 He)).
  erewrite mbind_done by (rewrite L by (by vm_compute); unfold fst, snd, de_file_type; by rewrite M4).
  erewrite mbind_done by (apply is_entry_dir_known; lia). fold (walked mode e).
  assert (W : exists s1, (if walked mode e then recurse_entry info bg_desc recurse (e_inode e)
                          else mret' tt) s = Done tt s1 /\ P s1).
  { destruct (walked mode e); [by apply Hw|by exists s]. }
  destruct W as (s1 & W & Hs1). rewrite (mbind_done _ _ _ _ _ W). exists s1. split; [|done].
  erewrite mbind_done by (unfold raw_set, fst, snd; by rewrite (store_dent_inode es1 e es2 _ H1 He)).
  unfold get. erewrite mbind_done by done. rewrite (proj2 (Z.eqb_neq bail_phase mode)) by done. cbn [andb negb check].
  erewrite mbind_done by done.
  fold (renumber mode e).
  assert (Er : raw_get (dir_bytes (es1 ++ renumber mode e :: es2)) (dir_len es1) (de_rec_len, 2%nat) s1 =
               Done (e_rec_len e) s1).
  { unfold raw_get, fst, snd. rewrite load_dent; [|done|done|done|exact (Z.le_trans 6 8 _ ltac:(lia) Hr)].
    destruct (dent_members (renumber mode e) He) as (_ & M & _). unfold de_rec_len. by rewrite M. }
  by rewrite (mbind_done _ _ _ _ _ Er).
Qed.

Lemma entry_rec_len e : entry_ok e -> 12 <= e_rec_len e.
Proof.
  intros ((L & Hp & _) & _ & _ & Hn). unfold e_rec_len, e_base.
  destruct (e_name e) as [|c name]; [done|]. cbn [length].
  pose proof (align_4 (Z.of_nat (S (length name))) ltac:(lia)). unfold ALIGN, DIV_ROUND_UP in *. dlia.
Qed.

Lemma short_tail_none dirsize dirp prev : 8 < dirsize - dirp -> short_tail mode dirsize dirp prev = None.
Proof. intros H. unfold short_tail. rewrite (proj2 (Z.leb_gt _ _)) by lia. by rewrite andb_false_r. Qed.

Lemma entries_length es : Forall entry_ok es -> (length es <= length (dir_bytes es))%nat.
Proof.
  intros H. assert (H' : Forall dent_ok es) by (eapply Forall_impl; [exact H|intros ? []; done]).
  apply Nat2Z.inj_le. rewrite length_dir_bytes by done. clear H'.
  induction H as [|e es He _ IH]; [done|]. pose proof (entry_rec_len e He). cbn [length dir_len foldr].
  unfold dir_len in IH. lia.
Qed.

(** The loop. *)
Lemma entries_loop_spec es2 : forall es1 m prev s,
  (length es2 < m)%nat -> Forall dent_ok es1 -> Forall entry_ok es2 -> P s ->
  Forall (fun e => walked mode e = true -> walks e) es2 ->
  exists s', entries_loop info bg_desc new_ipg bail_phase bail_loc bail_count m recurse mode
      (dir_bytes (es1 ++ es2)) (dir_len es1) prev s =
    Done (dir_bytes (es1 ++ (renumber mode <$> es2))) s' /\ P s'.
Proof.
  induction es2 as [|e es2 IH]; intros es1 m prev s Hm H1 H2 Hs Hw; (destruct m as [|m]; [cbn in Hm; lia|]).
  - exists s. cbn [entries_loop]. rewrite length_dir_bytes by (by rewrite app_nil_r).
    rewrite app_nil_r, Z.leb_refl. by rewrite app_nil_r.
  - apply Forall_cons in H2 as [He H2]. apply Forall_cons in Hw as [Hwe Hw].
    assert (H2' : Forall dent_ok es2) by (by eapply Forall_impl; [exact H2|intros ? []]).
    pose proof (entry_rec_len e He). pose proof (dir_len_nonneg es2 H2').
    cbn [entries_loop]. rewrite dir_bytes_length by (done || apply He).
    rewrite (proj2 (Z.leb_gt _ _)) by lia. unfold modify. erewrite mbind_done by done.
    rewrite short_tail_none by lia.
    destruct (entry_step_spec es1 e es2 _ H1 He (Pcount (s32 (fx_count s + 1)) s Hs) Hwe) as (s1 & E1 & Hs1).
    rewrite (mbind_done _ _ _ _ _ E1).
    destruct (IH (es1 ++ [renumber mode e]) m (Some (dir_len es1)) s1) as (s' & E & Hs'); [cbn in Hm; lia| |done..|].
    + apply Forall_app. split; [done|]. apply Forall_singleton. apply He.
    + exists s'. split; [|done]. rewrite dir_len_app in E. cbn [dir_len foldr] in E. rewrite Z.add_0_r in E.
      change (e_rec_len (renumber mode e)) with (e_rec_len e) in E.
      by rewrite <-!app_assoc in E.
Qed.
End renumber.

(** ** Running a pass again *)

Lemma mark_bit x : 0 <= x < 2 ^ 31 -> Z.land x INUM_MARK = 0.
Proof.
  intros Hx. apply Z.bits_inj'. intros n Hn. rewrite Z.land_spec, Z.bits_0.
  destruct (decide (n < 31)).
  - replace (Z.testbit INUM_MARK n) with false; [apply andb_false_r|].
    change INUM_MARK with (2 ^ 31). by rewrite Z.pow2_bits_false by lia.
  - rewrite <-(Z.mod_small x (2 ^ 31)), Z.mod_pow2_bits_high by lia. done.
Qed.

Lemma lor_mark_range x : 0 <= x < 2 ^ 32 -> 0 < Z.lor x INUM_MARK < 2 ^ 32.
Proof.
  intros Hx. assert (Hn : 0 <= Z.lor x INUM_MARK) by (apply Z.lor_nonneg; split; [lia|done]).
  split.
  - destruct (decide (Z.lor x INUM_MARK = 0)) as [E|]; [|lia].
    apply Z.lor_eq_0_iff in E as [_ E]. discriminate E.
  - assert (E : Z.lor x INUM_MARK = Z.lor x INUM_MARK mod 2 ^ 32); [|rewrite E; by apply Z.mod_pos_bound].
    apply Z.bits_inj'. intros n Hi. destruct (decide (n < 32)); [by rewrite Z.mod_pow2_bits_low by lia|].
    rewrite Z.mod_pow2_bits_high, Z.lor_spec by lia. change INUM_MARK with (2 ^ 31).
    rewrite Z.pow2_bits_false by lia. rewrite <-(Z.mod_small x (2 ^ 32)), Z.mod_pow2_bits_high by lia. done.
Qed.

(** The number an entry gets is a positive 31-bit number. *)
Definition inum_fits (info : fs_info) (new_ipg : Z) (e : dent) : Prop :=
  let o := Z.land (e_inode e) INUM_BITS in
  1 <= o /\ (o - 1) / inodes_per_group info * new_ipg + new_ipg < 2 ^ 31.

Section restart.
Context (info : fs_info) (new_ipg mode : Z).
Hypothesis Hipg : 0 < inodes_per_group info <= new_ipg.

Lemma land_bits x : 0 <= Z.land x INUM_BITS < 2 ^ 31.
Proof. change INUM_BITS with (Z.ones 31). rewrite Z.land_ones by lia. by apply Z.mod_pos_bound. Qed.

(** The new number of a marked entry. *)
Lemma update_fits e :
  inum_fits info new_ipg e -> mode = UPDATE_INODE_NUMS -> Z.land (e_inode e) INUM_MARK <> 0 ->
  1 <= process_inum info new_ipg mode (e_inode e) < 2 ^ 31.
Proof.
  intros [Ho Hb] -> Hm. pose proof (land_bits (e_inode e)).
  destruct (compute_new_inum_split info new_ipg (Z.land (e_inode e) INUM_BITS) Hipg ltac:(lia) Hb) as (E & Hq & Hr).
  unfold process_inum. rewrite (proj2 (Z.eqb_neq (Z.land (e_inode e) INUM_MARK) 0)) by done.
  cbn [Z.eqb andb negb]. change (UPDATE_INODE_NUMS =? MARK_INODE_NUMS) with false. cbv iota.
  change (UPDATE_INODE_NUMS =? UPDATE_INODE_NUMS) with true. cbn [andb].
  assert (0 <= (Z.land (e_inode e) INUM_BITS - 1) / inodes_per_group info * new_ipg) by nia.
  rewrite E, u32_small by lia. lia.
Qed.

Lemma process_cases e : inum_fits info new_ipg e ->
  let n := process_inum info new_ipg mode (e_inode e) in
  mode = MARK_INODE_NUMS /\ n = Z.lor (e_inode e) INUM_MARK \/
  mode <> MARK_INODE_NUMS /\ 1 <= n < 2 ^ 31 \/
  mode <> MARK_INODE_NUMS /\ n = e_inode e /\
    (mode = UPDATE_INODE_NUMS -> Z.land (e_inode e) INUM_MARK = 0).
Proof.
  intros Hf n. pose proof (update_fits e Hf) as Hu. fold n in Hu. revert Hu. unfold n, process_inum.
  destruct (Z.eqb_spec mode MARK_INODE_NUMS); [by left|]. intros Hu. right.
  destruct (Z.eqb_spec mode UPDATE_INODE_NUMS); destruct (Z.eqb_spec (Z.land (e_inode e) INUM_MARK) 0);
    cbn [andb negb] in *; [right|left|right|right]; try done; split_and!; try done; naive_solver.
Qed.

Lemma renumber_ok e : inum_fits info new_ipg e -> entry_ok e -> entry_ok (renumber info new_ipg mode e).
Proof.
  intros Hf (Hd & Hi & Ht & Hn). split; [done|]. split; [|done]. unfold renumber, set_e_inode. cbn [e_inode].
  destruct (process_cases e Hf) as [[_ ->]|[[_ ?]|(_ & -> & _)]]; [apply lor_mark_range; lia|lia|lia].
Qed.

(** A pass leaves what it has done alone. *)
Lemma renumber_again e : inum_fits info new_ipg e ->
  renumber info new_ipg mode (renumber info new_ipg mode e) = renumber info new_ipg mode e.
Proof.
  intros Hf. unfold renumber at 1. unfold renumber, set_e_inode. cbn [e_inode e_type e_name e_pad]. f_equal.
  destruct (process_cases e Hf) as [[Hm ->]|[[Hm Hn]|(Hm & E & _)]]; [| |by rewrite !E].
  - unfold process_inum. rewrite Hm, Z.eqb_refl. by rewrite <-Z.lor_assoc, Z.lor_diag.
  - unfold process_inum at 1. rewrite (proj2 (Z.eqb_neq mode MARK_INODE_NUMS)) by done.
    rewrite mark_bit by lia. by rewrite andb_false_r.
Qed.

Lemma restarted es es' :
  Forall (inum_fits info new_ipg) es ->
  Forall2 (fun e e' => e' = e \/ e' = renumber info new_ipg mode e) es es' ->
  renumber info new_ipg mode <$> es' = renumber info new_ipg mode <$> es.
Proof.
  intros Hf. induction 1 as [|e e' es es' He _ IH]; [done|]. apply Forall_cons in Hf as [Hfe Hf].
  rewrite !fmap_cons, IH by done. f_equal. destruct He as [->| ->]; [done|by apply renumber_again].
Qed.
End restart.

(** C12: a pass over a directory is a map over its entries, also when it is run
    again. If some of the entries still hold the numbers from before the pass and
    the others already those the pass gives them, then the pass returns the
    directory in which every entry holds the number the pass gives it; the record
    lengths, the types and the names stay. [P] is what the walk of the
    subdirectories keeps of the state. *)
Theorem entries_loop_restart (info : fs_info) (bg_desc : nat) (new_ipg bail_phase bail_loc bail_count : Z)
  (P : fixup -> Prop) (recurse : list Z -> Z -> M fixup unit) (mode : Z) (es es' : list dent) (s : fixup)
  (Hipg : 0 < inodes_per_group info <= new_ipg)
  (Pcount : forall n s, P s -> P (set_fx_count n s)) (Hbail : bail_phase <> mode) (Hs : P s)
  (Hok : Forall entry_ok es) (Hf : Forall (inum_fits info new_ipg) es)
  (Hes' : Forall2 (fun e e' => e' = e \/ e' = renumber info new_ipg mode e) es es')
  (Hw : Forall (fun e => walked mode e = true -> walks info bg_desc P recurse e) es') :
  exists s', entries_loop info bg_desc new_ipg bail_phase bail_loc bail_count
      (S (length (dir_bytes es'))) recurse mode (dir_bytes es') 0 None s =
    Done (dir_bytes (renumber info new_ipg mode <$> es)) s' /\ P s'.
Proof.
  assert (Hok' : Forall entry_ok es').
  { apply Forall_forall. intros e' He'. apply list_elem_of_lookup in He' as [i He'].
    destruct (Forall2_lookup_r _ _ _ _ _ Hes' He') as (e & He & Hc).
    pose proof (Forall_lookup_1 _ _ _ _ Hok He). pose proof (Forall_lookup_1 _ _ _ _ Hf He).
    destruct Hc as [->| ->]; [done|by apply renumber_ok]. }
  rewrite <-(restarted info new_ipg mode Hipg es es' Hf Hes').
  apply (entries_loop_spec info bg_desc new_ipg bail_phase bail_loc bail_count P recurse mode Pcount Hbail es' []);
    [|done..]. by apply le_n_S, entries_length.
Qed.

(** The update pass, stopped after two of the four entries were written. *)
Definition marked_dents : list dent :=
  [mk_dent (INUM_MARK + 2) EXT4_FT_DIR (str ".") 0; mk_dent (INUM_MARK + 2) EXT4_FT_DIR (str "..") 0;
   mk_dent (INUM_MARK + 11) EXT4_FT_REG_FILE (str "init.rc") 0;
   mk_dent (INUM_MARK + 12) EXT4_FT_SYMLINK (str "bin") 972].
Definition stopped_dents : list dent :=
  (renumber example_fixup_info 16 UPDATE_INODE_NUMS <$> take 2 marked_dents) ++ drop 2 marked_dents.

Lemma entries_loop_restart_witness :
  exists s', entries_loop example_fixup_info 0 16 0 0 0 (S (length (dir_bytes stopped_dents)))
      (fun _ _ => mret' tt) UPDATE_INODE_NUMS (dir_bytes stopped_dents) 0 None example_open =
    Done (dir_bytes (renumber example_fixup_info 16 UPDATE_INODE_NUMS <$> marked_dents)) s' /\ True.
Proof.
  apply (entries_loop_restart example_fixup_info 0 16 0 0 0 (fun _ => True) (fun _ _ => mret' tt)
           UPDATE_INODE_NUMS marked_dents stopped_dents example_open).
  - by vm_compute.
  - done.
  - discriminate.
  - exact I.
  - repeat constructor; discriminate.
  - repeat constructor; discriminate.
  - unfold stopped_dents, marked_dents. cbn [take drop fmap list_fmap app].
    repeat first [apply Forall2_nil_2 | apply Forall2_cons; split; [first [by left | by right]|]].
  - unfold stopped_dents, marked_dents. cbn [take drop fmap list_fmap app]. repeat constructor; discriminate.
Defined.
