(* ===== verification/MakeProps.v ===== *)
(** * Making an image (properties of ext4_utils/make_ext4fs.c) *)

From Stdlib Require Import String.
From S2P Require Import Prelude Logic Bytes Crc16 Sha1 Uuid Ext4Info Inode Bitmap BlockGroup Regions Alloc AllocSpec AllocProps Buffers Extent Indirect Contents Super SuperSpec Geometry SuperProps MakeExt4fs.

(** ** The default parameters *)

(** [info.len &= ~((u64)info.block_size - 1)]: down to whole blocks. *)
Lemma whole_blocks l k :
  0 <= k < 64 -> 0 <= l < 2 ^ 63 ->
  s64 (Z.land (u64 l) (u64 (Z.lnot (2 ^ k - 1)))) = 2 ^ k * (l / 2 ^ k).
Proof.
  intros Hk Hl. rewrite (u64_small l) by lia.
  assert (E : Z.land l (u64 (Z.lnot (2 ^ k - 1))) = 2 ^ k * (l / 2 ^ k)).
  { rewrite Z.mul_comm, <-Z.shiftr_div_pow2, <-Z.shiftl_mul_pow2, <-Z.ldiff_ones_r by lia.
    rewrite Z.ones_equiv, <-Z.sub_1_r. apply Z.bits_inj'. intros n Hn. unfold u64.
    rewrite Z.land_spec, Z.ldiff_spec. destruct (decide (n < 64)).
    - by rewrite Z.mod_pow2_bits_low, Z.lnot_spec by lia.
    - assert (Z.testbit l n = false) as -> by (rewrite <-(Z.mod_small l (2 ^ 64)), Z.mod_pow2_bits_high by lia; done).
      done. }
  rewrite E. pose proof (Z.div_mod l (2 ^ k)). pose proof (Z.mod_pos_bound l (2 ^ k)).
  assert (0 < 2 ^ k) by (apply Z.pow_pos_nonneg; lia). assert (0 <= l / 2 ^ k) by (apply Z.div_pos; lia).
  apply s64_small. nia.
Qed.

Lemma div_round_up_u32_small x y : 0 <= x -> 0 < y -> x + y < 2 ^ 32 -> div_round_up_u32 x y = Some (DIV_ROUND_UP x y).
Proof.
  intros Hx Hy Hs. unfold div_round_up_u32. rewrite (proj2 (Z.eqb_neq y 0)) by lia.
  by rewrite (u32_small (x + y)), u32_small by lia.
Qed.

Lemma align_u32_small x y : 0 <= x -> 0 < y -> x + y < 2 ^ 32 -> align_u32 x y = Some (ALIGN x y).
Proof.
  intros Hx Hy Hs. unfold align_u32. rewrite div_round_up_u32_small by done. cbn [mbind option_bind].
  pose proof (DIV_ROUND_UP_bounds x y Hx Hy). unfold ALIGN. rewrite u32_small; [done|nia].
Qed.

(** The parameters [fill_in_info] gives a length of [n] blocks of 4 KiB. *)
Definition default_groups (n : Z) : Z := DIV_ROUND_UP n 32768.
Definition default_ipg (n : Z) : Z := ALIGN (DIV_ROUND_UP (n / 4) (default_groups n)) 16.

Lemma default_bounds n :
  1 <= n -> n + 65536 < 2 ^ 32 ->
  1 <= default_groups n /\ n <= 32768 * default_groups n < n + 32768 /\
  0 <= default_ipg n <= 8208 /\ n / 4 <= default_ipg n * default_groups n <= n + 65536.
Proof.
  intros Hn Hs. unfold default_ipg. pose proof (DIV_ROUND_UP_bounds n 32768 ltac:(lia) ltac:(lia)) as Hg.
  fold (default_groups n) in Hg. set (g := default_groups n) in *. assert (1 <= g) by lia.
  pose proof (Z.div_mod n 4 ltac:(lia)). pose proof (Z.mod_pos_bound n 4 ltac:(lia)).
  pose proof (DIV_ROUND_UP_bounds (n / 4) g ltac:(lia) ltac:(lia)) as Hq. set (q := DIV_ROUND_UP (n / 4) g) in *.
  assert (0 <= q <= 8192) by nia.
  pose proof (DIV_ROUND_UP_bounds q 16 ltac:(lia) ltac:(lia)) as Ha. fold (ALIGN q 16) in Ha.
  split_and!; try lia; nia.
Qed.

(** Field projections of the setters. *)
Ltac info_fields := cbn [fs_len block_size blocks_per_group inodes_per_group inode_size inodes journal_blocks
  feat_ro_compat feat_compat feat_incompat bg_desc_reserve_blocks fs_label no_journal set_fs_len set_block_size
  set_journal set_blocks_per_group set_inodes set_inode_size set_inodes_per_group set_features set_reserve_blocks
  zero_info].

Lemma info_blocks_whole i n : fs_len i = 4096 * n -> block_size i = 4096 -> 0 <= n -> n < 2 ^ 32 -> info_blocks i = n.
Proof.
  intros El Eb Hn Hs. unfold info_blocks. rewrite El, Eb, s64_small by lia.
  rewrite Z.quot_div_nonneg by lia. replace (4096 * n + 4096 - 1) with (n * 4096 + 4095) by lia.
  rewrite Z.div_add_l by lia. change (4095 / 4096) with 0. lia.
Qed.

Definition default_journal (n : Z) : Z := Z.min 32768 (Z.max 1024 (n / 64)).
Definition default_reserve (n : Z) : Z :=
  Z.min 1024 (8 * default_groups n - DIV_ROUND_UP (default_groups n * 32) 4096).

(** [fill_in_info] in stages: the length, the journal, the groups and inodes, what
    is derived from these. *)
Definition with_length (i : fs_info) : fs_info :=
  let i := if block_size i <=? 0 then set_block_size compute_block_size i else i in
  set_fs_len (s64 (Z.land (u64 (fs_len i)) (u64 (Z.lnot (block_size i - 1))))) i.
Definition with_journal (i : fs_info) : fs_info :=
  let i := if journal_blocks i =? 0
           then set_journal (compute_journal_blocks i) (feat_compat i) i else i in
  if no_journal i =? 0
  then set_journal (journal_blocks i) EXT4_FEATURE_COMPAT_HAS_JOURNAL i
  else set_journal 0 (feat_compat i) i.
Definition with_inodes_default (i : fs_info) : fs_info :=
  let i := if blocks_per_group i <=? 0 then set_blocks_per_group (compute_blocks_per_group i) i else i in
  let i := if inodes i <=? 0 then set_inodes (compute_inodes i) i else i in
  if inode_size i <=? 0 then set_inode_size 256 i else i.
Definition with_derived (i : fs_info) : option fs_info :=
  '(per_group, total) ← compute_inodes_per_group i;
  let i := set_inodes_per_group per_group total i in
  let i := set_features
             (Z.lor (feat_ro_compat i)
                (Z.lor (Z.lor EXT4_FEATURE_RO_COMPAT_SPARSE_SUPER EXT4_FEATURE_RO_COMPAT_LARGE_FILE)
                       EXT4_FEATURE_RO_COMPAT_GDT_CSUM))
             (Z.lor (feat_compat i)
                (Z.lor EXT4_FEATURE_COMPAT_RESIZE_INODE EXT4_FEATURE_COMPAT_EXT_ATTR))
             (Z.lor (feat_incompat i)
                (Z.lor EXT4_FEATURE_INCOMPAT_EXTENTS EXT4_FEATURE_INCOMPAT_FILETYPE)) i in
  reserve ← compute_bg_desc_reserve_blocks i;
  Some (set_reserve_blocks reserve i).

Lemma fill_in_info_stages i :
  fill_in_info i = with_derived (with_inodes_default (with_journal (with_length i))).
Proof. reflexivity. Qed.

Lemma with_length_default len :
  0 <= len < 2 ^ 63 ->
  with_length (set_fs_len len zero_info) = mk_fs_info (4096 * (len / 4096)) 4096 0 0 0 0 0 0 0 0 0 [] 0.
Proof.
  intros Hlen. pose proof (whole_blocks len 12 ltac:(lia) Hlen) as E. change (2 ^ 12) with 4096 in E.
  rewrite <-E. reflexivity.
Qed.

Lemma with_journal_default n :
  0 <= n < 2 ^ 32 ->
  with_journal (mk_fs_info (4096 * n) 4096 0 0 0 0 0 0 0 0 0 [] 0) =
    mk_fs_info (4096 * n) 4096 0 0 0 0 (default_journal n) 0 EXT4_FEATURE_COMPAT_HAS_JOURNAL 0 0 [] 0.
Proof.
  intros Hn. set (i0 := mk_fs_info _ _ _ _ _ _ _ _ _ _ _ _ _).
  assert (Ej : compute_journal_blocks i0 = default_journal n).
  { unfold compute_journal_blocks. rewrite (info_blocks_whole i0 n) by (done || lia).
    rewrite Z.quot_div_nonneg by lia.
    assert (0 <= n / 64) by (apply Z.div_pos; lia). assert (64 * (n / 64) <= n) by (apply Z.mul_div_le; lia).
    rewrite u32_small by lia. unfold default_journal.
    destruct (Z.ltb_spec (n / 64) 1024); [by rewrite Z.max_l, Z.min_r by lia|].
    destruct (Z.ltb_spec 32768 (n / 64)); lia. }
  rewrite <-Ej. reflexivity.
Qed.

Lemma with_inodes_default_spec n j :
  0 <= n < 2 ^ 32 ->
  with_inodes_default (mk_fs_info (4096 * n) 4096 0 0 0 0 j 0 EXT4_FEATURE_COMPAT_HAS_JOURNAL 0 0 [] 0) =
    mk_fs_info (4096 * n) 4096 32768 0 256 (n / 4) j 0 EXT4_FEATURE_COMPAT_HAS_JOURNAL 0 0 [] 0.
Proof.
  intros Hn. set (i0 := mk_fs_info _ _ 32768 _ _ _ _ _ _ _ _ _ _).
  assert (Ei : compute_inodes i0 = n / 4).
  { unfold compute_inodes. rewrite (info_blocks_whole i0 n) by (done || lia).
    rewrite Z.quot_div_nonneg by lia. assert (0 <= n / 4) by (apply Z.div_pos; lia).
    assert (4 * (n / 4) <= n) by (apply Z.mul_div_le; lia). apply u32_small. lia. }
  unfold i0. rewrite <-Ei. reflexivity.
Qed.

Lemma default_reserve_spec n i :
  1 <= n -> n + 65536 < 2 ^ 32 -> fs_len i = 4096 * n -> block_size i = 4096 -> blocks_per_group i = 32768 ->
  compute_bg_desc_reserve_blocks i = Some (default_reserve n).
Proof.
  intros Hn Hs El Eb Ep. destruct (default_bounds n Hn Hs) as (Hg & Hg2 & _).
  unfold compute_bg_desc_reserve_blocks. rewrite (info_blocks_whole i n), Eb, Ep, (u32_small n) by (done || lia).
  rewrite div_round_up_u32_small by lia. cbn [mbind option_bind]. fold (default_groups n).
  unfold sizeof_group_desc, sizeof_u32, default_reserve. set (g := default_groups n) in *. f_equal.
  rewrite (u32_small (g * 1024)), !u64_small by lia.
  replace (g * 1024 * 32 + 4096 - 1) with (8 * g * 4096 + 4095) by lia. rewrite Z.div_add_l by lia.
  change (4095 / 4096) with 0. fold (DIV_ROUND_UP (g * 32) 4096).
  pose proof (DIV_ROUND_UP_bounds (g * 32) 4096 ltac:(lia) ltac:(lia)).
  rewrite (u32_small (DIV_ROUND_UP _ _)), u32_small by lia. change (4096 / 4) with 1024.
  rewrite Z.add_0_r. destruct (Z.ltb_spec 1024 (8 * g - DIV_ROUND_UP (g * 32) 4096)); lia.
Qed.

Lemma default_ipg_spec n i :
  1 <= n -> n + 65536 < 2 ^ 32 -> fs_len i = 4096 * n -> block_size i = 4096 -> blocks_per_group i = 32768 ->
  inodes i = n / 4 -> inode_size i = 256 ->
  compute_inodes_per_group i = Some (default_ipg n, default_ipg n * default_groups n).
Proof.
  intros Hn Hs El Eb Ep Ein Es. destruct (default_bounds n Hn Hs) as (Hg & Hg2 & Hipg & Hin).
  unfold compute_inodes_per_group. rewrite (info_blocks_whole i n), Eb, Ep, Ein, Es by (done || lia).
  rewrite (u32_small n), div_round_up_u32_small by lia. cbn [mbind option_bind].
  fold (default_groups n).
  assert (Hn4 : 0 <= n / 4 /\ 4 * (n / 4) <= n) by (split; [apply Z.div_pos; lia|apply Z.mul_div_le; lia]).
  rewrite div_round_up_u32_small by lia. cbn [mbind option_bind].
  assert (Hq : 0 <= DIV_ROUND_UP (n / 4) (default_groups n) <= 8192).
  { pose proof (DIV_ROUND_UP_bounds (n / 4) (default_groups n) ltac:(lia) ltac:(lia)). nia. }
  rewrite (align_u32_small _ (4096 / 256)) by (change (4096 / 256) with 16; lia).
  change (ALIGN (DIV_ROUND_UP (n / 4) (default_groups n)) (4096 / 256)) with (default_ipg n).
  cbn [mbind option_bind]. by rewrite u32_small by lia.
Qed.

(** What is derived, as a record. *)
Definition derived (per_group total reserve : Z) (i : fs_info) : fs_info :=
  mk_fs_info (fs_len i) (block_size i) (blocks_per_group i) per_group (inode_size i) total (journal_blocks i)
    (Z.lor (feat_ro_compat i) 0x13) (Z.lor (feat_compat i) 0x18) (Z.lor (feat_incompat i) 0x42) reserve
    (fs_label i) (no_journal i).

Lemma with_derived_eq i per_group total reserve :
  compute_inodes_per_group i = Some (per_group, total) ->
  compute_bg_desc_reserve_blocks (derived per_group total (bg_desc_reserve_blocks i) i) = Some reserve ->
  with_derived i = Some (derived per_group total reserve i).
Proof.
  intros E1 E2. unfold with_derived. rewrite E1. cbn [mbind option_bind].
  change (compute_bg_desc_reserve_blocks _) with
    (compute_bg_desc_reserve_blocks (derived per_group total (bg_desc_reserve_blocks i) i)). by rewrite E2.
Qed.

Lemma with_derived_default n i :
  1 <= n -> n + 65536 < 2 ^ 32 -> fs_len i = 4096 * n -> block_size i = 4096 -> blocks_per_group i = 32768 ->
  inodes i = n / 4 -> inode_size i = 256 ->
  with_derived i = Some (derived (default_ipg n) (default_ipg n * default_groups n) (default_reserve n) i).
Proof.
  intros Hn Hs El Eb Ep Ei Es. apply with_derived_eq; [by apply default_ipg_spec|by apply default_reserve_spec].
Qed.

Lemma fill_in_info_default len n :
  n = len / 4096 -> 1 <= n -> n + 65536 < 2 ^ 32 ->
  fill_in_info (set_fs_len len zero_info) =
    Some (mk_fs_info (4096 * n) 4096 32768 (default_ipg n) 256 (default_ipg n * default_groups n)
            (default_journal n) 0x13 0x1c 0x42 (default_reserve n) [] 0).
Proof.
  intros En Hn Hs.
  assert (Hlen : 0 <= len < 2 ^ 63).
  { pose proof (Z.div_mod len 4096 ltac:(lia)). pose proof (Z.mod_pos_bound len 4096 ltac:(lia)). lia. }
  rewrite fill_in_info_stages, with_length_default, <-En by done.
  rewrite with_journal_default, with_inodes_default_spec by lia. by rewrite (with_derived_default n).
Qed.

Lemma default_sane n :
  1 <= n -> n + 65536 < 2 ^ 32 ->
  sane_info (mk_fs_info (4096 * n) 4096 32768 (default_ipg n) 256 (default_ipg n * default_groups n)
               (default_journal n) 0x13 0x1c 0x42 (default_reserve n) [] 0).
Proof.
  intros Hn Hs. destruct (default_bounds n Hn Hs) as (Hg & Hg2 & Hipg & Hin).
  assert (Er : 0 <= default_reserve n <= 1024).
  { unfold default_reserve. pose proof (DIV_ROUND_UP_bounds (default_groups n * 32) 4096 ltac:(lia) ltac:(lia)). lia. }
  assert (En : 4096 * n / 4096 = n) by (rewrite Z.mul_comm; apply Z.div_mul; lia).
  split; info_fields; rewrite ?En; try lia.
  fold (default_groups n).
  pose proof (DIV_ROUND_UP_bounds (default_ipg n * 256) 4096 ltac:(lia) ltac:(lia)).
  pose proof (DIV_ROUND_UP_bounds (default_groups n * 32) 4096 ltac:(lia) ltac:(lia)). lia.
Qed.

(** The default parameters are good for every image of one block to 16 TiB:
    [make_ext4fs] rounds the length down to blocks of 4 KiB, makes groups of 32768
    blocks, gives every group the same number of inodes, a whole number of blocks
    of them and at least one inode for four blocks of the image, and a journal of
    1024 to 32768 blocks; and no later computation of the geometry overflows. *)
Theorem fill_in_info_defaults (len : Z) (Hlen : 4096 <= len < 2 ^ 44 - 2 ^ 28) :
  exists info, fill_in_info (set_fs_len len zero_info) = Some info /\ sane_info info /\
    fs_len info = len - len mod 4096 /\ block_size info = 4096 /\ blocks_per_group info = 32768 /\
    inodes_per_group info mod (block_size info / inode_size info) = 0 /\
    inodes info = inodes_per_group info * DIV_ROUND_UP (len / 4096) 32768 /\
    len / 4096 / 4 <= inodes info < 2 ^ 32 /\ 1024 <= journal_blocks info <= 32768 /\
    0 <= bg_desc_reserve_blocks info <= 1024.
Proof.
  pose proof (Z.div_mod len 4096 ltac:(lia)) as D. pose proof (Z.mod_pos_bound len 4096 ltac:(lia)).
  set (n := len / 4096) in *. assert (Hn : 1 <= n) by lia. assert (Hs : n + 65536 < 2 ^ 32) by lia.
  destruct (default_bounds n Hn Hs) as (Hg & Hg2 & Hipg & Hin).
  pose proof (fill_in_info_default len n eq_refl Hn Hs) as E. clearbody n.
  eexists. split; [exact E|]. split; [by apply default_sane|]. info_fields.
  assert (Er : 0 <= default_reserve n <= 1024).
  { unfold default_reserve. pose proof (DIV_ROUND_UP_bounds (default_groups n * 32) 4096 ltac:(lia) ltac:(lia)). lia. }
  fold (default_groups n). split_and!; try (done || lia || (unfold default_journal; lia)).
  change (4096 / 256) with 16. unfold default_ipg, ALIGN. by rewrite Z.mul_comm, Z_mod_mult.
Qed.

Lemma fill_in_info_defaults_witness :
  exists info, fill_in_info (set_fs_len 268439000 zero_info) = Some info /\ sane_info info /\
    fs_len info = 268439000 - 268439000 mod 4096 /\ block_size info = 4096 /\ blocks_per_group info = 32768 /\
    inodes_per_group info mod (block_size info / inode_size info) = 0 /\
    inodes info = inodes_per_group info * DIV_ROUND_UP (268439000 / 4096) 32768 /\
    268439000 / 4096 / 4 <= inodes info < 2 ^ 32 /\ 1024 <= journal_blocks info <= 32768 /\
    0 <= bg_desc_reserve_blocks info <= 1024.
Proof. apply (fill_in_info_defaults 268439000). lia. Defined.

(** ** Images that are too small *)

(** a positive length below one block is not refused: it is rounded down to
    nothing after the test for a zero length, the image has no block group, and
    the number of inodes per group is a division by zero. *)
Theorem make_ext4fs_too_small (force : bool) (fuel : nat) (sparse_result : Z) (ctx : SHA1_CTX)
    (sehnd : label_fun) (len : Z) (mountpoint : option (list Z)) (st : file_stat)
  (Hlen : 0 < len < 4096) :
  make_ext4fs force fuel sparse_result ctx sehnd true len mountpoint st = Stuck.
Proof.
  assert (E : fill_in_info (set_fs_len len zero_info) = None).
  { rewrite fill_in_info_stages, with_length_default, Z.div_small by lia. rewrite with_journal_default by lia.
    rewrite with_inodes_default_spec by lia. reflexivity. }
  unfold make_ext4fs, make_ext4fs_internal, reset_ext4fs_info. cbv zeta beta iota.
  assert (M : exists m, (match mountpoint with
                         | None => mret' []
                         | Some m => deref (canonicalize_abs_slashes m)
                         end) empty_world = Done m empty_world).
  { destruct mountpoint as [[|c s]|]; [by eexists| |by eexists].
    unfold canonicalize_abs_slashes, canonicalize_slashes. rewrite last_cons.
    by destruct (last s); eexists. }
  destruct M as [m M]. rewrite (mbind_done _ _ _ _ _ M). erewrite mbind_done by done.
  change (fs_len (set_fs_len len zero_info)) with len. rewrite (proj2 (Z.leb_gt len 0)) by lia.
  change (fs_len (set_fs_len len zero_info)) with len. rewrite (proj2 (Z.leb_gt len 0)) by lia.
  by rewrite E.
Qed.

Lemma make_ext4fs_too_small_witness :
  make_ext4fs true 10 0 image_ctx None true 4095 None (RegularFile 4095) = Stuck.
Proof. apply (make_ext4fs_too_small true 10 0 image_ctx None 4095 None (RegularFile 4095)). lia. Defined.

(** ** The first steps of an image *)

(** The allocator's set-up does not touch the buffers. *)
Lemma init_keeps_bufs force info aux b :
  keeps (fun w => w_bufs w = b) (block_allocator_init force info aux) any.
Proof.
  unfold block_allocator_init. apply (keeps_bind _ _ _ any); [by apply keeps_modify|]. intros _ _.
  generalize (seqZ 0 (groups aux)). intros gs.
  induction gs as [|i gs IH]; cbn [init_groups]; [by apply keeps_ret|].
  apply (keeps_bind _ _ _ any); [|done]. unfold init_group.
  apply (keeps_bind _ _ _ any); [by apply keeps_modify|]. intros _ _.
  intros w Hw. unfold with_bg, zoom. destruct (zget (w_bgs w) i) as [bg|]; [|done].
  by destruct (init_bg force info aux i bg).
Qed.

Lemma sane_groups info :
  sane_info info -> let aux := ext4_create_fs_aux_info info in
  groups aux * sizeof_group_desc <= block_size info * bg_desc_blocks aux.
Proof.
  intros Hs aux. destruct (create_fs_aux_info_plain info Hs) as (_ & _ & Ed & Eg). fold aux in Ed, Eg. clearbody aux.
  destruct Hs as [Hbs Hbpg Hlen Hblk _ _ _]. rewrite Ed.
  assert (Hn : 0 <= fs_len info / block_size info) by (apply Z.div_pos; lia).
  pose proof (DIV_ROUND_UP_bounds _ (blocks_per_group info) Hn ltac:(lia)) as Hg. unfold plain_geometry in Eg.
  unfold plain_desc. set (g := DIV_ROUND_UP (fs_len info / block_size info) (blocks_per_group info)) in *.
  assert (0 <= g) by nia. pose proof (DIV_ROUND_UP_bounds (g * 32) (block_size info) ltac:(lia) ltac:(lia)).
  unfold sizeof_group_desc. destruct (_ && _); injection Eg as _ ->; lia.
Qed.

Lemma lookup_snoc_next {A} (l : list A) (x y : A) : (l ++ [x; y]) !! S (length l) = Some y.
Proof. by rewrite lookup_app_r, Nat.sub_succ_l, Nat.sub_diag by lia. Qed.

Lemma created_ready info k ctx w :
  sane_info info -> block_size info = 1024 * 2 ^ k -> 0 <= k <= 20 -> length (c_buffer ctx) = 64%nat ->
  Forall is_byte (fs_label info) -> Z.of_nat (length (fs_label info)) < 2 ^ 29 ->
  super_ready info (ext4_create_fs_aux_info info) (length (w_bufs w)) (S (length (w_bufs w))) ctx k
    (created info w).
Proof.
  intros Hs Hbs Hk Hctx Hl1 Hl2. pose proof (sane_groups info Hs) as Hg.
  destruct (geometry_spec info Hs) as [Hgeo _]. pose proof (geo_groups _ _ Hgeo) as Hg0.
  split; [lia|done|done|done| | |done].
  - exists (replicate (Z.to_nat (block_size info)) 0). split; [by apply list_lookup_middle|].
    rewrite length_replicate. destruct Hs; lia.
  - exists (replicate (Z.to_nat (block_size info * bg_desc_blocks (ext4_create_fs_aux_info info))) 0).
    split; [apply lookup_snoc_next|]. rewrite length_replicate. clear Hgeo. revert Hg Hg0.
    generalize (ext4_create_fs_aux_info info). intros aux. unfold sizeof_group_desc.
    generalize (block_size info * bg_desc_blocks aux). lia.
Qed.

Lemma super_ready_bufs info aux sb bg_desc ctx k w w' :
  w_bufs w' = w_bufs w -> super_ready info aux sb bg_desc ctx k w -> super_ready info aux sb bg_desc ctx k w'.
Proof. intros E []. split; rewrite ?E; done. Qed.

Lemma world_ok_same info aux w' w :
  w_bgs w' = w_bgs w -> w_heap w' = w_heap w -> world_ok info aux w -> world_ok info aux w'.
Proof. intros E1 E2 []. split; rewrite ?E1, ?E2; done. Qed.

(** C15: the first steps of [make_ext4fs_internal] fit together: for parameters
    that do not overflow, the geometry, the allocator's set-up and the superblock
    all succeed, and leave every group's bitmap, free count and region lists in
    the state the later allocations rely on, with exactly the headers (and what
    the last group has past the end of the image) in use. *)
Theorem make_image_starts (force : bool) (info : fs_info) (k : Z) (ctx : SHA1_CTX) (w : world)
  (Hs : sane_info info) (Hbs : block_size info = 1024 * 2 ^ k) (Hk : 0 <= k <= 20)
  (Hctx : length (c_buffer ctx) = 64%nat)
  (Hlabel : Forall is_byte (fs_label info)) (Hlen : Z.of_nat (length (fs_label info)) < 2 ^ 29)
  (Hheap : heap_ok (w_heap w)) :
  let aux := ext4_create_fs_aux_info info in
  exists sb bg_desc w1 w2 w3,
    create_fs_aux_info info w = Done (aux, sb, bg_desc) w1 /\
    block_allocator_init force info aux w1 = Done tt w2 /\
    ext4_fill_in_sb info aux sb bg_desc ctx w2 = Done tt w3 /\
    world_ok info aux w3 /\
    forall i j, 0 <= i < groups aux -> 0 <= j < blocks_per_group info ->
      used info w3 (first_data_block aux + i * blocks_per_group info + j) <->
      j < bg_header_blocks info aux i \/ group_len info aux i <= j.
Proof.
  intros aux. destruct (geometry_spec info Hs) as [Hgeo Hfit]. fold aux in Hgeo, Hfit.
  assert (Hw1 : create_fs_aux_info info w = Done (aux, length (w_bufs w), S (length (w_bufs w))) (created info w))
    by (apply create_fs_aux_info_done; destruct Hs; lia).
  destruct (block_allocator_init_spec force info aux Hgeo (created info w) Hheap Hfit)
    as (w2 & E2 & Hok2 & Hall).
  pose proof (init_keeps_bufs force info aux _ (created info w) eq_refl) as Hb. rewrite E2 in Hb. destruct Hb as [Hb _].
  pose proof (created_ready info k ctx w Hs Hbs Hk Hctx Hlabel Hlen) as Hr. fold aux in Hr.
  apply (super_ready_bufs _ _ _ _ _ _ _ w2) in Hr; [|done].
  destruct (ext4_fill_in_sb_spec _ _ _ _ _ _ _ Hr)
    as (w3 & _ & _ & _ & _ & E3 & _ & _ & _ & _ & _ & _ & Ebgs & Eheap & _).
  exists (length (w_bufs w)), (S (length (w_bufs w))), (created info w), w2, w3.
  split_and!; [done|done|done|by apply (world_ok_same _ _ _ w2)|]. intros i j Hi Hj.
  destruct (Hall i Hi) as (bg & Ebg & Hinit). rewrite <-Ebgs in Ebg.
  rewrite <-(init_ok_used info aux i bg j (Hfit i Hi) Hinit Hj).
  apply used_in_group with (aux := aux); [done|by apply (world_ok_same _ _ _ w2)|done|done].
Qed.

Lemma make_image_starts_witness :
  let aux := ext4_create_fs_aux_info image_info in
  exists sb bg_desc w1 w2 w3,
    create_fs_aux_info image_info empty_world = Done (aux, sb, bg_desc) w1 /\
    block_allocator_init true image_info aux w1 = Done tt w2 /\
    ext4_fill_in_sb image_info aux sb bg_desc image_ctx w2 = Done tt w3 /\
    world_ok image_info aux w3 /\
    forall i j, 0 <= i < groups aux -> 0 <= j < blocks_per_group image_info ->
      used image_info w3 (first_data_block aux + i * blocks_per_group image_info + j) <->
      j < bg_header_blocks image_info aux i \/ group_len image_info aux i <= j.
Proof.
  apply (make_image_starts true image_info 2 image_ctx empty_world image_info_sane eq_refl); try reflexivity.
  - lia.
  - repeat constructor; done.
  - exact empty_heap_ok.
Defined.
