(* ===== verification/FatFs.v ===== *)
(** * The FAT image served by fatblock (fatblock/fs.c, fat.c, utils.c)

    A FAT32 file system that exists only as its boot sectors, its FAT and a linked
    list of extents, which say what each part of the device shows. A pointer to a
    [struct extent] is a number: the four extents inside [struct fs] are 0 to 3, and
    a file or directory object, whose first member is its extent, shares its
    pointer. A failed [malloc] and the messages are left out; a failed [assert] is
    [Stuck]. *)

From Stdlib Require Import String.
From S2P Require Import Prelude Bytes Layout.

(** ** utils.c *)

(** [strpadcpy]: when the string is longer than the space, [l] has wrapped after the
    first loop and the second runs out of the array. *)
Fixpoint strpadcpy (s : list Z) (l : nat) : option (list Z) :=
  match s, l with
  | [], _ => Some (replicate l 32)
  | c :: s, S l => cons c <$> strpadcpy s l
  | _ :: _, O => None
  end.

(** ** fat.h, fat.c *)

Definition bs_name : field := (3, 8%nat).
Definition bs_sector_size : field := (11, 2%nat).
Definition bs_sectors_per_cluster : field := (13, 1%nat).
Definition bs_reserved_sectors : field := (14, 2%nat).
Definition bs_fats : field := (16, 1%nat).
Definition bs_media_desc : field := (21, 1%nat).
Definition bs_sectors_per_track : field := (24, 2%nat).
Definition bs_heads : field := (26, 2%nat).
Definition bs_sectors32 : field := (32, 4%nat).
Definition bs_fat_sectors32 : field := (36, 4%nat).
Definition bs_rootdir_start : field := (44, 4%nat).
Definition bs_fs_info_sector : field := (48, 2%nat).
Definition bs_backup_boot_sector : field := (50, 2%nat).
Definition bs_phys_drive : field := (64, 1%nat).
Definition bs_ext_boot_sig : field := (66, 1%nat).
Definition bs_serial : field := (67, 4%nat).
Definition bs_vol_label : field := (71, 11%nat).
Definition bs_type : field := (82, 8%nat).
Definition bs_boot_sig : field := (510, 2%nat).
Definition sizeof_boot_sector : Z := 512.

Definition is_info_sig1 : field := (0, 4%nat).
Definition is_info_sig2 : field := (484, 4%nat).
Definition is_free_clusters : field := (488, 4%nat).
Definition is_last_cluster : field := (492, 4%nat).
Definition is_info_sig3 : field := (510, 2%nat).
Definition sizeof_info_sector : Z := 512.

Definition FAT_BOOT_SIG : list Z := [0x55; 0xAA].
Definition FAT_INFO_SIG1 : list Z := str "RRaA".
Definition FAT_INFO_SIG2 : list Z := str "rrAa".
Definition FAT_INFO_SIG3 : list Z := FAT_BOOT_SIG.
Definition FAT_MEDIA_DESC_FIXED : Z := 0xF8.
Definition FAT_PHYS_DRIVE_REMOVABLE : Z := 0x00.
Definition FAT_EXT_BOOT_SIG : Z := 0x29.
Definition FAT_ATTR_SUBDIR : Z := 0x10.
Definition FAT_ENTRY_EOC : Z := 0x0FFFFFF8.
Definition FAT_CLUSTER_ZERO : Z := 2.

(** [struct fat_dirent] *)
Definition fde_name : field := (0, 11%nat).
Definition fde_attr : field := (11, 1%nat).
Definition fde_first_cluster_hi : field := (20, 2%nat).
Definition fde_first_cluster_lo : field := (26, 2%nat).
Definition fde_size : field := (28, 4%nat).
Definition sizeof_fat_dirent : Z := 32.

(** The assignments of [fat_dirent_set_first_cluster]. *)
Definition first_cluster_asgs (cluster : Z) : list asg :=
  [Num fde_first_cluster_hi (Z.land (Z.shiftr cluster 16) 0xffff);
   Num fde_first_cluster_lo (Z.land (Z.shiftr cluster 0) 0xffff)].
Definition fat_dirent_set_first_cluster (base cluster : Z) (entries : list Z) : option (list Z) :=
  run_asgs base (first_cluster_asgs cluster) entries.

(** [fat_dirent_set]: [memset] and the members; the name has eleven bytes. *)
Definition fat_dirent_set (base : Z) (name : list Z) (attr first_cluster size : Z) (entries : list Z)
  : option (list Z) :=
  e ← write_bytes entries base (replicate (Z.to_nat sizeof_fat_dirent) 0);
  name ← read_bytes name 0 11;
  e ← run_asgs base [Raw fde_name name; Num fde_attr attr] e;
  e ← fat_dirent_set_first_cluster base first_cluster e;
  run_asgs base [Num fde_size size] e.

(** ** fatblock.h, fs.h *)

Inductive extent_type := EXTENT_TYPE_BOOT | EXTENT_TYPE_INFO | EXTENT_TYPE_FAT | EXTENT_TYPE_FILE | EXTENT_TYPE_DIR.

Record extent := mk_extent {
  e_start : Z;
  e_len : Z;
  e_type : extent_type;
  e_next : option nat
}.

Record fs := mk_fs {
  cluster_size : Z;
  num_clusters : Z;
  next_cluster : Z;
  fs_extents : option nat;
  fs_boot : list Z;
  fs_info : list Z;
  fs_fat : list Z;
  fat_size : Z;
  data_offset : Z;
  extent_at : gmap nat extent
}.

Definition boot_extent : nat := 0.
Definition info_extent : nat := 1.
Definition backup_boot_extent : nat := 2.
Definition fat_extent : nat := 3.

Definition set_next_cluster (v : Z) (f : fs) : fs :=
  mk_fs (cluster_size f) (num_clusters f) v (fs_extents f) (fs_boot f) (fs_info f) (fs_fat f) (fat_size f)
    (data_offset f) (extent_at f).
Definition set_extents (v : option nat) (m : gmap nat extent) (f : fs) : fs :=
  mk_fs (cluster_size f) (num_clusters f) (next_cluster f) v (fs_boot f) (fs_info f) (fs_fat f) (fat_size f)
    (data_offset f) m.
Definition set_boot (v : list Z) (f : fs) : fs :=
  mk_fs (cluster_size f) (num_clusters f) (next_cluster f) (fs_extents f) v (fs_info f) (fs_fat f) (fat_size f)
    (data_offset f) (extent_at f).
Definition set_info (v : list Z) (f : fs) : fs :=
  mk_fs (cluster_size f) (num_clusters f) (next_cluster f) (fs_extents f) (fs_boot f) v (fs_fat f) (fat_size f)
    (data_offset f) (extent_at f).
Definition set_fat (v : list Z) (f : fs) : fs :=
  mk_fs (cluster_size f) (num_clusters f) (next_cluster f) (fs_extents f) (fs_boot f) (fs_info f) v (fat_size f)
    (data_offset f) (extent_at f).

(** ** fs.c *)

Definition DEFAULT_SECTOR_SIZE : Z := 512.

(** [fs_add_extent] at the head of the list. *)
Definition fs_add_extent (extent : nat) (start len : Z) (type : extent_type) : M fs unit :=
  modify (fun f => set_extents (Some extent)
    (<[extent := mk_extent start len type (fs_extents f)]> (extent_at f)) f).

(** The part of an extent that a request sees: where it starts in the request and
    in the extent, and its length. The four [assert]s. *)
Definition overlap (start len : Z) (e : extent) : Z * Z * Z :=
  let end_ := u64 (start + len) in
  let e_end := u64 (e_start e + e_len e) in
  if e_start e <=? start
  then (0, u64 (start - e_start e), if end_ <=? e_end then len else u64 (e_end - start))
  else (u64 (e_start e - start), 0, if e_end <=? end_ then e_len e else u64 (end_ - e_start e)).
Definition overlap_asserts (len e_len r_start e_start rel_len : Z) : bool :=
  (e_start <? e_len) && (u64 (e_start + rel_len) <=? e_len) && (r_start <? len) && (u64 (r_start + rel_len) <=? len).

(** The loop of [fs_find_extent], from the extent [e] on. *)
Fixpoint find_loop (fuel : nat) (start len : Z) (e : option nat) : M fs (option (nat * Z * Z * Z)) :=
  match e with
  | None => mret' None
  | Some p =>
      match fuel with
      | O => fun _ => NoFuel
      | S fuel =>
          do f <- get;
          do x <- deref (extent_at f !! p);
          if u64 (e_start x + e_len x) <=? start then find_loop fuel start len (e_next x)
          else if u64 (start + len) <=? e_start x then find_loop fuel start len (e_next x)
          else
            let '(r_rel_start, e_rel_start, rel_len) := overlap start len x in
            if overlap_asserts len (e_len x) r_rel_start e_rel_start rel_len
            then mret' (Some (p, r_rel_start, e_rel_start, rel_len))
            else stuck
      end
  end.

Definition fs_find_extent (start len : Z) (last : option nat) : M fs (option (nat * Z * Z * Z)) :=
  do f <- get;
  do e <- match last with
          | Some p => do x <- deref (extent_at f !! p); mret' (e_next x)
          | None => mret' (fs_extents f)
          end;
  find_loop (S (size (extent_at f))) start len e.

(** [fs->fat[cluster] = htole32(entry)] *)
Definition fs_set_fat (cluster entry : Z) : M fs unit :=
  do f <- get;
  do fat <- deref (zset (fs_fat f) cluster (u32 entry));
  modify (set_fat fat).

(** The loop of [fs_alloc_extent] that links the clusters. *)
Fixpoint link_clusters (is_ : list Z) (start : Z) : M fs unit :=
  match is_ with
  | [] => mret' tt
  | i :: is_ => fs_set_fat (u32 (start + i)) (u32 (start + i + 1));;; link_clusters is_ start
  end.

(** [fs_alloc_extent]: the first cluster, [None] when the file system is full. *)
Definition fs_alloc_extent (extent : nat) (len : Z) (type : extent_type) : M fs (option Z) :=
  if len =? 0 then
    modify (fun f => set_extents (fs_extents f)
      (<[extent := mk_extent 0 0 type (extent_at f !! extent ≫= e_next)]> (extent_at f)) f);;;
    mret' (Some 0)
  else
    do f <- get;
    (if cluster_size f =? 0 then stuck else mret' tt);;;
    let clusters_needed := u32 (u64 (len + cluster_size f - 1) / cluster_size f) in
    if num_clusters f <? u32 (next_cluster f + clusters_needed) then mret' None
    else
      let start := next_cluster f in
      modify (set_next_cluster (u32 (next_cluster f + clusters_needed)));;;
      link_clusters (seqZ 0 (u32 (clusters_needed - 1))) start;;;
      fs_set_fat (u32 (start + clusters_needed - 1)) FAT_ENTRY_EOC;;;
      fs_add_extent extent
        (u64 (data_offset f + u32 (start - FAT_CLUSTER_ZERO) * cluster_size f))
        (u64 (clusters_needed * cluster_size f)) type;;;
      mret' (Some start).

(** The boot and information sectors of [fs_init]. *)
Definition boot_asgs (sectors_per_cluster reserved_sectors total_sectors fat_sectors : Z)
    (name vol_label type : list Z) : list asg :=
  [Raw bs_name name;
   Num bs_sector_size DEFAULT_SECTOR_SIZE;
   Num bs_sectors_per_cluster sectors_per_cluster;
   Num bs_reserved_sectors reserved_sectors;
   Num bs_fats 1;
   Num bs_media_desc FAT_MEDIA_DESC_FIXED;
   Num bs_sectors_per_track 42;
   Num bs_heads 42;
   Num bs_sectors32 total_sectors;
   Num bs_fat_sectors32 fat_sectors;
   Num bs_fs_info_sector 1;
   Num bs_backup_boot_sector 2;
   Num bs_phys_drive FAT_PHYS_DRIVE_REMOVABLE;
   Num bs_ext_boot_sig FAT_EXT_BOOT_SIG;
   Num bs_serial 0x42424242;
   Raw bs_vol_label vol_label;
   Raw bs_type type;
   Raw bs_boot_sig FAT_BOOT_SIG].
Definition info_asgs : list asg :=
  [Raw is_info_sig1 FAT_INFO_SIG1;
   Raw is_info_sig2 FAT_INFO_SIG2;
   Num is_free_clusters (u32 (-1));
   Num is_last_cluster FAT_CLUSTER_ZERO;
   Raw is_info_sig3 FAT_INFO_SIG3].

(** [fs_init]: the size of the device. *)
Definition fs_init (cluster_size data_size : Z) : M fs Z :=
  let sector_size := DEFAULT_SECTOR_SIZE in
  let sectors_per_cluster := cluster_size / DEFAULT_SECTOR_SIZE in
  let fat_entries_per_sector := sector_size / 4 in
  (if cluster_size =? 0 then stuck else mret' tt);;;
  let data_clusters := u32 (u64 (data_size + cluster_size - 1) / cluster_size) in
  let data_sectors := u64 (data_clusters * sectors_per_cluster) in
  let fat_sectors := u32 (data_clusters + 2 + fat_entries_per_sector - 1) / fat_entries_per_sector in
  let reserved_sectors := 3 in
  let total_sectors := u64 (reserved_sectors + fat_sectors + data_sectors) in
  do name <- deref (strpadcpy (str "FATBLOCK") 8);
  do vol_label <- deref (strpadcpy (str "FATBLOCK") 11);
  do type <- deref (strpadcpy (str "FAT32") 8);
  do boot <- deref (run_asgs 0
    (boot_asgs sectors_per_cluster reserved_sectors total_sectors fat_sectors name vol_label type)
    (replicate (Z.to_nat sizeof_boot_sector) 0));
  do info <- deref (run_asgs 0 info_asgs (replicate (Z.to_nat sizeof_info_sector) 0));
  let fat_size := u64 (fat_sectors * sector_size) in
  do f <- get;
  put (mk_fs cluster_size (u32 (FAT_CLUSTER_ZERO + data_clusters)) FAT_CLUSTER_ZERO None boot info
         (replicate (Z.to_nat (fat_size / 4)) 0) fat_size
         (u64 ((reserved_sectors + fat_sectors) * sector_size)) (extent_at f));;;
  fs_add_extent boot_extent 0 sector_size EXTENT_TYPE_BOOT;;;
  fs_add_extent info_extent sector_size sector_size EXTENT_TYPE_INFO;;;
  fs_add_extent backup_boot_extent (2 * sector_size) sector_size EXTENT_TYPE_BOOT;;;
  fs_add_extent fat_extent (reserved_sectors * sector_size) fat_size EXTENT_TYPE_FAT;;;
  mret' (u64 (total_sectors * sector_size)).

Definition fs_set_rootdir_start (rootdir_start : Z) : M fs unit :=
  do f <- get;
  do boot <- deref (run_asgs 0 [Num bs_rootdir_start rootdir_start] (fs_boot f));
  modify (set_boot boot).

Definition fs_update_free_clusters : M fs unit :=
  do f <- get;
  do info <- deref (run_asgs 0 [Num is_free_clusters (u32 (num_clusters f - next_cluster f))] (fs_info f));
  modify (set_info info).
