(* ===== verification/FdPool.v ===== *)
(** * The pool of file descriptors of fatblock (fatblock/fdpool.c)

    At most four descriptors are open; they are the nodes of a circular doubly
    linked list around [fdpool_head], the least recently used last. A node is named
    by the [struct file] it is part of, the head by [None]; a [NULL] link is [None]
    of the outer option. The kernel's table of open files is part of the state:
    what [open] finds under a path is a parameter. *)

From S2P Require Import Prelude.

Definition INVALID_FD : Z := -1.
Definition FDPOOL_SIZE : Z := 4.

Definition node_id : Type := option nat.
Definition fdpool_head : node_id := None.

Record pooled_fd := mk_pooled_fd {
  p_prev : option node_id;
  p_next : option node_id;
  p_fd : Z
}.

(** An open file: its contents and the position of the descriptor. *)
Record open_file := mk_open_file { of_data : list Z; of_pos : Z }.

Record pool := mk_pool {
  pool_nodes : gmap node_id pooled_fd;
  fdpool_count : Z;
  pool_files : gmap Z open_file
}.

(** The initial values of [fdpool_head] and [fdpool_count], and a process whose
    other descriptors are not in the table. *)
Definition initial_pool : pool :=
  mk_pool {[ fdpool_head := mk_pooled_fd (Some fdpool_head) (Some fdpool_head) INVALID_FD ]} 0 ∅.

Definition set_pool_nodes (v : gmap node_id pooled_fd) (p : pool) : pool :=
  mk_pool v (fdpool_count p) (pool_files p).
Definition set_pool_count (v : Z) (p : pool) : pool := mk_pool (pool_nodes p) v (pool_files p).
Definition set_pool_files (v : gmap Z open_file) (p : pool) : pool :=
  mk_pool (pool_nodes p) (fdpool_count p) v.

Definition set_prev (v : option node_id) (n : pooled_fd) : pooled_fd := mk_pooled_fd v (p_next n) (p_fd n).
Definition set_next (v : option node_id) (n : pooled_fd) : pooled_fd := mk_pooled_fd (p_prev n) v (p_fd n).
Definition set_fd (v : Z) (n : pooled_fd) : pooled_fd := mk_pooled_fd (p_prev n) (p_next n) v.

Definition node (id : node_id) : M pool pooled_fd :=
  do p <- get; deref (pool_nodes p !! id).
Definition update_node (id : node_id) (f : pooled_fd -> pooled_fd) : M pool unit :=
  do n <- node id;
  modify (fun p => set_pool_nodes (<[id := f n]> (pool_nodes p)) p).

Definition fdpool_insert_head (id : node_id) : M pool unit :=
  let prev := fdpool_head in
  do h <- node prev;
  do next <- deref (p_next h);
  update_node prev (set_next (Some id));;;
  update_node id (set_prev (Some prev));;;
  update_node id (set_next (Some next));;;
  update_node next (set_prev (Some id));;;
  modify (fun p => set_pool_count (fdpool_count p + 1) p).

Definition fdpool_remove (id : node_id) : M pool unit :=
  do n <- node id;
  do prev <- deref (p_prev n);
  do next <- deref (p_next n);
  update_node prev (set_next (Some next));;;
  update_node next (set_prev (Some prev));;;
  modify (fun p => set_pool_count (fdpool_count p - 1) p).

(** With the [assert] that the pool is not empty. *)
Definition fdpool_remove_tail : M pool node_id :=
  do h <- node fdpool_head;
  do tail <- deref (p_prev h);
  (if decide (tail = fdpool_head) then stuck else mret' tt);;;
  fdpool_remove tail;;;
  mret' tail.

Definition fdpool_clear (id : node_id) : M pool unit :=
  update_node id (fun _ => mk_pooled_fd None None INVALID_FD).

(** [close]: a descriptor that is not open is refused, which is not checked. *)
Definition close (fd : Z) : M pool unit := modify (fun p => set_pool_files (delete fd (pool_files p)) p).

Definition fdpool_unpool (id : node_id) : M pool unit :=
  do n <- node id;
  close (p_fd n);;;
  fdpool_clear id.

Definition fdpool_evict : M pool unit :=
  do tail <- fdpool_remove_tail;
  fdpool_unpool tail.

Definition fdpool_pool (id : node_id) (fd : Z) : M pool unit :=
  do p <- get;
  (if FDPOOL_SIZE <=? fdpool_count p then fdpool_evict else mret' tt);;;
  fdpool_insert_head id;;;
  update_node id (set_fd fd).

Definition fdpool_touch (id : node_id) : M pool unit :=
  fdpool_remove id;;;
  fdpool_insert_head id.

(** [fdpool_init] of a new node. *)
Definition fdpool_init (id : node_id) : M pool unit :=
  modify (fun p => set_pool_nodes (<[id := mk_pooled_fd None None INVALID_FD]> (pool_nodes p)) p).

Section host.
(** The contents of the file at a path, [None] when it cannot be opened. *)
Context (host_data : list Z -> option (list Z)).

(** [open] gives the lowest descriptor that is not in use. *)
Fixpoint lowest_free (fuel : nat) (fd : Z) (files : gmap Z open_file) : Z :=
  match fuel with
  | O => fd
  | S fuel => if decide (files !! fd = None) then fd else lowest_free fuel (fd + 1) files
  end.
Definition open (path : list Z) : M pool Z :=
  do p <- get;
  match host_data path with
  | None => mret' (-1)
  | Some data =>
      let fd := lowest_free (size (pool_files p)) 0 (pool_files p) in
      modify (set_pool_files (<[fd := mk_open_file data 0]> (pool_files p)));;;
      mret' fd
  end.

Definition fdpool_open (id : node_id) (path : list Z) : M pool Z :=
  do n <- node id;
  if negb (p_fd n =? INVALID_FD) then
    fdpool_touch id;;;
    mret' (p_fd n)
  else
    do fd <- open path;
    (if 0 <=? fd then fdpool_pool id fd else mret' tt);;;
    mret' fd.
End host.

Definition fdpool_close (id : node_id) : M pool unit := fdpool_unpool id.
