(* ===== verification/FatImport.v ===== *)
(** * Importing a directory tree (fatblock/import.c, fatblock.c)

    Every file and directory of the host becomes an extent of the FAT image. The
    objects the code allocates are named by numbers; the items of a directory are
    in a heap, since the code keeps a list of free items and may put one there
    twice. What the host answers to [opendir], [readdir] and [stat] are parameters.
    A field that was never written is [None], and reading it is [Stuck]. [char] is
    unsigned, as on the devices. *)

From Stdlib Require Import String.
From S2P Require Import Prelude Bytes Layout FatFs FdPool.

(** ** Short names *)

Definition between (a b c : Z) : bool := (a <=? c) && (c <=? b).
Definition isalnum (c : Z) : bool := between 48 57 c || between 65 90 c || between 97 122 c.
Definition toupper (c : Z) : Z := if between 97 122 c then c - 32 else c.

Definition name_symbols : list Z := str "!#$%'()-@^_`{}~".
Definition valid_char (c : Z) : bool :=
  isalnum c || bool_decide (c ∈ name_symbols) || ((128 <=? c) && (c <? 256)).

Definition dot_char : Z := 46.

(** The first loop of [convert_name]: the place of the dot, or [short_fail]. *)
Fixpoint scan_name (s : list Z) (i : Z) (dot : option Z) : option (option Z) :=
  match s with
  | [] => Some dot
  | c :: s =>
      if c =? dot_char then
        match dot with
        | Some _ => None
        | None => scan_name s (i + 1) (Some i)
        end
      else if valid_char c then scan_name s (i + 1) dot else None
  end.

(** [short_name[off + i] = toupper(s[i])] for each [i]. *)
Fixpoint put_upper (short_name : list Z) (off : Z) (s : list Z) : option (list Z) :=
  match s with
  | [] => Some short_name
  | c :: s => b ← zset short_name off (toupper c); put_upper b (off + 1) s
  end.

(** [convert_name] into the bytes from [short_name] on: [None] when a write leaves
    them, [Some None] when it returns 1. Without a dot, [dot] is the null pointer
    and its difference from the name is negative. With one, the second loop also
    copies the terminator. *)
Definition convert_name (short_name long_name : list Z) : option (option (list Z)) :=
  let s := Z.of_nat (length long_name) in
  match scan_name long_name 0 None with
  | None => Some None
  | Some dot =>
      if match dot with Some dot => 8 <? dot | None => false end then Some None
      else if match dot with Some dot => 3 <? s - (dot + 1) | None => false end then Some None
      else
        short_name ← write_bytes short_name 0 (replicate 11 32);
        let dot := default s dot in
        short_name ← put_upper short_name 0 (take (Z.to_nat dot) long_name);
        short_name ← put_upper short_name 8
          (take (Z.to_nat (s - dot)) (drop (Z.to_nat (dot + 1)) (long_name ++ [0])));
        Some (Some short_name)
  end.

(** ** Objects *)

Record file := mk_file { f_path : list Z; f_size : Z; f_dev : Z; f_ino : Z; f_mtime : Z }.
Record dir := mk_dir { d_path : list Z; d_size : Z; d_entries : list Z }.

(** [struct imported]; [dot_dot_dirent] points at the first entry of a directory. *)
Record imported := mk_imported {
  im_first_cluster : option Z;
  im_size : option Z;
  im_dot_dot_dirent : option (option nat)
}.

(** [struct item]. Its name is followed by five bytes of padding before [imp], whose
    pointer is aligned. *)
Record item := mk_item {
  it_name : list Z;
  it_imp : imported;
  it_next : option (option nat);
  it_is_dir : option bool
}.
Definition item_name_space : nat := 16.
Definition new_imported : imported := mk_imported None None None.
Definition new_item : item := mk_item (replicate item_name_space 0) new_imported None None.

Record fatblock := mk_fatblock {
  fb_fs : fs;
  fb_pool : pool;
  fb_files : gmap nat file;
  fb_dirs : gmap nat dir;
  fb_items : gmap nat item;
  free_items_head : option nat;
  fb_fresh : nat
}.

Definition set_fs (v : fs) (b : fatblock) : fatblock :=
  mk_fatblock v (fb_pool b) (fb_files b) (fb_dirs b) (fb_items b) (free_items_head b) (fb_fresh b).
Definition set_pool (v : pool) (b : fatblock) : fatblock :=
  mk_fatblock (fb_fs b) v (fb_files b) (fb_dirs b) (fb_items b) (free_items_head b) (fb_fresh b).
Definition set_files (v : gmap nat file) (b : fatblock) : fatblock :=
  mk_fatblock (fb_fs b) (fb_pool b) v (fb_dirs b) (fb_items b) (free_items_head b) (fb_fresh b).
Definition set_dirs (v : gmap nat dir) (b : fatblock) : fatblock :=
  mk_fatblock (fb_fs b) (fb_pool b) (fb_files b) v (fb_items b) (free_items_head b) (fb_fresh b).
Definition set_items (v : gmap nat item) (b : fatblock) : fatblock :=
  mk_fatblock (fb_fs b) (fb_pool b) (fb_files b) (fb_dirs b) v (free_items_head b) (fb_fresh b).
Definition set_free_items_head (v : option nat) (b : fatblock) : fatblock :=
  mk_fatblock (fb_fs b) (fb_pool b) (fb_files b) (fb_dirs b) (fb_items b) v (fb_fresh b).
Definition set_fresh (v : nat) (b : fatblock) : fatblock :=
  mk_fatblock (fb_fs b) (fb_pool b) (fb_files b) (fb_dirs b) (fb_items b) (free_items_head b) v.

Definition with_fs {A} (m : M fs A) : M fatblock A := zoom (fun b => Some (fb_fs b)) set_fs m.
Definition with_pool {A} (m : M pool A) : M fatblock A := zoom (fun b => Some (fb_pool b)) set_pool m.

(** [malloc] of an object. *)
Definition fresh_object : M fatblock nat :=
  do b <- get;
  modify (set_fresh (S (fb_fresh b)));;;
  mret' (fb_fresh b).

(** ** Items *)

Definition item_at (p : nat) : M fatblock item := do b <- get; deref (fb_items b !! p).
Definition put_item (p : nat) (i : item) : M fatblock unit :=
  modify (fun b => set_items (<[p := i]> (fb_items b)) b).

Definition set_it_name (v : list Z) (i : item) : item := mk_item v (it_imp i) (it_next i) (it_is_dir i).
Definition set_it_imp (v : imported) (i : item) : item := mk_item (it_name i) v (it_next i) (it_is_dir i).
Definition set_it_next (v : option nat) (i : item) : item :=
  mk_item (it_name i) (it_imp i) (Some v) (it_is_dir i).
Definition set_it_is_dir (v : bool) (i : item) : item := mk_item (it_name i) (it_imp i) (it_next i) (Some v).

Definition update_item (p : nat) (f : item -> item) : M fatblock unit :=
  do i <- item_at p; put_item p (f i).

Definition alloc_item : M fatblock nat :=
  do b <- get;
  match free_items_head b with
  | Some p =>
      do i <- item_at p;
      do next <- deref (it_next i);
      modify (set_free_items_head next);;;
      mret' p
  | None =>
      do p <- fresh_object;
      put_item p new_item;;;
      mret' p
  end.

Definition free_item (p : nat) : M fatblock unit :=
  do b <- get;
  update_item p (set_it_next (free_items_head b));;;
  modify (set_free_items_head (Some p)).

(** The loop of [free_items]: the last item. *)
Fixpoint items_tail (fuel : nat) (tail : nat) : M fatblock nat :=
  match fuel with
  | O => fun _ => NoFuel
  | S fuel =>
      do i <- item_at tail;
      do next <- deref (it_next i);
      match next with
      | None => mret' tail
      | Some p => items_tail fuel p
      end
  end.
(** A null [head] is dereferenced. *)
Definition free_items (head : option nat) : M fatblock unit :=
  do head <- deref head;
  do b <- get;
  do tail <- items_tail (S (size (fb_items b))) head;
  update_item tail (set_it_next (free_items_head b));;;
  modify (set_free_items_head (Some head)).

(** ** Importing *)

(** [struct stat] and [struct dirent], as far as the code reads them. *)
Record stat_info := mk_stat { st_size : Z; st_dev : Z; st_ino : Z; st_mtime : Z }.
Inductive d_type := DT_REG | DT_DIR | DT_OTHER.

Definition PATH_MAX : Z := 4096.
Definition dir_name_dotdot : list Z := str "..         ".
Definition dir_name_dot : list Z := str ".          ".

Section import.
Context (host_stat : list Z -> option stat_info)
        (host_dir : list Z -> option (list (list Z * d_type))).

(** [import_file] into [item->imp]; the caller ignores the result. *)
Definition import_file (path : list Z) (out : nat) : M fatblock Z :=
  match host_stat path with
  | None => mret' (-1)
  | Some st =>
      do f <- fresh_object;
      let size := u32 (st_size st) in
      modify (fun b => set_files (<[f := mk_file path size (st_dev st) (st_ino st) (st_mtime st)]> (fb_files b)) b);;;
      with_pool (fdpool_init (Some f));;;
      do ret <- with_fs (fs_alloc_extent f size EXTENT_TYPE_FILE);
      match ret with
      | None =>
          modify (fun b => set_files (delete f (fb_files b)) b);;;
          mret' (-1)
      | Some first_cluster =>
          update_item out (set_it_imp (mk_imported (Some first_cluster) (Some size) (Some None)));;;
          mret' 0
      end
  end.

(** Where [import_dir] puts its results: the [imp] of an item, or a local variable
    of the caller, which is returned. *)
Definition update_imported (out : option nat) (f : imported -> imported) : M fatblock unit :=
  match out with
  | Some p => update_item p (fun i => set_it_imp (f (it_imp i)) i)
  | None => mret' tt
  end.
Definition set_im_first_cluster (v : Z) (i : imported) : imported :=
  mk_imported (Some v) (im_size i) (im_dot_dot_dirent i).
Definition set_im_rest (size : Z) (dot_dot : option nat) (i : imported) : imported :=
  mk_imported (im_first_cluster i) (Some size) (Some dot_dot).

(** The end of a turn of the [readdir] loop: [item], the list [items], [count]. *)
Definition skip_item (item items : option nat) (count : Z) : M fatblock (option nat * option nat * Z) :=
  match item with
  | Some p => free_item p;;; mret' (item, items, count)
  | None => mret' (item, items, count)
  end.

(** One turn of the [readdir] loop. [item] is not reset after it was freed. *)
Definition import_entry (import_dir : list Z -> bool -> option nat -> M fatblock (Z * imported))
    (path : list Z) (de : list Z * d_type) (item items : option nat) (count : Z)
  : M fatblock (option nat * option nat * Z) :=
  let d_name := de.1 in
  if bool_decide (d_name !! 0%nat = Some dot_char) then skip_item item items count
  else
    let ch_path := path ++ str "/" ++ d_name in
    if PATH_MAX <=? Z.of_nat (length ch_path) then skip_item item items count
    else
      do p <- alloc_item;
      do i <- item_at p;
      do ret <- deref (convert_name (it_name i) d_name);
      match ret with
      | None => skip_item (Some p) items count
      | Some name =>
          update_item p (set_it_name name);;;
          match de.2 with
          | DT_OTHER => skip_item (Some p) items count
          | t =>
              match t with
              | DT_DIR => import_dir ch_path false (Some p);;; update_item p (set_it_is_dir true)
              | _ => import_file ch_path p;;; update_item p (set_it_is_dir false)
              end;;;
              update_item p (set_it_next items);;;
              mret' (None, Some p, s32 (count + 1))
          end
      end.

Fixpoint import_entries (import_dir : list Z -> bool -> option nat -> M fatblock (Z * imported))
    (path : list Z) (des : list (list Z * d_type)) (item items : option nat) (count : Z)
  : M fatblock (option nat * Z) :=
  match des with
  | [] => mret' (items, count)
  | de :: des =>
      do (item, items, count) <- import_entry import_dir path de item items count;
      import_entries import_dir path des item items count
  end.

(** A change of the entries of the directory [d]. *)
Definition update_entries (d : nat) (f : list Z -> option (list Z)) : M fatblock unit :=
  do b <- get;
  do x <- deref (fb_dirs b !! d);
  do e <- deref (f (d_entries x));
  modify (set_dirs (<[d := mk_dir (d_path x) (d_size x) e]> (fb_dirs b))).

(** The loop over [items], for [i] from [count - 1] down to 0. *)
Fixpoint write_items (n : nat) (d : nat) (is_root : bool) (my_first_cluster : Z) (items : option nat)
  : M fatblock unit :=
  match n with
  | O => mret' tt
  | S i =>
      do p <- deref items;
      do x <- item_at p;
      do next <- deref (it_next x);
      do is_dir <- deref (it_is_dir x);
      do first_cluster <- deref (im_first_cluster (it_imp x));
      do size <- deref (im_size (it_imp x));
      update_entries d (fat_dirent_set (sizeof_fat_dirent * (Z.of_nat i + (if is_root then 0 else 2)))
        (it_name x) (if is_dir : bool then FAT_ATTR_SUBDIR else 0) first_cluster size);;;
      do dot_dot <- deref (im_dot_dot_dirent (it_imp x));
      match dot_dot with
      | Some c => update_entries c (fat_dirent_set_first_cluster 0 my_first_cluster)
      | None => mret' tt
      end;;;
      free_item p;;;
      write_items i d is_root my_first_cluster next
  end.

(** [import_dir], once for each level of the tree. *)
Fixpoint import_dir (fuel : nat) (path : list Z) (is_root : bool) (out : option nat) : M fatblock (Z * imported) :=
  match fuel with
  | O => fun _ => NoFuel
  | S fuel =>
      match host_dir path with
      | None => mret' (-1, new_imported)
      | Some des =>
          do d <- fresh_object;
          do (items, count) <- import_entries (import_dir fuel) path des None None 0;
          let size := u32 (sizeof_fat_dirent * (count + (if is_root then 0 else 2))) in
          do ret <- with_fs (fs_alloc_extent d size EXTENT_TYPE_DIR);
          match ret with
          | None => free_items items;;; mret' (-1, new_imported)
          | Some first_cluster =>
              let first_cluster := if is_root then 0 else first_cluster in
              let my_first_cluster := if is_root then 0 else first_cluster in
              update_imported out (set_im_first_cluster first_cluster);;;
              modify (fun b => set_dirs (<[d := mk_dir path size
                (replicate (Z.to_nat (sizeof_fat_dirent * (count + (if is_root then 0 else 2)))) 0)]> (fb_dirs b)) b);;;
              write_items (Z.to_nat count) d is_root my_first_cluster items;;;
              (if is_root then mret' tt
               else
                 update_entries d (fat_dirent_set 0 dir_name_dotdot FAT_ATTR_SUBDIR (u32 (-1)) 0);;;
                 update_entries d (fat_dirent_set sizeof_fat_dirent dir_name_dot FAT_ATTR_SUBDIR my_first_cluster 0));;;
              let dot_dot := if is_root then None else Some d in
              update_imported out (set_im_rest 0 dot_dot);;;
              mret' (0, mk_imported (Some first_cluster) (Some 0) (Some dot_dot))
          end
      end
  end.

(** [import_tree] passes 0 for [is_root]. *)
Definition import_tree (fuel : nat) (path : list Z) : M fatblock Z :=
  do (ret, imp) <- import_dir fuel path false None;
  if negb (ret =? 0) then mret' ret
  else
    do first_cluster <- deref (im_first_cluster imp);
    with_fs (fs_set_rootdir_start first_cluster);;;
    with_fs fs_update_free_clusters;;;
    mret' 0.

(** [fs_import] of fatblock.c. *)
Definition fs_import (fuel : nat) (cluster_size data_size : Z) : M fatblock (Z * Z) :=
  do total_size <- with_fs (fs_init cluster_size data_size);
  do ret <- import_tree fuel (str ".");
  mret' (ret, total_size).
End import.
