(* ===== verification/FatRead.v ===== *)
(** * Reading the FAT image (fatblock/read.c, fatblock.c)

    A read of the block device collects what each extent shows of the range. The
    output buffer is a list of bytes, a pointer into it an offset. What the host
    answers to [stat] and [open] are parameters, [read] and [lseek] act on the open
    files of the pool. *)

From S2P Require Import Prelude Bytes FatFs FdPool FatImport.

Definition SKY_IS_FALLING : Z := -42.
Definition UINT32_MAX : Z := 2 ^ 32 - 1.
Definition EINVAL : Z := 22.

(** [buffer_read]: [buf] has [buf_len] bytes or more, the output is at [pos] of [out]. *)
Definition buffer_read (buf : list Z) (buf_len : Z) (out : list Z) (pos off len : Z) : option (list Z) :=
  if buf_len <=? off then write_bytes out pos (replicate (Z.to_nat len) 0)
  else
    '(out, len) ←
      (if buf_len <? u64 (off + len)
       then out ← write_bytes out (pos + (buf_len - off)) (replicate (Z.to_nat (u64 (len - (buf_len - off)))) 0);
            Some (out, buf_len - off)
       else Some (out, len));
    bs ← read_bytes buf off len;
    write_bytes out pos bs.

(** The FAT as the bytes of its entries. *)
Definition fat_bytes (fat : list Z) : list Z := mjoin (le_bytes 4 <$> fat).

Section read.
Context (host_stat : list Z -> option stat_info) (host_data : list Z -> option (list Z)).

Definition file_check_metadata (f : file) : Z :=
  match host_stat (f_path f) with
  | None => -1
  | Some st => if negb (f_mtime f =? st_mtime st) then -1 else 0
  end.

(** [lseek(fd, off, SEEK_SET)] *)
Definition lseek_set (fd off : Z) : M pool Z :=
  do p <- get;
  match pool_files p !! fd with
  | Some o =>
      if 0 <=? off then modify (set_pool_files (<[fd := mk_open_file (of_data o) off]> (pool_files p)));;; mret' off
      else mret' (-1)
  | None => mret' (-1)
  end.

(** [read(fd, buf, len)]: the bytes that were there. *)
Definition read_fd (fd len : Z) : M pool (option (list Z)) :=
  do p <- get;
  match pool_files p !! fd with
  | Some o =>
      let bs := take (Z.to_nat len) (drop (Z.to_nat (of_pos o)) (of_data o)) in
      modify (set_pool_files (<[fd := mk_open_file (of_data o) (of_pos o + Z.of_nat (length bs))]> (pool_files p)));;;
      mret' (Some bs)
  | None => mret' None
  end.

(** [file_read]: the status and the output. It seeks to [len]. *)
Definition file_read (id : nat) (f : file) (out : list Z) (pos off len : Z) : M pool (Z * list Z) :=
  if UINT32_MAX <=? off then mret' (0, out)
  else
    let len := if UINT32_MAX <? u64 (off + len) then UINT32_MAX - off else len in
    if negb (file_check_metadata f =? 0) then mret' (SKY_IS_FALLING, out)
    else
      do fd <- fdpool_open host_data (Some id) (f_path f);
      if fd <? 0 then mret' (-1, out)
      else
        do sought <- lseek_set fd (s64 len);
        if negb (sought =? s64 len) then mret' (-1, out)
        else
          do ret <- read_fd fd len;
          match ret with
          | None => mret' (-1, out)
          | Some bs =>
              do out <- deref (write_bytes out pos bs);
              if negb (Z.of_nat (length bs) =? s64 len) then mret' (-1, out) else mret' (0, out)
          end.

Definition dir_read (d : dir) (out : list Z) (pos off len : Z) : option (list Z) :=
  buffer_read (d_entries d) (d_size d) out pos off len.

(** [extent_read]; the casts find the object whose first member the extent is. *)
Definition extent_read (e : nat) (out : list Z) (pos off len : Z) : M fatblock (Z * list Z) :=
  do b <- get;
  do x <- deref (extent_at (fb_fs b) !! e);
  match e_type x with
  | EXTENT_TYPE_BOOT =>
      do out <- deref (buffer_read (fs_boot (fb_fs b)) sizeof_boot_sector out pos off len); mret' (0, out)
  | EXTENT_TYPE_INFO =>
      do out <- deref (buffer_read (fs_info (fb_fs b)) sizeof_info_sector out pos off len); mret' (0, out)
  | EXTENT_TYPE_FAT =>
      do out <- deref (buffer_read (fat_bytes (fs_fat (fb_fs b))) (fat_size (fb_fs b)) out pos off len); mret' (0, out)
  | EXTENT_TYPE_FILE =>
      do f <- deref (fb_files b !! e);
      with_pool (file_read e f out pos off len)
  | EXTENT_TYPE_DIR =>
      do d <- deref (fb_dirs b !! e);
      do out <- deref (dir_read d out pos off len); mret' (0, out)
  end.

(** The loop of [fs_read]. *)
Fixpoint read_loop (fuel : nat) (e : option nat) (out : list Z) (start len : Z) : M fatblock (Z * list Z) :=
  match fuel with
  | O => fun _ => NoFuel
  | S fuel =>
      do r <- with_fs (fs_find_extent start len e);
      match r with
      | None => mret' (0, out)
      | Some (e, r_start, e_start, rel_len) =>
          do (ret, out) <- extent_read e out r_start e_start rel_len;
          if ret =? SKY_IS_FALLING then mret' (SKY_IS_FALLING, out)
          else if negb (ret =? 0) then mret' (ret, out)
          else read_loop fuel (Some e) out start len
      end
  end.

(** [fs_read] into a buffer of [len] bytes. *)
Definition fs_read (start len : Z) : M fatblock (Z * list Z) :=
  do b <- get;
  read_loop (S (S (size (extent_at (fb_fs b))))) None (replicate (Z.to_nat len) 0) start len.

(** The callbacks of fatblock.c; the first component of [read_callback]'s result says
    whether it calls [ublock_stop]. *)
Definition read_callback (length offset : Z) : M fatblock (bool * Z * list Z) :=
  do (result, out) <- fs_read offset length;
  mret' (result =? SKY_IS_FALLING, if negb (result =? 0) then - EINVAL else 0, out).
End read.

Definition write_callback : Z := - EINVAL.
