(* ===== verification/FatSpec.v ===== *)
(** * The FAT image as clusters and extents (specification of FatFs and FatRead)

    The list of extents as a Rocq list, the invariant of [struct fs], the chain of
    clusters a reader of the FAT follows, and the bytes of the device. *)

From Stdlib Require Import String.
From S2P Require Import Prelude Bytes Layout FatFs FdPool FatImport FatRead.

(** ** The list of extents *)

Fixpoint elist (m : gmap nat extent) (h : option nat) (l : list (nat * extent)) : Prop :=
  match l with
  | [] => h = None
  | (p, e) :: l => h = Some p /\ m !! p = Some e /\ elist m (e_next e) l
  end.

Lemma elist_insert m h l p e : p ∉ l.*1 -> elist m h l -> elist (<[p := e]> m) h l.
Proof.
  revert h. induction l as [|[q x] l IH]; intros h Hp; [done|].
  rewrite fmap_cons, not_elem_of_cons in Hp. destruct Hp as [Hne Hp]. cbn in *.
  intros (-> & Hq & Hl). split_and!; [done|by rewrite lookup_insert_ne|by apply IH].
Qed.

Lemma elist_add m h l p e :
  p ∉ l.*1 -> e_next e = h -> elist m h l -> elist (<[p := e]> m) (Some p) ((p, e) :: l).
Proof.
  intros Hp <- Hl. cbn. split_and!; [done|apply lookup_insert_eq|by apply elist_insert].
Qed.

Lemma elist_det m h l1 l2 : elist m h l1 -> elist m h l2 -> l1 = l2.
Proof.
  revert h l2. induction l1 as [|[p e] l1 IH]; intros h [|[q x] l2]; cbn; [done|naive_solver..|].
  intros (-> & Hp & H1) ([= ->] & Hq & H2). simplify_eq. f_equal. by eapply IH.
Qed.

Lemma elist_suffix m h l1 l2 : elist m h (l1 ++ l2) -> exists h', elist m h' l2.
Proof.
  revert h. induction l1 as [|[p e] l1 IH]; intros h; cbn; [by exists h|].
  intros (_ & _ & H). by eapply IH.
Qed.

(** A list that ends has no cycle. *)
Lemma elist_nodup m h l : elist m h l -> NoDup l.*1.
Proof.
  revert h. induction l as [|[p e] l IH]; intros h; [constructor|].
  intros H. pose proof H as (_ & Hp & Hl). rewrite fmap_cons. constructor; [|by eapply IH].
  intros ([q x] & Hq & Hin)%list_elem_of_fmap. cbn in Hq. subst q.
  apply list_elem_of_split in Hin as (l1 & l2 & ->).
  destruct (elist_suffix _ _ _ _ Hl) as [h' H2]. pose proof H2 as (-> & _ & _). destruct H as (-> & _ & _).
  assert (E : (p, e) :: l1 ++ (p, x) :: l2 = (p, x) :: l2).
  { apply (elist_det m (Some p)); [|done]. cbn. done. }
  apply (f_equal length) in E. rewrite !length_cons, length_app, length_cons in E. lia.
Qed.

Lemma elist_size m h l : elist m h l -> (length l <= size m)%nat.
Proof.
  intros H. pose proof (elist_nodup _ _ _ H) as Hn. rewrite <-(length_fmap fst), <-size_dom.
  rewrite <-(size_list_to_set (C := gset nat)) by done. apply subseteq_size. intros p Hp.
  rewrite elem_of_list_to_set in Hp. apply elem_of_dom. clear Hn. revert h H.
  induction l as [|[q x] l IH]; intros h; [by apply not_elem_of_nil in Hp|]. cbn. intros (_ & Hq & Hl).
  rewrite fmap_cons, elem_of_cons in Hp. destruct Hp as [->|Hp]; [done|by eapply IH].
Qed.

(** ** The invariant of [struct fs] *)

Definition e_end (e : extent) : Z := e_start e + e_len e.
Definition apart (x y : nat * extent) : Prop := e_end x.2 <= e_start y.2 \/ e_end y.2 <= e_start x.2.

(** The bytes of the device in use, up to [data_end]. *)
Definition data_end (f : fs) : Z := data_offset f + (next_cluster f - FAT_CLUSTER_ZERO) * cluster_size f.

Record fs_ok (f : fs) (l : list (nat * extent)) : Prop := {
  ok_cluster_size : 0 < cluster_size f < 2 ^ 16;
  ok_next : FAT_CLUSTER_ZERO <= next_cluster f <= num_clusters f;
  ok_num : num_clusters f <= Z.of_nat (length (fs_fat f)) /\ num_clusters f <= 0x0FFFFFF7;
  ok_fat : fat_size f = 4 * Z.of_nat (length (fs_fat f));
  ok_sectors : length (fs_boot f) = 512%nat /\ length (fs_info f) = 512%nat;
  ok_offset : 0 <= data_offset f < 2 ^ 48;
  ok_list : elist (extent_at f) (fs_extents f) l;
  ok_inside : Forall (fun x => 0 <= e_start x.2 /\ 0 < e_len x.2 /\ e_end x.2 <= data_end f) l;
  ok_apart : ForallOrdPairs apart l
}.

(** ** Allocating *)

(** The clusters a reader finds from [c] on. *)
Fixpoint fat_reads (n : nat) (fat : list Z) (c : Z) : option (list Z) :=
  match n with
  | O => None
  | S n => e ← zget fat c; if FAT_ENTRY_EOC <=? e then Some [c] else cons c <$> fat_reads n fat e
  end.

Lemma fs_set_fat_done f c v :
  0 <= c < Z.of_nat (length (fs_fat f)) ->
  fs_set_fat c v f = Done tt (set_fat (<[Z.to_nat c := u32 v]> (fs_fat f)) f).
Proof. intros Hc. unfold fs_set_fat, mbind', get, zset. by rewrite decide_True. Qed.

Lemma link_clusters_done start n i f :
  0 <= i -> 0 <= start -> start + i + Z.of_nat n + 1 < 2 ^ 32 ->
  start + i + Z.of_nat n <= Z.of_nat (length (fs_fat f)) ->
  exists fat, link_clusters (seqZ i (Z.of_nat n)) start f = Done tt (set_fat fat f) /\
    length fat = length (fs_fat f) /\
    forall c, 0 <= c -> zget fat c = if decide (start + i <= c < start + i + Z.of_nat n) then Some (c + 1)
                                     else zget (fs_fat f) c.
Proof.
  intros Hi Hs. revert i f Hi. induction n as [|n IH]; intros i f Hi Hb Hl.
  - exists (fs_fat f). rewrite seqZ_nil by lia. split_and!; [by destruct f|done|].
    intros c Hc. by rewrite decide_False by lia.
  - rewrite seqZ_cons by lia. cbn [link_clusters].
    rewrite !(u32_small (start + i)) by lia. rewrite (u32_small (start + i + 1)) by lia.
    rewrite (mbind_done _ _ _ _ _ (fs_set_fat_done f (start + i) _ ltac:(lia))).
    replace (Z.pred (Z.of_nat (S n))) with (Z.of_nat n) by lia.
    rewrite (u32_small (start + i + 1)) by lia.
    destruct (IH (Z.succ i) (set_fat (<[Z.to_nat (start + i) := start + i + 1]> (fs_fat f)) f))
      as (fat & E & El & Hf); [lia|lia|cbn; rewrite length_insert; lia|].
    exists fat. rewrite E. cbn [fs_fat set_fat] in *. rewrite length_insert in El. split_and!; [by destruct f|done|].
    intros c Hc. rewrite Hf by done. case_decide; case_decide; try lia; [done| |].
    + assert (c = start + i) as -> by lia. unfold zget. rewrite decide_True by lia.
      apply list_lookup_insert_eq. lia.
    + unfold zget. rewrite !decide_True by lia. apply list_lookup_insert_ne. lia.
Qed.

Lemma fat_reads_next n fat c e :
  zget fat c = Some e -> e < FAT_ENTRY_EOC -> fat_reads (S n) fat c = cons c <$> fat_reads n fat e.
Proof. intros E He. cbn [fat_reads]. rewrite E. cbn [mbind option_bind]. by rewrite (proj2 (Z.leb_gt _ _)). Qed.

Lemma fat_reads_chain fat n start :
  0 <= start -> start + Z.of_nat n < FAT_ENTRY_EOC ->
  (forall c, start <= c < start + Z.of_nat n -> zget fat c = Some (c + 1)) ->
  zget fat (start + Z.of_nat n) = Some FAT_ENTRY_EOC ->
  fat_reads (S n) fat start = Some (seqZ start (Z.of_nat n + 1)).
Proof.
  revert start. induction n as [|n IH]; intros start Hs Hb Hc Hl.
  - change (Z.of_nat 0) with 0 in *. rewrite Z.add_0_r in Hl. cbn [fat_reads]. by rewrite Hl.
  - rewrite seqZ_cons by lia. rewrite (fat_reads_next _ _ _ (start + 1)) by (apply Hc || idtac; lia).
    rewrite IH; [|lia|lia| |].
    + cbn. do 3 f_equal; lia.
    + intros c Hc'. apply Hc. lia.
    + rewrite <-Hl. f_equal. lia.
Qed.

(** Room for [len] bytes. *)
Definition clusters_for (f : fs) (len : Z) : Z := DIV_ROUND_UP len (cluster_size f).
Definition new_extent (f : fs) (len : Z) (type : extent_type) : extent :=
  mk_extent (data_end f) (clusters_for f len * cluster_size f) type (fs_extents f).

(** What an allocation of [n] clusters changes in the FAT. *)
Definition fat_linked (fat fat' : list Z) (start n : Z) : Prop :=
  length fat' = length fat /\
  forall c, 0 <= c -> zget fat' c =
    if decide (c = start + n - 1) then Some FAT_ENTRY_EOC
    else if decide (start <= c < start + n) then Some (c + 1) else zget fat c.

Lemma clusters_for_pos f len :
  0 < cluster_size f -> 0 < len ->
  1 <= clusters_for f len /\ len <= clusters_for f len * cluster_size f < len + cluster_size f.
Proof.
  intros Hc Hl. unfold clusters_for, DIV_ROUND_UP.
  pose proof (Z.div_mod (len + cluster_size f - 1) (cluster_size f) ltac:(lia)).
  pose proof (Z.mod_pos_bound (len + cluster_size f - 1) (cluster_size f) Hc). nia.
Qed.

Lemma clusters_needed_done f len :
  0 < cluster_size f < 2 ^ 16 -> 0 < len < 2 ^ 47 -> clusters_for f len < 2 ^ 32 ->
  u32 (u64 (len + cluster_size f - 1) / cluster_size f) = clusters_for f len.
Proof.
  intros Hc Hl Hn. rewrite u64_small by lia. fold (DIV_ROUND_UP len (cluster_size f)) (clusters_for f len).
  pose proof (clusters_for_pos f len). rewrite u32_small; lia.
Qed.

Lemma linked_reads fat fat' start n :
  fat_linked fat fat' start n -> 0 <= start -> 1 <= n -> start + n - 1 < FAT_ENTRY_EOC ->
  fat_reads (Z.to_nat n) fat' start = Some (seqZ start n).
Proof.
  intros [_ H] Hs Hn Hb. replace (Z.to_nat n) with (S (Z.to_nat (n - 1))) by lia.
  rewrite (fat_reads_chain fat' (Z.to_nat (n - 1))); rewrite ?Z2Nat.id by lia.
  - do 2 f_equal. lia.
  - done.
  - lia.
  - intros c Hc. rewrite H by lia. rewrite decide_False by lia. by rewrite decide_True by lia.
  - rewrite H by lia. by rewrite decide_True by lia.
Qed.

(** The two writes to the FAT. *)
Lemma link_done f start n :
  0 <= start -> 1 <= n -> start + n < 2 ^ 32 -> start + n <= Z.of_nat (length (fs_fat f)) ->
  exists fat1 fat', link_clusters (seqZ 0 (u32 (n - 1))) start f = Done tt (set_fat fat1 f) /\
    fs_set_fat (u32 (start + n - 1)) FAT_ENTRY_EOC (set_fat fat1 f) = Done tt (set_fat fat' f) /\
    fat_linked (fs_fat f) fat' start n.
Proof.
  intros Hs Hn Hb Hl. rewrite (u32_small (n - 1)), (u32_small (start + n - 1)) by lia.
  destruct (link_clusters_done start (Z.to_nat (n - 1)) 0 f) as (fat & E & El & Hf); [lia..|].
  rewrite Z2Nat.id in E, Hf by lia. rewrite Z.add_0_r in Hf. eexists _, _. split; [exact E|].
  rewrite fs_set_fat_done by (cbn; lia). cbn [fs_fat set_fat]. split; [by destruct f|].
  split; [by rewrite length_insert|]. intros c Hc. unfold zget. rewrite !decide_True by done.
  case_decide as D.
  - subst c. apply list_lookup_insert_eq. lia.
  - rewrite list_lookup_insert_ne by lia. specialize (Hf c Hc). unfold zget in Hf. rewrite decide_True in Hf by done.
    rewrite Hf. repeat case_decide; (done || lia).
Qed.

Section alloc.
Context (f : fs) (l : list (nat * extent)) (p : nat) (len : Z) (type : extent_type).
Hypothesis Hok : fs_ok f l.

(** The state after an allocation that found room. *)
Definition allocated_fs (fat : list Z) : fs :=
  mk_fs (cluster_size f) (num_clusters f) (next_cluster f + clusters_for f len) (Some p) (fs_boot f) (fs_info f)
    fat (fat_size f) (data_offset f) (<[p := new_extent f len type]> (extent_at f)).

Lemma allocated_ok fat :
  p ∉ l.*1 -> 0 < len -> next_cluster f + clusters_for f len <= num_clusters f ->
  length fat = length (fs_fat f) -> fs_ok (allocated_fs fat) ((p, new_extent f len type) :: l).
Proof.
  intros Hp Hlen Hroom Hfat. destruct Hok as [H1 H2 [H3 H3'] H4 H5 H6 H7 H8 H9].
  pose proof (clusters_for_pos f len ltac:(lia) Hlen) as [Hc1 Hc2]. set (n := clusters_for f len) in *.
  assert (Hend : data_end (allocated_fs fat) = data_end f + n * cluster_size f)
    by (unfold data_end, allocated_fs; cbn; lia).
  assert (0 <= data_end f) by (unfold data_end, FAT_CLUSTER_ZERO in *; nia).
  assert (0 < n * cluster_size f) by nia.
  split; cbn [allocated_fs cluster_size num_clusters next_cluster fs_fat fat_size fs_boot fs_info data_offset]; try done.
  - fold n. lia.
  - by rewrite Hfat.
  - by rewrite Hfat.
  - by apply (elist_add _ _ _ _ _ Hp eq_refl).
  - constructor.
    + rewrite Hend. unfold e_end, new_extent. cbn. fold n. lia.
    + eapply Forall_impl; [exact H8|]. cbn. intros x ?. rewrite Hend. lia.
  - constructor; [|done]. eapply Forall_impl; [exact H8|]. cbn. intros x (_ & _ & Hx). right. cbn. done.
Qed.

Lemma fs_alloc_extent_spec :
  p ∉ l.*1 -> 0 < len < 2 ^ 47 -> next_cluster f + clusters_for f len < 2 ^ 32 ->
  if num_clusters f <? next_cluster f + clusters_for f len
  then fs_alloc_extent p len type f = Done None f
  else exists fat,
    fs_alloc_extent p len type f = Done (Some (next_cluster f)) (allocated_fs fat) /\
    fat_linked (fs_fat f) fat (next_cluster f) (clusters_for f len).
Proof.
  intros Hp Hlen Hsmall. destruct Hok as [H1 H2 [H3 H3'] H4 H5 H6 H7 H8 H9].
  pose proof (clusters_for_pos f len ltac:(lia) ltac:(lia)) as [Hc1 Hc2].
  unfold fs_alloc_extent. rewrite (proj2 (Z.eqb_neq len 0)) by lia. erewrite mbind_done by done.
  rewrite (proj2 (Z.eqb_neq (cluster_size f) 0)) by lia. erewrite mbind_done by done. cbv zeta.
  rewrite clusters_needed_done by (unfold FAT_CLUSTER_ZERO in *; lia). set (n := clusters_for f len) in *.
  unfold FAT_CLUSTER_ZERO in *. rewrite (u32_small (next_cluster f + n)) by lia.
  destruct (Z.ltb_spec (num_clusters f) (next_cluster f + n)) as [|Hroom]; [done|].
  erewrite mbind_done by done.
  destruct (link_done (set_next_cluster (next_cluster f + n) f) (next_cluster f) n) as (fat1 & fat' & E1 & E2 & Hf);
    [lia..|cbn; lia|].
  rewrite (mbind_done _ _ _ _ _ E1), (mbind_done _ _ _ _ _ E2). cbn [fs_fat set_next_cluster] in Hf.
  exists fat'. split; [|done]. unfold fs_add_extent, modify, mbind', mret', allocated_fs, new_extent. fold n.
  unfold data_end, FAT_CLUSTER_ZERO. rewrite (u32_small (next_cluster f - 2)) by lia.
  rewrite !u64_small by nia. by destruct f.
Qed.
End alloc.

(** ** A new file system *)

Lemma boot_asgs_done spc r t n :
  exists boot, run_asgs 0 (boot_asgs spc r t n (str "FATBLOCK") (str "FATBLOCK   ") (str "FAT32   "))
                 (replicate (Z.to_nat sizeof_boot_sector) 0) = Some boot /\ length boot = 512%nat.
Proof.
  destruct (run_asgs_some 0 sizeof_boot_sector
    (boot_asgs spc r t n (str "FATBLOCK") (str "FATBLOCK   ") (str "FAT32   "))
    (replicate (Z.to_nat sizeof_boot_sector) 0)) as [b E]; [lia|by rewrite length_replicate| |done|].
  - repeat constructor.
  - exists b. split; [done|]. by rewrite (run_asgs_length _ _ _ _ E), length_replicate.
Qed.

Definition info_sector : list Z :=
  default [] (run_asgs 0 info_asgs (replicate (Z.to_nat sizeof_info_sector) 0)).

(** The numbers [fs_init] derives. *)
Definition data_clusters (cs size : Z) : Z := DIV_ROUND_UP size cs.
Definition fat_sectors (cs size : Z) : Z := DIV_ROUND_UP (data_clusters cs size + 2) 128.

Definition initial_extents (fat_size : Z) : list (nat * extent) :=
  [(fat_extent, mk_extent 1536 fat_size EXTENT_TYPE_FAT (Some backup_boot_extent));
   (backup_boot_extent, mk_extent 1024 512 EXTENT_TYPE_BOOT (Some info_extent));
   (info_extent, mk_extent 512 512 EXTENT_TYPE_INFO (Some boot_extent));
   (boot_extent, mk_extent 0 512 EXTENT_TYPE_BOOT None)].

Definition initial_fs (cs size : Z) (boot : list Z) (m : gmap nat extent) : fs :=
  let n := fat_sectors cs size in
  mk_fs cs (data_clusters cs size + 2) FAT_CLUSTER_ZERO (Some fat_extent) boot info_sector
    (replicate (Z.to_nat (n * 128)) 0) (n * 512) ((3 + n) * 512)
    (<[fat_extent := mk_extent 1536 (n * 512) EXTENT_TYPE_FAT (Some backup_boot_extent)]>
     (<[backup_boot_extent := mk_extent 1024 512 EXTENT_TYPE_BOOT (Some info_extent)]>
      (<[info_extent := mk_extent 512 512 EXTENT_TYPE_INFO (Some boot_extent)]>
       (<[boot_extent := mk_extent 0 512 EXTENT_TYPE_BOOT None]> m)))).

Lemma initial_elist m n :
  elist (<[fat_extent := mk_extent 1536 n EXTENT_TYPE_FAT (Some backup_boot_extent)]>
     (<[backup_boot_extent := mk_extent 1024 512 EXTENT_TYPE_BOOT (Some info_extent)]>
      (<[info_extent := mk_extent 512 512 EXTENT_TYPE_INFO (Some boot_extent)]>
       (<[boot_extent := mk_extent 0 512 EXTENT_TYPE_BOOT None]> m)))) (Some fat_extent) (initial_extents n).
Proof.
  unfold initial_extents.
  apply elist_add with (h := Some backup_boot_extent); [cbn; set_solver|done|].
  apply elist_add with (h := Some info_extent); [cbn; set_solver|done|].
  apply elist_add with (h := Some boot_extent); [cbn; set_solver|done|].
  by apply elist_add with (h := None); [cbn; set_solver|done|].
Qed.

Lemma fs_init_spec cs size f :
  0 < cs < 2 ^ 16 -> 0 <= size < 2 ^ 47 -> data_clusters cs size + 2 <= 0x0FFFFFF7 ->
  exists boot,
    fs_init cs size f =
      Done ((3 + fat_sectors cs size) * 512 + data_clusters cs size * (cs / 512 * 512))
           (initial_fs cs size boot (extent_at f)) /\
    fs_ok (initial_fs cs size boot (extent_at f)) (initial_extents (fat_sectors cs size * 512)).
Proof.
  intros Hcs Hsize Hmax. set (dc := data_clusters cs size) in *.
  assert (Hdc : 0 <= dc) by (apply Z.div_pos; lia).
  assert (Hn : 128 * fat_sectors cs size - 128 < dc + 2 <= 128 * fat_sectors cs size).
  { unfold fat_sectors, DIV_ROUND_UP. fold dc. clearbody dc. dlia. }
  set (n := fat_sectors cs size) in *.
  assert (Hq : 0 <= cs / 512 < 128) by (clear - Hcs; dlia).
  destruct (boot_asgs_done (cs / 512) 3 (3 + n + dc * (cs / 512)) n) as (boot & Eb & Hb).
  exists boot. split.
  - unfold fs_init. rewrite (proj2 (Z.eqb_neq cs 0)) by lia. erewrite mbind_done by done. cbv zeta.
    change (DEFAULT_SECTOR_SIZE / 4) with 128. change (cs / DEFAULT_SECTOR_SIZE) with (cs / 512).
    rewrite (u64_small (size + cs - 1)) by lia. fold (DIV_ROUND_UP size cs) (data_clusters cs size). fold dc.
    rewrite (u32_small dc) by lia.
    rewrite (u64_small (dc * _)) by nia. rewrite (u32_small (dc + 2 + 128 - 1)) by lia.
    fold (DIV_ROUND_UP (dc + 2) 128). change (DIV_ROUND_UP (dc + 2) 128) with n. rewrite (u64_small (3 + n + _)) by nia.
    change (strpadcpy (str "FATBLOCK") 8) with (Some (str "FATBLOCK")).
    change (strpadcpy (str "FATBLOCK") 11) with (Some (str "FATBLOCK   ")).
    change (strpadcpy (str "FAT32") 8) with (Some (str "FAT32   ")).
    do 3 erewrite mbind_done by done. rewrite Eb. erewrite mbind_done by done.
    change (run_asgs 0 info_asgs (replicate (Z.to_nat sizeof_info_sector) 0)) with (Some info_sector).
    erewrite mbind_done by done. change DEFAULT_SECTOR_SIZE with 512. rewrite (u64_small (n * 512)) by lia.
    rewrite (u64_small ((3 + n) * 512)) by lia. rewrite (u32_small (FAT_CLUSTER_ZERO + dc)) by (unfold FAT_CLUSTER_ZERO; lia).
    rewrite u64_small by nia.
    unfold fs_add_extent, modify, put, get, mbind', mret', set_extents, initial_fs.
    cbn [cluster_size num_clusters next_cluster fs_extents fs_boot fs_info fs_fat fat_size data_offset extent_at].
    fold dc n. replace (n * 512 / 4) with (n * 128) by (clearbody n; dlia).
    change (3 * 512) with 1536. change (2 * 512) with 1024.
    unfold FAT_CLUSTER_ZERO. rewrite (Z.add_comm 2 dc). f_equal. lia.
  - unfold initial_fs. fold n dc. unfold FAT_CLUSTER_ZERO.
    split; cbn [cluster_size num_clusters next_cluster fs_extents fs_boot fs_info fs_fat fat_size data_offset extent_at];
      rewrite ?length_replicate; unfold FAT_CLUSTER_ZERO; try lia.
    + split; [done|vm_compute; reflexivity].
    + apply initial_elist.
    + unfold data_end, FAT_CLUSTER_ZERO, e_end. repeat constructor; cbn; lia.
    + unfold apart, e_end. repeat constructor; cbn; lia.
Qed.

(** An empty object is not linked. *)
Lemma empty_extent_ok f l p e : fs_ok f l -> p ∉ l.*1 -> fs_ok (set_extents (fs_extents f) (<[p := e]> (extent_at f)) f) l.
Proof. intros [] Hp. split; try done. cbn. by apply elist_insert. Qed.
