(* ===== verification/FatReadSpec.v ===== *)
(** * The bytes of the FAT device (specification of FatRead)

    What the block device shows at an address, and the lemmas that a read collects
    exactly that. *)

From S2P Require Import Prelude Bytes FatFs FdPool FatImport FatRead FatSpec.

(** ** Finding an extent *)

(** The addresses from [start] on, [len] of them, meet the extent. *)
Definition meets (start len : Z) (e : extent) : bool := (start <? e_end e) && (e_start e <? start + len).

(** The first extent a request meets, and the extents after it. *)
Fixpoint first_meet (start len : Z) (l : list (nat * extent)) : option (nat * extent * list (nat * extent)) :=
  match l with
  | [] => None
  | x :: l => if meets start len x.2 then Some (x, l) else first_meet start len l
  end.

(** The part of the extent a request meets: its place in the request, its place in
    the extent, its length. *)
Definition r_start (start : Z) (e : extent) : Z := Z.max 0 (e_start e - start).
Definition in_start (start : Z) (e : extent) : Z := Z.max 0 (start - e_start e).
Definition met_len (start len : Z) (e : extent) : Z :=
  Z.min (start + len) (e_end e) - Z.max start (e_start e).

Definition in_range (e : extent) : Prop := 0 <= e_start e /\ 0 < e_len e /\ e_end e < 2 ^ 64.

Lemma triple_eq {A B C} (a a' : A) (b b' : B) (c c' : C) : a = a' -> b = b' -> c = c' -> (a, b, c) = (a', b', c').
Proof. congruence. Qed.

Lemma overlap_spec start len e :
  0 <= start -> 0 < len -> start + len < 2 ^ 64 -> in_range e -> meets start len e = true ->
  overlap start len e = (r_start start e, in_start start e, met_len start len e) /\
  overlap_asserts len (e_len e) (r_start start e) (in_start start e) (met_len start len e) = true.
Proof.
  unfold in_range, meets, e_end. intros Hs Hl Hb (He & Hel & Heb) [H1%Z.ltb_lt H2%Z.ltb_lt]%andb_true_iff.
  unfold overlap, overlap_asserts, r_start, in_start, met_len, e_end.
  rewrite (u64_small (start + len)), (u64_small (e_start e + e_len e)) by lia. split.
  - destruct (Z.leb_spec (e_start e) start).
    + rewrite (u64_small (start - _)) by lia.
      destruct (Z.leb_spec (start + len) (e_start e + e_len e)); [|rewrite u64_small by lia]; apply triple_eq; lia.
    + rewrite (u64_small (_ - start)) by lia.
      destruct (Z.leb_spec (e_start e + e_len e) (start + len)); [|rewrite u64_small by lia]; apply triple_eq; lia.
  - rewrite !u64_small by lia. rewrite !andb_true_iff, !Z.ltb_lt, !Z.leb_le. lia.
Qed.

Lemma find_loop_done f h l start len fuel :
  elist (extent_at f) h l -> Forall (fun x => in_range x.2) l -> 0 <= start -> 0 < len -> start + len < 2 ^ 64 ->
  (length l < fuel)%nat ->
  find_loop fuel start len h f =
    Done (match first_meet start len l with
          | Some (p, e, _) => Some (p, r_start start e, in_start start e, met_len start len e)
          | None => None
          end) f.
Proof.
  intros Hl Hr Hs Hlen Hb. revert h fuel Hl. induction Hr as [|[p e] l He _ IH]; intros h fuel Hl Hf.
  - rewrite Hl. by destruct fuel.
  - destruct fuel as [|fuel]; [cbn in Hf; lia|]. destruct Hl as (-> & Hp & Hl). cbn [find_loop snd] in *.
    erewrite mbind_done by done. rewrite Hp. erewrite mbind_done by done.
    assert (Hlt : (length l < fuel)%nat) by (cbn in Hf; lia). specialize (IH _ _ Hl Hlt).
    pose proof He as (H1 & H2 & H3). unfold e_end in H3. rewrite (u64_small (e_start e + _)), (u64_small (start + len)) by lia.
    cbn [first_meet snd]. destruct (meets start len e) eqn:Hm.
    + destruct (overlap_spec start len e Hs Hlen Hb He Hm) as [-> ->].
      unfold meets, e_end in Hm. apply andb_true_iff in Hm as [Hm1%Z.ltb_lt Hm2%Z.ltb_lt].
      by rewrite !(proj2 (Z.leb_gt _ _)) by lia.
    + unfold meets, e_end in Hm. destruct (Z.leb_spec (e_start e + e_len e) start); [done|].
      destruct (Z.leb_spec (start + len) (e_start e)); [done|].
      apply andb_false_iff in Hm as [Hm%Z.ltb_ge|Hm%Z.ltb_ge]; lia.
Qed.

Lemma first_meet_in start len l p e rest :
  first_meet start len l = Some (p, e, rest) ->
  exists pre, l = pre ++ (p, e) :: rest /\ meets start len e = true /\
              Forall (fun x => meets start len x.2 = false) pre.
Proof.
  induction l as [|x l IH]; cbn; [done|]. destruct (meets start len x.2) eqn:Hm.
  - intros [= -> ->]. by exists [].
  - intros H. destruct (IH H) as (pre & -> & He & Hp). exists (x :: pre). split_and!; [done|done|by constructor].
Qed.

(** ** The contents of the device *)

(** What an extent shows; [None] for a file, which is on the host. *)
Definition extent_data (b : fatblock) (x : nat * extent) : option (list Z) :=
  match e_type x.2 with
  | EXTENT_TYPE_BOOT => Some (fs_boot (fb_fs b))
  | EXTENT_TYPE_INFO => Some (fs_info (fb_fs b))
  | EXTENT_TYPE_FAT => Some (fat_bytes (fs_fat (fb_fs b)))
  | EXTENT_TYPE_DIR => d_entries <$> fb_dirs b !! x.1
  | EXTENT_TYPE_FILE => None
  end.

Definition byte_in (b : fatblock) (x : nat * extent) (k : Z) : Z :=
  default 0 (default [] (extent_data b x) !! Z.to_nat k).

(** The byte at an address that some extent has; every other byte is zero. *)
Fixpoint device_at (b : fatblock) (l : list (nat * extent)) (a : Z) : option Z :=
  match l with
  | [] => None
  | x :: l => if decide (e_start x.2 <= a < e_end x.2) then Some (byte_in b x (a - e_start x.2)) else device_at b l a
  end.
Definition device_byte (b : fatblock) (l : list (nat * extent)) (a : Z) : Z := default 0 (device_at b l a).

(** What a read relies on: the list of extents, and that the sizes of the
    directories are those of their entries. *)
Record device_ok (b : fatblock) (l : list (nat * extent)) : Prop := {
  dok_fs : fs_ok (fb_fs b) l;
  dok_dirs p e : (p, e) ∈ l -> e_type e = EXTENT_TYPE_DIR ->
    exists d, fb_dirs b !! p = Some d /\ d_size d = Z.of_nat (length (d_entries d))
}.

(** [out] with the bytes from [pos] on replaced. *)
Lemma buffer_read_done buf out pos off len :
  0 <= off -> 0 <= len -> off + len < 2 ^ 64 -> 0 <= pos -> pos + len <= Z.of_nat (length out) ->
  exists out', buffer_read buf (Z.of_nat (length buf)) out pos off len = Some out' /\
    length out' = length out /\
    forall j, 0 <= j -> zget out' j = if decide (pos <= j < pos + len) then Some (default 0 (buf !! Z.to_nat (off + (j - pos))))
                                      else zget out j.
Proof.
  intros Ho Hl Hb Hp Hout. unfold buffer_read. set (n := Z.of_nat (length buf)).
  destruct (Z.leb_spec n off) as [Hge|Hlt].
  - rewrite write_bytes_some by (rewrite ?length_replicate; lia). eexists. split; [done|].
    pose proof (write_bytes_some out pos (replicate (Z.to_nat len) 0) Hp ltac:(rewrite length_replicate; lia)) as E.
    split; [by eapply write_bytes_length|]. intros j Hj. unfold zget. rewrite !decide_True by done.
    rewrite (write_bytes_lookup _ _ _ _ j E Hj), length_replicate, Z2Nat.id by done.
    repeat case_decide; try lia; [|done]. rewrite lookup_replicate_2 by lia. by rewrite lookup_ge_None_2 by lia.
  - rewrite (u64_small (off + len)) by lia.
    assert (Hk : exists out1 len1, (if n <? off + len
        then out ← write_bytes out (pos + (n - off)) (replicate (Z.to_nat (u64 (len - (n - off)))) 0); Some (out, n - off)
        else Some (out, len)) = Some (out1, len1) /\ len1 = Z.min len (n - off) /\ length out1 = length out /\
        forall j, 0 <= j -> zget out1 j = if decide (pos + len1 <= j < pos + len) then Some 0 else zget out j).
    { destruct (Z.ltb_spec n (off + len)).
      - rewrite (u64_small (len - _)) by lia.
        pose proof (write_bytes_some out (pos + (n - off)) (replicate (Z.to_nat (len - (n - off))) 0)
          ltac:(lia) ltac:(rewrite length_replicate; lia)) as E. rewrite E.
        eexists _, _. split; [done|]. split_and!; [lia|by eapply write_bytes_length|]. intros j Hj. unfold zget.
        rewrite !decide_True by done.
        rewrite (write_bytes_lookup _ _ _ _ j E Hj), length_replicate, Z2Nat.id by lia.
        repeat case_decide; try lia; [|done]. by rewrite lookup_replicate_2 by lia.
      - exists out, len. split_and!; [done|lia|done|]. intros j Hj. by rewrite decide_False by lia. }
    destruct Hk as (out1 & len1 & -> & El & Hlen1 & Hout1). cbn [mbind option_bind].
    unfold read_bytes. rewrite decide_True by lia. cbn [mbind option_bind].
    assert (L : length (take (Z.to_nat len1) (drop (Z.to_nat off) buf)) = Z.to_nat len1)
      by (rewrite length_take, length_drop; lia).
    pose proof (write_bytes_some out1 pos (take (Z.to_nat len1) (drop (Z.to_nat off) buf)) Hp ltac:(lia)) as E.
    rewrite E. eexists. split; [done|]. split; [by rewrite (write_bytes_length _ _ _ _ E)|]. intros j Hj.
    specialize (Hout1 j Hj). unfold zget in *. rewrite decide_True in * by done.
    rewrite (write_bytes_lookup _ _ _ _ j E Hj), L, Z2Nat.id by lia.
    destruct (decide (pos <= j < pos + len1)).
    + rewrite lookup_take_lt, lookup_drop by lia. rewrite decide_True by lia.
      replace (Z.to_nat off + Z.to_nat (j - pos))%nat with (Z.to_nat (off + (j - pos))) by lia.
      destruct (lookup_lt_is_Some_2 buf (Z.to_nat (off + (j - pos)))) as [x ->]; [lia|done].
    + rewrite Hout1. repeat case_decide; try lia; try done. rewrite lookup_ge_None_2 by lia. done.
Qed.

(** ** Reading *)

Lemma length_fat_bytes fat : length (fat_bytes fat) = (4 * length fat)%nat.
Proof.
  unfold fat_bytes. induction fat as [|x fat IH]; [done|].
  change (length (le_bytes 4 x ++ mjoin (le_bytes 4 <$> fat)) = (4 * S (length fat))%nat).
  rewrite length_app, length_le_bytes, IH. lia.
Qed.

Definition holds (x : nat * extent) (a : Z) : Prop := e_start x.2 <= a < e_end x.2.
#[export] Instance holds_dec x a : Decision (holds x a).
Proof. apply _. Defined.

Lemma device_at_skip b pre l a : Forall (fun x => ~ holds x a) pre -> device_at b (pre ++ l) a = device_at b l a.
Proof. induction 1 as [|x pre Hx _ IH]; [done|]. cbn. by rewrite decide_False. Qed.

Lemma meets_holds start len x a :
  start <= a < start + len -> meets start len x.2 = false -> ~ holds x a.
Proof.
  unfold meets, holds. intros Ha [Hm%Z.ltb_ge|Hm%Z.ltb_ge]%andb_false_iff; lia.
Qed.

Lemma apart_in_range f l : fs_ok f l -> Forall (fun x => in_range x.2) l.
Proof.
  intros [H1 [H2 H3] [_ H4] _ _ H5 _ H6 _]. eapply Forall_impl; [exact H6|]. cbn. intros x (Hs & Hl & He).
  unfold in_range. split_and!; [done|done|]. unfold data_end, FAT_CLUSTER_ZERO in *. nia.
Qed.

Lemma device_at_none b l a : Forall (fun x => ~ holds x a) l -> device_at b l a = None.
Proof. intros H. rewrite <-(app_nil_r l). by rewrite device_at_skip. Qed.

Lemma first_meet_none b start len l j :
  0 <= j < len -> first_meet start len l = None -> device_at b l (start + j) = None.
Proof.
  intros Hj H. apply device_at_none. induction l as [|x l IH]; [done|]. cbn in H.
  destruct (meets start len x.2) eqn:Hm; [done|]. constructor; [|by apply IH].
  apply (meets_holds start len); [lia|done].
Qed.

Lemma FOP_suffix (pre : list (nat * extent)) x l :
  ForallOrdPairs apart (pre ++ x :: l) -> Forall (apart x) l /\ ForallOrdPairs apart l.
Proof. induction pre as [|y pre IH]; cbn; inversion 1; subst; [done|by apply IH]. Qed.

Section reading.
Context (host_stat : list Z -> option stat_info) (host_data : list Z -> option (list Z)).
Context (b : fatblock) (all : list (nat * extent)).
Hypothesis Hdev : device_ok b all.
Context (start len : Z).
Hypothesis Hstart : 0 <= start.
Hypothesis Hlen : 0 < len.
Hypothesis Hend : start + len < 2 ^ 64.

Lemma extent_read_done p e out pos off n :
  (p, e) ∈ all -> extent_at (fb_fs b) !! p = Some e -> e_type e <> EXTENT_TYPE_FILE ->
  0 <= off -> 0 <= n -> off + n < 2 ^ 64 -> 0 <= pos -> pos + n <= Z.of_nat (length out) ->
  exists out', extent_read host_stat host_data p out pos off n b = Done (0, out') b /\
    length out' = length out /\
    forall j, 0 <= j -> zget out' j = if decide (pos <= j < pos + n) then Some (byte_in b (p, e) (off + (j - pos)))
                                      else zget out j.
Proof.
  intros Hin Hp Ht Ho Hn Hb Hpos Hout. destruct Hdev as [Hfs Hdirs].
  destruct Hfs as [_ _ _ Hfat [Hboot Hinfo] _ _ _ _].
  assert (exists data, extent_data b (p, e) = Some data /\
    extent_read host_stat host_data p out pos off n b =
      match buffer_read data (Z.of_nat (length data)) out pos off n with
      | Some out' => Done (0, out') b
      | None => Stuck
      end) as (data & Ed & Er).
  { unfold extent_read, extent_data. erewrite mbind_done by done. rewrite Hp. erewrite mbind_done by done.
    cbn [fst snd]. specialize (Hdirs p e Hin). destruct (e_type e) eqn:Et.
    - eexists. split; [done|]. rewrite Hboot. unfold deref, mbind', sizeof_boot_sector.
      change (Z.of_nat 512) with 512. by destruct (buffer_read _ _ _ _ _ _).
    - eexists. split; [done|]. rewrite Hinfo. unfold deref, mbind', sizeof_info_sector.
      change (Z.of_nat 512) with 512. by destruct (buffer_read _ _ _ _ _ _).
    - eexists. split; [done|]. rewrite length_fat_bytes, Nat2Z.inj_mul, Hfat. unfold deref, mbind'.
      change (Z.of_nat 4) with 4. by destruct (buffer_read _ _ _ _ _ _).
    - done.
    - destruct (Hdirs eq_refl) as (d & -> & Hd). eexists. split; [done|]. erewrite mbind_done by done.
      unfold dir_read. rewrite Hd. unfold deref, mbind'. by destruct (buffer_read _ _ _ _ _ _). }
  destruct (buffer_read_done data out pos off n Ho Hn Hb Hpos Hout) as (out' & Eb & El & Hj).
  rewrite Er, Eb. exists out'. split_and!; [done|done|]. intros j Hj0. rewrite Hj by done.
  unfold byte_in. by rewrite Ed.
Qed.

(** The pointer [last] after which the rest [l] of the list begins. *)
Definition before (last : option nat) (l : list (nat * extent)) : Prop :=
  exists h, elist (extent_at (fb_fs b)) h l /\
    match last with
    | None => fs_extents (fb_fs b) = h
    | Some p => exists e, extent_at (fb_fs b) !! p = Some e /\ e_next e = h
    end.

Lemma before_rest last pre p e rest :
  before last (pre ++ (p, e) :: rest) -> extent_at (fb_fs b) !! p = Some e /\ before (Some p) rest.
Proof.
  intros (h & Hl & _). destruct (elist_suffix _ _ _ _ Hl) as (h' & _ & Hp & Hr).
  split; [done|]. exists (e_next e). split; [done|]. by exists e.
Qed.

Lemma fs_find_done last l :
  before last l -> Forall (fun x => in_range x.2) l ->
  with_fs (fs_find_extent start len last) b =
    Done (match first_meet start len l with
          | Some (p, e, _) => Some (p, r_start start e, in_start start e, met_len start len e)
          | None => None
          end) b.
Proof.
  intros (h & Hl & Hlast) Hr. unfold with_fs, zoom, fs_find_extent. erewrite mbind_done by done.
  pose proof (elist_size _ _ _ Hl) as Hsz.
  assert (E : (match last with
               | Some p => do x <- deref (extent_at (fb_fs b) !! p); mret' (e_next x)
               | None => mret' (fs_extents (fb_fs b))
               end) (fb_fs b) = Done h (fb_fs b)).
  { destruct last as [p|]; [|by rewrite Hlast]. destruct Hlast as (e & -> & <-). done. }
  rewrite (mbind_done _ _ _ _ _ E).
  rewrite (find_loop_done (fb_fs b) h l start len) by (done || lia). by destruct b.
Qed.

Lemma read_loop_done n l last fuel out :
  (length l <= n)%nat -> (length l < fuel)%nat -> before last l -> Forall (fun x => in_range x.2) l ->
  ForallOrdPairs apart l -> Forall (fun x => x ∈ all) l ->
  Forall (fun x => meets start len x.2 = true -> e_type x.2 <> EXTENT_TYPE_FILE) l ->
  Z.of_nat (length out) = len ->
  exists out', read_loop host_stat host_data fuel last out start len b = Done (0, out') b /\
    length out' = length out /\
    forall j, 0 <= j < len -> zget out' j = match device_at b l (start + j) with
                                          | Some v => Some v
                                          | None => zget out j
                                          end.
Proof.
  revert l last fuel out. induction n as [|n IH]; intros l last fuel out Hn Hf Hl Hr Ha Hin Hty Hout;
    (destruct fuel as [|fuel]; [lia|]); cbn [read_loop];
    rewrite (mbind_done _ _ _ _ _ (fs_find_done _ _ Hl Hr)).
  { destruct l as [|x l]; [|cbn in Hn; lia]. by exists out. }
  destruct (first_meet start len l) as [[[p e] rest]|] eqn:Hm.
  2: { exists out. split_and!; [done|done|]. intros j Hj. by rewrite (first_meet_none _ _ _ _ _ Hj Hm). }
  destruct (first_meet_in _ _ _ _ _ _ Hm) as (pre & -> & He & Hpre).
  destruct (before_rest _ _ _ _ _ Hl) as (Hp & Hrest).
  apply Forall_app in Hr as [_ [Hre Hr]%Forall_cons]. apply Forall_app in Hin as [_ [Hine Hin]%Forall_cons].
  apply Forall_app in Hty as [_ [Htye Hty]%Forall_cons]. destruct (FOP_suffix _ _ _ Ha) as [Hap Ha']. cbn [snd] in *.
  destruct Hre as (R1 & R2 & R3). unfold meets in He. apply andb_true_iff in He as [He1%Z.ltb_lt He2%Z.ltb_lt].
  destruct (extent_read_done p e out (r_start start e) (in_start start e) (met_len start len e) Hine Hp) as (out1 & E1 & L1 & Hj1);
    [apply Htye; unfold meets; rewrite andb_true_iff, !Z.ltb_lt; lia
    |unfold in_start, met_len, r_start, e_end in *; lia..|].
  rewrite (mbind_done _ _ _ _ _ E1). cbn [negb Z.eqb]. change (0 =? SKY_IS_FALLING) with false. cbv iota beta.
  rewrite length_app, length_cons in Hn, Hf.
  destruct (IH rest (Some p) fuel out1) as (out' & E & L & Hj); try done; [lia|lia|lia|].
  exists out'. split_and!; [done|lia|]. intros j Hj0. rewrite Hj by done.
  rewrite device_at_skip by (eapply Forall_impl; [exact Hpre|]; intros x Hx; apply (meets_holds start len); [lia|exact Hx]).
  cbn [device_at snd]. destruct (decide (e_start e <= start + j < e_end e)) as [Hh|Hh].
  - rewrite device_at_none.
    + rewrite Hj1 by lia. rewrite decide_True by (unfold r_start, met_len; lia). do 2 f_equal.
      unfold in_start, r_start. lia.
    + eapply Forall_impl; [exact Hap|]. cbn. unfold apart, holds. cbn. lia.
  - destruct (device_at b rest (start + j)); [done|]. rewrite Hj1 by lia.
    by rewrite decide_False by (unfold r_start, met_len; lia).
Qed.
End reading.
