(* ===== verification/FdPoolProps.v ===== *)
(** * The pool is a least-recently-used cache (properties of FdPool)

    The circular list stands for a list of files with their descriptors, the most
    recently used first; opening a file refines the corresponding operation of a
    cache of four entries. *)

From S2P Require Import Prelude FdPool.

(** ** The ring of nodes *)

Definition nx (m : gmap node_id pooled_fd) (a : node_id) : option node_id := m !! a ≫= p_next.
Definition pv (m : gmap node_id pooled_fd) (a : node_id) : option node_id := m !! a ≫= p_prev.
Definition fd_of (m : gmap node_id pooled_fd) (a : node_id) : option Z := p_fd <$> m !! a.

Definition linked (m : gmap node_id pooled_fd) (uv : node_id * node_id) : Prop :=
  nx m uv.1 = Some uv.2 /\ pv m uv.2 = Some uv.1.

(** The nodes [ids], in order, between the head and the head. *)
Definition ring (m : gmap node_id pooled_fd) (ids : list node_id) : Prop :=
  Forall (linked m) (zip (fdpool_head :: ids) (ids ++ [fdpool_head])) /\ NoDup (fdpool_head :: ids).

(** [m'] differs from [m] in the links only: what the successor and the predecessor
    of each node are. *)
Record relinked (m m' : gmap node_id pooled_fd) (n : node_id -> option node_id) (v : node_id -> option node_id) : Prop := {
  rl_next a : nx m' a = n a;
  rl_prev a : pv m' a = v a;
  rl_fd a : fd_of m' a = fd_of m a
}.

Lemma nx_some m a b : nx m a = Some b -> exists n, m !! a = Some n /\ p_next n = Some b.
Proof. unfold nx. intros (n & H & E)%bind_Some. by exists n. Qed.
Lemma pv_some m a b : pv m a = Some b -> exists n, m !! a = Some n /\ p_prev n = Some b.
Proof. unfold pv. intros (n & H & E)%bind_Some. by exists n. Qed.

Lemma fd_of_some m a fd : fd_of m a = Some fd -> exists n, m !! a = Some n /\ p_fd n = fd.
Proof. unfold fd_of. intros (n & H & E)%fmap_Some. by exists n. Qed.

Lemma update_node_done a f n p :
  pool_nodes p !! a = Some n -> update_node a f p = Done tt (set_pool_nodes (<[a := f n]> (pool_nodes p)) p).
Proof. intros H. unfold update_node, node, modify, mbind', get, deref. rewrite H. done. Qed.

Lemma update_next a v p : is_Some (pool_nodes p !! a) ->
  exists m, update_node a (set_next v) p = Done tt (set_pool_nodes m p) /\
    relinked (pool_nodes p) m (fun b => if decide (b = a) then v else nx (pool_nodes p) b) (pv (pool_nodes p)).
Proof.
  intros [n Hn]. eexists. split; [by apply update_node_done|].
  split; intros b; unfold nx, pv, fd_of; (destruct (decide (b = a)) as [->|Hb];
    [rewrite lookup_insert_eq, ?Hn; done|by rewrite lookup_insert_ne]).
Qed.

Lemma update_prev a v p : is_Some (pool_nodes p !! a) ->
  exists m, update_node a (set_prev v) p = Done tt (set_pool_nodes m p) /\
    relinked (pool_nodes p) m (nx (pool_nodes p)) (fun b => if decide (b = a) then v else pv (pool_nodes p) b).
Proof.
  intros [n Hn]. eexists. split; [by apply update_node_done|].
  split; intros b; unfold nx, pv, fd_of; (destruct (decide (b = a)) as [->|Hb];
    [rewrite lookup_insert_eq, ?Hn; done|by rewrite lookup_insert_ne]).
Qed.

Lemma relinked_some m m' n v a : relinked m m' n v -> is_Some (m !! a) -> is_Some (m' !! a).
Proof.
  intros [_ _ H] [x Hx]. specialize (H a). unfold fd_of in H. rewrite Hx in H.
  destruct (m' !! a); [by eexists|done].
Qed.

(** A link that is not among the changed ones stays. *)
Lemma linked_keep m m' n v l :
  relinked m m' n v ->
  Forall (fun uv => n uv.1 = nx m uv.1 /\ v uv.2 = pv m uv.2) l -> Forall (linked m) l -> Forall (linked m') l.
Proof.
  intros [Hn Hv _] Hk Hl. rewrite Forall_forall in *. intros uv Huv. destruct (Hk uv Huv) as [K1 K2].
  destruct (Hl uv Huv) as [L1 L2]. split; [by rewrite Hn, K1|by rewrite Hv, K2].
Qed.

(** ** The operations on the ring *)

Lemma insert_head_done x next p :
  nx (pool_nodes p) fdpool_head = Some next -> is_Some (pool_nodes p !! next) -> is_Some (pool_nodes p !! x) ->
  x <> fdpool_head -> next <> x ->
  exists m, fdpool_insert_head x p = Done tt (set_pool_count (fdpool_count p + 1) (set_pool_nodes m p)) /\
    relinked (pool_nodes p) m
      (fun b => if decide (b = x) then Some next else if decide (b = fdpool_head) then Some x else nx (pool_nodes p) b)
      (fun b => if decide (b = next) then Some x else if decide (b = x) then Some fdpool_head else pv (pool_nodes p) b).
Proof.
  intros Hn Hnext Hx Hxh Hnx. unfold fdpool_insert_head. destruct (nx_some _ _ _ Hn) as (h & Hh & Eh).
  unfold node at 1. rewrite <-mbind_assoc. erewrite mbind_done by done. rewrite Hh. erewrite mbind_done by done.
  rewrite Eh. erewrite mbind_done by done.
  destruct (update_next fdpool_head (Some x) p ltac:(by eexists)) as (m1 & E1 & R1).
  rewrite (mbind_done _ _ _ _ _ E1).
  destruct (update_prev x (Some fdpool_head) (set_pool_nodes m1 p)) as (m2 & E2 & R2); [by eapply relinked_some|].
  rewrite (mbind_done _ _ _ _ _ E2).
  destruct (update_next x (Some next) (set_pool_nodes m2 (set_pool_nodes m1 p))) as (m3 & E3 & R3);
    [by do 2 (eapply relinked_some; [done|])|].
  rewrite (mbind_done _ _ _ _ _ E3).
  destruct (update_prev next (Some x) (set_pool_nodes m3 (set_pool_nodes m2 (set_pool_nodes m1 p)))) as (m4 & E4 & R4);
    [by do 3 (eapply relinked_some; [done|])|].
  rewrite (mbind_done _ _ _ _ _ E4). exists m4. split; [done|].
  destruct R1 as [N1 P1 F1], R2 as [N2 P2 F2], R3 as [N3 P3 F3], R4 as [N4 P4 F4].
  cbn [pool_nodes set_pool_nodes] in *.
  split; intros b; rewrite ?N4, ?P4, ?F4, ?N3, ?P3, ?F3, ?N2, ?P2, ?F2, ?N1, ?P1, ?F1;
    repeat case_decide; done.
Qed.

Lemma insert_ring x ids p :
  ring (pool_nodes p) ids -> is_Some (pool_nodes p !! x) -> x <> fdpool_head -> x ∉ ids ->
  exists m, fdpool_insert_head x p = Done tt (set_pool_count (fdpool_count p + 1) (set_pool_nodes m p)) /\
    ring m (x :: ids) /\ forall b, fd_of m b = fd_of (pool_nodes p) b.
Proof.
  intros [Hl Hnd] Hx Hxh Hxi. apply NoDup_cons in Hnd as [Hh Hnd].
  assert (exists next R, ids ++ [fdpool_head] = next :: R) as (next & R & ER).
  { destruct ids as [|i ids]; [by eexists _, _|]. by eexists _, _. }
  assert (HndR : NoDup (next :: R)).
  { rewrite <-ER. apply NoDup_app. split_and!; [done| |apply NoDup_singleton].
    intros y Hy ->%list_elem_of_singleton. done. }
  assert (HxR : x ∉ next :: R).
  { rewrite <-ER, elem_of_app, list_elem_of_singleton. intros [?| ?]; done. }
  apply NoDup_cons in HndR as [HnR _]. apply not_elem_of_cons in HxR as [Hxn HxR].
  rewrite ER in Hl. cbn [zip zip_with] in Hl. apply Forall_cons in Hl as [[Hn Hp] Hl]. cbn [fst snd] in *.
  destruct (insert_head_done x next p Hn) as (m & E & R1); try done.
  { destruct (pv_some _ _ _ Hp) as (n & -> & _). by eexists. }
  exists m. split; [done|]. split; [|apply R1]. split.
  - cbn [app]. rewrite ER. cbn [zip zip_with]. pose proof R1 as [R1n R1v _]. constructor; [|constructor].
    + split; cbn [fst snd]; [rewrite R1n|rewrite R1v]; repeat case_decide; try congruence.
    + split; cbn [fst snd]; [rewrite R1n|rewrite R1v]; repeat case_decide; try congruence.
    + eapply linked_keep; [exact R1| |exact Hl]. apply Forall_forall. intros [u v] Huv.
      pose proof (elem_of_zip_l _ _ _ _ Huv) as Hu. pose proof (elem_of_zip_r _ _ _ _ Huv) as Hv. cbn [fst snd].
      repeat case_decide; subst; (done || congruence).
  - constructor; [|by constructor]. rewrite not_elem_of_cons. done.
Qed.

Lemma remove_done x prev next p :
  nx (pool_nodes p) x = Some next -> pv (pool_nodes p) x = Some prev ->
  is_Some (pool_nodes p !! next) -> is_Some (pool_nodes p !! prev) ->
  exists m, fdpool_remove x p = Done tt (set_pool_count (fdpool_count p - 1) (set_pool_nodes m p)) /\
    relinked (pool_nodes p) m
      (fun b => if decide (b = prev) then Some next else nx (pool_nodes p) b)
      (fun b => if decide (b = next) then Some prev else pv (pool_nodes p) b).
Proof.
  intros Hn Hp Hnext Hprev. unfold fdpool_remove. destruct (nx_some _ _ _ Hn) as (n & Hx & En).
  unfold pv in Hp. rewrite Hx in Hp. cbn in Hp.
  unfold node at 1. rewrite <-mbind_assoc. erewrite mbind_done by done. rewrite Hx. erewrite mbind_done by done.
  rewrite Hp. erewrite mbind_done by done. rewrite En. erewrite mbind_done by done.
  destruct (update_next prev (Some next) p Hprev) as (m1 & E1 & R1). rewrite (mbind_done _ _ _ _ _ E1).
  destruct (update_prev next (Some prev) (set_pool_nodes m1 p)) as (m2 & E2 & R2); [by eapply relinked_some|].
  rewrite (mbind_done _ _ _ _ _ E2). exists m2. split; [done|].
  destruct R1 as [N1 P1 F1], R2 as [N2 P2 F2]. cbn [pool_nodes set_pool_nodes] in *.
  split; intros b; rewrite ?N2, ?P2, ?F2, ?N1, ?P1, ?F1; repeat case_decide; done.
Qed.

Lemma linked_some m uv : linked m uv -> is_Some (m !! uv.1) /\ is_Some (m !! uv.2).
Proof.
  intros [(n & -> & _)%nx_some (n' & -> & _)%pv_some]. split; by eexists.
Qed.

(** The neighbours of a node of the ring: the nodes before it and after it. *)
Lemma ring_split m l1 x l2 :
  ring m (l1 ++ x :: l2) ->
  exists L prev next R, fdpool_head :: l1 = L ++ [prev] /\ l2 ++ [fdpool_head] = next :: R /\
    length L = length l1 /\ length l2 = length R /\
    Forall (linked m) (zip L l1) /\ linked m (prev, x) /\ linked m (x, next) /\ Forall (linked m) (zip l2 R).
Proof.
  intros [Hl _].
  destruct (exists_last (l := fdpool_head :: l1) ltac:(done)) as (L & prev & EL).
  assert (exists next R, l2 ++ [fdpool_head] = next :: R) as (next & R & ER)
    by (destruct l2; eexists _, _; done).
  assert (LL : length L = length l1).
  { apply (f_equal length) in EL. rewrite length_app in EL. cbn in EL. lia. }
  assert (LR : length l2 = length R).
  { apply (f_equal length) in ER. rewrite length_app in ER. cbn in ER. lia. }
  exists L, prev, next, R. split_and!; try done;
    rewrite <-app_assoc in Hl; cbn [app] in Hl; rewrite ER, app_comm_cons, EL, <-app_assoc in Hl;
    cbn [app] in Hl; rewrite zip_with_app in Hl by done; cbn [zip_with] in Hl;
    apply Forall_app in Hl as [H1 [H2 [H3 H4]%Forall_cons]%Forall_cons]; done.
Qed.

(** The nodes of a ring are different. *)
Lemma ring_distinct (l1 : list node_id) x l2 :
  NoDup (fdpool_head :: l1 ++ x :: l2) ->
  NoDup (fdpool_head :: l1) /\ (forall y, y ∈ fdpool_head :: l1 -> y ∉ l2) /\ NoDup (l2 ++ [fdpool_head]).
Proof.
  rewrite app_comm_cons. intros (D1 & D2 & [D3 D4]%NoDup_cons)%NoDup_app. split_and!; [done| |].
  - intros y Hy Hy2. apply (D2 y Hy). by right.
  - apply NoDup_app. split_and!; [done| |apply NoDup_singleton]. intros y Hy ->%list_elem_of_singleton.
    apply (D2 fdpool_head); [by left|by right].
Qed.

Lemma ring_ends (l1 : list node_id) x l2 :
  NoDup (fdpool_head :: l1 ++ x :: l2) -> forall y, y ∈ l1 -> y ∉ l2 ++ [fdpool_head].
Proof.
  intros [Hh (D1 & D2 & _)%NoDup_app]%NoDup_cons y Hy. rewrite elem_of_app, list_elem_of_singleton.
  intros [Hy2| ->]; [apply (D2 y Hy); by right|]. apply Hh, elem_of_app. by left.
Qed.

Lemma remove_ring l1 x l2 p :
  ring (pool_nodes p) (l1 ++ x :: l2) ->
  exists m, fdpool_remove x p = Done tt (set_pool_count (fdpool_count p - 1) (set_pool_nodes m p)) /\
    ring m (l1 ++ l2) /\ forall b, fd_of m b = fd_of (pool_nodes p) b.
Proof.
  intros Hr. destruct (ring_split _ _ _ _ Hr) as (L & prev & next & R & EL & ER & LL & LR & H1 & H2 & H3 & H4).
  destruct (remove_done x prev next p) as (m & E & R1);
    [apply H3|apply H2|apply (linked_some _ _ H3)|apply (linked_some _ _ H2)|].
  exists m. split; [done|]. split; [|apply R1]. pose proof Hr as [_ Hnd]. split.
  - rewrite <-app_assoc, ER, app_comm_cons, EL, <-app_assoc. cbn [app].
    rewrite zip_with_app by done. cbn [zip_with].
    destruct (ring_distinct _ _ _ Hnd) as (N1 & N2 & N3). rewrite EL in N1, N2. rewrite ER in N3.
    apply NoDup_app in N1 as (_ & N1 & _). apply NoDup_cons in N3 as [N3 _].
    apply Forall_app. split; [|constructor].
    + eapply linked_keep; [exact R1| |exact H1]. apply Forall_forall. intros [u v] Huv. cbn [fst snd].
      pose proof (elem_of_zip_l _ _ _ _ Huv) as Hu. pose proof (elem_of_zip_r _ _ _ _ Huv) as Hv.
      rewrite !decide_False; [done| |].
      * intros ->. apply (ring_ends _ _ _ Hnd next Hv). rewrite ER. by left.
      * intros ->. apply (N1 prev Hu). by left.
    + destruct R1 as [R1n R1v _]. split; cbn [fst snd]; [rewrite R1n|rewrite R1v]; by rewrite decide_True.
    + eapply linked_keep; [exact R1| |exact H4]. apply Forall_forall. intros [u v] Huv. cbn [fst snd].
      pose proof (elem_of_zip_l _ _ _ _ Huv) as Hu. pose proof (elem_of_zip_r _ _ _ _ Huv) as Hv.
      rewrite !decide_False; [done| |].
      * intros ->. done.
      * intros ->. apply (N2 prev); [apply elem_of_app; right; by left|done].
  - rewrite app_comm_cons in Hnd |- *. apply NoDup_app in Hnd as (D1 & D2 & [_ D3]%NoDup_cons).
    apply NoDup_app. split_and!; [done| |done]. intros y Hy Hy2. apply (D2 y Hy). by right.
Qed.

Lemma ring_outside m ids a n : ring m ids -> a ∉ fdpool_head :: ids -> ring (<[a := n]> m) ids.
Proof.
  intros [Hl Hnd] Ha. split; [|done]. rewrite Forall_forall in *. intros [u v] Huv. specialize (Hl _ Huv).
  pose proof (elem_of_zip_l _ _ _ _ Huv) as Hu. pose proof (elem_of_zip_r _ _ _ _ Huv) as Hv.
  assert (v ∈ fdpool_head :: ids) as Hv' by (rewrite elem_of_cons; apply elem_of_app in Hv as [?|?%list_elem_of_singleton]; auto).
  destruct Hl as [L1 L2]. unfold linked, nx, pv in *. cbn [fst snd] in *.
  rewrite !lookup_insert_ne by (intros ->; done). done.
Qed.

Lemma ring_fd_only m ids a n fd : m !! a = Some n -> ring m ids -> ring (<[a := set_fd fd n]> m) ids.
Proof.
  intros Ha [Hl Hnd]. split; [|done]. eapply Forall_impl; [exact Hl|]. intros [u v] [L1 L2].
  unfold linked, nx, pv in *. cbn [fst snd] in *.
  assert (H : forall b, <[a := set_fd fd n]> m !! b ≫= p_next = m !! b ≫= p_next /\
                        <[a := set_fd fd n]> m !! b ≫= p_prev = m !! b ≫= p_prev).
  { intros b. destruct (decide (b = a)) as [->|Hb]; [by rewrite lookup_insert_eq, Ha|by rewrite lookup_insert_ne]. }
  destruct (H u) as [-> _], (H v) as [_ ->]. done.
Qed.

Lemma Forall_impl_elem {A} (P Q : A -> Prop) l :
  Forall P l -> (forall x, x ∈ l -> P x -> Q x) -> Forall Q l.
Proof. rewrite !Forall_forall. auto. Qed.

(** ** The cache *)

Definition ids_of (l : list (nat * Z)) : list node_id := Some <$> l.*1.

(** The nodes hold the cache [l]: the list is the ring, and a node outside it has
    no descriptor. *)
Record pool_links (p : pool) (l : list (nat * Z)) : Prop := {
  po_ring : ring (pool_nodes p) (ids_of l);
  po_fds : Forall (fun x => fd_of (pool_nodes p) (Some x.1) = Some x.2 /\ 0 <= x.2) l;
  po_outside i fd : fd_of (pool_nodes p) (Some i) = Some fd -> i ∉ l.*1 -> fd = INVALID_FD;
  po_count : fdpool_count p = Z.of_nat (length l) /\ (length l <= 4)%nat;
  po_nodup : NoDup l.*2
}.

(** And its descriptors are the open files. *)
Record pool_ok (p : pool) (l : list (nat * Z)) : Prop := {
  po_links : pool_links p l;
  po_open fd : is_Some (pool_files p !! fd) <-> fd ∈ l.*2
}.

Lemma pool_ids p l : pool_links p l -> NoDup l.*1.
Proof. intros [[_ H] _ _ _ _]. apply NoDup_cons in H as [_ H]. exact (NoDup_fmap_1 _ _ H). Qed.

Lemma ids_of_app l1 l2 : ids_of (l1 ++ l2) = ids_of l1 ++ ids_of l2.
Proof. unfold ids_of. by rewrite !fmap_app. Qed.

Lemma elem_of_ids i l : Some i ∈ ids_of l <-> i ∈ l.*1.
Proof.
  unfold ids_of. generalize l.*1. intros k. split; [|by apply list_elem_of_fmap_2].
  intros (j & [= ->] & H)%list_elem_of_fmap. done.
Qed.

Lemma touch_ok p l1 i fd l2 :
  pool_links p (l1 ++ (i, fd) :: l2) ->
  exists p', fdpool_touch (Some i) p = Done tt p' /\ pool_links p' ((i, fd) :: l1 ++ l2) /\
    pool_files p' = pool_files p.
Proof.
  intros Hp. pose proof (pool_ids _ _ Hp) as Hi. destruct Hp as [Hr Hf Ho [Hc Hc4] Hn].
  rewrite ids_of_app in Hr. cbn [ids_of fmap list_fmap fst] in Hr.
  destruct (remove_ring _ _ _ _ Hr) as (m1 & E1 & R1 & F1).
  rewrite fmap_app, fmap_cons in Hi. apply NoDup_app in Hi as (I1 & I2 & [I3 I4]%NoDup_cons). cbn [fst] in *.
  set (p1 := set_pool_count (fdpool_count p - 1) (set_pool_nodes m1 p)) in *.
  assert (Hx : fd_of (pool_nodes p) (Some i) = Some fd).
  { apply Forall_app in Hf as [_ [[Hx _] _]%Forall_cons]. done. }
  destruct (insert_ring (Some i) (ids_of (l1 ++ l2)) p1) as (m2 & E2 & R2 & F2).
  { by rewrite ids_of_app. }
  { cbn. destruct (fd_of_some m1 (Some i) fd) as (n & -> & _); [by rewrite F1|by eexists]. }
  { done. }
  { rewrite elem_of_ids, fmap_app, elem_of_app. intros [H|H]; [|done]. apply (I2 i H). by left. }
  unfold fdpool_touch. rewrite (mbind_done _ _ _ _ _ E1), E2. eexists. split; [done|]. split; [|done].
  assert (Hperm : (i, fd) :: l1 ++ l2 ≡ₚ l1 ++ (i, fd) :: l2) by apply Permutation_middle.
  cbn [pool_nodes set_pool_nodes set_pool_count fdpool_count p1] in F2.
  split; cbn [pool_nodes set_pool_nodes set_pool_count fdpool_count pool_files p1].
  - done.
  - rewrite Hperm. eapply Forall_impl; [exact Hf|]. cbn. intros x. by rewrite F2, F1.
  - intros j fdj. rewrite F2, F1, Hperm. apply Ho.
  - rewrite Hperm. lia.
  - by rewrite Hperm.
Qed.

Lemma node_done a n p : pool_nodes p !! a = Some n -> node a p = Done n p.
Proof. intros H. unfold node, mbind', get. by rewrite H. Qed.

Lemma remove_tail_done a p u p' :
  pv (pool_nodes p) fdpool_head = Some a -> fdpool_remove a p = Done u p' -> a <> fdpool_head ->
  fdpool_remove_tail p = Done a p'.
Proof.
  intros (h & Hh & Eh)%pv_some E Ha. unfold fdpool_remove_tail.
  rewrite (mbind_done _ _ _ _ _ (node_done _ _ _ Hh)), Eh. erewrite mbind_done by done.
  rewrite decide_False by done. erewrite mbind_done by done. by rewrite (mbind_done _ _ _ _ _ E).
Qed.

(** The last entry is evicted. *)
Lemma evict_ok p l i fd :
  pool_links p (l ++ [(i, fd)]) ->
  exists p', fdpool_evict p = Done tt p' /\ pool_links p' l /\ pool_files p' = delete fd (pool_files p) /\
    forall j, is_Some (pool_nodes p !! Some j) -> is_Some (pool_nodes p' !! Some j).
Proof.
  intros Hp. pose proof (pool_ids _ _ Hp) as Hi. destruct Hp as [Hr Hf Ho [Hc Hc4] Hn].
  rewrite ids_of_app in Hr. cbn [ids_of fmap list_fmap fst] in Hr.
  assert (Htail : pv (pool_nodes p) fdpool_head = Some (Some i)).
  { destruct (ring_split _ _ _ _ Hr) as (L & prev & next & R & _ & [= <- <-] & _ & _ & _ & _ & [_ H] & _). exact H. }
  destruct (remove_ring _ _ _ _ Hr) as (m1 & E1 & R1 & F1). rewrite app_nil_r in R1.
  unfold fdpool_evict. rewrite (mbind_done _ _ _ _ _ (remove_tail_done _ _ _ _ Htail E1 ltac:(done))).
  apply Forall_app in Hf as [Hf [[Hx Hx0] _]%Forall_cons]. cbn [fst snd] in *.
  destruct (fd_of_some m1 (Some i) fd) as (n & Hni & Efd); [by rewrite F1|].
  unfold fdpool_unpool. erewrite mbind_done by (by apply node_done). rewrite Efd. unfold close. erewrite mbind_done by done.
  unfold fdpool_clear. rewrite (update_node_done _ _ n) by done. eexists. split; [done|].
  rewrite !fmap_app in *. apply NoDup_app in Hi as (I1 & I2 & _). apply NoDup_app in Hn as (N1 & N2 & _).
  assert (Hil : i ∉ l.*1) by (intros H; apply (I2 i H); by left).
  assert (Hm : forall j, j <> i -> fd_of (<[Some i := mk_pooled_fd None None INVALID_FD]> m1) (Some j) = fd_of (pool_nodes p) (Some j)).
  { intros j Hj. rewrite <-F1. unfold fd_of. by rewrite lookup_insert_ne by congruence. }
  rewrite length_app in Hc, Hc4. cbn [length] in Hc, Hc4. split; [|split]; [|done|].
  - split; cbn [pool_nodes set_pool_nodes set_pool_count set_pool_files fdpool_count pool_files].
    + apply ring_outside; [done|]. rewrite not_elem_of_cons. split; [done|]. by rewrite elem_of_ids.
    + eapply Forall_impl_elem; [exact Hf|]. intros [j fdj] Hj. cbn [fst snd]. rewrite Hm; [done|].
      intros ->. apply Hil. apply list_elem_of_fmap. by exists (i, fdj).
    + intros j fdj. destruct (decide (j = i)) as [->|Hj]; [|rewrite Hm by done; intros Hfd Hjl].
      * unfold fd_of. rewrite lookup_insert_eq. by intros [= <-].
      * apply (Ho j fdj Hfd). set_solver.
    + lia.
    + done.
  - intros j [n' Hj]. cbn [pool_nodes set_pool_nodes set_pool_count set_pool_files].
    destruct (decide (j = i)) as [->|Hji]; [rewrite lookup_insert_eq; by eexists|].
    rewrite lookup_insert_ne by congruence.
    destruct (fd_of_some m1 (Some j) (p_fd n')) as (n2 & E2 & _); [|exists n2; exact E2].
    rewrite F1. exact (f_equal (fmap p_fd) Hj).
Qed.

(** A file whose node is not in the cache is put at its front. *)
Lemma insert_ok p l i fd :
  pool_links p l -> i ∉ l.*1 -> (length l < 4)%nat -> is_Some (pool_nodes p !! (Some i : node_id)) ->
  0 <= fd -> fd ∉ l.*2 ->
  exists p', (fdpool_insert_head (Some i);;; update_node (Some i) (set_fd fd)) p = Done tt p' /\
    pool_links p' ((i, fd) :: l) /\ pool_files p' = pool_files p.
Proof.
  intros Hp Hi Hlen Hnode Hfd Hfdl. pose proof Hp as [Hr Hf Ho [Hc Hc4] Hn].
  assert (Hil : Some i ∉ ids_of l) by (by rewrite elem_of_ids).
  destruct (insert_ring (Some i) (ids_of l) p Hr Hnode ltac:(done) Hil) as (m & E & R & F).
  rewrite (mbind_done _ _ _ _ _ E). cbn [pool_nodes set_pool_files fdpool_count] in *.
  assert (Hm : exists n, m !! (Some i : node_id) = Some n).
  { destruct Hnode as [n0 Hn0]. destruct (fd_of_some m (Some i) (p_fd n0)) as (n & En & _); [|by exists n].
    rewrite F. exact (f_equal (fmap p_fd) Hn0). }
  destruct Hm as [n Hmi]. rewrite (update_node_done _ _ n) by done. eexists. split; [done|]. split; [|done].
  cbn [pool_nodes set_pool_nodes set_pool_count] in *.
  assert (Hm : forall j, j <> i -> fd_of (<[(Some i : node_id) := set_fd fd n]> m) (Some j) = fd_of (pool_nodes p) (Some j)).
  { intros j Hj. rewrite <-F. unfold fd_of. by rewrite lookup_insert_ne by congruence. }
  split; cbn [pool_nodes set_pool_nodes set_pool_count set_pool_files fdpool_count pool_files].
  - by apply (ring_fd_only m).
  - constructor; [split; [|done]; unfold fd_of; by rewrite lookup_insert_eq|].
    eapply Forall_impl_elem; [exact Hf|]. intros [j fdj] Hj. cbn [fst snd]. rewrite Hm; [done|].
    intros ->. apply Hi. apply list_elem_of_fmap. by exists (i, fdj).
  - intros j fdj Hj Hjl. cbn in Hjl. apply not_elem_of_cons in Hjl as [Hji Hjl]. rewrite Hm in Hj by done.
    by apply (Ho j).
  - cbn [length]. lia.
  - cbn. by constructor.
Qed.

Lemma po_files_only p l fds : pool_links p l -> pool_links (set_pool_files fds p) l.
Proof. intros []. by split. Qed.

(** Room for one more. *)
Lemma make_room p l :
  pool_links p l ->
  exists q, (if FDPOOL_SIZE <=? fdpool_count p then fdpool_evict else mret' tt) p = Done tt q /\
    pool_links q (take 3 l) /\
    (forall j, is_Some (pool_nodes p !! (Some j : node_id)) -> is_Some (pool_nodes q !! (Some j : node_id))) /\
    forall x, pool_files q !! x = if decide (x ∈ (drop 3 l).*2) then None else pool_files p !! x.
Proof.
  intros Hl. pose proof (po_count _ _ Hl) as [Hc H4]. unfold FDPOOL_SIZE.
  destruct (Z.leb_spec 4 (fdpool_count p)) as [Hfull|Hroom].
  - rewrite <-(take_drop 3 l) in Hl. destruct (drop 3 l) as [|[j fd] r] eqn:Ed.
    { apply (f_equal length) in Ed. rewrite length_drop in Ed. cbn in Ed. lia. }
    assert (r = []) as ->. { apply (f_equal length) in Ed. rewrite length_drop in Ed. destruct r; [done|]. cbn in Ed. lia. }
    destruct (evict_ok _ _ _ _ Hl) as (q & E & Hq & Hqf & Hqn). exists q. split_and!; [done|done|done|].
    intros x. rewrite Hqf. cbn. destruct (decide (x = fd)) as [->|Hx].
    + rewrite lookup_delete_eq, decide_True; [done|]. by left.
    + rewrite lookup_delete_ne by done. rewrite decide_False; [done|]. by intros ?%list_elem_of_singleton.
  - exists p. rewrite take_ge, drop_ge by lia. split_and!; [done|done|done|]. intros x.
    rewrite decide_False; [done|]. apply not_elem_of_nil.
Qed.

Lemma elem_of_take_list {A} n (l : list A) x : x ∈ take n l -> x ∈ l.
Proof. intros H. rewrite <-(take_drop n l). apply elem_of_app. by left. Qed.

(** ** Opening *)

Lemma lowest_free_cases fuel fd m :
  fd <= lowest_free fuel fd m <= fd + Z.of_nat fuel /\
  (m !! lowest_free fuel fd m = None \/
   lowest_free fuel fd m = fd + Z.of_nat fuel /\ forall x, fd <= x < fd + Z.of_nat fuel -> is_Some (m !! x)).
Proof.
  revert fd. induction fuel as [|fuel IH]; intros fd; cbn [lowest_free]; [split; [lia|right; split; lia]|].
  case_decide as H; [split; [lia|by left]|]. destruct (IH (fd + 1)) as [Hb Hc]. split; [lia|].
  destruct Hc as [Hc|[Hc Hall]]; [by left|right]. split; [lia|]. intros x Hx.
  destruct (decide (x = fd)) as [->|]; [by apply not_eq_None_Some|apply Hall; lia].
Qed.

(** The table has a free descriptor among its first [size + 1]. *)
Lemma lowest_free_spec m : 0 <= lowest_free (size m) 0 m /\ m !! lowest_free (size m) 0 m = None.
Proof.
  destruct (lowest_free_cases (size m) 0 m) as [Hb Hc]. split; [lia|].
  destruct Hc as [Hc|[Hc Hall]]; [done|]. rewrite Hc. apply eq_None_not_Some. intros Hs.
  assert (Hsub : list_to_set (seqZ 0 (Z.of_nat (S (size m)))) ⊆ dom m).
  { intros x Hx. apply elem_of_list_to_set, elem_of_seqZ in Hx. apply elem_of_dom.
    destruct (decide (x = 0 + Z.of_nat (size m))) as [->|]; [done|apply Hall; lia]. }
  apply subseteq_size in Hsub. rewrite size_list_to_set, length_seqZ, size_dom in Hsub by apply NoDup_seqZ. lia.
Qed.

Lemma fdpool_open_spec (host_data : list Z -> option (list Z)) (i : nat) (path : list Z) (p : pool)
    (l : list (nat * Z))
  (Hp : pool_ok p l) (Hnode : is_Some (pool_nodes p !! (Some i : node_id))) :
  (exists l1 fd l2 p', l = l1 ++ (i, fd) :: l2 /\
     fdpool_open host_data (Some i) path p = Done fd p' /\
     pool_ok p' ((i, fd) :: l1 ++ l2) /\ pool_files p' = pool_files p) \/
  (i ∉ l.*1 /\ host_data path = None /\ fdpool_open host_data (Some i) path p = Done (-1) p) \/
  (exists data fd p', i ∉ l.*1 /\ host_data path = Some data /\
     fdpool_open host_data (Some i) path p = Done fd p' /\
     pool_ok p' ((i, fd) :: take 3 l) /\ fd ∉ l.*2 /\ pool_files p' !! fd = Some (mk_open_file data 0) /\
     forall x, x ∈ (take 3 l).*2 -> pool_files p' !! x = pool_files p !! x).
Proof.
  unfold fdpool_open. destruct Hnode as [n Hn]. rewrite (mbind_done _ _ _ _ _ (node_done _ _ _ Hn)).
  assert (Hfdn : fd_of (pool_nodes p) (Some i) = Some (p_fd n)) by exact (f_equal (fmap p_fd) Hn).
  destruct (decide (i ∈ l.*1)) as [Hi|Hi].
  - left. apply list_elem_of_fmap in Hi as ([j fd] & Hj & Hin). cbn in Hj. subst j.
    apply list_elem_of_split in Hin as (l1 & l2 & ->). destruct Hp as [Hp Hopen].
    destruct (touch_ok _ _ _ _ _ Hp) as (p' & E & Hok & Hf).
    assert (Hx : p_fd n = fd /\ 0 <= fd).
    { destruct Hp as [_ Hf' _ _ _]. apply Forall_app in Hf' as [_ [[Hx Hx0] _]%Forall_cons]. cbn in *.
      split; [|done]. assert (Some (p_fd n) = Some fd) by (etrans; [symmetry; exact Hfdn|exact Hx]). congruence. }
    destruct Hx as [-> Hx0]. exists l1, fd, l2, p'. split; [done|].
    rewrite (proj2 (Z.eqb_neq fd INVALID_FD)) by (unfold INVALID_FD; lia). cbn [negb].
    rewrite (mbind_done _ _ _ _ _ E). split_and!; [done| |done]. split; [done|]. intros x.
    rewrite Hf, Hopen. by rewrite <-Permutation_middle.
  - right. rewrite (po_outside _ _ (po_links _ _ Hp) i (p_fd n) Hfdn Hi), Z.eqb_refl. cbn [negb].
    destruct (host_data path) as [data|] eqn:Eh.
    2: { left. split_and!; [done|done|]. unfold open. rewrite Eh. done. }
    right. destruct (lowest_free_spec (pool_files p)) as [Hfd Hfree].
    set (fd := lowest_free (size (pool_files p)) 0 (pool_files p)) in *. set (p1 := set_pool_files (<[fd := mk_open_file data 0]> (pool_files p)) p).
    assert (Hfdl : fd ∉ l.*2) by (rewrite <-(po_open _ _ Hp), Hfree; by intros [? [=]]).
    assert (E1 : open host_data path p = Done fd p1) by (unfold open; by rewrite Eh).
    destruct Hp as [Hl Hopen]. destruct (make_room p1 l (po_files_only _ _ _ Hl)) as (q & E2 & Hq & Hqn & Hqf).
    assert (Htake : forall x, x ∈ take 3 l -> x ∈ l) by (intros x; apply elem_of_take_list).
    destruct (insert_ok q (take 3 l) i fd Hq) as (p' & E3 & Hp' & Hf').
    { intros Hin. apply Hi. apply list_elem_of_fmap in Hin as (x & -> & Hin). by apply list_elem_of_fmap_2, Htake. }
    { rewrite length_take. lia. }
    { apply Hqn. by exists n. }
    { done. }
    { intros Hin. apply Hfdl. apply list_elem_of_fmap in Hin as (x & -> & Hin). by apply list_elem_of_fmap_2, Htake. }
    exists data, fd, p'. split; [done|]. split; [done|]. split.
    { rewrite (mbind_done _ _ _ _ _ E1). rewrite (proj2 (Z.leb_le 0 fd) Hfd). unfold fdpool_pool.
      rewrite <-mbind_assoc. erewrite mbind_done by done. rewrite <-mbind_assoc, (mbind_done _ _ _ _ _ E2).
      by rewrite (mbind_done _ _ _ _ _ E3). }
    assert (Hfd1 : fd ∉ (drop 3 l).*2).
    { intros Hin. apply Hfdl. apply list_elem_of_fmap in Hin as (x & -> & Hin).
      apply list_elem_of_fmap_2. rewrite <-(take_drop 3 l). apply elem_of_app. by right. }
    assert (Hdis : forall x, x ∈ (take 3 l).*2 -> x ∉ (drop 3 l).*2).
    { pose proof (po_nodup _ _ Hl) as Hn2. rewrite <-(take_drop 3 l), fmap_app in Hn2. by apply NoDup_app in Hn2 as (_ & ? & _). }
    assert (Hall : forall x, x ∈ l.*2 <-> x ∈ (take 3 l).*2 \/ x ∈ (drop 3 l).*2).
    { intros x. by rewrite <-elem_of_app, <-fmap_app, take_drop. }
    split; [split; [done|]|split; [done|split]].
    + intros x. rewrite Hf', Hqf. cbn [fmap list_fmap fst snd]. rewrite elem_of_cons. unfold p1. cbn [pool_files set_pool_files].
      case_decide as Hx.
      * split; [by intros [? [=]]|]. intros [->|Hx2]; [done|]. by destruct (Hdis x Hx2).
      * destruct (decide (x = fd)) as [->|Hxfd].
        -- rewrite lookup_insert_eq. split; [auto|by eexists].
        -- rewrite lookup_insert_ne by done. rewrite Hopen, Hall. tauto.
    + rewrite Hf', Hqf, decide_False by done. apply lookup_insert_eq.
    + intros x Hx. rewrite Hf', Hqf, decide_False by auto. apply lookup_insert_ne. intros <-.
      apply Hfdl, Hall. auto.
Qed.

(** C19: the pool of descriptors is a least-recently-used cache of four entries.
    Opening a file that has a descriptor returns it and makes it the most recent
    one; opening another one either reports that the host refused, with nothing
    changed, or returns a new descriptor at the start of the file, after closing
    the least recently used one if there were four; at no time is a descriptor
    leaked or closed twice, and the list's links stay intact. *)
Theorem fdpool_open_is_lru (host_data : list Z -> option (list Z)) (i : nat) (path : list Z) (p : pool)
    (l : list (nat * Z))
  (Hp : pool_ok p l) (Hnode : is_Some (pool_nodes p !! (Some i : node_id))) :
  (exists l1 fd l2 p', l = l1 ++ (i, fd) :: l2 /\
     fdpool_open host_data (Some i) path p = Done fd p' /\
     pool_ok p' ((i, fd) :: l1 ++ l2) /\ pool_files p' = pool_files p) \/
  (i ∉ l.*1 /\ host_data path = None /\ fdpool_open host_data (Some i) path p = Done (-1) p) \/
  (exists data fd p', i ∉ l.*1 /\ host_data path = Some data /\
     fdpool_open host_data (Some i) path p = Done fd p' /\
     pool_ok p' ((i, fd) :: take 3 l) /\ fd ∉ l.*2 /\ pool_files p' !! fd = Some (mk_open_file data 0) /\
     forall x, x ∈ (take 3 l).*2 -> pool_files p' !! x = pool_files p !! x).
Proof.
  destruct (fdpool_open_spec host_data i path p l Hp Hnode) as [H|[H|H]];
    [left|right; left|right; right]; exact H.
Qed.

Lemma initial_pool_ok : pool_ok initial_pool [].
Proof.
  split; [split|]; cbn.
  - split; [|apply NoDup_singleton]. by repeat constructor.
  - constructor.
  - intros i fd H. apply fd_of_some in H as (n & Hn & _). apply lookup_singleton_Some in Hn as [[=] _].
  - split; [done|lia].
  - constructor.
  - intros fd. split; [by intros [? ?]|by intros ?%not_elem_of_nil].
Qed.

(** [fdpool_init] of a new node. *)
Lemma fdpool_init_ok i p l :
  pool_ok p l -> i ∉ l.*1 -> exists p', fdpool_init (Some i) p = Done tt p' /\ pool_ok p' l /\
    is_Some (pool_nodes p' !! (Some i : node_id)).
Proof.
  intros [[Hr Hf Ho Hc Hn] Hopen] Hi. eexists. split; [done|]. split; [|eexists; apply lookup_insert_eq].
  assert (Hm : forall j, j <> i -> fd_of (<[(Some i : node_id) := mk_pooled_fd None None INVALID_FD]> (pool_nodes p)) (Some j)
                               = fd_of (pool_nodes p) (Some j)).
  { intros j Hj. unfold fd_of. by rewrite lookup_insert_ne by congruence. }
  split; [split|done]; cbn [pool_nodes set_pool_nodes fdpool_count]; try done.
  - apply ring_outside; [done|]. rewrite not_elem_of_cons. split; [done|]. by rewrite elem_of_ids.
  - eapply Forall_impl_elem; [exact Hf|]. intros [j fdj] Hj. cbn [fst snd]. rewrite Hm; [done|].
    intros ->. apply Hi. apply list_elem_of_fmap. by exists (i, fdj).
  - intros j fdj. destruct (decide (j = i)) as [->|Hj]; [|by rewrite Hm by done; apply Ho].
    unfold fd_of. rewrite lookup_insert_eq. by intros [= <-].
Qed.

Definition one_node : pool := match fdpool_init (Some 4%nat) initial_pool with Done _ p => p | _ => initial_pool end.

Lemma one_node_ok : pool_ok one_node [] /\ is_Some (pool_nodes one_node !! (Some 4%nat : node_id)).
Proof.
  destruct (fdpool_init_ok 4 initial_pool [] initial_pool_ok (not_elem_of_nil _)) as (p & E & Hp & Hn).
  unfold one_node. by rewrite E.
Qed.

Lemma fdpool_open_is_lru_witness :
  let l := [] : list (nat * Z) in let host_data := fun _ : list Z => Some [1; 2; 3] in
  (exists l1 fd l2 p', l = l1 ++ (4%nat, fd) :: l2 /\
     fdpool_open host_data (Some 4%nat) [] one_node = Done fd p' /\
     pool_ok p' ((4%nat, fd) :: l1 ++ l2) /\ pool_files p' = pool_files one_node) \/
  (4%nat ∉ l.*1 /\ host_data [] = None /\ fdpool_open host_data (Some 4%nat) [] one_node = Done (-1) one_node) \/
  (exists data fd p', 4%nat ∉ l.*1 /\ host_data [] = Some data /\
     fdpool_open host_data (Some 4%nat) [] one_node = Done fd p' /\
     pool_ok p' ((4%nat, fd) :: take 3 l) /\ fd ∉ l.*2 /\ pool_files p' !! fd = Some (mk_open_file data 0) /\
     forall x, x ∈ (take 3 l).*2 -> pool_files p' !! x = pool_files one_node !! x).
Proof.
  intros l host_data. destruct one_node_ok as [Hp Hn].
  exact (fdpool_open_is_lru host_data 4 [] one_node l Hp Hn).
Defined.

(** Four files, then the first again, then a fifth: the second is closed. *)
Definition pool_after (opens : list nat) : pool :=
  match foldl (fun m i => m;;; fdpool_open (fun _ => Some [1; 2; 3]) (Some i) [];;; mret' tt)
          (foldl (fun m i => m;;; fdpool_init (Some i)) (mret' tt) [4; 5; 6; 7; 8]%nat) opens initial_pool with
  | Done _ p => p
  | _ => initial_pool
  end.
Example fdpool_evicts :
  (fun i : nat => fd_of (pool_nodes (pool_after [4; 5; 6; 7; 4; 8]%nat)) (Some i)) <$> [4; 5; 6; 7; 8]%nat =
    [Some 0; Some (-1); Some 2; Some 3; Some 4].
Proof. vm_compute. reflexivity. Qed.
