(* ===== verification/FatImportSpec.v ===== *)
(** * The import keeps the device consistent (lemmas on FatImport)

    Whatever the host's tree is, the import allocates extents for new objects only,
    keeps the extents apart and gives each directory the entries its extent shows. *)

From Stdlib Require Import String.
From S2P Require Import Prelude Logic Bytes Layout FatFs FdPool FatImport FatRead FatSpec FatReadSpec.

(** The device is consistent, except that the directory [pending] has an extent but
    no entries yet; the objects [reserved] have no extent yet. *)
Record importing (reserved : list nat) (pending : option nat) (b : fatblock) (l : list (nat * extent)) : Prop := {
  im_fs : fs_ok (fb_fs b) l;
  im_cluster : 512 <= cluster_size (fb_fs b);
  im_dirs p e : (p, e) ∈ l -> e_type e = EXTENT_TYPE_DIR -> Some p <> pending ->
    exists d, fb_dirs b !! p = Some d /\ d_size d = Z.of_nat (length (d_entries d));
  im_fresh p : p ∈ l.*1 -> (p < fb_fresh b)%nat;
  im_reserved r : r ∈ reserved -> (r < fb_fresh b)%nat /\ r ∉ l.*1;
  im_distinct : NoDup reserved
}.
Definition inv (reserved : list nat) (pending : option nat) (b : fatblock) : Prop :=
  exists l, importing reserved pending b l.

(** Changes of what the invariant does not look at. *)
Lemma importing_same reserved pending b b' l :
  importing reserved pending b l -> fb_fs b' = fb_fs b -> fb_dirs b' = fb_dirs b -> fb_fresh b' = fb_fresh b ->
  importing reserved pending b' l.
Proof. intros [] E1 E2 E3. split; rewrite ?E1, ?E2, ?E3; done. Qed.

Lemma keeps_same reserved pending {A} (m : M fatblock A) (Q : A -> Prop) :
  (forall b, match m b with
             | Done a b' => fb_fs b' = fb_fs b /\ fb_dirs b' = fb_dirs b /\ fb_fresh b' = fb_fresh b /\ Q a
             | Longjmp _ => False
             | _ => True
             end) -> keeps (inv reserved pending) m Q.
Proof.
  intros H b [l Hl]. specialize (H b). destruct (m b) as [a b'| | |]; try done.
  destruct H as (E1 & E2 & E3 & HQ). split; [|done]. exists l. by eapply importing_same.
Qed.

Lemma modify_same reserved pending f :
  (forall b, fb_fs (f b) = fb_fs b /\ fb_dirs (f b) = fb_dirs b /\ fb_fresh (f b) = fb_fresh b) ->
  keeps (inv reserved pending) (modify f) any.
Proof. intros H. apply keeps_same. intros b. cbn. destruct (H b) as (? & ? & ?). done. Qed.

(** ** Items *)

Section items.
Context (reserved : list nat) (pending : option nat).
Notation I := (inv reserved pending).

Lemma item_at_keeps p : keeps I (item_at p) any.
Proof. apply keeps_same. intros b. unfold item_at, mbind', get, deref. by destruct (fb_items b !! p). Qed.
Lemma put_item_keeps p i : keeps I (put_item p i) any.
Proof. by apply modify_same. Qed.
Lemma update_item_keeps p f : keeps I (update_item p f) any.
Proof. apply (keeps_bind _ _ _ any); [apply item_at_keeps|]. intros i _. apply put_item_keeps. Qed.

Lemma fresh_object_keeps : keeps I fresh_object any.
Proof.
  intros b [l [H1 H2 H3 H4 H5 H6]]. cbn. split; [|done]. exists l. split; cbn; try done.
  - intros p Hp. specialize (H4 p Hp). lia.
  - intros r Hr. destruct (H5 r Hr). split; [lia|done].
Qed.

Lemma free_items_head_keeps v : keeps I (modify (set_free_items_head v)) any.
Proof. by apply modify_same. Qed.

#[local] Hint Resolve item_at_keeps put_item_keeps update_item_keeps fresh_object_keeps free_items_head_keeps : keeps.

Lemma alloc_item_keeps : keeps I alloc_item any.
Proof. unfold alloc_item. keep. Qed.
Lemma free_item_keeps p : keeps I (free_item p) any.
Proof. unfold free_item. keep. Qed.
Lemma items_tail_keeps fuel p : keeps I (items_tail fuel p) any.
Proof. revert p. induction fuel as [|fuel IH]; intros p; cbn [items_tail]; keep. Qed.
#[local] Hint Resolve items_tail_keeps : keeps.
Lemma free_items_keeps h : keeps I (free_items h) any.
Proof. unfold free_items. keep. Qed.

Lemma skip_item_keeps item items count :
  keeps I (skip_item item items count) (fun x => x.2 = count).
Proof.
  destruct item as [p|]; [|by apply keeps_ret].
  apply (keeps_bind _ _ _ any); [apply free_item_keeps|]. intros _ _. by apply keeps_ret.
Qed.
End items.

#[export] Hint Resolve item_at_keeps put_item_keeps update_item_keeps fresh_object_keeps free_items_head_keeps
  alloc_item_keeps free_item_keeps free_items_keeps : keeps.

(** ** Objects and extents *)

Lemma inv_reserve reserved r pending b : inv (r :: reserved) pending b -> inv reserved pending b.
Proof. intros [l [H1 H2 H3 H4 H5 [H6 H7]%NoDup_cons]]. exists l. split; try done. intros x Hx. apply H5. by right. Qed.

(** A new object has no extent. *)
Lemma fresh_object_reserves reserved pending :
  hoare (inv reserved pending) fresh_object (fun p => inv (p :: reserved) pending).
Proof.
  intros b [l [H1 H2 H3 H4 H5 H6]]. cbn. exists l. split; cbn; try done.
  - intros p Hp. specialize (H4 p Hp). lia.
  - intros r [->|Hr]%elem_of_cons.
    + split; [lia|]. intros Hr. specialize (H4 _ Hr). lia.
    + destruct (H5 r Hr). split; [lia|done].
  - constructor; [|done]. intros Hr. destruct (H5 _ Hr). lia.
Qed.

(** After an allocation the object is in the list, and a directory needs entries. *)
Lemma alloc_extent_keeps reserved p len type :
  0 <= len < 2 ^ 32 ->
  hoare (inv (p :: reserved) None) (with_fs (fs_alloc_extent p len type))
    (fun r => inv reserved (match r, type with Some _, EXTENT_TYPE_DIR => Some p | _, _ => None end)).
Proof.
  intros Hlen b [l [H1 H2 H3 H4 H5 [H6 H7]%NoDup_cons]]. destruct (H5 p ltac:(by left)) as [Hpf Hpl].
  assert (Hres : forall r, r ∈ reserved -> (r < fb_fresh b)%nat /\ r ∉ l.*1) by (intros r Hr; apply H5; by right).
  assert (Hsame : forall f, fs_ok f l -> cluster_size f = cluster_size (fb_fs b) ->
    forall pending, inv reserved pending (set_fs f b)).
  { intros f Hf Hcs pending. exists l. split; cbn; rewrite ?Hcs; try done. intros q e Hq He _. by apply (H3 q e). }
  unfold with_fs, zoom. destruct (decide (len = 0)) as [->|Hne].
  - cbn. apply Hsame; [by apply empty_extent_ok|done].
  - pose proof (clusters_for_pos (fb_fs b) len) as Hc. pose proof H1 as [G1 G2 [_ G3] _ _ _ _ _ _].
    destruct (Hc ltac:(lia) ltac:(lia)) as [C1 C2]. assert (clusters_for (fb_fs b) len <= 2 ^ 24) by nia.
    pose proof (fs_alloc_extent_spec (fb_fs b) l p len type H1 Hpl ltac:(lia) ltac:(lia)) as Ha.
    destruct (Z.ltb_spec (num_clusters (fb_fs b)) (next_cluster (fb_fs b) + clusters_for (fb_fs b) len)) as [Hfull|Hroom].
    + rewrite Ha. by apply Hsame.
    + destruct Ha as (fat & -> & [Hfl _]). exists ((p, new_extent (fb_fs b) len type) :: l). split; cbn [fb_fs set_fs fb_dirs fb_fresh].
      * by apply allocated_ok; [| |lia|lia|].
      * done.
      * intros q e [[= -> ->]|Hq]%elem_of_cons He Hn; [|apply (H3 q e Hq He); congruence].
        cbn in He. subst type. by destruct Hn.
      * cbn. intros q [->|Hq]%elem_of_cons; [done|by apply H4].
      * intros r Hr. destruct (Hres r Hr) as [R1 R2]. split; [done|]. cbn. rewrite not_elem_of_cons. split; [|done].
        by intros ->.
      * done.
Qed.

(** A new directory gets its entries. *)
Lemma dir_entries_keeps reserved d path size entries :
  size = Z.of_nat (length entries) ->
  hoare (inv reserved (Some d)) (modify (fun b => set_dirs (<[d := mk_dir path size entries]> (fb_dirs b)) b))
    (fun _ => inv reserved None).
Proof.
  intros Hsize b [l [H1 H2 H3 H4 H5 H6]]. cbn. exists l. split; cbn; try done. intros p e Hp He _.
  destruct (decide (p = d)) as [->|Hne].
  - exists (mk_dir path size entries). by rewrite lookup_insert_eq.
  - rewrite lookup_insert_ne by done. apply (H3 p e Hp He). congruence.
Qed.

(** Changing entries in place keeps their number. *)
Lemma update_entries_keeps reserved pending d f :
  (forall e e', f e = Some e' -> length e' = length e) ->
  keeps (inv reserved pending) (update_entries d f) any.
Proof.
  intros Hf b [l [H1 H2 H3 H4 H5 H6]]. unfold update_entries, mbind', get, deref.
  destruct (fb_dirs b !! d) as [x|] eqn:Ex; cbn; [|done]. destruct (f (d_entries x)) as [e'|] eqn:Ee; cbn; [|done].
  split; [|done]. exists l. split; cbn; try done. intros p e Hp He Hpn.
  destruct (decide (p = d)) as [->|Hne].
  - rewrite lookup_insert_eq. eexists. split; [done|]. cbn. rewrite (Hf _ _ Ee).
    destruct (H3 d e Hp He Hpn) as (y & Ey & Hy). congruence.
  - rewrite lookup_insert_ne by done. by apply (H3 p e).
Qed.

Lemma first_cluster_length base cluster e e' :
  fat_dirent_set_first_cluster base cluster e = Some e' -> length e' = length e.
Proof. apply run_asgs_length. Qed.

Lemma fat_dirent_set_length base name attr cluster size e e' :
  fat_dirent_set base name attr cluster size e = Some e' -> length e' = length e.
Proof.
  unfold fat_dirent_set. intros (e1 & E1 & (n & _ & (e2 & E2 & (e3 & E3 & E4)%bind_Some)%bind_Some)%bind_Some)%bind_Some.
  apply write_bytes_length in E1. apply run_asgs_length in E2, E4. apply first_cluster_length in E3. congruence.
Qed.

#[export] Hint Resolve update_entries_keeps first_cluster_length fat_dirent_set_length : keeps.

Lemma write_items_keeps reserved n d is_root c items :
  keeps (inv reserved None) (write_items n d is_root c items) any.
Proof.
  revert items. induction n as [|n IH]; intros items; cbn [write_items]; keep.
Qed.

(** ** Importing *)

Section import.
Context (host_stat : list Z -> option stat_info)
        (host_dir : list Z -> option (list (list Z * d_type))).

Lemma with_pool_keeps {A} reserved pending (m : M pool A) : keeps (inv reserved pending) (with_pool m) any.
Proof.
  intros b [l Hl]. unfold with_pool, zoom. destruct (m (fb_pool b)) as [a p|p| |]; try done.
  - split; [|done]. exists l. by eapply importing_same.
  - exists l. by eapply importing_same.
Qed.

Lemma set_files_keeps reserved pending f :
  keeps (inv reserved pending) (modify (fun b => set_files (f b) b)) any.
Proof. by apply modify_same. Qed.

Lemma update_imported_keeps reserved pending out f : keeps (inv reserved pending) (update_imported out f) any.
Proof. unfold update_imported. keep. Qed.
#[local] Hint Resolve write_items_keeps with_pool_keeps set_files_keeps update_imported_keeps : keeps.

(** The last steps, which keep the invariant. *)
Lemma hoare_last {A} reserved pending (m : M fatblock A) :
  keeps (inv reserved pending) m any -> hoare (inv reserved pending) m (fun _ => inv reserved pending).
Proof. intros H. eapply hoare_weaken; [by apply hoare_keeps|done|]. by intros a s [_ ?]. Qed.

Lemma import_file_keeps reserved path out :
  hoare (inv reserved None) (import_file host_stat path out) (fun _ => inv reserved None).
Proof.
  unfold import_file. destruct (host_stat path) as [st|]; [|by apply hoare_ret].
  eapply hoare_bind; [apply fresh_object_reserves|]. intros f. cbv zeta.
  eapply hoare_step; [apply set_files_keeps|]. intros _ _. eapply hoare_step; [apply with_pool_keeps|]. intros _ _.
  eapply hoare_bind; [apply alloc_extent_keeps, u32_range|]. intros ret.
  destruct ret; apply hoare_last; keep.
Qed.

Section entries.
Context (import_dir : list Z -> bool -> option nat -> M fatblock (Z * imported)).
Hypothesis import_dir_keeps : forall reserved path is_root out,
  hoare (inv reserved None) (import_dir path is_root out) (fun _ => inv reserved None).

Lemma import_entry_keeps reserved path de item items count :
  0 <= count < 2 ^ 30 ->
  hoare (inv reserved None) (import_entry host_stat import_dir path de item items count)
    (fun x b => 0 <= x.2 <= count + 1 /\ inv reserved None b).
Proof.
  intros Hc. destruct de as [d_name type]. unfold import_entry. cbn [fst snd].
  assert (Hskip : forall item, hoare (inv reserved None) (skip_item item items count)
                    (fun x b => 0 <= x.2 <= count + 1 /\ inv reserved None b)).
  { intros it. eapply hoare_weaken; [apply hoare_keeps, skip_item_keeps|done|]. intros x b [-> Hb]. split; [lia|done]. }
  case_bool_decide; [apply Hskip|]. cbv zeta. destruct (PATH_MAX <=? _); [apply Hskip|].
  eapply hoare_step; [apply alloc_item_keeps|]. intros p _.
  eapply hoare_step; [apply item_at_keeps|]. intros i _.
  eapply hoare_step; [by apply (keeps_deref _ _ any)|]. intros [name|] _; [|apply Hskip].
  eapply hoare_step; [apply update_item_keeps|]. intros _ _.
  assert (Hend : hoare (inv reserved None)
    (update_item p (set_it_next items);;; mret' (None : option nat, Some p, s32 (count + 1)))
    (fun x b => 0 <= x.2 <= count + 1 /\ inv reserved None b)).
  { eapply hoare_step; [apply update_item_keeps|]. intros _ _. apply hoare_ret. cbn. intros b Hb.
    rewrite s32_small by lia. split; [lia|done]. }
  destruct type; [| |apply Hskip]; (apply (hoare_bind _ _ _ (fun _ => inv reserved None)); [|intros _; exact Hend]).
  - eapply hoare_bind; [apply import_file_keeps|]. intros ?. apply hoare_last. keep.
  - eapply hoare_bind; [apply import_dir_keeps|]. intros ?. apply hoare_last. keep.
Qed.

Lemma import_entries_keeps reserved path des item items count :
  0 <= count -> count + Z.of_nat (length des) < 2 ^ 30 ->
  hoare (inv reserved None) (import_entries host_stat import_dir path des item items count)
    (fun x b => 0 <= x.2 <= count + Z.of_nat (length des) /\ inv reserved None b).
Proof.
  revert item items count. induction des as [|de des IH]; intros item items count Hc Hb; cbn [import_entries].
  - apply hoare_ret. cbn. intros b H. split; [lia|done].
  - eapply hoare_bind; [apply import_entry_keeps; cbn [length] in Hb; lia|]. intros [[item' items'] count']. cbn [snd].
    apply hoare_pure. intros Hc'. cbn [length] in *.
    eapply hoare_weaken; [apply IH; lia|done|]. intros x b [Hx H]. split; [lia|done].
Qed.
End entries.

(** No directory of the host has too many entries. *)
Hypothesis host_dir_small : forall path des, host_dir path = Some des -> Z.of_nat (length des) < 2 ^ 26.

Lemma import_dir_keeps fuel reserved path is_root out :
  hoare (inv reserved None) (import_dir host_stat host_dir fuel path is_root out) (fun _ => inv reserved None).
Proof.
  revert reserved path is_root out. induction fuel as [|fuel IH]; intros reserved path is_root out; [done|].
  cbn [import_dir]. destruct (host_dir path) as [des|] eqn:Ed; [|by apply hoare_ret].
  pose proof (host_dir_small _ _ Ed). eapply hoare_bind; [apply fresh_object_reserves|]. intros d.
  eapply hoare_bind; [apply (import_entries_keeps _ IH); lia|]. intros [items count]. cbn [snd].
  apply hoare_pure. intros Hc. cbv zeta.
  set (n := if is_root then 0 else 2). assert (Hn : 0 <= n <= 2) by (unfold n; destruct is_root; lia).
  eapply hoare_bind; [apply alloc_extent_keeps, u32_range|]. intros [first|].
  2: { apply hoare_last. keep. }
  eapply hoare_step; [apply update_imported_keeps|]. intros _ _.
  eapply hoare_bind; [apply dir_entries_keeps|].
  { rewrite length_replicate. unfold sizeof_fat_dirent. rewrite u32_small by lia. lia. }
  intros ?. apply hoare_last. destruct is_root; keep.
Qed.

(** The two last changes of the sectors. *)
Lemma sector_keeps (m : M fs unit) :
  (forall f, match m f with
             | Done _ f' => exists boot info, f' = set_info info (set_boot boot f) /\
                              length boot = length (fs_boot f) /\ length info = length (fs_info f)
             | _ => True
             end) ->
  hoare (inv [] None) (with_fs m) (fun _ => inv [] None).
Proof.
  intros H b [l [H1 H2 H3 H4 H5 H6]]. unfold with_fs, zoom. specialize (H (fb_fs b)).
  destruct (m (fb_fs b)) as [u f'| | |]; try done. destruct H as (boot & info & -> & Lb & Li).
  exists l. split; cbn; try done. destruct H1 as [G1 G2 G3 G4 [G5 G5'] G6 G7 G8 G9]. split; try done.
  cbn. by rewrite Lb, Li.
Qed.

Lemma rootdir_keeps c : hoare (inv [] None) (with_fs (fs_set_rootdir_start c)) (fun _ => inv [] None).
Proof.
  apply sector_keeps. intros f. unfold fs_set_rootdir_start, mbind', get, deref, modify.
  destruct (run_asgs _ _ _) as [boot|] eqn:E; [|done]. cbn. exists boot, (fs_info f).
  split_and!; [by destruct f|by apply run_asgs_length in E|done].
Qed.

Lemma free_clusters_keeps : hoare (inv [] None) (with_fs fs_update_free_clusters) (fun _ => inv [] None).
Proof.
  apply sector_keeps. intros f. unfold fs_update_free_clusters, mbind', get, deref, modify.
  destruct (run_asgs _ _ _) as [info|] eqn:E; [|done]. cbn. exists (fs_boot f), info.
  split_and!; [by destruct f|done|by apply run_asgs_length in E].
Qed.

Lemma import_tree_keeps fuel path :
  hoare (inv [] None) (import_tree host_stat host_dir fuel path) (fun _ => inv [] None).
Proof.
  unfold import_tree. eapply hoare_bind; [apply import_dir_keeps|]. intros [ret imp].
  destruct (negb (ret =? 0)); [by apply hoare_ret|].
  eapply hoare_step; [by apply (keeps_deref _ _ any)|]. intros c _.
  eapply hoare_bind; [apply (rootdir_keeps c)|]. intros ?.
  eapply hoare_bind; [apply free_clusters_keeps|]. intros ?. by apply hoare_ret.
Qed.

(** A device on which nothing has been imported. *)
Definition initial_block (f : fs) : fatblock := mk_fatblock f initial_pool ∅ ∅ ∅ None 4.

Lemma initial_types n : Forall (fun x => e_type x.2 <> EXTENT_TYPE_FILE /\ e_type x.2 <> EXTENT_TYPE_DIR /\ (x.1 < 4)%nat)
  (initial_extents n).
Proof. repeat constructor; done. Qed.

Lemma initial_inv f n : fs_ok f (initial_extents n) -> 512 <= cluster_size f -> inv [] None (initial_block f).
Proof.
  intros Hf Hc. pose proof (initial_types n) as Ht. rewrite Forall_forall in Ht.
  exists (initial_extents n). split; try done.
  - intros p e Hin He _. destruct (Ht _ Hin) as (_ & Hd & _). done.
  - intros p ([q e] & -> & Hin)%list_elem_of_fmap. apply (Ht _ Hin).
  - by intros r ?%not_elem_of_nil.
  - constructor.
Qed.

Lemma fs_import_keeps fuel cs size f :
  512 <= cs < 2 ^ 16 -> 0 <= size < 2 ^ 47 -> data_clusters cs size + 2 <= 0x0FFFFFF7 ->
  match fs_import host_stat host_dir fuel cs size (initial_block f) with
  | Done _ b => inv [] None b
  | _ => True
  end.
Proof.
  intros Hcs Hsize Hmax. destruct (fs_init_spec cs size f ltac:(lia) Hsize Hmax) as (boot & E & Hok).
  assert (E' : with_fs (fs_init cs size) (initial_block f) =
    Done ((3 + fat_sectors cs size) * 512 + data_clusters cs size * (cs / 512 * 512))
      (initial_block (initial_fs cs size boot (extent_at f)))).
  { unfold with_fs, zoom. cbn [fb_fs initial_block]. rewrite E. done. }
  unfold fs_import. rewrite (mbind_done _ _ _ _ _ E').
  pose proof (initial_inv _ _ Hok ltac:(unfold initial_fs; cbn; lia)) as Hi.
  pose proof (import_tree_keeps fuel (str ".") _ Hi) as Hk.
  unfold mbind'. destruct (import_tree _ _ _ _ _); done.
Qed.
End import.
