(* ===== verification/FatProps.v ===== *)
(** * The FAT image (properties of fatblock)

    The layout of a new file system, the allocation of clusters and their chain in
    the FAT, reading the device, and the whole import: whatever the host's tree is,
    an import that returns leaves a device that reads as its parts. *)

From Stdlib Require Import String.
From S2P Require Import Prelude Logic Bytes Layout FatFs FdPool FatImport FatRead FatSpec FatReadSpec FdPoolProps FatImportSpec.

(** ** Layout and allocation *)

(** C20: a new file system is consistent: the reserved sectors and the FAT have
    extents of their own, which do not overlap and are followed by the clusters;
    the FAT has an entry for each cluster; no cluster is in use; and when a
    cluster is a whole number of sectors the device ends where its last cluster
    does. *)
Theorem fs_init_correct (cs size : Z) (f : fs)
  (Hcs : 0 < cs < 2 ^ 16) (Hsize : 0 <= size < 2 ^ 47) (Hmax : data_clusters cs size + 2 <= 0x0FFFFFF7) :
  exists total f', fs_init cs size f = Done total f' /\
    fs_ok f' (initial_extents (fat_size f')) /\
    next_cluster f' = FAT_CLUSTER_ZERO /\ num_clusters f' = FAT_CLUSTER_ZERO + data_clusters cs size /\
    Forall (fun e => e = 0) (fs_fat f') /\
    (cs mod 512 = 0 -> total = data_offset f' + (num_clusters f' - FAT_CLUSTER_ZERO) * cluster_size f').
Proof.
  destruct (fs_init_spec cs size f Hcs Hsize Hmax) as (boot & E & Hok). eexists _, _. split; [exact E|].
  split; [exact Hok|]. unfold initial_fs, FAT_CLUSTER_ZERO. cbn [next_cluster num_clusters fs_fat data_offset cluster_size].
  split_and!; [done|lia|by apply Forall_replicate|]. intros Hm. pose proof (Z.div_mod cs 512 ltac:(lia)). nia.
Qed.

Definition no_fs : fs := mk_fs 0 0 0 None [] [] [] 0 0 ∅.

Lemma fs_init_correct_witness :
  exists total f', fs_init 32768 1048576 no_fs = Done total f' /\
    fs_ok f' (initial_extents (fat_size f')) /\
    next_cluster f' = FAT_CLUSTER_ZERO /\ num_clusters f' = FAT_CLUSTER_ZERO + data_clusters 32768 1048576 /\
    Forall (fun e => e = 0) (fs_fat f') /\
    (32768 mod 512 = 0 -> total = data_offset f' + (num_clusters f' - FAT_CLUSTER_ZERO) * cluster_size f').
Proof. apply (fs_init_correct 32768 1048576 no_fs); [lia|lia|vm_compute; discriminate]. Defined.

(** C18: [fs_alloc_extent] gives an object room of its own. An empty object takes
    no cluster and shows nothing. Otherwise the call fails, and changes nothing,
    exactly if fewer clusters are left than the length needs; else it returns the
    first of a run of unused clusters, the FAT links the run up to an end mark and
    is otherwise as before, and the object's extent is the run's place on the
    device, apart from all others. *)
Theorem fs_alloc_extent_correct (f : fs) (l : list (nat * extent)) (p : nat) (len : Z) (type : extent_type)
  (Hok : fs_ok f l) (Hp : p ∉ l.*1) (Hlen : 0 <= len < 2 ^ 47)
  (Hsmall : next_cluster f + clusters_for f len < 2 ^ 32) :
  (len = 0 /\ exists f', fs_alloc_extent p len type f = Done (Some 0) f' /\ fs_ok f' l /\
     fs_fat f' = fs_fat f /\ next_cluster f' = next_cluster f) \/
  (0 < len /\ num_clusters f < next_cluster f + clusters_for f len /\
     fs_alloc_extent p len type f = Done None f) \/
  (0 < len /\ exists f' e, fs_alloc_extent p len type f = Done (Some (next_cluster f)) f' /\
     fs_ok f' ((p, e) :: l) /\ e_type e = type /\ len <= e_len e < len + cluster_size f /\
     e_start e = data_offset f + (next_cluster f - FAT_CLUSTER_ZERO) * cluster_size f /\
     next_cluster f' = next_cluster f + clusters_for f len /\
     fat_reads (Z.to_nat (clusters_for f len)) (fs_fat f') (next_cluster f) =
       Some (seqZ (next_cluster f) (clusters_for f len)) /\
     forall c, 0 <= c -> c ∉ seqZ (next_cluster f) (clusters_for f len) -> zget (fs_fat f') c = zget (fs_fat f) c).
Proof.
  destruct (decide (len = 0)) as [->|Hne].
  - left. split; [done|]. eexists. split; [done|]. split; [|done]. by apply empty_extent_ok.
  - right. pose proof (fs_alloc_extent_spec f l p len type Hok Hp ltac:(lia) Hsmall) as H.
    pose proof Hok as [H1 H2 [H3 H3'] _ _ _ _ _ _]. unfold FAT_CLUSTER_ZERO in H2.
    pose proof (clusters_for_pos f len ltac:(lia) ltac:(lia)) as [Hc1 Hc2].
    destruct (Z.ltb_spec (num_clusters f) (next_cluster f + clusters_for f len)) as [Hfull|Hroom].
    + left. split_and!; [lia|done|done].
    + right. split; [lia|]. destruct H as (fat & E & Hl). eexists _, (new_extent f len type). split; [exact E|].
      split; [apply allocated_ok; [done|done|lia|lia|apply Hl]|]. split_and!; try done; try (unfold new_extent; cbn; lia).
      * apply (linked_reads _ _ _ _ Hl); unfold FAT_ENTRY_EOC; lia.
      * intros c Hc Hn. rewrite elem_of_seqZ in Hn. destruct Hl as [_ Hl]. cbn [fs_fat allocated_fs]. rewrite Hl by done.
        rewrite !decide_False by lia. done.
Qed.

(** A device of eight clusters of one sector. *)
Definition small_fs : fs := match fs_init 512 4096 no_fs with Done _ f => f | _ => no_fs end.

Lemma small_fs_ok : fs_ok small_fs (initial_extents (fat_size small_fs)).
Proof.
  destruct (fs_init_spec 512 4096 no_fs ltac:(lia) ltac:(lia)) as (boot & E & Hok); [vm_compute; discriminate|].
  unfold small_fs. rewrite E. exact Hok.
Qed.

Lemma fs_alloc_extent_correct_witness :
  let f := small_fs in let l := initial_extents (fat_size f) in let len := 1300 in
  (len = 0 /\ exists f', fs_alloc_extent 4 len EXTENT_TYPE_DIR f = Done (Some 0) f' /\ fs_ok f' l /\
     fs_fat f' = fs_fat f /\ next_cluster f' = next_cluster f) \/
  (0 < len /\ num_clusters f < next_cluster f + clusters_for f len /\
     fs_alloc_extent 4 len EXTENT_TYPE_DIR f = Done None f) \/
  (0 < len /\ exists f' e, fs_alloc_extent 4 len EXTENT_TYPE_DIR f = Done (Some (next_cluster f)) f' /\
     fs_ok f' ((4%nat, e) :: l) /\ e_type e = EXTENT_TYPE_DIR /\ len <= e_len e < len + cluster_size f /\
     e_start e = data_offset f + (next_cluster f - FAT_CLUSTER_ZERO) * cluster_size f /\
     next_cluster f' = next_cluster f + clusters_for f len /\
     fat_reads (Z.to_nat (clusters_for f len)) (fs_fat f') (next_cluster f) =
       Some (seqZ (next_cluster f) (clusters_for f len)) /\
     forall c, 0 <= c -> c ∉ seqZ (next_cluster f) (clusters_for f len) -> zget (fs_fat f') c = zget (fs_fat f) c).
Proof.
  intros f l len. apply (fs_alloc_extent_correct f l 4 len EXTENT_TYPE_DIR small_fs_ok).
  - apply (bool_decide_unpack _). vm_compute. exact I.
  - unfold len. lia.
  - vm_compute. reflexivity.
Defined.

(** ** Reading *)

(** A list of bytes given by its elements. *)
Lemma list_of_lookups (g : Z -> Z) out start len :
  Z.of_nat (length out) = len -> (forall j, 0 <= j < len -> zget out j = Some (g (start + j))) ->
  out = g <$> seqZ start len.
Proof.
  intros Lo Hj. apply list_eq. intros k. destruct (decide (Z.of_nat k < len)) as [Hk|Hk].
  - specialize (Hj (Z.of_nat k) ltac:(lia)). unfold zget in Hj. rewrite decide_True, Nat2Z.id in Hj by lia.
    by rewrite Hj, list_lookup_fmap, lookup_seqZ_lt by lia.
  - rewrite !lookup_ge_None_2; [done|rewrite length_fmap, length_seqZ; lia|lia].
Qed.

Lemma fs_read_spec host_stat host_data b l start len :
  device_ok b l -> 0 <= start -> 0 < len -> start + len < 2 ^ 64 ->
  Forall (fun x => meets start len x.2 = true -> e_type x.2 <> EXTENT_TYPE_FILE) l ->
  exists out, fs_read host_stat host_data start len b = Done (0, out) b /\ Z.of_nat (length out) = len /\
    forall j, 0 <= j < len -> zget out j = Some (device_byte b l (start + j)).
Proof.
  intros Hdev Hstart Hlen Hend Hnofile.
  pose proof (apart_in_range _ _ (dok_fs _ _ Hdev)) as Hr. pose proof (dok_fs _ _ Hdev) as [_ _ _ _ _ _ Hl _ Ha].
  pose proof (elist_size _ _ _ Hl) as Hsz. unfold fs_read. erewrite mbind_done by done.
  destruct (read_loop_done host_stat host_data b l Hdev start len Hstart Hlen Hend (length l) l None
    (S (S (size (extent_at (fb_fs b))))) (replicate (Z.to_nat len) 0)) as (out & E & Lo & Hj); try done.
  - lia.
  - by exists (fs_extents (fb_fs b)).
  - apply Forall_forall. auto.
  - rewrite length_replicate. lia.
  - rewrite length_replicate in Lo. exists out. split_and!; [exact E|lia|]. intros j Hj0. rewrite Hj by done.
    unfold device_byte. destruct (device_at b l _); [done|]. unfold zget. rewrite decide_True by lia.
    by rewrite lookup_replicate_2 by lia.
Qed.

(** C17: a read of the device returns its bytes. For a range that meets no extent
    of a file, [fs_read] collects from the sectors, the FAT and the directories
    exactly the byte at each address, zero where nothing is, without an assertion
    failing, and changes nothing. *)
Theorem fs_read_correct (host_stat : list Z -> option stat_info) (host_data : list Z -> option (list Z))
    (b : fatblock) (l : list (nat * extent)) (start len : Z)
  (Hdev : device_ok b l) (Hstart : 0 <= start) (Hlen : 0 < len) (Hend : start + len < 2 ^ 64)
  (Hnofile : Forall (fun x => meets start len x.2 = true -> e_type x.2 <> EXTENT_TYPE_FILE) l) :
  fs_read host_stat host_data start len b = Done (0, device_byte b l <$> seqZ start len) b.
Proof.
  destruct (fs_read_spec host_stat host_data b l start len) as (out & E & Lo & Hj); try done.
  rewrite E. do 2 f_equal. by apply list_of_lookups.
Qed.

Definition small_block : fatblock := initial_block small_fs.

Lemma small_block_ok : device_ok small_block (initial_extents (fat_size small_fs)).
Proof.
  split; [exact small_fs_ok|]. intros p e Hin He. exfalso.
  pose proof (initial_types (fat_size small_fs)) as H. rewrite Forall_forall in H.
  destruct (H _ Hin) as (_ & Hd & _). exact (Hd He).
Qed.

Lemma fs_read_correct_witness :
  fs_read (fun _ => None) (fun _ => None) 500 40 small_block =
    Done (0, device_byte small_block (initial_extents (fat_size small_fs)) <$> seqZ 500 40) small_block.
Proof.
  apply (fs_read_correct (fun _ => None) (fun _ => None) small_block (initial_extents (fat_size small_fs)) 500 40 small_block_ok);
    [lia|lia|lia|]. eapply Forall_impl; [apply initial_types|]. intros x [Hx _] _. exact Hx.
Defined.

(** ** Files *)

(** The descriptor of a file, however it was opened. *)
Lemma fdpool_open_file host_data id path data p l :
  pool_ok p l -> is_Some (pool_nodes p !! (Some id : node_id)) -> host_data path = Some data ->
  (forall fd, (id, fd) ∈ l -> of_data <$> pool_files p !! fd = Some data) ->
  exists fd p' l' k, fdpool_open host_data (Some id) path p = Done fd p' /\ 0 <= fd /\ pool_ok p' l' /\
    pool_files p' !! fd = Some (mk_open_file data k).
Proof.
  intros Hp Hn Hd Hc. destruct (fdpool_open_spec host_data id path p l Hp Hn)
    as [(l1 & fd & l2 & p' & -> & E & Hok & Hf)|[(_ & H & _)|(data' & fd & p' & _ & H & E & Hok & _ & Hf & _)]].
  - destruct (pool_files p !! fd) as [o|] eqn:Eo.
    + exists fd, p', ((id, fd) :: l1 ++ l2), (of_pos o).
      assert (Hin : (id, fd) ∈ l1 ++ (id, fd) :: l2) by (apply elem_of_app; right; by left).
      specialize (Hc fd Hin). rewrite Eo in Hc. injection Hc as <-. rewrite Hf, Eo.
      pose proof (po_fds _ _ (po_links _ _ Hok)) as HF. apply Forall_cons in HF as [[_ H0] _]. split_and!; try done. by destruct o.
    + assert (Hs : is_Some (pool_files p !! fd)) by (apply (po_open _ _ Hp); set_solver).
      rewrite Eo in Hs. by destruct Hs.
  - by rewrite Hd in H.
  - rewrite Hd in H. injection H as <-. exists fd, p', ((id, fd) :: take 3 l), 0. split_and!; try done.
    pose proof (po_fds _ _ (po_links _ _ Hok)) as HF. apply Forall_cons in HF as [[_ H0] _]. done.
Qed.

Lemma lseek_set_done fd data k off p :
  pool_files p !! fd = Some (mk_open_file data k) -> 0 <= off ->
  lseek_set fd off p = Done off (set_pool_files (<[fd := mk_open_file data off]> (pool_files p)) p).
Proof. intros H Ho. unfold lseek_set, mbind', get. rewrite H. by rewrite (proj2 (Z.leb_le 0 off)). Qed.

Lemma read_fd_done fd data k len p :
  pool_files p !! fd = Some (mk_open_file data k) ->
  let bs := take (Z.to_nat len) (drop (Z.to_nat k) data) in
  read_fd fd len p =
    Done (Some bs) (set_pool_files (<[fd := mk_open_file data (k + Z.of_nat (length bs))]> (pool_files p)) p).
Proof. intros H. unfold read_fd, mbind', get. by rewrite H. Qed.

(** Reading a file shows the wrong piece of it. The code seeks to the length
    of the request instead of its offset: wherever in the file a request for [len]
    bytes starts, it is answered with the bytes from [len] on, and refused when
    the file is shorter than twice the request. *)
Theorem file_read_seeks_to_len (host_stat : list Z -> option stat_info) (host_data : list Z -> option (list Z))
    (id : nat) (f : file) (st : stat_info) (data out : list Z) (pos off len : Z) (p : pool) (l : list (nat * Z))
  (Hp : pool_ok p l) (Hnode : is_Some (pool_nodes p !! (Some id : node_id)))
  (Hst : host_stat (f_path f) = Some st) (Hmtime : f_mtime f = st_mtime st)
  (Hdata : host_data (f_path f) = Some data)
  (Hcache : forall fd, (id, fd) ∈ l -> of_data <$> pool_files p !! fd = Some data)
  (Hoff : 0 <= off) (Hlen : 0 <= len) (Hend : off + len <= UINT32_MAX) (Hlt : off < UINT32_MAX)
  (Hpos : 0 <= pos) (Hout : pos + len <= Z.of_nat (length out)) :
  let piece := take (Z.to_nat len) (drop (Z.to_nat len) data) in
  exists p' out', write_bytes out pos piece = Some out' /\
    file_read host_stat host_data id f out pos off len p =
      Done (if decide (2 * len <= Z.of_nat (length data)) then 0 else -1, out') p'.
Proof.
  intros piece. destruct (fdpool_open_file _ id _ data p l Hp Hnode Hdata Hcache) as (fd & p1 & l' & k & E & Hfd & _ & Ef).
  assert (Lp : Z.of_nat (length piece) = Z.min len (Z.max 0 (Z.of_nat (length data) - len))).
  { unfold piece. rewrite length_take, length_drop. lia. }
  destruct (write_bytes out pos piece) as [out'|] eqn:Ew.
  2: { rewrite write_bytes_some in Ew by lia. done. }
  unfold file_read. rewrite (proj2 (Z.leb_gt UINT32_MAX off)) by done. unfold UINT32_MAX in *.
  rewrite (u64_small (off + len)) by lia. rewrite (proj2 (Z.ltb_ge _ _)) by lia. cbv zeta.
  unfold file_check_metadata. rewrite Hst, Hmtime, Z.eqb_refl. cbn [negb Z.eqb]. cbv iota.
  rewrite (mbind_done _ _ _ _ _ E). rewrite (proj2 (Z.ltb_ge fd 0)) by lia. rewrite (s64_small len) by lia.
  rewrite (mbind_done _ _ _ _ _ (lseek_set_done _ _ _ len _ Ef Hlen)), Z.eqb_refl. cbn [negb].
  erewrite mbind_done by (apply read_fd_done, lookup_insert_eq). cbv beta iota. fold piece. rewrite Ew.
  erewrite mbind_done by done.
  eexists _, out'. split; [done|]. destruct (decide (2 * len <= Z.of_nat (length data))).
  - rewrite (proj2 (Z.eqb_eq _ _)) by lia. done.
  - rewrite (proj2 (Z.eqb_neq _ _)) by lia. done.
Qed.

Lemma file_read_seeks_to_len_witness :
  let f := mk_file [] 8 0 0 7 in let piece := take 2 (drop 2 [1; 2; 3; 4; 5; 6; 7; 8]) in
  exists p' out', write_bytes [0; 0; 0; 0] 1 piece = Some out' /\
    file_read (fun _ => Some (mk_stat 8 0 0 7)) (fun _ => Some [1; 2; 3; 4; 5; 6; 7; 8]) 4 f [0; 0; 0; 0] 1 6 2 one_node =
      Done (if decide (2 * 2 <= 8) then 0 else -1, out') p'.
Proof.
  intros f piece. destruct one_node_ok as [Hp Hn].
  apply (file_read_seeks_to_len (fun _ => Some (mk_stat 8 0 0 7)) (fun _ => Some [1; 2; 3; 4; 5; 6; 7; 8]) 4 f
    (mk_stat 8 0 0 7) [1; 2; 3; 4; 5; 6; 7; 8] [0; 0; 0; 0] 1 6 2 one_node [] Hp Hn);
    try reflexivity; try (unfold UINT32_MAX; lia).
  - by intros fd ?%not_elem_of_nil.
  - cbn. lia.
Defined.

(** ** The whole import *)

(** C16: whatever the host's tree is, a device that was imported can be read. When
    [fs_import] returns, its extents are apart, each directory has the entries its
    extent shows, and every read that does not touch a file is answered with the
    bytes of the device, without a failed assertion. *)
Theorem fs_import_readable (host_stat : list Z -> option stat_info)
    (host_dir : list Z -> option (list (list Z * d_type))) (host_data : list Z -> option (list Z))
    (fuel : nat) (cs size : Z) (f : fs) (ret total : Z) (b : fatblock)
  (Hdir : forall path des, host_dir path = Some des -> Z.of_nat (length des) < 2 ^ 26)
  (Hcs : 512 <= cs < 2 ^ 16) (Hsize : 0 <= size < 2 ^ 47) (Hmax : data_clusters cs size + 2 <= 0x0FFFFFF7)
  (Himport : fs_import host_stat host_dir fuel cs size (initial_block f) = Done (ret, total) b) :
  exists l, device_ok b l /\
    forall start len, 0 <= start -> 0 < len -> start + len < 2 ^ 64 ->
      Forall (fun x => meets start len x.2 = true -> e_type x.2 <> EXTENT_TYPE_FILE) l ->
      fs_read host_stat host_data start len b = Done (0, device_byte b l <$> seqZ start len) b.
Proof.
  pose proof (fs_import_keeps host_stat host_dir Hdir fuel cs size f Hcs Hsize Hmax) as H.
  rewrite Himport in H. destruct H as [l Hl]. exists l. assert (Hdev : device_ok b l).
  { split; [apply Hl|]. intros p e Hp He. by apply (im_dirs _ _ _ _ Hl p e). }
  split; [exact Hdev|]. intros start len Hs Hlen Hend Hno.
  destruct (fs_read_spec host_stat host_data b l start len) as (out & E & Lo & Hj); try done.
  rewrite E. do 2 f_equal. by apply list_of_lookups.
Qed.

(** A tree of a file and a directory with a file. *)
Definition tree_stat (path : list Z) : option stat_info :=
  if bool_decide (path = str "./a.txt") then Some (mk_stat 700 0 1 7)
  else if bool_decide (path = str "./sub/b") then Some (mk_stat 5 0 2 7) else None.
Definition tree_dir (path : list Z) : option (list (list Z * d_type)) :=
  if bool_decide (path = str ".") then Some [(str "a.txt", DT_REG); (str ".git", DT_DIR); (str "sub", DT_DIR)]
  else if bool_decide (path = str "./sub") then Some [(str "b", DT_REG)] else None.

Definition tree_import : outcome fatblock (Z * Z) := fs_import tree_stat tree_dir 5 512 8192 (initial_block no_fs).
Definition tree_block : fatblock := match tree_import with Done _ b => b | _ => initial_block no_fs end.

Lemma fs_import_readable_witness :
  exists l, device_ok tree_block l /\
    forall start len, 0 <= start -> 0 < len -> start + len < 2 ^ 64 ->
      Forall (fun x => meets start len x.2 = true -> e_type x.2 <> EXTENT_TYPE_FILE) l ->
      fs_read tree_stat (fun _ => None) start len tree_block =
        Done (0, device_byte tree_block l <$> seqZ start len) tree_block.
Proof.
  apply (fs_import_readable tree_stat tree_dir (fun _ => None) 5 512 8192 no_fs 0 10240 tree_block).
  - intros path des. unfold tree_dir. repeat case_bool_decide; intros [= <-]; reflexivity.
  - lia.
  - lia.
  - vm_compute. discriminate.
  - vm_compute. reflexivity.
Defined.

(** ** Names and items: what the import gets wrong *)

(** A name without a dot is not checked for its length: its ninth character
    replaces the extension, and a long one leaves the item's name and what follows
    it up to the next member. *)
Example convert_name_long :
  convert_name (replicate 16 0) (str "longname1") = Some (Some (str "LONGNAME1  " ++ replicate 5 0)) /\
  convert_name (replicate 16 0) (replicate 17 97) = None.
Proof. split; vm_compute; reflexivity. Qed.

(** The extension is copied with the terminator of the string. *)
Example convert_name_terminator :
  convert_name (replicate 16 0) (str "a.c") = Some (Some (str "A       C" ++ [0] ++ str " " ++ replicate 5 0)).
Proof. vm_compute. reflexivity. Qed.

(** An item that was freed for a name that cannot be converted is freed again for
    a name that begins with a dot. The list of free items is then a cycle, the next
    two files get the same item, and the directory lists the second file twice. *)
Definition twice_dir (path : list Z) : option (list (list Z * d_type)) :=
  Some [(str "a+b", DT_REG); (str ".x", DT_REG); (str "one", DT_REG); (str "two", DT_REG)].
Definition names_of (entries : list Z) (n : nat) : list (option (list Z)) :=
  (fun i => read_bytes entries (32 * Z.of_nat i) 11) <$> seq 0 n.
Example import_lists_twice :
  match fs_import (fun _ => Some (mk_stat 5 0 1 7)) twice_dir 5 512 8192 (initial_block no_fs) with
  | Done (ret, _) b => Some (ret, (fun d => names_of (d_entries d) 4) <$> fb_dirs b !! 4%nat)
  | _ => None
  end = Some (0, Some (Some <$> [str "..         "; str ".          "; str "TWO        "; str "TWO        "])).
Proof. vm_compute. reflexivity. Qed.
