(* ===== verification/Ublock.v ===== *)
(** * The user side of the ublock block device (libublock/ublock.c)

    The kernel sends requests through the control file and waits for a reply to
    each. Its messages are structures of linux/ublock.h, which is not part of the
    repository: their sizes, members and opcodes are the class [ublock_header].
    What the kernel sends, what [write] returns and what [malloc] finds are in the
    state; the callbacks act on a state of their own. *)

From S2P Require Import Prelude Bytes Layout.

Definition UBLOCK_VERSION : Z := 0.
Definition ENOENT : Z := 2.
Definition ENOMEM : Z := 12.
Definition EFAULT : Z := 14.
Definition EINVAL : Z := 22.
Definition EPROTO : Z := 71.

(** The structures: a header, and what follows it for each opcode. The status is an
    [int]. *)
Class ublock_header := {
  sizeof_in_header : Z; in_header_opcode : field; in_header_seq : field;
  sizeof_out_header : Z; out_header_opcode : field; out_header_seq : field;
  UBLOCK_INIT_IN : Z; UBLOCK_READY_IN : Z; UBLOCK_READ_IN : Z; UBLOCK_WRITE_IN : Z;
  UBLOCK_INIT_OUT : Z; UBLOCK_READY_OUT : Z; UBLOCK_READ_OUT : Z; UBLOCK_WRITE_OUT : Z;
  sizeof_init_in : Z; init_in_version : field; init_in_max_buf : field; init_in_index : field;
  sizeof_init_out : Z; init_out_version : field; init_out_size : field; init_out_max_buf : field;
  sizeof_ready_in : Z; sizeof_ready_out : Z;
  sizeof_read_in : Z; read_in_length : field; read_in_offset : field;
  sizeof_read_out : Z; read_out_status : field;
  sizeof_write_in : Z; write_in_length : field; write_in_offset : field;
  sizeof_write_out : Z; write_out_status : field
}.

(** ** State *)

(** A pointer to a block of the heap and what it holds. [Wild] is one that was never
    assigned. *)
Inductive pointer := Null | Wild | Block (bs : list Z).

Record ublock_ctx := mk_ublock_ctx {
  ub_index : Z;
  ub_size : Z;
  ub_max_buf : Z;
  ub_in_buf : pointer;
  ub_out_buf : pointer;
  ub_flags : Z;
  ub_fd : Z;
  ub_fails : Z
}.

Definition CTX_INITED : Z := 1.
Definition CTX_READY : Z := 2.
Definition CTX_RUNNING : Z := 4.
Definition MAX_BUF : Z := 65536.
Definition MAX_FAILURES : Z := 10.

(** The kernel's side: the messages to come ([None] where [read] fails), what the
    next calls of [write] return, and the replies it has got. *)
Record kernel := mk_kernel {
  k_in : list (option (list Z));
  k_wrote : list Z;
  k_out : list (list Z)
}.

(** The heap: what the next calls of [malloc] find, [None] where they fail, and the
    number of blocks that are allocated. *)
Record heap := mk_heap { h_next : list (option (list Z)); h_live : Z }.

(** [u_open]: the descriptor of the control file while it is open. *)
Record ublock (T : Type) := mk_ublock {
  u_ctx : ublock_ctx;
  u_kernel : kernel;
  u_heap : heap;
  u_open : option Z;
  u_client : T
}.
Arguments mk_ublock {T} _ _ _ _ _.
Arguments u_ctx {T} _.
Arguments u_kernel {T} _.
Arguments u_heap {T} _.
Arguments u_open {T} _.
Arguments u_client {T} _.

Definition set_index v c := mk_ublock_ctx v (ub_size c) (ub_max_buf c) (ub_in_buf c) (ub_out_buf c) (ub_flags c) (ub_fd c) (ub_fails c).
Definition set_size v c := mk_ublock_ctx (ub_index c) v (ub_max_buf c) (ub_in_buf c) (ub_out_buf c) (ub_flags c) (ub_fd c) (ub_fails c).
Definition set_max_buf v c := mk_ublock_ctx (ub_index c) (ub_size c) v (ub_in_buf c) (ub_out_buf c) (ub_flags c) (ub_fd c) (ub_fails c).
Definition set_in_buf v c := mk_ublock_ctx (ub_index c) (ub_size c) (ub_max_buf c) v (ub_out_buf c) (ub_flags c) (ub_fd c) (ub_fails c).
Definition set_out_buf v c := mk_ublock_ctx (ub_index c) (ub_size c) (ub_max_buf c) (ub_in_buf c) v (ub_flags c) (ub_fd c) (ub_fails c).
Definition set_flags v c := mk_ublock_ctx (ub_index c) (ub_size c) (ub_max_buf c) (ub_in_buf c) (ub_out_buf c) v (ub_fd c) (ub_fails c).
Definition set_ctx_fd v c := mk_ublock_ctx (ub_index c) (ub_size c) (ub_max_buf c) (ub_in_buf c) (ub_out_buf c) (ub_flags c) v (ub_fails c).
Definition set_fails v c := mk_ublock_ctx (ub_index c) (ub_size c) (ub_max_buf c) (ub_in_buf c) (ub_out_buf c) (ub_flags c) (ub_fd c) v.

Section ublock.
Context `{ublock_header} {T : Type}.
Notation st := (ublock T).

Definition update_ctx (f : ublock_ctx -> ublock_ctx) : M st unit :=
  modify (fun u => mk_ublock (f (u_ctx u)) (u_kernel u) (u_heap u) (u_open u) (u_client u)).
Definition set_kernel (k : kernel) : M st unit :=
  modify (fun u => mk_ublock (u_ctx u) k (u_heap u) (u_open u) (u_client u)).
Definition with_client {A} (m : M T A) : M st A :=
  zoom (fun u => Some (u_client u)) (fun t u => mk_ublock (u_ctx u) (u_kernel u) (u_heap u) (u_open u) t) m.

(** [malloc] and [free]. *)
Definition malloc (n : Z) : M st pointer :=
  do u <- get;
  match h_next (u_heap u) with
  | Some bs :: rest =>
      put (mk_ublock (u_ctx u) (u_kernel u) (mk_heap rest (h_live (u_heap u) + 1)) (u_open u) (u_client u));;;
      mret' (Block (resize (Z.to_nat n) 0 bs))
  | None :: rest =>
      put (mk_ublock (u_ctx u) (u_kernel u) (mk_heap rest (h_live (u_heap u))) (u_open u) (u_client u));;;
      mret' Null
  | [] => mret' Null
  end.
Definition free (p : pointer) : M st unit :=
  match p with
  | Null => mret' tt
  | Wild => stuck
  | Block _ =>
      modify (fun u => mk_ublock (u_ctx u) (u_kernel u)
                         (mk_heap (h_next (u_heap u)) (h_live (u_heap u) - 1)) (u_open u) (u_client u))
  end.

(** [read] and [write] on the control file. Without a further message the program
    waits. *)
Definition read_message (size : Z) : M st (option (list Z)) :=
  do u <- get;
  match k_in (u_kernel u) with
  | [] => fun _ => NoFuel
  | m :: rest =>
      set_kernel (mk_kernel rest (k_wrote (u_kernel u)) (k_out (u_kernel u)));;;
      mret' (take (Z.to_nat size) <$> m)
  end.
Definition write_message (bs : list Z) : M st Z :=
  do u <- get;
  match k_wrote (u_kernel u) with
  | [] => fun _ => NoFuel
  | n :: rest =>
      set_kernel (mk_kernel (k_in (u_kernel u)) rest (k_out (u_kernel u) ++ [bs]));;;
      mret' n
  end.

(** A member of the structure at [base]. *)
Definition member (f : field) (buf : list Z) (base : Z) : option Z := load f.2 buf (base + f.1).

Definition ublock_succeed : M st unit := update_ctx (set_fails 0).

(** [given]: whether the argument is the context, not [NULL]. *)
Definition ublock_stop (given : bool) : M st unit :=
  if negb given then mret' tt
  else
    do u <- get;
    if Z.land (ub_flags (u_ctx u)) CTX_INITED =? 0 then mret' tt
    else update_ctx (fun c => set_flags (Z.land (ub_flags c) (Z.lnot CTX_RUNNING)) c).

Definition ublock_fail : M st unit :=
  update_ctx (fun c => set_fails (s32 (ub_fails c + 1)) c);;;
  do u <- get;
  if MAX_FAILURES <? ub_fails (u_ctx u) then ublock_stop true else mret' tt.

(** ** The handlers

    The input is what [inb] holds from [ip] on, [in_len] bytes of it received; the
    output goes to [outb] at [op]. They return the result, the output and its length,
    which keeps the value it had where it is not assigned. *)

Definition ublock_handle_init (inb : list Z) (ip in_len : Z) (outb : list Z) (op out_len : Z) : M st (Z * list Z * Z) :=
  if negb (in_len =? sizeof_init_in) then mret' (- EPROTO, outb, out_len)
  else
    do version <- deref (member init_in_version inb ip);
    if negb (version =? UBLOCK_VERSION) then mret' (- EPROTO, outb, out_len)
    else
      do u <- get;
      do max_buf <- deref (member init_in_max_buf inb ip);
      update_ctx (set_max_buf (if max_buf <? MAX_BUF then max_buf else MAX_BUF));;;
      do outb <- deref (run_asgs op
        [Num init_out_version UBLOCK_VERSION; Num init_out_size (ub_size (u_ctx u));
         Num init_out_max_buf (if max_buf <? MAX_BUF then max_buf else MAX_BUF)] outb);
      do index <- deref (member init_in_index inb ip);
      update_ctx (set_index index);;;
      update_ctx (fun c => set_flags (Z.lor (ub_flags c) CTX_INITED) c);;;
      mret' (0, outb, sizeof_init_out).

Definition ublock_handle_ready (inb : list Z) (ip in_len : Z) (outb : list Z) (op out_len : Z) : M st (Z * list Z * Z) :=
  if negb (in_len =? sizeof_ready_in) then mret' (- EPROTO, outb, out_len)
  else
    update_ctx (fun c => set_flags (Z.lor (ub_flags c) CTX_READY) c);;;
    mret' (0, outb, sizeof_ready_out).

(** The callbacks [ops], with what they return: whether they call [ublock_stop],
    the status, and for [read] the bytes that are put into the buffer; and whether
    the variable they pass to [ublock_stop] has been set. *)
Context (ops_read : Z -> Z -> M T (bool * Z * list Z)) (ops_write : list Z -> Z -> Z -> M T (bool * Z)).
Context (published : bool).

Definition ublock_handle_read (inb : list Z) (ip in_len : Z) (outb : list Z) (op out_len : Z) : M st (Z * list Z * Z) :=
  if negb (in_len =? sizeof_read_in) then mret' (- EPROTO, outb, out_len)
  else
    do length <- deref (member read_in_length inb ip);
    do offset <- deref (member read_in_offset inb ip);
    do (stops, status, bs) <- with_client (ops_read length offset);
    (if stops : bool then ublock_stop published else mret' tt);;;
    do outb <- deref (write_bytes outb (op + sizeof_read_out) bs);
    do outb <- deref (run_asgs op [Num read_out_status status] outb);
    mret' (0, outb, if 0 <=? status then u64 (sizeof_read_out + length) else sizeof_read_out).

Definition ublock_handle_write (inb : list Z) (ip in_len : Z) (outb : list Z) (op out_len : Z) : M st (Z * list Z * Z) :=
  if in_len <? sizeof_write_in then mret' (- EPROTO, outb, out_len)
  else
    do length <- deref (member write_in_length inb ip);
    do offset <- deref (member write_in_offset inb ip);
    do (stops, status) <- with_client (ops_write (drop (Z.to_nat (ip + sizeof_write_in)) inb) length offset);
    (if stops : bool then ublock_stop published else mret' tt);;;
    do outb <- deref (run_asgs op [Num write_out_status status] outb);
    mret' (0, outb, sizeof_write_out).

(** [uninit_out_buf_len] and [uninit_out_len]: what the variables [out_buf_len] and
    [out_len] hold before they are assigned. *)
Context (uninit_out_buf_len uninit_out_len : Z).

Definition ublock_handle_request (inb : list Z) (in_len : Z) (outb : list Z) (out_len : Z) : M st (Z * list Z * Z) :=
  if in_len <? sizeof_in_header then mret' (- EPROTO, outb, out_len)
  else
    let in_buf := sizeof_in_header in
    let in_buf_len := in_len - sizeof_in_header in
    let out_buf := sizeof_out_header in
    do opcode <- deref (member in_header_opcode inb 0);
    let handle opcode_out handle_fn :=
      do outb <- deref (run_asgs 0 [Num out_header_opcode opcode_out] outb);
      do seq <- deref (member in_header_seq inb 0);
      do outb <- deref (run_asgs 0 [Num out_header_seq seq] outb);
      do (result, outb, out_buf_len) <- handle_fn inb in_buf in_buf_len outb out_buf uninit_out_buf_len;
      mret' (result, outb, u64 (sizeof_out_header + out_buf_len)) in
    if opcode =? UBLOCK_INIT_IN then handle UBLOCK_INIT_OUT ublock_handle_init
    else if opcode =? UBLOCK_READY_IN then handle UBLOCK_READY_OUT ublock_handle_ready
    else if opcode =? UBLOCK_READ_IN then handle UBLOCK_READ_OUT ublock_handle_read
    else if opcode =? UBLOCK_WRITE_IN then handle UBLOCK_WRITE_OUT ublock_handle_write
    else mret' (- EPROTO, outb, out_len).

(** One request, with the buffers of [in_size] and [out_size] bytes and what they
    hold afterwards. [out_wrote < out_len] compares as unsigned. *)
Definition ublock_do_request (inb : list Z) (in_size : Z) (outb : list Z) (out_size : Z) : M st (Z * list Z * list Z) :=
  do message <- read_message in_size;
  match message with
  | None => mret' (- EPROTO, inb, outb)
  | Some bs =>
      do inb <- deref (write_bytes inb 0 bs);
      do (result, outb, out_len) <- ublock_handle_request inb (Z.of_nat (length bs)) outb uninit_out_len;
      if out_size <? out_len then stuck
      else
        do reply <- deref (read_bytes outb 0 out_len);
        do out_wrote <- write_message reply;
        if u64 out_wrote <? out_len then mret' (- EPROTO, inb, outb)
        else
          (if negb (result =? 0) then ublock_fail else ublock_succeed);;;
          mret' (result, inb, outb)
  end.

Definition EXIT_READY : Z := 1.
Definition EXIT_STOPPED : Z := 2.
Definition EXIT_FAIL : Z := 4.

Definition contents (p : pointer) : option (list Z) :=
  match p with Block bs => Some bs | _ => None end.

Definition loop_condition (exit_cond flags result : Z) : bool :=
  (negb (Z.land exit_cond EXIT_READY =? 0) && (Z.land flags CTX_READY =? 0)) ||
  (negb (Z.land exit_cond EXIT_STOPPED =? 0) && negb (Z.land flags CTX_RUNNING =? 0)) ||
  (negb (Z.land exit_cond EXIT_FAIL =? 0) && negb (result =? 0)).

(** The loop takes a message in every iteration. *)
Fixpoint loop_iter (fuel : nat) (exit_cond result : Z) : M st Z :=
  match fuel with
  | O => fun _ => NoFuel
  | S fuel =>
      do u <- get;
      if loop_condition exit_cond (ub_flags (u_ctx u)) result then
        do inb <- deref (contents (ub_in_buf (u_ctx u)));
        do outb <- deref (contents (ub_out_buf (u_ctx u)));
        do (result, inb, outb) <-
          ublock_do_request inb (ub_max_buf (u_ctx u)) outb (ub_max_buf (u_ctx u));
        update_ctx (set_in_buf (Block inb));;;
        update_ctx (set_out_buf (Block outb));;;
        if negb (result =? 0) then mret' result else loop_iter fuel exit_cond result
      else mret' 0
  end.
Definition ublock_loop (exit_cond : Z) : M st Z :=
  do u <- get;
  loop_iter (S (length (k_in (u_kernel u)))) exit_cond 0.

Definition ublock_run (given : bool) : M st Z :=
  if negb given then mret' (- EFAULT)
  else
    do u <- get;
    if Z.land (ub_flags (u_ctx u)) CTX_INITED =? 0 then mret' (- EINVAL)
    else
      update_ctx (fun c => set_flags (Z.lor (ub_flags c) CTX_RUNNING) c);;;
      ublock_loop EXIT_STOPPED;;;
      mret' 0.
End ublock.

Definition set_open {T} (v : option Z) : M (ublock T) unit :=
  modify (fun u => mk_ublock (u_ctx u) (u_kernel u) (u_heap u) v (u_client u)).
Definition close {T} (fd : Z) : M (ublock T) unit :=
  do u <- get;
  match u_open u with
  | Some fd' => if fd =? fd' then set_open None else mret' tt
  | None => mret' tt
  end.

Definition ublock_index {T} (given : bool) : M (ublock T) Z :=
  if negb given then mret' (- EFAULT)
  else
    do u <- get;
    if Z.land (ub_flags (u_ctx u)) CTX_INITED =? 0 then mret' (- EINVAL)
    else mret' (s32 (ub_index (u_ctx u))).

Definition ublock_init_buf_size `{ublock_header} : Z :=
  let in_size := sizeof_in_header + sizeof_init_in in
  let out_size := sizeof_out_header + sizeof_init_out in
  if out_size <? in_size then in_size else out_size.

(** The label [error]; [allocated]: whether [ub_ctx] is not [NULL]. *)
Definition init_error {T} (allocated : bool) (in_buf out_buf : pointer) (result : Z) : M (ublock T) Z :=
  (if allocated then
     do u <- get;
     free (ub_in_buf (u_ctx u));;;
     free (ub_out_buf (u_ctx u));;;
     (if negb (ub_fd (u_ctx u) =? 0) then close (ub_fd (u_ctx u)) else mret' tt);;;
     free (Block [])
   else mret' tt);;;
  free in_buf;;;
  free out_buf;;;
  mret' result.

Definition is_null (p : pointer) : bool := match p with Null => true | _ => false end.

(** [ublock_init]: [open_result] is what [open] returns. The members of the context
    hold at first what the state has for them. The callbacks run before the caller's
    variable is set. *)
Definition ublock_init `{ublock_header} {T}
    (ops_read : Z -> Z -> M T (bool * Z * list Z)) (ops_write : list Z -> Z -> Z -> M T (bool * Z))
    (uninit_out_buf_len uninit_out_len : Z) (open_result : Z)
    (ub_ctx_out_given ops_given : bool) (dev_size : Z) : M (ublock T) Z :=
  if negb (ub_ctx_out_given && ops_given) then mret' (- EFAULT)
  else
    do ub_ctx <- malloc 0;
    if is_null ub_ctx then init_error false Null Null (- ENOMEM)
    else
      let size := ublock_init_buf_size in
      do in_buf <- malloc size;
      do out_buf <- malloc size;
      match contents in_buf, contents out_buf with
      | Some inb, Some outb =>
          update_ctx (set_size dev_size);;;
          update_ctx (set_max_buf 0);;;
          update_ctx (set_flags 0);;;
          update_ctx (set_ctx_fd open_result);;;
          (if 0 <=? open_result then set_open (Some open_result) else mret' tt);;;
          if open_result <? 0 then init_error true in_buf out_buf (- ENOENT)
          else
            do (result, inb, outb) <-
              ublock_do_request ops_read ops_write false uninit_out_buf_len uninit_out_len inb size outb size;
            if negb (result =? 0) then init_error true in_buf out_buf (- EPROTO)
            else
              do u <- get;
              if negb (Z.land (if ub_flags (u_ctx u) =? 0 then 1 else 0) CTX_INITED =? 0)
              then init_error true in_buf out_buf (- EPROTO)
              else
                free in_buf;;;
                free out_buf;;;
                do p <- malloc (ub_max_buf (u_ctx u));
                update_ctx (set_in_buf p);;;
                do q <- malloc (ub_max_buf (u_ctx u));
                update_ctx (set_out_buf q);;;
                if is_null p || is_null q then init_error true Null Null (- ENOMEM)
                else
                  ublock_loop ops_read ops_write false uninit_out_buf_len uninit_out_len EXIT_READY;;;
                  mret' 0
      | _, _ => init_error true in_buf out_buf (- ENOMEM)
      end.

Definition ublock_destroy {T} (given : bool) : M (ublock T) unit :=
  if negb given then mret' tt
  else
    do u <- get;
    close (ub_fd (u_ctx u));;;
    free (Block []).
