(* ===== verification/UblockSpec.v ===== *)
(** * The protocol of the block device (specification of Ublock)

    A request is what a message of the kernel says, a reply what the kernel is told;
    [answer] is the abstract device: it says what a request does to the context and
    to the client, and what the reply is. [ublock_do_request_spec] shows that the
    code implements it on the bytes of the messages. *)

From S2P Require Import Prelude Bytes Layout Ublock.

Definition field_in (size : Z) (f : field) : Prop := 0 <= f.1 /\ f.1 + Z.of_nat f.2 <= size.
Definition fields_apart (f g : field) : Prop := f.1 + Z.of_nat f.2 <= g.1 \/ g.1 + Z.of_nat g.2 <= f.1.

(** What holds of any structures of C: the members are inside and apart, and the
    opcodes differ. The status has the size of an [int]. *)
Class ublock_header_ok `{ublock_header} : Prop := {
  ok_opcodes : NoDup [UBLOCK_INIT_IN; UBLOCK_READY_IN; UBLOCK_READ_IN; UBLOCK_WRITE_IN];
  ok_in_header : Forall (field_in sizeof_in_header) [in_header_opcode; in_header_seq];
  ok_out_header : Forall (field_in sizeof_out_header) [out_header_opcode; out_header_seq];
  ok_out_apart : fields_apart out_header_opcode out_header_seq;
  ok_init_in : Forall (field_in sizeof_init_in) [init_in_version; init_in_max_buf; init_in_index];
  ok_init_out : Forall (field_in sizeof_init_out) [init_out_version; init_out_size; init_out_max_buf];
  ok_init_apart : fields_apart init_out_version init_out_size /\ fields_apart init_out_version init_out_max_buf /\
    fields_apart init_out_size init_out_max_buf;
  ok_ready : 0 <= sizeof_ready_in /\ 0 <= sizeof_ready_out;
  ok_read_in : Forall (field_in sizeof_read_in) [read_in_length; read_in_offset];
  ok_read_out : field_in sizeof_read_out read_out_status /\ read_out_status.2 = 4%nat;
  ok_write_in : Forall (field_in sizeof_write_in) [write_in_length; write_in_offset];
  ok_write_out : field_in sizeof_write_out write_out_status /\ write_out_status.2 = 4%nat;
  ok_small : ublock_init_buf_size < 2 ^ 32
}.

(** ** Requests and replies *)

Inductive request :=
| Init (max_buf index : Z)
| Ready
| Read (length offset : Z)
| Write (data : list Z) (length offset : Z).

Inductive reply :=
| Inited (size max_buf : Z)
| Readied
| Reads (status : Z) (data : list Z)
| Written (status : Z).

(** What the code does to the context for each request; [stops] is what the callback
    asks for, [published] whether it can. *)
Definition stop_flags (stops published : bool) (flags : Z) : Z :=
  if stops && published && negb (Z.land flags CTX_INITED =? 0) then Z.land flags (Z.lnot CTX_RUNNING) else flags.
Definition init_ctx (max_buf index : Z) (c : ublock_ctx) : ublock_ctx :=
  set_flags (Z.lor (ub_flags c) CTX_INITED) (set_index index (set_max_buf (Z.min max_buf MAX_BUF) c)).
Definition ready_ctx (c : ublock_ctx) : ublock_ctx := set_flags (Z.lor (ub_flags c) CTX_READY) c.
Definition stop_ctx (stops published : bool) (c : ublock_ctx) : ublock_ctx :=
  set_flags (stop_flags stops published (ub_flags c)) c.

Section protocol.
Context `{ublock_header} {T : Type}.
Context (ops_read : Z -> Z -> M T (bool * Z * list Z)) (ops_write : list Z -> Z -> Z -> M T (bool * Z)).

(** The message of a request: what [read] puts into the buffer. *)
Inductive is_request (seq : Z) : request -> list Z -> Prop :=
| is_init max_buf index bs :
    Z.of_nat (length bs) = sizeof_in_header + sizeof_init_in ->
    member in_header_opcode bs 0 = Some UBLOCK_INIT_IN -> member in_header_seq bs 0 = Some seq ->
    member init_in_version bs sizeof_in_header = Some UBLOCK_VERSION ->
    member init_in_max_buf bs sizeof_in_header = Some max_buf ->
    member init_in_index bs sizeof_in_header = Some index ->
    is_request seq (Init max_buf index) bs
| is_ready bs :
    Z.of_nat (length bs) = sizeof_in_header + sizeof_ready_in ->
    member in_header_opcode bs 0 = Some UBLOCK_READY_IN -> member in_header_seq bs 0 = Some seq ->
    is_request seq Ready bs
| is_read len offset bs :
    Z.of_nat (length bs) = sizeof_in_header + sizeof_read_in ->
    member in_header_opcode bs 0 = Some UBLOCK_READ_IN -> member in_header_seq bs 0 = Some seq ->
    member read_in_length bs sizeof_in_header = Some len ->
    member read_in_offset bs sizeof_in_header = Some offset ->
    is_request seq (Read len offset) bs
| is_write data len offset bs :
    Z.of_nat (length bs) = sizeof_in_header + sizeof_write_in + Z.of_nat (length data) ->
    member in_header_opcode bs 0 = Some UBLOCK_WRITE_IN -> member in_header_seq bs 0 = Some seq ->
    member write_in_length bs sizeof_in_header = Some len ->
    member write_in_offset bs sizeof_in_header = Some offset ->
    drop (Z.to_nat (sizeof_in_header + sizeof_write_in)) bs = data -> len = Z.of_nat (length data) ->
    is_request seq (Write data len offset) bs.

(** The message of a reply; only a read that succeeds carries data. *)
Definition opcode_out (r : reply) : Z :=
  match r with
  | Inited _ _ => UBLOCK_INIT_OUT
  | Readied => UBLOCK_READY_OUT
  | Reads _ _ => UBLOCK_READ_OUT
  | Written _ => UBLOCK_WRITE_OUT
  end.
Definition reply_data (r : reply) : list Z :=
  match r with Reads status data => if 0 <=? status then data else [] | _ => [] end.
Definition payload_size (r : reply) : Z :=
  match r with
  | Inited _ _ => sizeof_init_out
  | Readied => sizeof_ready_out
  | Reads _ _ => sizeof_read_out + Z.of_nat (length (reply_data r))
  | Written _ => sizeof_write_out
  end.
Definition reply_size (r : reply) : Z := sizeof_out_header + payload_size r.

Definition holds (f : field) (bs : list Z) (base v : Z) : Prop :=
  member f bs base = Some (v mod 256 ^ Z.of_nat f.2).

Record is_reply (seq : Z) (r : reply) (bs : list Z) : Prop := {
  ir_length : Z.of_nat (length bs) = reply_size r;
  ir_opcode : holds out_header_opcode bs 0 (opcode_out r);
  ir_seq : holds out_header_seq bs 0 seq;
  ir_payload :
    match r with
    | Inited size max_buf =>
        holds init_out_version bs sizeof_out_header UBLOCK_VERSION /\
        holds init_out_size bs sizeof_out_header size /\ holds init_out_max_buf bs sizeof_out_header max_buf
    | Readied => True
    | Reads status _ =>
        holds read_out_status bs sizeof_out_header status /\
        drop (Z.to_nat (sizeof_out_header + sizeof_read_out)) bs = reply_data r
    | Written status => holds write_out_status bs sizeof_out_header status
    end
}.

(** The abstract device. [room]: the size of the output buffer, which a read must
    not exceed; one that succeeds fills what was asked for. *)
Inductive answer (published : bool) (room : Z) (c : ublock_ctx) (t : T) :
  request -> ublock_ctx -> T -> reply -> Prop :=
| answer_init max_buf index :
    answer published room c t (Init max_buf index)
      (init_ctx max_buf index c) t (Inited (ub_size c) (Z.min max_buf MAX_BUF))
| answer_ready : answer published room c t Ready (ready_ctx c) t Readied
| answer_read len offset stops status data t' :
    ops_read len offset t = Done (stops, status, data) t' ->
    (0 <= status -> Z.of_nat (length data) = len) ->
    sizeof_out_header + sizeof_read_out + Z.of_nat (length data) <= room ->
    answer published room c t (Read len offset) (stop_ctx stops published c) t' (Reads status data)
| answer_write data len offset stops status t' :
    (forall data' : list Z, take (length data) data' = data -> ops_write data' len offset t = Done (stops, status) t') ->
    answer published room c t (Write data len offset) (stop_ctx stops published c) t' (Written status).
End protocol.

(** ** Members *)

Lemma asg_exact_refl f v : asg_exact f (Num f v) = true.
Proof. unfold asg_exact. cbn. by rewrite Z.eqb_refl, Nat.eqb_refl. Qed.
Lemma asg_disjoint_apart f g v : fields_apart f g -> asg_disjoint f (Num g v) = true.
Proof. intros Ha. unfold asg_disjoint. cbn. apply orb_true_iff. rewrite !Z.leb_le. exact Ha. Qed.
Lemma asg_in_field size f v : field_in size f -> asg_in size (Num f v) = true.
Proof. intros [H1 H2]. unfold asg_in. cbn. apply andb_true_iff. rewrite !Z.leb_le. done. Qed.
Lemma asg_wf_num f v : asg_wf (Num f v).
Proof. apply length_le_bytes. Qed.

Lemma member_app f x y base :
  0 <= base -> 0 <= f.1 -> base + f.1 + Z.of_nat f.2 <= Z.of_nat (length x) ->
  member f (x ++ y) base = member f x base.
Proof. intros. apply load_app_l; lia. Qed.
Lemma member_take f n b base :
  0 <= base -> 0 <= f.1 -> base + f.1 + Z.of_nat f.2 <= Z.of_nat n -> (n <= length b)%nat ->
  member f (take n b) base = member f b base.
Proof.
  intros. rewrite <-(take_drop n b) at 2. symmetry. apply member_app; [done..|].
  rewrite length_take. lia.
Qed.

Lemma holds_take f n b base v :
  0 <= base -> 0 <= f.1 -> base + f.1 + Z.of_nat f.2 <= Z.of_nat n -> (n <= length b)%nat ->
  holds f b base v -> holds f (take n b) base v.
Proof. intros. unfold holds. by rewrite member_take. Qed.

(** Assigning one member. *)
Lemma assign_one size base f v b :
  0 <= base -> field_in size f -> base + size <= Z.of_nat (length b) ->
  exists b', run_asgs base [Num f v] b = Some b' /\ length b' = length b /\ holds f b' base v /\
    (forall g, fields_apart g f -> member g b' base = member g b base) /\
    (forall o n, o + n <= base \/ base + size <= o -> read_bytes b' o n = read_bytes b o n).
Proof.
  intros Hb Hf Hs. destruct (run_asgs_some base size [Num f v] b) as [b' E]; [done|done| | |].
  { constructor; [apply asg_wf_num|done]. }
  { cbn. by rewrite asg_in_field. }
  assert (Hwf : Forall asg_wf [Num f v]) by (constructor; [apply asg_wf_num|done]).
  exists b'. split_and!; [done|by eapply run_asgs_length| | |].
  - eapply run_asgs_load; [exact E|exact Hwf|]. cbn. by rewrite asg_exact_refl.
  - intros g Hg. unfold member, load. f_equal. eapply run_asgs_disjoint; [exact E|exact Hwf|].
    cbn. by rewrite asg_disjoint_apart.
  - intros o n Ho. eapply run_asgs_outside with (size := size); [exact E|exact Hwf| |exact Ho].
    cbn. by rewrite asg_in_field.
Qed.

Section step.
Context `{ublock_header_ok} {T : Type}.
Context (ops_read : Z -> Z -> M T (bool * Z * list Z)) (ops_write : list Z -> Z -> Z -> M T (bool * Z)).
Context (published : bool) (uninit_out_buf_len uninit_out_len : Z).
Notation st := (ublock T).

(** What follows the header of the reply, in a buffer that may go on. *)
Definition payload_in (r : reply) (b : list Z) : Prop :=
  match r with
  | Inited size max_buf =>
      holds init_out_version b sizeof_out_header UBLOCK_VERSION /\
      holds init_out_size b sizeof_out_header size /\ holds init_out_max_buf b sizeof_out_header max_buf
  | Readied => True
  | Reads status _ =>
      holds read_out_status b sizeof_out_header status /\
      read_bytes b (sizeof_out_header + sizeof_read_out) (Z.of_nat (length (reply_data r))) = Some (reply_data r)
  | Written status => holds write_out_status b sizeof_out_header status
  end.

Lemma out_header_nonneg : 0 <= sizeof_out_header.
Proof. pose proof ok_out_header as Hh. rewrite !Forall_cons in Hh. unfold field_in in Hh. lia. Qed.
Lemma in_header_nonneg : 0 <= sizeof_in_header.
Proof. pose proof ok_in_header as Hh. rewrite !Forall_cons in Hh. unfold field_in in Hh. lia. Qed.

(** The reply is the beginning of the buffer. *)
Lemma reply_of_buffer seq r b :
  holds out_header_opcode b 0 (opcode_out r) -> holds out_header_seq b 0 seq -> payload_in r b ->
  0 <= reply_size r <= Z.of_nat (length b) ->
  is_reply seq r (take (Z.to_nat (reply_size r)) b).
Proof.
  intros Ho Hs Hp Hl. pose proof out_header_nonneg. pose proof ok_out_header as Hh.
  rewrite !Forall_cons in Hh. destruct Hh as ([? ?] & [? ?] & _).
  assert (Hps : 0 <= payload_size r).
  { pose proof ok_init_out as Hi. rewrite !Forall_cons in Hi. unfold field_in in Hi.
    pose proof ok_ready. destruct ok_read_out as [[? ?] _], ok_write_out as [[? ?] _].
    destruct r; cbn [payload_size]; lia. }
  unfold reply_size in *.
  split; [rewrite length_take; unfold reply_size; lia|(apply holds_take; try lia; done)..|].
  destruct r as [size mb| |status data|status]; cbn [payload_in payload_size] in *.
  - pose proof ok_init_out as Hi. rewrite !Forall_cons in Hi. destruct Hi as ([? ?] & [? ?] & [? ?] & _).
    destruct Hp as (? & ? & ?). split_and!; apply holds_take; try lia; done.
  - done.
  - destruct ok_read_out as [[? ?] _]. destruct Hp as [Hst Hd].
    split; [apply holds_take; try lia; done|].
    set (d := reply_data (Reads status data)) in *. unfold read_bytes in Hd.
    rewrite decide_True in Hd by lia. injection Hd as Hd. rewrite <-Hd at 2.
    rewrite skipn_firstn_comm. f_equal. lia.
  - destruct ok_write_out as [[? ?] _]. apply holds_take; try lia; done.
Qed.

(** The header of the reply. *)
Lemma reply_header opcode seq b :
  sizeof_out_header <= Z.of_nat (length b) ->
  exists b1 b2, run_asgs 0 [Num out_header_opcode opcode] b = Some b1 /\
    run_asgs 0 [Num out_header_seq seq] b1 = Some b2 /\ length b2 = length b /\
    holds out_header_opcode b2 0 opcode /\ holds out_header_seq b2 0 seq.
Proof.
  intros Hl. pose proof ok_out_header as Hh. rewrite !Forall_cons in Hh. destruct Hh as (Ho & Hs & _).
  destruct (assign_one sizeof_out_header 0 _ opcode b ltac:(lia) Ho ltac:(lia)) as (b1 & E1 & L1 & H1 & _).
  destruct (assign_one sizeof_out_header 0 _ seq b1 ltac:(lia) Hs ltac:(lia)) as (b2 & E2 & L2 & H2 & K2 & _).
  exists b1, b2. split_and!; [done|done|lia| |done]. unfold holds. rewrite K2; [done|apply ok_out_apart].
Qed.

(** What a handler does: the payload after the header, and the header kept. *)
Definition header_kept (b b' : list Z) : Prop :=
  length b' = length b /\ forall o n, o + n <= sizeof_out_header -> read_bytes b' o n = read_bytes b o n.
Definition handled (fn : list Z -> Z -> Z -> list Z -> Z -> Z -> M st (Z * list Z * Z))
    (inb : list Z) (in_len room : Z) (c : ublock_ctx) (t : T) (c' : ublock_ctx) (t' : T) (r : reply) : Prop :=
  forall b len k h o, room <= Z.of_nat (length b) ->
    exists b', fn inb sizeof_in_header in_len b sizeof_out_header len (mk_ublock c k h o t) =
        Done (0, b', payload_size r) (mk_ublock c' k h o t') /\
      header_kept b b' /\ payload_in r b'.

Lemma header_member f b b' :
  header_kept b b' -> field_in sizeof_out_header f -> member f b' 0 = member f b 0.
Proof. intros (_ & Hk) [H1 H2]. unfold member, load. f_equal. apply Hk. lia. Qed.

Lemma handle_init_spec inb in_len room c t max_buf index :
  in_len = sizeof_init_in -> member init_in_version inb sizeof_in_header = Some UBLOCK_VERSION ->
  member init_in_max_buf inb sizeof_in_header = Some max_buf ->
  member init_in_index inb sizeof_in_header = Some index ->
  sizeof_out_header + sizeof_init_out <= room ->
  handled ublock_handle_init inb in_len room c t (init_ctx max_buf index c) t
    (Inited (ub_size c) (Z.min max_buf MAX_BUF)).
Proof.
  intros -> Ev Em Ei Hr b len k h o Hb. pose proof out_header_nonneg as Hn.
  pose proof ok_init_out as Hi. rewrite !Forall_cons in Hi. destruct Hi as (F1 & F2 & F3 & _).
  destruct ok_init_apart as (A1 & A2 & A3).
  assert (Emin : (if max_buf <? MAX_BUF then max_buf else MAX_BUF) = Z.min max_buf MAX_BUF).
  { destruct (Z.ltb_spec max_buf MAX_BUF); lia. }
  destruct (assign_one sizeof_init_out sizeof_out_header _ UBLOCK_VERSION b Hn F1 ltac:(lia)) as (b1 & E1 & L1 & V1 & _ & K1).
  destruct (assign_one sizeof_init_out sizeof_out_header _ (ub_size c) b1 Hn F2 ltac:(lia)) as (b2 & E2 & L2 & V2 & M2 & K2).
  destruct (assign_one sizeof_init_out sizeof_out_header _ (Z.min max_buf MAX_BUF) b2 Hn F3 ltac:(lia)) as (b3 & E3 & L3 & V3 & M3 & K3).
  exists b3. split_and!.
  - unfold ublock_handle_init. rewrite Z.eqb_refl. cbn [negb]. rewrite Ev. cbn [deref].
    erewrite mbind_done by done. rewrite Z.eqb_refl. cbn [negb]. erewrite mbind_done by done.
    rewrite Em. cbn [deref]. erewrite mbind_done by done. erewrite mbind_done by done. rewrite Emin.
    assert (E : run_asgs sizeof_out_header [Num init_out_version UBLOCK_VERSION; Num init_out_size (ub_size c);
        Num init_out_max_buf (Z.min max_buf MAX_BUF)] b = Some b3).
    { cbn [run_asgs] in *. apply bind_Some in E1 as (x & Ex & [= ->]). rewrite Ex. cbn [mbind option_bind].
      apply bind_Some in E2 as (y & Ey & [= ->]). rewrite Ey. cbn [mbind option_bind].
      apply bind_Some in E3 as (z & Ez & [= ->]). by rewrite Ez. }
    cbn [u_ctx]. rewrite E. cbn [deref]. erewrite mbind_done by done. rewrite Ei. cbn [deref].
    erewrite mbind_done by done. done.
  - split; [lia|]. intros; rewrite K3, K2, K1 by lia; done.
  - unfold payload_in, holds. split_and!; [by rewrite M3, M2|by rewrite M3|done].
Qed.

Lemma handle_ready_spec inb in_len room c t :
  in_len = sizeof_ready_in -> handled ublock_handle_ready inb in_len room c t (ready_ctx c) t Readied.
Proof.
  intros -> b len k h o Hb. exists b. split_and!; [|done|done..].
  unfold ublock_handle_ready. rewrite Z.eqb_refl. done.
Qed.

(** The call of [ublock_stop] after a callback. *)
Lemma stop_spec (stops : bool) c k h o (t : T) :
  (if stops then ublock_stop published else mret' tt) (mk_ublock c k h o t) =
    Done tt (mk_ublock (stop_ctx stops published c) k h o t).
Proof.
  unfold stop_ctx, stop_flags. destruct stops; cbn [andb]; [|by destruct c].
  unfold ublock_stop. destruct published; cbn [negb andb]; [|by destruct c].
  erewrite mbind_done by done. cbn [u_ctx]. destruct (Z.land _ _ =? 0); cbn [negb]; [by destruct c|done].
Qed.

Lemma with_client_done {A} (m : M T A) a c k h o t t' :
  m t = Done a t' -> with_client m (mk_ublock c k h o t) = Done a (mk_ublock c k h o t').
Proof. intros E. unfold with_client, zoom. cbn [u_client]. by rewrite E. Qed.

(** The status at the beginning of the payload. *)
Lemma status_spec size f status b :
  field_in size f -> sizeof_out_header + size <= Z.of_nat (length b) ->
  exists b', run_asgs sizeof_out_header [Num f status] b = Some b' /\ header_kept b b' /\
    holds f b' sizeof_out_header status /\
    forall n, read_bytes b' (sizeof_out_header + size) n = read_bytes b (sizeof_out_header + size) n.
Proof.
  intros Hf Hs. destruct (assign_one size sizeof_out_header f status b out_header_nonneg Hf Hs)
    as (b' & E & L & V & _ & K).
  exists b'. split_and!; [done| |done|]; [split; [done|]|]; intros; apply K; lia.
Qed.

Lemma header_kept_trans b1 b2 b3 : header_kept b1 b2 -> header_kept b2 b3 -> header_kept b1 b3.
Proof. intros [L1 K1] [L2 K2]. split; [lia|]. intros o n Hn. by rewrite K2, K1. Qed.

Lemma handle_read_spec inb in_len room c t len offset stops status data t' :
  in_len = sizeof_read_in -> member read_in_length inb sizeof_in_header = Some len ->
  member read_in_offset inb sizeof_in_header = Some offset ->
  ops_read len offset t = Done (stops, status, data) t' ->
  (0 <= status -> Z.of_nat (length data) = len) ->
  sizeof_out_header + sizeof_read_out + Z.of_nat (length data) <= room < 2 ^ 64 ->
  handled (ublock_handle_read ops_read published) inb in_len room c t (stop_ctx stops published c) t'
    (Reads status data).
Proof.
  intros -> El Eo Er Hd Hr b ol k h o Hb. pose proof out_header_nonneg.
  destruct ok_read_out as [Hf _]. pose proof Hf as [? ?].
  assert (Hw : exists b1, write_bytes b (sizeof_out_header + sizeof_read_out) data = Some b1).
  { eexists. apply write_bytes_some; lia. }
  destruct Hw as [b1 E1]. pose proof (write_bytes_length _ _ _ _ E1) as L1.
  destruct (status_spec sizeof_read_out _ status b1 Hf ltac:(lia)) as (b2 & E2 & K2 & V2 & R2).
  exists b2. split_and!.
  - unfold ublock_handle_read. rewrite Z.eqb_refl. cbn [negb]. rewrite El. cbn [deref].
    erewrite mbind_done by done. rewrite Eo. cbn [deref]. erewrite mbind_done by done.
    erewrite mbind_done by (by apply with_client_done). cbv beta iota.
    erewrite mbind_done by apply stop_spec. rewrite E1. cbn [deref]. erewrite mbind_done by done.
    rewrite E2. cbn [deref]. erewrite mbind_done by done. unfold mret'. do 2 f_equal.
    cbn [payload_size reply_data]. destruct (Z.leb_spec 0 status) as [Hs|Hs].
    + rewrite <-(Hd Hs), u64_small by lia. done.
    + cbn [length]. lia.
  - eapply header_kept_trans; [|exact K2]. split; [done|]. intros a n Ha.
    eapply read_write_ne; [exact E1|lia].
  - split; [done|]. rewrite R2. cbn [reply_data]. destruct (Z.leb_spec 0 status).
    + by eapply read_write_same.
    + unfold read_bytes. cbn [length]. rewrite decide_True by lia. done.
Qed.

Lemma handle_write_spec inb in_len room c t len offset stops status data t' :
  sizeof_write_in <= in_len -> member write_in_length inb sizeof_in_header = Some len ->
  member write_in_offset inb sizeof_in_header = Some offset ->
  take (length data) (drop (Z.to_nat (sizeof_in_header + sizeof_write_in)) inb) = data ->
  (forall data' : list Z, take (length data) data' = data -> ops_write data' len offset t = Done (stops, status) t') ->
  sizeof_out_header + sizeof_write_out <= room ->
  handled (ublock_handle_write ops_write published) inb in_len room c t (stop_ctx stops published c) t'
    (Written status).
Proof.
  intros Hi El Eo Ed Ew Hr b ol k h o Hb. destruct ok_write_out as [Hf _].
  destruct (status_spec sizeof_write_out _ status b Hf ltac:(lia)) as (b2 & E2 & K2 & V2 & _).
  exists b2. split_and!; [|done|done].
  unfold ublock_handle_write. destruct (Z.ltb_spec in_len sizeof_write_in); [lia|]. rewrite El. cbn [deref].
  erewrite mbind_done by done. rewrite Eo. cbn [deref]. erewrite mbind_done by done.
  erewrite mbind_done by (by apply with_client_done; apply Ew). cbv beta iota.
  erewrite mbind_done by apply stop_spec. rewrite E2. done.
Qed.

(** The dispatch on the opcode. *)
Definition opcode_in (r : request) : Z :=
  match r with
  | Init _ _ => UBLOCK_INIT_IN
  | Ready => UBLOCK_READY_IN
  | Read _ _ => UBLOCK_READ_IN
  | Write _ _ _ => UBLOCK_WRITE_IN
  end.
Definition handler (r : request) : list Z -> Z -> Z -> list Z -> Z -> Z -> M st (Z * list Z * Z) :=
  match r with
  | Init _ _ => ublock_handle_init
  | Ready => ublock_handle_ready
  | Read _ _ => ublock_handle_read ops_read published
  | Write _ _ _ => ublock_handle_write ops_write published
  end.

Lemma request_header seq r msg :
  is_request seq r msg ->
  member in_header_opcode msg 0 = Some (opcode_in r) /\ member in_header_seq msg 0 = Some seq /\
  sizeof_in_header <= Z.of_nat (length msg).
Proof.
  intros Hr. pose proof ok_init_in as H1. pose proof ok_read_in as H2. pose proof ok_write_in as H3.
  pose proof ok_ready. rewrite !Forall_cons in H1; rewrite !Forall_cons in H2; rewrite !Forall_cons in H3. unfold field_in in *.
  inversion Hr; subst; cbn [opcode_in]; split_and!; try done; lia.
Qed.

Lemma answer_opcode room c t r c' t' rp :
  answer ops_read ops_write published room c t r c' t' rp ->
  opcode_out rp = match r with
                  | Init _ _ => UBLOCK_INIT_OUT
                  | Ready => UBLOCK_READY_OUT
                  | Read _ _ => UBLOCK_READ_OUT
                  | Write _ _ _ => UBLOCK_WRITE_OUT
                  end.
Proof. by inversion 1. Qed.

(** The handler of a request gives its answer. *)
Lemma handler_answers seq r msg tail room c t c' t' rp :
  is_request seq r msg -> answer ops_read ops_write published room c t r c' t' rp ->
  reply_size rp <= room < 2 ^ 64 ->
  handled (handler r) (msg ++ tail) (Z.of_nat (length msg) - sizeof_in_header) room c t c' t' rp.
Proof.
  intros Hr Ha Hroom. pose proof in_header_nonneg as Hn. unfold reply_size in Hroom.
  pose proof ok_init_in as H1. pose proof ok_read_in as H2. pose proof ok_write_in as H3.
  rewrite !Forall_cons in H1; rewrite !Forall_cons in H2; rewrite !Forall_cons in H3. destruct H1 as ([? ?] & [? ?] & [? ?] & _).
  destruct H2 as ([? ?] & [? ?] & _). destruct H3 as ([? ?] & [? ?] & _).
  inversion Hr as [mb idx bs L Eo Es Ev Em Ei|bs L Eo Es|len off bs L Eo Es El Ef|data len off bs L Eo Es El Ef Ed Hl];
    subst; inversion Ha; subst; cbn [handler payload_size] in *.
  - apply handle_init_spec; [lia|rewrite member_app by lia; done..|lia].
  - apply handle_ready_spec. lia.
  - eapply handle_read_spec; [lia|rewrite member_app by lia; done..|done|done|lia].
  - eapply handle_write_spec; [lia|rewrite member_app by lia; done|rewrite member_app by lia; done| |done|lia].
    rewrite drop_app_le by lia. by rewrite take_app_length.
Qed.

Lemma ublock_handle_request_spec seq r msg tail outb len room c t c' t' rp k h o :
  is_request seq r msg -> answer ops_read ops_write published room c t r c' t' rp ->
  0 <= reply_size rp <= room -> room < 2 ^ 64 -> room <= Z.of_nat (length outb) ->
  exists b, ublock_handle_request ops_read ops_write published uninit_out_buf_len (msg ++ tail)
      (Z.of_nat (length msg)) outb len (mk_ublock c k h o t) =
      Done (0, b, reply_size rp) (mk_ublock c' k h o t') /\ length b = length outb /\
    is_reply seq rp (take (Z.to_nat (reply_size rp)) b).
Proof.
  intros Hr Ha Hs Hroom Hl. destruct (request_header _ _ _ Hr) as (Eo & Es & Lm).
  pose proof ok_in_header as Hh. rewrite !Forall_cons in Hh. destruct Hh as ([? ?] & [? ?] & _).
  assert (Hps : sizeof_out_header <= room).
  { assert (0 <= payload_size rp); [|unfold reply_size in Hs; lia].
    pose proof ok_init_out as Hi. rewrite !Forall_cons in Hi. unfold field_in in Hi.
    pose proof ok_ready. destruct ok_read_out as [[? ?] _], ok_write_out as [[? ?] _].
    destruct rp; cbn [payload_size]; lia. }
  destruct (reply_header (opcode_out rp) seq outb ltac:(lia)) as (b1 & b2 & E1 & E2 & L2 & V1 & V2).
  destruct (handler_answers seq r msg tail room c t c' t' rp Hr Ha ltac:(lia) b2 uninit_out_buf_len k h o ltac:(lia))
    as (b3 & E3 & K3 & P3).
  exists b3. split; [|split].
  - unfold ublock_handle_request. destruct (Z.ltb_spec (Z.of_nat (length msg)) sizeof_in_header); [lia|].
    rewrite (member_app in_header_opcode) by lia. rewrite Eo. cbn [deref]. erewrite mbind_done by done.
    rewrite (member_app in_header_seq) by lia. rewrite Es.
    assert (Hstep : (do outb <- deref (run_asgs 0 [Num out_header_opcode (opcode_out rp)] outb);
        do seq0 <- deref (Some seq);
        do outb <- deref (run_asgs 0 [Num out_header_seq seq0] outb);
        do (result, outb, out_buf_len) <- handler r (msg ++ tail) sizeof_in_header
          (Z.of_nat (length msg) - sizeof_in_header) outb sizeof_out_header uninit_out_buf_len;
        mret' (result, outb, u64 (sizeof_out_header + out_buf_len))) (mk_ublock c k h o t) =
        Done (0, b3, reply_size rp) (mk_ublock c' k h o t')).
    { rewrite E1. cbn [deref]. erewrite mbind_done by done. erewrite mbind_done by done. rewrite E2. cbn [deref].
      erewrite mbind_done by done. erewrite mbind_done by exact E3. cbv beta iota. fold (reply_size rp).
      rewrite u64_small by lia. done. }
    rewrite (answer_opcode _ _ _ _ _ _ _ Ha) in Hstep. pose proof ok_opcodes as Hop. rewrite !NoDup_cons in Hop.
    rewrite !not_elem_of_cons in Hop.
    destruct Hop as ((? & ? & ? & _) & (? & ? & _) & (? & _) & _).
    destruct r; cbn [opcode_in handler] in *;
      repeat match goal with
      | |- context [?a =? ?a] => rewrite (Z.eqb_refl a)
      | |- context [?a =? ?b] => rewrite (proj2 (Z.eqb_neq a b)) by congruence
      end; exact Hstep.
  - destruct K3 as [L3 _]. lia.
  - apply reply_of_buffer.
    + unfold holds. rewrite (header_member _ b2); [exact V1|done|]. pose proof ok_out_header as Ho. by apply Forall_cons in Ho as [? _].
    + unfold holds. rewrite (header_member _ b2); [exact V2|done|]. pose proof ok_out_header as Ho.
      rewrite !Forall_cons in Ho. tauto.
    + done.
    + destruct K3 as [L3 _]. lia.
Qed.

(** One request: it is taken, answered, and the reply is written. *)
Lemma ublock_do_request_spec seq r msg inb outb in_size out_size c t c' t' rp rest wr out h o :
  is_request seq r msg -> answer ops_read ops_write published out_size c t r c' t' rp ->
  0 <= reply_size rp <= out_size -> out_size < 2 ^ 64 -> out_size <= Z.of_nat (length outb) ->
  Z.of_nat (length msg) <= in_size -> (length msg <= length inb)%nat ->
  exists inb' outb' bs,
    ublock_do_request ops_read ops_write published uninit_out_buf_len uninit_out_len inb in_size outb out_size
      (mk_ublock c (mk_kernel (Some msg :: rest) (reply_size rp :: wr) out) h o t) =
      Done (0, inb', outb') (mk_ublock (set_fails 0 c') (mk_kernel rest wr (out ++ [bs])) h o t') /\
    is_reply seq rp bs /\ length inb' = length inb /\ length outb' = length outb.
Proof.
  intros Hr Ha Hs Hroom Hl Hm Hi.
  assert (Ew : exists inb', write_bytes inb 0 msg = Some inb' /\ inb' = msg ++ drop (length msg) inb /\ length inb' = length inb).
  { eexists. split; [apply write_bytes_some; lia|]. split; [done|]. rewrite !length_app, length_take, length_drop. lia. }
  destruct Ew as (inb' & Ew & Ei & Li).
  destruct (ublock_handle_request_spec seq r msg (drop (length msg) inb) outb uninit_out_len out_size c t c' t' rp
    (mk_kernel rest (reply_size rp :: wr) out) h o Hr Ha Hs Hroom Hl) as (b & E & Lb & Hrp).
  exists inb', b, (take (Z.to_nat (reply_size rp)) b). split_and!; [|done..].
  unfold ublock_do_request.
  assert (Er : read_message in_size (mk_ublock c (mk_kernel (Some msg :: rest) (reply_size rp :: wr) out) h o t) =
    Done (Some msg) (mk_ublock c (mk_kernel rest (reply_size rp :: wr) out) h o t)).
  { unfold read_message. erewrite mbind_done by done. cbn [k_in u_kernel]. erewrite mbind_done by done.
    unfold mret'. do 2 f_equal. cbn. rewrite take_ge by lia. done. }
  rewrite (mbind_done _ _ _ _ _ Er). rewrite Ew. cbn [deref]. erewrite mbind_done by done.
  rewrite Ei. rewrite (mbind_done _ _ _ _ _ E). cbv beta iota.
  destruct (Z.ltb_spec out_size (reply_size rp)); [lia|].
  unfold read_bytes. rewrite decide_True by lia. cbn [deref drop Z.to_nat]. erewrite mbind_done by done.
  erewrite mbind_done by (unfold write_message; erewrite mbind_done by done; cbn [k_wrote u_kernel]; done).
  rewrite u64_small by lia. rewrite Z.ltb_irrefl. cbn [Z.eqb negb]. rewrite drop_0, <-Ei. done.
Qed.

(** ** The loop

    The context up to its buffers and the count of failures, which the abstract
    device does not have. *)
Definition abstract (c : ublock_ctx) : ublock_ctx := set_fails 0 (set_out_buf Null (set_in_buf Null c)).

Lemma answer_abstract room c t r a t' rp :
  answer ops_read ops_write published room (abstract c) t r a t' rp ->
  exists c', answer ops_read ops_write published room c t r c' t' rp /\ abstract c' = a /\
    ub_in_buf c' = ub_in_buf c /\ ub_out_buf c' = ub_out_buf c.
Proof.
  inversion 1; subst; [change (ub_size (abstract c)) with (ub_size c)|..];
    eexists; (split; [by econstructor|done]).
Qed.

Definition transfer (r : request) : bool := match r with Init _ _ => false | _ => true end.

(** The abstract device serves requests while it is to go on. *)
Inductive serves (exit_cond : Z) : ublock_ctx -> T -> list request -> ublock_ctx -> T -> list reply -> Prop :=
| serves_nil c t : serves exit_cond c t [] c t []
| serves_cons c t r rs c1 t1 rp c2 t2 rps :
    loop_condition exit_cond (ub_flags c) 0 = true -> transfer r = true ->
    answer ops_read ops_write published (ub_max_buf c) c t r c1 t1 rp ->
    0 <= reply_size rp <= ub_max_buf c ->
    serves exit_cond c1 t1 rs c2 t2 rps ->
    serves exit_cond c t (r :: rs) c2 t2 (rp :: rps).

(** A context whose buffers have [max_buf] bytes. *)
Definition buffers_ok (c : ublock_ctx) : Prop :=
  ub_max_buf c < 2 ^ 32 /\
  exists inb outb, ub_in_buf c = Block inb /\ ub_out_buf c = Block outb /\
    Z.of_nat (length inb) = ub_max_buf c /\ Z.of_nat (length outb) = ub_max_buf c.

Lemma loop_serves exit_cond c t a t' rs rps (seqs : list Z) msgs rest wr out h o :
  serves exit_cond (abstract c) t rs a t' rps -> buffers_ok c ->
  Forall3 is_request seqs rs msgs -> Forall (fun m => Z.of_nat (length m) <= ub_max_buf c) msgs ->
  exists c' outs,
    ublock_loop ops_read ops_write published uninit_out_buf_len uninit_out_len exit_cond
      (mk_ublock c (mk_kernel ((Some <$> msgs) ++ rest) ((reply_size <$> rps) ++ wr) out) h o t) =
    ublock_loop ops_read ops_write published uninit_out_buf_len uninit_out_len exit_cond
      (mk_ublock c' (mk_kernel rest wr (out ++ outs)) h o t') /\
    Forall3 is_reply seqs rps outs /\ abstract c' = a /\ buffers_ok c'.
Proof.
  intros Hs. remember (abstract c) as ac eqn:Eac. revert c Eac seqs msgs out.
  induction Hs as [ac t|ac t r rs a1 t1 rp a2 t2 rps Hc Htr Ha Hsz Hs IH]; intros c -> seqs msgs out Hb Hm Hlen.
  - inversion Hm; subst. exists c, []. rewrite app_nil_r. split_and!; try done. constructor.
  - inversion Hm as [|seq ? msg seqs' ? msgs' Hr Hm']; subst. apply Forall_cons in Hlen as [Hl1 Hlen].
    apply answer_abstract in Ha as (c1 & Ha & <- & Ei & Eo).
    destruct Hb as (Hmax & inb & outb & Ein & Eout & Lin & Lout).
    assert (Em : ub_max_buf c1 = ub_max_buf c) by (by inversion Ha; subst).
    change (ub_max_buf (abstract c)) with (ub_max_buf c) in *.
    destruct (ublock_do_request_spec seq r msg inb outb (ub_max_buf c) (ub_max_buf c) c t c1 t1 rp
      ((Some <$> msgs') ++ rest) ((reply_size <$> rps) ++ wr) out h o Hr Ha Hsz ltac:(lia) ltac:(lia) Hl1 ltac:(lia))
      as (inb' & outb' & bs & E & Hrp & Li & Lo).
    set (c2 := set_out_buf (Block outb') (set_in_buf (Block inb') (set_fails 0 c1))).
    destruct (IH c2 eq_refl seqs' msgs' (out ++ [bs])) as (c' & outs & El & Hreps & Habs & Hb'); [|done| |].
    { split; [cbn; lia|]. exists inb', outb'. cbn. split_and!; try done; lia. }
    { eapply Forall_impl; [exact Hlen|]. cbn. lia. }
    exists c', (bs :: outs). split_and!; [|by constructor|done|done].
    rewrite (cons_middle bs), app_assoc. rewrite <-El.
    unfold ublock_loop. erewrite mbind_done by done. erewrite mbind_done by done.
    cbn [u_kernel k_in fmap list_fmap app length]. cbn [loop_iter]. erewrite mbind_done by done. cbn [u_ctx].
    change (ub_flags (abstract c)) with (ub_flags c) in Hc. rewrite Hc, Ein, Eout. cbn [contents deref].
    do 2 erewrite mbind_done by done. cbn [fmap list_fmap app] in E. rewrite (mbind_done _ _ _ _ _ E). cbv beta iota.
    done.
Qed.
End step.
