(* ===== verification/UblockProps.v ===== *)
(** * The block device serves the kernel (properties of Ublock)

    The loop implements the abstract device of UblockSpec; [ublock_init] shakes hands
    with the kernel, and leaves nothing behind when it fails; together with fatblock's
    callback the device returns the bytes of the image. *)

From S2P Require Import Prelude Logic Bytes Layout Ublock UblockSpec.

(** A layout the witnesses are computed on. *)
Definition example_header : ublock_header := {|
  sizeof_in_header := 8; in_header_opcode := (0, 4%nat); in_header_seq := (4, 4%nat);
  sizeof_out_header := 8; out_header_opcode := (0, 4%nat); out_header_seq := (4, 4%nat);
  UBLOCK_INIT_IN := 1; UBLOCK_READY_IN := 2; UBLOCK_READ_IN := 3; UBLOCK_WRITE_IN := 4;
  UBLOCK_INIT_OUT := 129; UBLOCK_READY_OUT := 130; UBLOCK_READ_OUT := 131; UBLOCK_WRITE_OUT := 132;
  sizeof_init_in := 12; init_in_version := (0, 4%nat); init_in_max_buf := (4, 4%nat); init_in_index := (8, 4%nat);
  sizeof_init_out := 16; init_out_version := (0, 4%nat); init_out_max_buf := (4, 4%nat); init_out_size := (8, 8%nat);
  sizeof_ready_in := 0; sizeof_ready_out := 0;
  sizeof_read_in := 16; read_in_length := (0, 8%nat); read_in_offset := (8, 8%nat);
  sizeof_read_out := 4; read_out_status := (0, 4%nat);
  sizeof_write_in := 16; write_in_length := (0, 8%nat); write_in_offset := (8, 8%nat);
  sizeof_write_out := 4; write_out_status := (0, 4%nat)
|}.

Lemma example_header_ok : @ublock_header_ok example_header.
Proof.
  split; unfold fields_apart; cbn;
    repeat first [apply Forall_nil_2 | apply Forall_cons_2 | split]; cbn; try lia.
  all: repeat (apply NoDup_cons; split; [set_solver|]). apply NoDup_nil_2.
Qed.

(** ** The loop *)

Section props.
Context `{ublock_header_ok} {T : Type}.
Context (ops_read : Z -> Z -> M T (bool * Z * list Z)) (ops_write : list Z -> Z -> Z -> M T (bool * Z)).
Context (uninit_out_buf_len uninit_out_len : Z).

Lemma loop_stops published exit_cond c t k h o :
  loop_condition exit_cond (ub_flags c) 0 = false ->
  ublock_loop ops_read ops_write published uninit_out_buf_len uninit_out_len exit_cond (mk_ublock c k h o t) =
    Done 0 (mk_ublock c k h o t).
Proof. intros Hc. unfold ublock_loop. erewrite mbind_done by done. cbn [loop_iter]. erewrite mbind_done by done. cbn [u_ctx]. by rewrite Hc. Qed.

(** ** The handshake *)

Lemma malloc_some n c k g hs live o (t : T) :
  malloc n (mk_ublock c k (mk_heap (Some g :: hs) live) o t) =
    Done (Block (resize (Z.to_nat n) 0 g)) (mk_ublock c k (mk_heap hs (live + 1)) o t).
Proof. reflexivity. Qed.
Lemma free_block bs c k hs live o (t : T) :
  free (Block bs) (mk_ublock c k (mk_heap hs live) o t) = Done tt (mk_ublock c k (mk_heap hs (live - 1)) o t).
Proof. reflexivity. Qed.
Lemma update_ctx_done f c k h o (t : T) : update_ctx f (mk_ublock c k h o t) = Done tt (mk_ublock (f c) k h o t).
Proof. reflexivity. Qed.
Lemma set_open_done v c k h o (t : T) : set_open v (mk_ublock c k h o t) = Done tt (mk_ublock c k h v t).
Proof. reflexivity. Qed.
Lemma get_done {S} (s : S) : get s = Done s s.
Proof. reflexivity. Qed.

(** The context at the end of [ublock_init]'s first request. *)
Definition inited_ctx (c : ublock_ctx) (dev_size fd max_buf index : Z) : ublock_ctx :=
  set_fails 0 (init_ctx max_buf index (set_ctx_fd fd (set_flags 0 (set_max_buf 0 (set_size dev_size c))))).

Lemma init_spec c t seq0 msg0 max_buf index dev_size fd rs a t' rps seqs msgs rest wr out g1 g2 g3 g4 g5 hs live :
  is_request seq0 (Init max_buf index) msg0 -> 0 <= max_buf -> 0 <= fd ->
  serves ops_read ops_write false EXIT_READY (abstract (inited_ctx c dev_size fd max_buf index)) t rs a t' rps ->
  Forall3 is_request seqs rs msgs -> Forall (fun m => Z.of_nat (length m) <= Z.min max_buf MAX_BUF) msgs ->
  loop_condition EXIT_READY (ub_flags a) 0 = false ->
  let rp0 := Inited dev_size (Z.min max_buf MAX_BUF) in
  exists c' bs0 outs,
    ublock_init ops_read ops_write uninit_out_buf_len uninit_out_len fd true true dev_size
      (mk_ublock c (mk_kernel (Some msg0 :: (Some <$> msgs) ++ rest) (reply_size rp0 :: (reply_size <$> rps) ++ wr) out)
         (mk_heap (Some g1 :: Some g2 :: Some g3 :: Some g4 :: Some g5 :: hs) live) None t) =
      Done 0 (mk_ublock c' (mk_kernel rest wr (out ++ bs0 :: outs)) (mk_heap hs (live + 3)) (Some fd) t') /\
    is_reply seq0 rp0 bs0 /\ Forall3 is_reply seqs rps outs /\ abstract c' = a /\ buffers_ok c'.
Proof.
  intros Hr Hmb Hfd Hs Hm Hl Hstop rp0.
  set (c0 := set_ctx_fd fd (set_flags 0 (set_max_buf 0 (set_size dev_size c)))).
  set (size := ublock_init_buf_size).
  set (inb := resize (Z.to_nat size) 0 g2). set (outb := resize (Z.to_nat size) 0 g3).
  assert (Hsz : 0 <= sizeof_in_header + sizeof_init_in <= size /\ 0 <= reply_size rp0 <= size).
  { subst size. unfold ublock_init_buf_size, reply_size. cbn [payload_size rp0].
    pose proof in_header_nonneg. pose proof out_header_nonneg.
    pose proof ok_init_in as Fi. pose proof ok_init_out as Fo. rewrite !Forall_cons in Fi. rewrite !Forall_cons in Fo.
    unfold field_in in *. destruct (Z.ltb_spec (sizeof_out_header + sizeof_init_out) (sizeof_in_header + sizeof_init_in)); lia. }
  assert (Lm : Z.of_nat (length msg0) = sizeof_in_header + sizeof_init_in) by (by inversion Hr).
  assert (Li : length inb = Z.to_nat size) by apply length_resize.
  assert (Lo : length outb = Z.to_nat size) by apply length_resize.
  pose proof ok_small as Hsmall. fold size in Hsmall.
  destruct (ublock_do_request_spec ops_read ops_write false uninit_out_buf_len uninit_out_len
      seq0 (Init max_buf index) msg0 inb outb size size c0 t (init_ctx max_buf index c0) t rp0
      ((Some <$> msgs) ++ rest) ((reply_size <$> rps) ++ wr) out (mk_heap (Some g4 :: Some g5 :: hs) (live + 1 + 1 + 1)) (Some fd))
    as (inb' & outb' & bs0 & E & Hrp & _ & _); [done|constructor|lia|lia|lia|lia|lia|].
  set (mb := Z.min max_buf MAX_BUF).
  assert (Hmbr : 0 <= mb <= 65536) by (subst mb; unfold MAX_BUF; lia).
  set (c1 := set_out_buf (Block (resize (Z.to_nat mb) 0 g5)) (set_in_buf (Block (resize (Z.to_nat mb) 0 g4)) (inited_ctx c dev_size fd max_buf index))).
  destruct (loop_serves ops_read ops_write false uninit_out_buf_len uninit_out_len EXIT_READY c1 t a t' rs rps seqs msgs
      rest wr (out ++ [bs0]) (mk_heap hs (live + 1 + 1 + 1 - 1 - 1 + 1 + 1)) (Some fd) Hs) as (c' & outs & El & Hreps & Habs & Hb).
  { split; [cbn; lia|]. exists (resize (Z.to_nat mb) 0 g4), (resize (Z.to_nat mb) 0 g5). cbn. rewrite !length_resize. split_and!; try done; lia. }
  { done. }
  { exact Hl. }
  exists c', bs0, outs. split_and!; [|done..]. rewrite <-Habs in Hstop. rewrite (loop_stops false EXIT_READY c') in El by exact Hstop.
  replace (live + 3) with (live + 1 + 1 + 1 - 1 - 1 + 1 + 1) by lia. rewrite (cons_middle bs0), app_assoc.
  unfold ublock_init. cbn [andb negb]. erewrite mbind_done by apply malloc_some. cbn [is_null].
  do 2 erewrite mbind_done by apply malloc_some. fold size inb outb. cbn [contents].
  do 4 erewrite mbind_done by apply update_ctx_done.
  rewrite (proj2 (Z.leb_le 0 fd)) by done. erewrite mbind_done by apply set_open_done.
  rewrite (proj2 (Z.ltb_ge fd 0)) by done. rewrite (mbind_done _ _ _ _ _ E). cbv beta iota. cbn [Z.eqb negb].
  erewrite mbind_done by apply get_done. cbn [u_ctx]. change (ub_flags (set_fails 0 (init_ctx max_buf index c0))) with 1.
  change (negb (Z.land (if 1 =? 0 then 1 else 0) CTX_INITED =? 0)) with false. cbv iota.
  do 2 erewrite mbind_done by apply free_block.
  change (ub_max_buf (set_fails 0 (init_ctx max_buf index c0))) with mb.
  erewrite mbind_done by apply malloc_some. erewrite mbind_done by apply update_ctx_done.
  erewrite mbind_done by apply malloc_some. erewrite mbind_done by apply update_ctx_done.
  cbn [is_null orb]. by rewrite (mbind_done _ _ _ _ _ El).
Qed.

(** ** What a request leaves alone *)

Definition frame (u : ublock T) : heap * option Z * (pointer * pointer * Z) :=
  (u_heap u, u_open u, (ub_in_buf (u_ctx u), ub_out_buf (u_ctx u), ub_fd (u_ctx u))).

Lemma frame_update x f :
  (forall c, ub_in_buf (f c) = ub_in_buf c /\ ub_out_buf (f c) = ub_out_buf c /\ ub_fd (f c) = ub_fd c) ->
  keeps (fun u => frame u = x) (update_ctx (T := T) f) any.
Proof.
  intros Hf. apply keeps_modify. intros u <-. unfold frame. cbn. destruct (Hf (u_ctx u)) as (-> & -> & ->). done.
Qed.
Lemma frame_kernel x k : keeps (fun u => frame u = x) (set_kernel (T := T) k) any.
Proof. apply keeps_modify. by intros u <-. Qed.
Lemma frame_client {A} x (m : M T A) : keeps (fun u => frame u = x) (with_client m) any.
Proof.
  eapply (keeps_zoom _ _ _ (fun _ => True)); [|done|by intros u t t' <- [= <-]].
  intros t _. by destruct (m t).
Qed.
Hint Resolve frame_kernel frame_client : keeps.
Hint Extern 1 (keeps _ (update_ctx _) _) => (apply frame_update; done) : keeps.

Lemma frame_stop x given : keeps (fun u => frame u = x) (ublock_stop (T := T) given) any.
Proof. unfold ublock_stop. keep. Qed.
Lemma frame_fail x : keeps (fun u => frame u = x) (ublock_fail (T := T)) any.
Proof. unfold ublock_fail. pose proof frame_stop. keep. Qed.
Hint Resolve frame_stop frame_fail : keeps.

Lemma frame_request x published inb n outb len :
  keeps (fun u => frame u = x)
    (ublock_handle_request (T := T) ops_read ops_write published uninit_out_buf_len inb n outb len) any.
Proof.
  unfold ublock_handle_request, ublock_handle_init, ublock_handle_ready, ublock_handle_read, ublock_handle_write.
  cbv zeta. keep.
Qed.
Hint Resolve frame_request : keeps.

Lemma frame_do_request x published inb n outb m :
  keeps (fun u => frame u = x)
    (ublock_do_request ops_read ops_write published uninit_out_buf_len uninit_out_len inb n outb m) any.
Proof. unfold ublock_do_request, read_message, write_message, ublock_succeed. keep. Qed.

Lemma do_request_heap c k h o (t : T) inb n outb m r u' :
  ublock_do_request ops_read ops_write false uninit_out_buf_len uninit_out_len inb n outb m (mk_ublock c k h o t) = Done r u' ->
  exists c' k' t', u' = mk_ublock c' k' h o t' /\
    ub_in_buf c' = ub_in_buf c /\ ub_out_buf c' = ub_out_buf c /\ ub_fd c' = ub_fd c.
Proof.
  intros E. pose proof (frame_do_request (frame (mk_ublock c k h o t)) false inb n outb m _ eq_refl) as Hk.
  rewrite E in Hk. destruct Hk as [Hk _]. destruct u' as [c' k' h' o' t']. unfold frame in Hk. cbn in Hk.
  injection Hk as -> -> ? ? ?. exists c', k', t'. done.
Qed.

Lemma loop_iter_heap fuel exit_cond result c k h o (t : T) r u' :
  loop_iter ops_read ops_write false uninit_out_buf_len uninit_out_len fuel exit_cond result (mk_ublock c k h o t) = Done r u' ->
  u_heap u' = h /\ u_open u' = o.
Proof.
  revert result c k t. induction fuel as [|fuel IH]; intros result c k t; [done|]. cbn [loop_iter].
  erewrite mbind_done by apply get_done. cbn [u_ctx]. destruct (loop_condition _ _ _); [|by intros [= _ <-]].
  destruct (ub_in_buf c) as [| |inb]; [done..|]. destruct (ub_out_buf c) as [| |outb]; [done..|].
  cbn [contents deref]. do 2 erewrite mbind_done by done.
  intros ([[res inb'] outb'] & u1 & E1 & E2)%mbind_done_inv.
  apply do_request_heap in E1 as (c1 & k1 & t1 & -> & _).
  do 2 (erewrite mbind_done in E2 by apply update_ctx_done). destruct (negb _); [by injection E2 as _ <-|].
  by eapply IH.
Qed.

(** ** Failure *)

Definition blocks (p : pointer) : Z := match p with Block _ => 1 | _ => 0 end.

Lemma free_done p c k hs live o (t : T) :
  p <> Wild -> free p (mk_ublock c k (mk_heap hs live) o t) = Done tt (mk_ublock c k (mk_heap hs (live - blocks p)) o t).
Proof. destruct p; [|done|done]. intros _. cbn. unfold mret'. by rewrite Z.sub_0_r. Qed.

Lemma malloc_done n c k hs live o (t : T) :
  exists p hs', malloc n (mk_ublock c k (mk_heap hs live) o t) =
    Done p (mk_ublock c k (mk_heap hs' (live + blocks p)) o t) /\ p <> Wild /\
    is_null p = negb (bool_decide (is_Some (contents p))).
Proof.
  destruct hs as [|[g|] hs].
  - exists Null, []. split_and!; [|done|done]. unfold malloc. cbn. unfold mret'. by rewrite Z.add_0_r.
  - eexists (Block _), hs. split_and!; [reflexivity|done|done].
  - exists Null, hs. split_and!; [|done|done]. cbn [blocks]. rewrite Z.add_0_r. reflexivity.
Qed.

Lemma init_error_done allocated ib ob result c k hs live o (t : T) :
  ib <> Wild -> ob <> Wild -> ub_in_buf c <> Wild -> ub_out_buf c <> Wild ->
  o = None \/ o = Some (ub_fd c) /\ ub_fd c <> 0 ->
  init_error allocated ib ob result (mk_ublock c k (mk_heap hs live) o t) =
    Done result (mk_ublock c k
      (mk_heap hs (live - (if allocated then blocks (ub_in_buf c) + blocks (ub_out_buf c) + 1 else 0) - blocks ib - blocks ob))
      (if allocated then None else o) t).
Proof.
  intros Hib Hob Hi Ho Hopen.
  unfold init_error. destruct allocated.
  - assert (E : (do u <- get; free (ub_in_buf (u_ctx u));;; free (ub_out_buf (u_ctx u));;;
        (if negb (ub_fd (u_ctx u) =? 0) then close (ub_fd (u_ctx u)) else mret' tt);;; free (Block []))
        (mk_ublock c k (mk_heap hs live) o t) =
      Done tt (mk_ublock c k (mk_heap hs (live - blocks (ub_in_buf c) - blocks (ub_out_buf c) - 1)) None t)).
    { erewrite mbind_done by apply get_done. cbn [u_ctx]. do 2 erewrite mbind_done by (by apply free_done).
      destruct Hopen as [->|[-> Hfd]].
      - destruct (negb _); erewrite mbind_done by reflexivity; apply free_block.
      - rewrite (proj2 (Z.eqb_neq _ _) Hfd). cbn [negb]. unfold close.
        erewrite mbind_done; [apply free_block|]. erewrite mbind_done by apply get_done. cbn [u_open].
        rewrite Z.eqb_refl. apply set_open_done. }
    rewrite (mbind_done _ _ _ _ _ E). do 2 erewrite mbind_done by (by apply free_done). unfold mret'.
    do 3 f_equal. f_equal. lia.
  - erewrite mbind_done by reflexivity. do 2 erewrite mbind_done by (by apply free_done). unfold mret'.
    do 3 f_equal. f_equal. lia.
Qed.

Definition left_behind (live fd z : Z) (u : ublock T) : Prop :=
  if decide (z = 0) then h_live (u_heap u) = live + 3 /\ u_open u = Some fd
  else z ∈ [- EFAULT; - ENOMEM; - ENOENT; - EPROTO] /\ h_live (u_heap u) = live /\ u_open u = None.

(** Leaving through the label with what was allocated. *)
Lemma init_error_leaves live fd result allocated ib ob c k hs o (t : T) z u' n :
  ib <> Wild -> ob <> Wild -> ub_in_buf c <> Wild -> ub_out_buf c <> Wild ->
  o = None \/ o = Some (ub_fd c) /\ ub_fd c <> 0 -> (allocated = false -> o = None) ->
  result ∈ [- EFAULT; - ENOMEM; - ENOENT; - EPROTO] ->
  n = live + blocks ib + blocks ob + (if allocated : bool then blocks (ub_in_buf c) + blocks (ub_out_buf c) + 1 else 0) ->
  init_error allocated ib ob result (mk_ublock c k (mk_heap hs n) o t) = Done z u' -> left_behind live fd z u'.
Proof.
  intros ? ? ? ? ? Hal Hres -> E. rewrite init_error_done in E by done. injection E as <- <-.
  unfold left_behind. cbn [u_heap h_live u_open]. rewrite decide_False by (intros ->; set_solver by (unfold EFAULT, ENOMEM, ENOENT, EPROTO in *; lia)).
  split_and!; [done|destruct allocated; lia|destruct allocated; auto].
Qed.

Lemma init_leaves c k hs live (t : T) fd gx gy dev_size z u' :
  ub_in_buf c = Null -> ub_out_buf c = Null -> fd <> 0 ->
  ublock_init ops_read ops_write uninit_out_buf_len uninit_out_len fd gx gy dev_size
    (mk_ublock c k (mk_heap hs live) None t) = Done z u' -> left_behind live fd z u'.
Proof.
  intros Hi Ho Hfd. unfold ublock_init. destruct (negb (gx && gy)).
  { intros [= <- <-]. unfold left_behind. cbn. set_solver. }
  destruct (malloc_done 0 c k hs live None t) as (p0 & hs0 & E0 & W0 & N0). rewrite (mbind_done _ _ _ _ _ E0).
  destruct (is_null p0) eqn:Np0.
  { assert (blocks p0 = 0) by (by destruct p0). apply init_error_leaves; [done|done|by rewrite Hi|by rewrite Ho|by left|done|set_solver|cbn; lia]. }
  assert (B0 : blocks p0 = 1) by (by destruct p0). rewrite B0.
  destruct (malloc_done ublock_init_buf_size c k hs0 (live + 1) None t) as (p1 & hs1 & E1 & W1 & _).
  rewrite (mbind_done _ _ _ _ _ E1).
  destruct (malloc_done ublock_init_buf_size c k hs1 (live + 1 + blocks p1) None t) as (p2 & hs2 & E2 & W2 & _).
  rewrite (mbind_done _ _ _ _ _ E2).
  assert (Hmem : forall u1, init_error true p1 p2 (- ENOMEM) (mk_ublock c k (mk_heap hs2 (live + 1 + blocks p1 + blocks p2)) None t) = Done z u1 ->
    left_behind live fd z u1).
  { intros u1. apply init_error_leaves; [done|done|by rewrite Hi|by rewrite Ho|by left|done|set_solver|rewrite Hi, Ho; cbn; lia]. }
  destruct p1 as [| |b1]; [exact (Hmem u')|done|]. destruct p2 as [| |b2]; [exact (Hmem u')|done|].
  cbn [contents blocks].
  do 4 erewrite mbind_done by apply update_ctx_done.
  set (c1 := set_ctx_fd fd (set_flags 0 (set_max_buf 0 (set_size dev_size c)))).
  assert (Hi1 : ub_in_buf c1 = Null) by done. assert (Ho1 : ub_out_buf c1 = Null) by done.
  assert (Hf1 : ub_fd c1 = fd) by done. clearbody c1.
  erewrite mbind_done by (by instantiate (1 := mk_ublock c1 k (mk_heap hs2 (live + 1 + 1 + 1)) (if 0 <=? fd then Some fd else None) t);
    destruct (0 <=? fd); [apply set_open_done|reflexivity]).
  destruct (Z.ltb_spec fd 0) as [Hneg|Hpos].
  { rewrite (proj2 (Z.leb_gt 0 fd)) by done. apply init_error_leaves; [done|done|by rewrite Hi1|by rewrite Ho1|by left|done|set_solver|rewrite Hi1, Ho1; cbn; lia]. }
  rewrite (proj2 (Z.leb_le 0 fd)) by done.
  intros ([[res inb] outb] & u1 & E3 & E4)%mbind_done_inv.
  apply do_request_heap in E3 as (c2 & k2 & t2 & -> & Hi2 & Ho2 & Hf2). rewrite Hi1 in Hi2. rewrite Ho1 in Ho2. rewrite Hf1 in Hf2.
  assert (Hproto : forall u2, init_error true (Block b1) (Block b2) (- EPROTO)
     (mk_ublock c2 k2 (mk_heap hs2 (live + 1 + 1 + 1)) (Some fd) t2) = Done z u2 -> left_behind live fd z u2).
  { intros u2. apply init_error_leaves; [done|done|by rewrite Hi2|by rewrite Ho2|right; by rewrite Hf2|done|set_solver|rewrite Hi2, Ho2; cbn; lia]. }
  destruct (negb (res =? 0)); [exact (Hproto _ E4)|]. erewrite mbind_done in E4 by apply get_done. cbn [u_ctx] in E4.
  destruct (negb (Z.land _ _ =? 0)); [exact (Hproto _ E4)|].
  do 2 erewrite mbind_done in E4 by apply free_block.
  destruct (malloc_done (ub_max_buf c2) c2 k2 hs2 (live + 1 + 1 + 1 - 1 - 1) (Some fd) t2) as (p3 & hs3 & E5 & W3 & _).
  rewrite (mbind_done _ _ _ _ _ E5) in E4. erewrite mbind_done in E4 by apply update_ctx_done.
  destruct (malloc_done (ub_max_buf c2) (set_in_buf p3 c2) k2 hs3 (live + 1 + 1 + 1 - 1 - 1 + blocks p3) (Some fd) t2) as (p4 & hs4 & E6 & W4 & _).
  rewrite (mbind_done _ _ _ _ _ E6) in E4. erewrite mbind_done in E4 by apply update_ctx_done.
  destruct (is_null p3 || is_null p4) eqn:Hnull.
  { revert E4. apply init_error_leaves; [done|done|done|done|right; cbn; by rewrite Hf2|done|set_solver|cbn; lia]. }
  apply orb_false_iff in Hnull as [N3 N4]. assert (blocks p3 = 1) by (by destruct p3). assert (blocks p4 = 1) by (by destruct p4).
  apply mbind_done_inv in E4 as (r & u2 & E7 & [= <- <-]). unfold ublock_loop in E7.
  erewrite mbind_done in E7 by apply get_done. apply loop_iter_heap in E7 as [Eh Eo].
  unfold left_behind. cbn. rewrite Eh, Eo. cbn. split; [lia|done].
Qed.

(** C21: the request loop implements the abstract device. While the messages the kernel
    sends are the requests the device serves, the loop takes each, writes one reply
    that says what the device answers, with the number of the request, and is left in
    the device's state, with buffers of the same size; it ends, with 0, when the device
    is to stop. Every other message is as if the loop began there. *)
Theorem ublock_loop_serves (published : bool) (exit_cond : Z) (c : ublock_ctx) (t : T) (a : ublock_ctx) (t' : T)
    (rs : list request) (rps : list reply) (seqs : list Z) (msgs : list (list Z))
    (rest : list (option (list Z))) (wr : list Z) (out : list (list Z)) (h : heap) (o : option Z)
  (Hserves : serves ops_read ops_write published exit_cond (abstract c) t rs a t' rps) (Hbuf : buffers_ok c)
  (Hmsgs : Forall3 is_request seqs rs msgs) (Hfit : Forall (fun m => Z.of_nat (length m) <= ub_max_buf c) msgs) :
  exists c' outs,
    let loop := ublock_loop ops_read ops_write published uninit_out_buf_len uninit_out_len exit_cond in
    let u' := mk_ublock c' (mk_kernel rest wr (out ++ outs)) h o t' in
    loop (mk_ublock c (mk_kernel ((Some <$> msgs) ++ rest) ((reply_size <$> rps) ++ wr) out) h o t) = loop u' /\
    Forall3 is_reply seqs rps outs /\ abstract c' = a /\ buffers_ok c' /\
    (loop_condition exit_cond (ub_flags a) 0 = false -> loop u' = Done 0 u').
Proof.
  destruct (loop_serves ops_read ops_write published uninit_out_buf_len uninit_out_len exit_cond c t a t' rs rps
    seqs msgs rest wr out h o) as (c' & outs & E & Hr & <- & Hb); [done..|].
  exists c', outs. split_and!; try done. intros Hc. by apply loop_stops.
Qed.

(** [ublock_init] shakes hands with the kernel. When the first message is the init
    request and the next ones, of which the device serves the reads and writes, end
    with the ready request, it returns 0; the replies agree on a buffer size of at
    most [MAX_BUF], the context is the device's, with buffers of that size, the two
    buffers and the context are what stays allocated, and [ublock_index] is the number
    the kernel gave. *)
Theorem ublock_init_handshake (c : ublock_ctx) (t : T) (seq0 : Z) (msg0 : list Z) (max_buf index dev_size fd : Z)
    (rs : list request) (a : ublock_ctx) (t' : T) (rps : list reply) (seqs : list Z) (msgs : list (list Z))
    (rest : list (option (list Z))) (wr : list Z) (out : list (list Z)) (g1 g2 g3 g4 g5 : list Z)
    (hs : list (option (list Z))) (live : Z)
  (Hinit : is_request seq0 (Init max_buf index) msg0) (Hmax : 0 <= max_buf) (Hfd : 0 <= fd)
  (Hserves : serves ops_read ops_write false EXIT_READY (abstract (inited_ctx c dev_size fd max_buf index)) t rs a t' rps)
  (Hmsgs : Forall3 is_request seqs rs msgs) (Hfit : Forall (fun m => Z.of_nat (length m) <= Z.min max_buf MAX_BUF) msgs)
  (Hready : loop_condition EXIT_READY (ub_flags a) 0 = false) :
  let rp0 := Inited dev_size (Z.min max_buf MAX_BUF) in
  exists c' bs0 outs,
    let u' := mk_ublock c' (mk_kernel rest wr (out ++ bs0 :: outs)) (mk_heap hs (live + 3)) (Some fd) t' in
    ublock_init ops_read ops_write uninit_out_buf_len uninit_out_len fd true true dev_size
      (mk_ublock c (mk_kernel (Some msg0 :: (Some <$> msgs) ++ rest) (reply_size rp0 :: (reply_size <$> rps) ++ wr) out)
         (mk_heap (Some g1 :: Some g2 :: Some g3 :: Some g4 :: Some g5 :: hs) live) None t) = Done 0 u' /\
    is_reply seq0 rp0 bs0 /\ Forall3 is_reply seqs rps outs /\ abstract c' = a /\ buffers_ok c' /\
    ublock_index true u' = Done (if Z.land (ub_flags a) CTX_INITED =? 0 then - EINVAL else s32 (ub_index a)) u'.
Proof.
  destruct (init_spec c t seq0 msg0 max_buf index dev_size fd rs a t' rps seqs msgs rest wr out g1 g2 g3 g4 g5 hs live)
    as (c' & bs0 & outs & E & H0' & Hr & <- & Hb); [done..|].
  exists c', bs0, outs. split_and!; try done. unfold ublock_index. cbn [negb].
  erewrite mbind_done by apply get_done. cbn [u_ctx]. change (ub_flags (abstract c')) with (ub_flags c').
  by destruct (_ =? 0).
Qed.

End props.

(** ** Witnesses

    A client whose blocks hold sevens and which stops at offset 99. *)
#[local] Existing Instance example_header.
#[local] Existing Instance example_header_ok.

Definition sevens (len offset : Z) : M unit (bool * Z * list Z) :=
  mret' (offset =? 99, 0, replicate (Z.to_nat len) 7).
Definition no_writes (data : list Z) (len offset : Z) : M unit (bool * Z) := mret' (false, - EINVAL).

Definition header_bytes (opcode seq : Z) : list Z := le_bytes 4 opcode ++ le_bytes 4 seq.
Definition init_message : list Z := header_bytes 1 5 ++ le_bytes 4 0 ++ le_bytes 4 64 ++ le_bytes 4 3.
Definition read_message_at (seq len offset : Z) : list Z := header_bytes 3 seq ++ le_bytes 8 len ++ le_bytes 8 offset.
Definition ready_message : list Z := header_bytes 2 6.
Definition unset_ctx : ublock_ctx := mk_ublock_ctx 0 0 0 Null Null 0 0 0.
Definition running_ctx : ublock_ctx :=
  mk_ublock_ctx 3 4096 64 (Block (replicate 64 0)) (Block (replicate 64 0)) 7 8 0.

Lemma sevens_answer published room c len offset :
  0 <= len -> 12 + len <= room ->
  answer sevens no_writes published room c tt (Read len offset) (stop_ctx (offset =? 99) published c) tt
    (Reads 0 (replicate (Z.to_nat len) 7)).
Proof.
  intros H0 H1. apply answer_read; [done|intros _; rewrite length_replicate; lia|rewrite length_replicate].
  change (8 + 4 + Z.of_nat (Z.to_nat len) <= room). lia.
Qed.

Lemma running_serves :
  serves sevens no_writes true EXIT_STOPPED (abstract running_ctx) tt [Read 2 5; Read 3 99]
    (stop_ctx true true (stop_ctx false true (abstract running_ctx))) tt [Reads 0 [7; 7]; Reads 0 [7; 7; 7]].
Proof.
  eapply serves_cons; [done|done|by apply (sevens_answer true _ _ 2 5)|split; by vm_compute|].
  eapply serves_cons; [done|done|by apply (sevens_answer true _ _ 3 99)|split; by vm_compute|]. apply serves_nil.
Qed.
Lemma buffers_of_64 : buffers_ok running_ctx.
Proof. split; [done|]. by exists (replicate 64 0), (replicate 64 0). Qed.

Lemma ublock_loop_serves_witness :
  exists c' outs,
    let loop := ublock_loop sevens no_writes true 0 0 EXIT_STOPPED in
    let u' := mk_ublock c' (mk_kernel [] [] outs) (mk_heap [] 3) (Some 8) tt in
    loop (mk_ublock running_ctx (mk_kernel [Some (read_message_at 1 2 5); Some (read_message_at 2 3 99)] [14; 15] [])
            (mk_heap [] 3) (Some 8) tt) = loop u' /\
    Forall3 is_reply [1; 2] [Reads 0 [7; 7]; Reads 0 [7; 7; 7]] outs /\ ub_flags c' = 3 /\ loop u' = Done 0 u'.
Proof.
  destruct (ublock_loop_serves sevens no_writes 0 0 true EXIT_STOPPED running_ctx tt _ tt _ _
    [1; 2] [read_message_at 1 2 5; read_message_at 2 3 99] [] [] [] (mk_heap [] 3) (Some 8) running_serves buffers_of_64)
    as (c' & outs & E & Hr & Ha & _ & Hs).
  - repeat constructor.
  - repeat constructor; cbn; lia.
  - exists c', outs. split; [exact E|]. split; [exact Hr|]. split; [exact (f_equal ub_flags Ha)|]. by apply Hs.
Defined.

Lemma handshake_serves :
  serves sevens no_writes false EXIT_READY (abstract (inited_ctx unset_ctx 4096 8 64 3)) tt [Ready]
    (ready_ctx (abstract (inited_ctx unset_ctx 4096 8 64 3))) tt [Readied].
Proof. eapply serves_cons; [done|done|apply answer_ready|split; by vm_compute|apply serves_nil]. Qed.

Lemma ublock_init_handshake_witness :
  exists u', ublock_init sevens no_writes 0 0 8 true true 4096
    (mk_ublock unset_ctx (mk_kernel [Some init_message; Some ready_message] [24; 8] [])
       (mk_heap (replicate 5 (Some [])) 0) None tt) = Done 0 u' /\ ublock_index true u' = Done 3 u'.
Proof.
  destruct (ublock_init_handshake sevens no_writes 0 0 unset_ctx tt 5 init_message 64 3 4096 8 [Ready]
    (ready_ctx (abstract (inited_ctx unset_ctx 4096 8 64 3))) tt [Readied] [6] [ready_message] [] [] [] [] [] [] [] [] [] 0) as (c' & bs0 & outs & E & _ & _ & _ & _ & Ei).
  - by constructor.
  - lia.
  - lia.
  - exact handshake_serves.
  - repeat constructor.
  - apply Forall_singleton. by vm_compute.
  - done.
  - eexists. split; [exact E|exact Ei].
Defined.


(** The pointers of a context that [malloc] returns are not [NULL]: a failing [open]
    frees what they happen to be. *)
Example init_frees_wild :
  ublock_init sevens no_writes 0 0 (-1) true true 4096
    (mk_ublock (mk_ublock_ctx 0 0 0 Wild Wild 0 0 0) (mk_kernel [] [] []) (mk_heap (replicate 5 (Some [])) 0) None tt) = Stuck.
Proof. by vm_compute. Qed.

(** The test for [CTX_INITED] asks whether no flag is set: a kernel that only sends
    the ready request is taken to have initialised the context. *)
Example init_not_inited :
  exists u', ublock_init sevens no_writes 0 0 8 true true 4096
    (mk_ublock unset_ctx (mk_kernel [Some ready_message] [8] []) (mk_heap (replicate 5 (Some [])) 0) None tt) =
      Done 0 u' /\ ublock_index true u' = Done (- EINVAL) u'.
Proof. eexists. split; [vm_compute; reflexivity|reflexivity]. Qed.

(** A [write] that fails returns -1, which is not less than an unsigned length. *)
Example failed_write_unnoticed :
  exists u', ublock_do_request sevens no_writes true 0 0 (replicate 64 0) 64 (replicate 64 0) 64
    (mk_ublock running_ctx (mk_kernel [Some (read_message_at 1 2 5)] [-1] []) (mk_heap [] 3) (Some 8) tt) = Done u'.1 u'.2 /\
    u'.1.1.1 = 0.
Proof. eexists (_, _). split; [vm_compute; reflexivity|reflexivity]. Qed.

(** [ublock_run] returns 0 where it documents [-EPROTO]. *)
Example run_hides_error :
  exists u', ublock_run sevens no_writes true 0 0 true
    (mk_ublock running_ctx (mk_kernel [None] [] []) (mk_heap [] 3) (Some 8) tt) = Done 0 u'.
Proof. eexists. vm_compute. reflexivity. Qed.

(** A read of more than the buffer writes beyond it. *)
Example long_read_overflows :
  ublock_do_request sevens no_writes true 0 0 (replicate 64 0) 64 (replicate 64 0) 64
    (mk_ublock running_ctx (mk_kernel [Some (read_message_at 1 60 5)] [72] []) (mk_heap [] 3) (Some 8) tt) = Stuck.
Proof. by vm_compute. Qed.
