(* ===== verification/FatDevice.v ===== *)
(** * fatblock on ublock (fatblock/fatblock.c)

    The callbacks of fatblock are the operations of the block device: what the kernel
    reads are the bytes of the FAT image. *)

From S2P Require Import Prelude Logic Bytes Layout FatFs FdPool FatImport FatRead FatSpec FatReadSpec FatImportSpec FatProps Ublock UblockSpec UblockProps.

Section fatblock.
Context `{ublock_header_ok}.
Context (host_stat : list Z -> option stat_info) (host_data : list Z -> option (list Z)).

(** [ops] *)
Definition ops_read : Z -> Z -> M fatblock (bool * Z * list Z) := read_callback host_stat host_data.
Definition ops_write (data : list Z) (length offset : Z) : M fatblock (bool * Z) := mret' (false, write_callback).

(** A range of the device where no file is. *)
Definition no_file (l : list (nat * extent)) (r : Z * Z) : Prop :=
  0 <= r.1 /\ 0 < r.2 /\ r.1 + r.2 < 2 ^ 64 /\
  Forall (fun x => meets r.1 r.2 x.2 = true -> e_type x.2 <> EXTENT_TYPE_FILE) l.

Definition read_of (r : Z * Z) : request := Read r.2 r.1.
Definition reply_of (b : fatblock) (l : list (nat * extent)) (r : Z * Z) : reply :=
  Reads 0 (device_byte b l <$> seqZ r.1 r.2).

Lemma read_callback_spec b l r :
  device_ok b l -> no_file l r ->
  ops_read r.2 r.1 b = Done (false, 0, device_byte b l <$> seqZ r.1 r.2) b.
Proof.
  intros Hd (H1 & H2 & H3 & H4). destruct (fs_read_spec host_stat host_data b l r.1 r.2) as (out & E & Lo & Hj); try done.
  unfold ops_read, read_callback. rewrite (mbind_done _ _ _ _ _ E). cbv beta iota. unfold mret'. cbn [negb Z.eqb].
  do 3 f_equal. by apply list_of_lookups.
Qed.

Lemma fatblock_answers b l c r published :
  device_ok b l -> no_file l r -> sizeof_out_header + sizeof_read_out + r.2 <= ub_max_buf c ->
  answer ops_read ops_write published (ub_max_buf c) c b (read_of r) c b (reply_of b l r).
Proof.
  intros Hd Hr Hm. pose proof Hr as (_ & Hlen & _).
  assert (Ec : stop_ctx false published c = c) by (by destruct c).
  assert (L : Z.of_nat (length (device_byte b l <$> seqZ r.1 r.2)) = r.2) by (rewrite length_fmap, length_seqZ; lia).
  pose proof (answer_read ops_read ops_write published (ub_max_buf c) c b r.2 r.1 false 0
    (device_byte b l <$> seqZ r.1 r.2) b (read_callback_spec b l r Hd Hr) (fun _ => L) ltac:(rewrite L; exact Hm)) as Ha.
  by rewrite Ec in Ha.
Qed.

Lemma fatblock_serves b l c rs published exit_cond :
  device_ok b l -> loop_condition exit_cond (ub_flags c) 0 = true ->
  Forall (fun r => no_file l r /\ sizeof_out_header + sizeof_read_out + r.2 <= ub_max_buf c) rs ->
  serves ops_read ops_write published exit_cond c b (read_of <$> rs) c b (reply_of b l <$> rs).
Proof.
  intros Hd Hc. induction 1 as [|r rs [Hr Hm] _ IH]; [apply serves_nil|].
  eapply serves_cons; [done|done|by apply fatblock_answers| |exact IH].
  pose proof Hr as (_ & Hlen & _). pose proof out_header_nonneg. destruct ok_read_out as [[? ?] _].
  unfold reply_size. cbn [payload_size reply_of reply_data Z.leb]. change (0 <=? 0) with true. cbv iota.
  rewrite length_fmap, length_seqZ. lia.
Qed.

(** C22: the kernel reads the image from the block device. Each read request for a
    range that meets no file, and fits the buffer, is answered with status 0 and the
    bytes of the image at that range, the requests in any number and order; nothing
    about the image or the device changes, and the loop goes on with the next message. *)
Theorem fatblock_serves_image (uninit_out_buf_len uninit_out_len : Z) (b : fatblock) (l : list (nat * extent))
    (c : ublock_ctx) (ranges : list (Z * Z)) (seqs : list Z) (msgs : list (list Z)) (rest : list (option (list Z)))
    (wr : list Z) (out : list (list Z)) (h : heap) (o : option Z)
  (Hdev : device_ok b l) (Hrunning : Z.land (ub_flags c) CTX_RUNNING <> 0) (Hbuf : buffers_ok c)
  (Hmsgs : Forall3 is_request seqs (read_of <$> ranges) msgs)
  (Hfit : Forall (fun m => Z.of_nat (length m) <= ub_max_buf c) msgs)
  (Hranges : Forall (fun r => no_file l r /\ sizeof_out_header + sizeof_read_out + r.2 <= ub_max_buf c) ranges) :
  exists c' outs,
    let loop := ublock_loop ops_read ops_write true uninit_out_buf_len uninit_out_len EXIT_STOPPED in
    loop (mk_ublock c (mk_kernel ((Some <$> msgs) ++ rest) ((reply_size <$> (reply_of b l <$> ranges)) ++ wr) out) h o b) =
      loop (mk_ublock c' (mk_kernel rest wr (out ++ outs)) h o b) /\
    Forall3 is_reply seqs (reply_of b l <$> ranges) outs /\ abstract c' = abstract c /\ buffers_ok c'.
Proof.
  apply (loop_serves ops_read ops_write true uninit_out_buf_len uninit_out_len EXIT_STOPPED c b (abstract c) b
    (read_of <$> ranges) (reply_of b l <$> ranges)); [|done..].
  apply fatblock_serves; [done| |done]. unfold loop_condition. cbn [abstract].
  change (ub_flags (abstract c)) with (ub_flags c). apply Z.eqb_neq in Hrunning. rewrite Hrunning. done.
Qed.
End fatblock.

#[local] Existing Instance example_header.
#[local] Existing Instance example_header_ok.

Lemma fatblock_serves_image_witness :
  exists c' outs,
    Forall3 is_reply [7; 8] (reply_of small_block (initial_extents (fat_size small_fs)) <$> [(500, 40); (0, 50)]) outs /\
    abstract c' = abstract running_ctx.
Proof.
  destruct (fatblock_serves_image (fun _ => None) (fun _ => None) 0 0 small_block (initial_extents (fat_size small_fs))
    running_ctx [(500, 40); (0, 50)] [7; 8] [read_message_at 7 40 500; read_message_at 8 50 0] [] [] [] (mk_heap [] 3) (Some 8))
    as (c' & outs & _ & Hr & Ha & _).
  - exact small_block_ok.
  - by vm_compute.
  - exact buffers_of_64.
  - repeat constructor.
  - apply Forall_cons. split; [by vm_compute|]. apply Forall_singleton. by vm_compute.
  - assert (Hno : forall r : Z * Z, 0 <= r.1 -> 0 < r.2 -> r.1 + r.2 < 2 ^ 64 -> no_file (initial_extents (fat_size small_fs)) r).
    { intros r H1 H2 H3. split_and!; [done..|]. eapply Forall_impl; [apply initial_types|]. intros x [Hx _] _. exact Hx. }
    apply Forall_cons. split; [split; [apply Hno; cbn; lia|by vm_compute]|].
    apply Forall_singleton. split; [apply Hno; cbn; lia|by vm_compute].
  - by exists c', outs.
Defined.
