(* ===== verification/Pagemap.v ===== *)
(** * Memory usage of processes (libpagemap)

    The files of /proc are what [read] returns at each offset, or the error it sets;
    [open] and the maps of a process are parameters as well. [errno] and the outcomes
    of [malloc] are in the state. A structure that a function returns is a value; what
    is freed is not recorded. *)

From S2P Require Import Prelude Bytes Scanf.

Definition ENOMEM : Z := 12.
Definition EINVAL : Z := 22.

Inductive read_result := Read_error (e : Z) | Read_bytes (bs : list Z).

(** ** Usage (pm_memusage.c) *)

Record pm_memusage := mk_pm_memusage { vss : Z; rss : Z; pss : Z; uss : Z }.

Definition pm_memusage_zero : pm_memusage := mk_pm_memusage 0 0 0 0.
Definition pm_memusage_add (a b : pm_memusage) : pm_memusage :=
  mk_pm_memusage (u64 (vss a + vss b)) (u64 (rss a + rss b)) (u64 (pss a + pss b)) (u64 (uss a + uss b)).

(** ** Entries of the page map (pagemap.h) *)

Definition BITS_ (x offset bits : Z) : Z := Z.land (Z.shiftr x offset) (Z.shiftl 1 bits - 1).
Definition PM_PAGEMAP_PRESENT (x : Z) : bool := negb (BITS_ x 63 1 =? 0).
Definition PM_PAGEMAP_SWAPPED (x : Z) : bool := negb (BITS_ x 62 1 =? 0).
Definition PM_PAGEMAP_PFN (x : Z) : Z := BITS_ x 0 55.
Definition PM_PAGE_REFERENCED : Z := 4.

Definition PM_MAP_READ : Z := 1.
Definition PM_MAP_WRITE : Z := 2.
Definition PM_MAP_EXEC : Z := 4.

(** ** State *)

(** [pm_allocs]: whether the next calls of [malloc] succeed; they do when it is empty.
    [pm_cleared]: the processes whose references were cleared. *)
Record pm_state := mk_pm_state { pm_errno : Z; pm_allocs : list bool; pm_cleared : list Z }.

Record pm_map := mk_pm_map { m_start : Z; m_end : Z; m_offset : Z; m_flags : Z; m_name : list Z }.
Record pm_process := mk_pm_process { pid : Z; maps : list pm_map }.

Definition errno : M pm_state Z := do s <- get; mret' (pm_errno s).
Definition set_errno (e : Z) : M pm_state unit :=
  modify (fun s => mk_pm_state e (pm_allocs s) (pm_cleared s)).
Definition alloc : M pm_state bool :=
  do s <- get;
  match pm_allocs s with
  | [] => mret' true
  | b :: rest =>
      put (mk_pm_state (if b : bool then pm_errno s else ENOMEM) rest (pm_cleared s));;;
      mret' b
  end.

(** [lseek(fd, off, SEEK_SET)] and [read] of [n] bytes there. *)
Definition lseek_set (off : Z) : M pm_state Z :=
  if s64 off <? 0 then set_errno EINVAL;;; mret' (-1) else mret' (s64 off).
Definition read_at (file : Z -> Z -> read_result) (off n : Z) : M pm_state (option (list Z)) :=
  match file off n with
  | Read_error e => set_errno e;;; mret' None
  | Read_bytes bs => mret' (Some bs)
  end.

Section pagemap.
Context (pagesize : Z).
Context (kpagecount kpageflags : Z -> Z -> read_result).
Context (pagemap : Z -> Z -> Z -> read_result).

(** ** The kernel's tables (pm_kernel.c) *)

(** An [uint64_t] read into a variable that held [v]; a short read changes its first
    bytes. *)
Definition read_u64 (file : Z -> Z -> read_result) (pfn v : Z) : M pm_state (Z * Z) :=
  do off <- lseek_set (u64 (pfn * 8));
  if off =? -1 then do e <- errno; mret' (e, v)
  else
    do r <- read_at file off 8;
    match r with
    | None => do e <- errno; mret' (e, v)
    | Some bs =>
        let v := le_value (bs ++ drop (length bs) (le_bytes 8 v)) in
        if Z.of_nat (length bs) <? 8 then do e <- errno; mret' (e, v) else mret' (0, v)
    end.
Definition pm_kernel_count (pfn count : Z) : M pm_state (Z * Z) := read_u64 kpagecount pfn count.
Definition pm_kernel_flags (pfn flags : Z) : M pm_state (Z * Z) := read_u64 kpageflags pfn flags.

Definition INIT_PIDS : Z := 20.

(** The names of /proc that begin with a number. *)
Fixpoint pids_loop (names : list (list Z)) (pids : list Z) (pids_size : Z) : M pm_state (Z * list Z) :=
  match names with
  | [] =>
      do ok <- alloc;
      if ok then mret' (0, pids) else do e <- errno; mret' (e, [])
  | name :: names =>
      match scan_dec name with
      | None => pids_loop names pids pids_size
      | Some (pid, _) =>
          if pids_size <=? Z.of_nat (length pids) then
            do ok <- alloc;
            if ok then pids_loop names (pids ++ [pid]) (2 * pids_size) else do e <- errno; mret' (e, [])
          else pids_loop names (pids ++ [pid]) pids_size
      end
  end.
(** [pm_kernel_pids]; [names]: the directory, or the error of [opendir]. *)
Definition pm_kernel_pids (names : Z + list (list Z)) : M pm_state (Z * list Z) :=
  match names with
  | inl e => set_errno e;;; mret' (e, [])
  | inr names =>
      do ok <- alloc;
      if ok then pids_loop names [] INIT_PIDS else do e <- errno; mret' (e, [])
  end.

(** ** Ranges of a process (pm_process.c) *)

(** [pm_process_pagemap_range]: the error and the entries. The numbers of pages are
    [int]s, as is the result of [read]. *)
Definition pm_process_pagemap_range (pid low high : Z) : M pm_state (Z * list Z) :=
  if high <=? low then mret' (-1, [])
  else
    let firstpage := s32 (low / pagesize) in
    let numpages := s32 ((high - low) / pagesize) in
    do ok <- alloc;
    if negb ok then do e <- errno; mret' (e, [])
    else
      do off <- lseek_set (u64 (firstpage * 8));
      if off =? -1 then do e <- errno; mret' (e, [])
      else
        do r <- read_at (pagemap pid) off (u64 (numpages * 8));
        match r with
        | None => do e <- errno; mret' (e, [])
        | Some bs =>
            let error := s32 (Z.of_nat (length bs)) in
            if error =? 0 then mret' (0, [])
            else if error <? 0 then do e <- errno; mret' (e, [])
            else if error <? s32 (u64 (numpages * 8)) then mret' (-1, [])
            else
              do range <- deref (mapM (fun i => load 8 bs (8 * Z.of_nat i)) (seq 0 (Z.to_nat numpages)));
              mret' (0, range)
        end.

(** ** Mappings (pm_map.c) *)

Definition pm_map_pagemap (pid : Z) (m : pm_map) : M pm_state (Z * list Z) :=
  pm_process_pagemap_range pid (m_start m) (m_end m).

(** What a page with this count adds: [pagesize / count] is an unsigned division. *)
Definition add_page (count : Z) (usage : pm_memusage) : pm_memusage :=
  mk_pm_memusage (vss usage)
    (u64 (rss usage + (if 1 <=? count then pagesize else 0)))
    (u64 (pss usage + (if 1 <=? count then pagesize / count else 0)))
    (u64 (uss usage + (if count =? 1 then pagesize else 0))).
Definition add_vss (usage : pm_memusage) : pm_memusage :=
  mk_pm_memusage (u64 (vss usage + pagesize)) (rss usage) (pss usage) (uss usage).

(** The loop of [pm_map_usage]; [count] is what the variable holds. *)
Fixpoint usage_loop (entries : list Z) (count : Z) (usage : pm_memusage) : M pm_state (Z * pm_memusage) :=
  match entries with
  | [] => mret' (0, usage)
  | x :: entries =>
      if negb (PM_PAGEMAP_PRESENT x) || PM_PAGEMAP_SWAPPED x then usage_loop entries count usage
      else
        do (error, count) <- pm_kernel_count (PM_PAGEMAP_PFN x) count;
        if negb (error =? 0) then mret' (error, usage)
        else usage_loop entries count (add_page count (add_vss usage))
  end.

(** [uninit_count], [uninit_flags]: the variables before the first iteration. *)
Context (uninit_count uninit_flags : Z).

(** [pm_map_usage]: the error, and what [usage_out] points to, which held [out]. *)
Definition pm_map_usage (pid : Z) (m : pm_map) (out : pm_memusage) : M pm_state (Z * pm_memusage) :=
  do (error, entries) <- pm_map_pagemap pid m;
  if negb (error =? 0) then mret' (error, out)
  else
    do (error, usage) <- usage_loop entries uninit_count pm_memusage_zero;
    if negb (error =? 0) then mret' (error, out) else mret' (0, usage).

Fixpoint workingset_loop (entries : list Z) (count flags : Z) (ws : pm_memusage) : M pm_state (Z * pm_memusage) :=
  match entries with
  | [] => mret' (0, ws)
  | x :: entries =>
      do (error, flags) <- pm_kernel_flags (PM_PAGEMAP_PFN x) flags;
      if negb (error =? 0) then mret' (error, ws)
      else if Z.land flags PM_PAGE_REFERENCED =? 0 then workingset_loop entries count flags ws
      else
        do (error, count) <- pm_kernel_count (PM_PAGEMAP_PFN x) count;
        if negb (error =? 0) then mret' (error, ws)
        else if PM_PAGEMAP_SWAPPED x then workingset_loop entries count flags (add_vss ws)
        else workingset_loop entries count flags (add_page count (add_vss ws))
  end.

(** [pm_map_workingset] returns 0 also after an error in the loop. *)
Definition pm_map_workingset (pid : Z) (m : pm_map) (out : pm_memusage) : M pm_state (Z * pm_memusage) :=
  do (error, entries) <- pm_map_pagemap pid m;
  if negb (error =? 0) then mret' (error, out)
  else
    do (error, ws) <- workingset_loop entries uninit_count uninit_flags pm_memusage_zero;
    if negb (error =? 0) then mret' (0, out) else mret' (0, ws).

(** ** Processes *)

(** The loops over the mappings; [map_usage] is the variable of the loop. *)
Fixpoint maps_loop (f : pm_map -> pm_memusage -> M pm_state (Z * pm_memusage)) (l : list pm_map)
    (map_usage usage : pm_memusage) : M pm_state (Z * pm_memusage) :=
  match l with
  | [] => mret' (0, usage)
  | m :: l =>
      do (error, map_usage) <- f m map_usage;
      if negb (error =? 0) then mret' (error, usage)
      else maps_loop f l map_usage (pm_memusage_add usage map_usage)
  end.

(** [uninit_usage]: the variable [map_usage] before the loop. *)
Context (uninit_usage : pm_memusage).

Definition pm_process_usage (p : pm_process) (out : pm_memusage) : M pm_state (Z * pm_memusage) :=
  do (error, usage) <- maps_loop (pm_map_usage (pid p)) (maps p) uninit_usage pm_memusage_zero;
  if negb (error =? 0) then mret' (error, out) else mret' (0, usage).

(** [pm_process_workingset]; [clear]: the descriptor of clear_refs, or the error of
    [open]. *)
Definition pm_process_workingset (clear : Z -> Z + Z) (p : pm_process) (out : option pm_memusage) (reset : bool) :
    M pm_state (Z * option pm_memusage) :=
  do (error, out) <-
    match out with
    | Some ws_out =>
        do (error, ws) <- maps_loop (pm_map_workingset (pid p)) (maps p) uninit_usage pm_memusage_zero;
        if negb (error =? 0) then mret' (error, Some ws_out) else mret' (0, Some ws)
    | None => mret' (0, None)
    end;
  if negb (error =? 0) then mret' (error, out)
  else if reset then
    match clear (pid p) with
    | inl e => set_errno e;;; mret' (e, out)
    | inr _ =>
        modify (fun s => mk_pm_state (pm_errno s) (pm_allocs s) (pm_cleared s ++ [pid p]));;;
        mret' (0, out)
    end
  else mret' (0, out).

Definition pm_process_maps (p : pm_process) : M pm_state (Z * list pm_map) :=
  match maps p with
  | [] => mret' (0, [])
  | l => do ok <- alloc; if ok then mret' (0, l) else do e <- errno; mret' (e, [])
  end.
End pagemap.

(** ** Reading the maps *)

Definition INITIAL_MAPS : Z := 10.
Definition MAX_LINE : nat := 1024.
Definition MAX_PERMS : nat := 5.

(** [%lx-%lx %s %lx %*s %*d %1024s] *)
Definition maps_format : list directive :=
  [Hex true; Lit 45; Hex true; Space; Str true None; Space; Hex true; Space; Str false None; Space; Dec false;
   Space; Str true (Some MAX_LINE)].

(** What [sscanf] stores: the members of the new map, which [calloc] made 0, and the
    variables [perms] and [name], which keep what they held. *)
Definition store_fields (vs : list value) (perms name : list Z) : Z * Z * Z * list Z * list Z :=
  match vs with
  | [Num_ a] => (a, 0, 0, perms, name)
  | [Num_ a; Num_ b] => (a, b, 0, perms, name)
  | [Num_ a; Num_ b; Str_ p] => (a, b, 0, p, name)
  | [Num_ a; Num_ b; Str_ p; Num_ o] => (a, b, o, p, name)
  | [Num_ a; Num_ b; Str_ p; Num_ o; Str_ n] => (a, b, o, p, n)
  | _ => (0, 0, 0, perms, name)
  end.
Definition map_flags (perms : list Z) : Z :=
  Z.lor (if bool_decide (perms !! 0%nat = Some 114) then PM_MAP_READ else 0)
    (Z.lor (if bool_decide (perms !! 1%nat = Some 119) then PM_MAP_WRITE else 0)
       (if bool_decide (perms !! 2%nat = Some 120) then PM_MAP_EXEC else 0)).

(** One line; stuck when [perms] or [name] is written beyond its end. *)
Definition read_map (line perms name : list Z) : M pm_state (option pm_map * list Z * list Z) :=
  let '(a, b, o, perms, name) := store_fields (sscanf (length line) maps_format line) perms name in
  if bool_decide (MAX_PERMS <= length perms)%nat || bool_decide (MAX_LINE <= length name)%nat then stuck
  else
    do ok <- alloc;
    if ok then mret' (Some (mk_pm_map a b o (map_flags perms) name), perms, name)
    else mret' (None, perms, name).

Fixpoint read_maps_loop (lines : list (list Z)) (maps : list pm_map) (maps_size : Z) (perms name : list Z) :
    M pm_state (Z * list pm_map) :=
  match lines with
  | [] =>
      do ok <- alloc;
      if ok || bool_decide (maps = []) then mret' (0, maps) else do e <- errno; mret' (e, [])
  | line :: lines =>
      let grow := maps_size <=? Z.of_nat (length maps) in
      do ok <- (if grow then alloc else mret' true);
      if negb ok then do e <- errno; mret' (e, [])
      else
        let maps_size := if grow then s32 (maps_size * 2) else maps_size in
        do ok <- alloc;
        if negb ok then stuck
        else
          do (m, perms, name) <- read_map line perms name;
          match m with
          | None => do e <- errno; mret' (e, [])
          | Some m => read_maps_loop lines (maps ++ [m]) maps_size perms name
          end
  end.

(** [read_maps]: [file] is /proc/<pid>/maps, or the error of [fopen]; [perms] and
    [name] are what the arrays hold at first. *)
Definition read_maps (file : Z + list Z) (perms name : list Z) : M pm_state (Z * list pm_map) :=
  do ok <- alloc;
  if negb ok then do e <- errno; mret' (e, [])
  else
    match file with
    | inl e => set_errno e;;; mret' (e, [])
    | inr text => read_maps_loop (c_string <$> file_lines MAX_LINE text) [] INITIAL_MAPS perms name
    end.

(** [pm_process_create]; [open_pagemap] is 0 or the error of [open]. *)
Definition pm_process_create (open_pagemap : Z) (file : Z + list Z) (perms name : list Z) (pid : Z) :
    M pm_state (Z * option pm_process) :=
  do ok <- alloc;
  if negb ok then do e <- errno; mret' (e, None)
  else if negb (open_pagemap =? 0) then set_errno open_pagemap;;; mret' (open_pagemap, None)
  else
    do (error, l) <- read_maps file perms name;
    if negb (error =? 0) then mret' (error, None) else mret' (0, Some (mk_pm_process pid l)).
