(* ===== verification/PagemapProps.v ===== *)
(** * What the memory usage means (properties of Pagemap)

    The usage of a mapping, and of a process, is a sum over the frames of its present
    pages. The proportional sizes of any processes add up to the memory of their
    frames. *)

From Stdlib Require Import String.
From S2P Require Import Prelude Bytes Scanf Pagemap.

(** ** Numbers in the bytes of a file *)

Lemma load_nth es i e :
  es !! i = Some e -> load 8 (mjoin (le_bytes 8 <$> es)) (8 * Z.of_nat i) = Some (e mod 2 ^ 64).
Proof.
  revert i. induction es as [|x es IH]; intros [|i] Hi; try done; cbn [fmap list_fmap mjoin list_join].
  - injection Hi as ->. rewrite load_app_l by (rewrite ?length_le_bytes; lia). by rewrite load_le_bytes.
  - cbn in Hi. rewrite load_app_r by (rewrite length_le_bytes; lia). rewrite length_le_bytes.
    replace (8 * Z.of_nat (S i) - Z.of_nat 8) with (8 * Z.of_nat i) by lia. by apply IH.
Qed.

Lemma load_entries es :
  Forall (fun e => 0 <= e < 2 ^ 64) es ->
  mapM (fun i => load 8 (mjoin (le_bytes 8 <$> es)) (8 * Z.of_nat i)) (seq 0 (length es)) = Some es.
Proof.
  intros He. apply mapM_Some. apply Forall2_same_length_lookup_2; [by rewrite length_seq|].
  intros i j e Hj Hi. apply lookup_seq in Hj as [-> _]. pose proof (load_nth _ _ _ Hi) as E.
  rewrite Forall_forall in He. rewrite Z.mod_small in E; [exact E|]. apply He. by eapply list_elem_of_lookup_2.
Qed.

Lemma length_entries es : length (mjoin (le_bytes 8 <$> es)) = (8 * length es)%nat.
Proof.
  induction es as [|e es IH]; [done|].
  change (mjoin (le_bytes 8 <$> (e :: es))) with (le_bytes 8 e ++ mjoin (le_bytes 8 <$> es)).
  rewrite length_app, length_le_bytes, IH. cbn [length]. lia.
Qed.

Lemma pfn_range x : 0 <= PM_PAGEMAP_PFN x < 2 ^ 55.
Proof.
  unfold PM_PAGEMAP_PFN, BITS_. change (Z.shiftl 1 55 - 1) with (Z.ones 55). rewrite Z.land_ones by lia.
  apply Z.mod_pos_bound. lia.
Qed.

(** ** Specification *)

(** The frames of the pages that are present. *)
Definition in_memory (x : Z) : bool := PM_PAGEMAP_PRESENT x && negb (PM_PAGEMAP_SWAPPED x).
Fixpoint frames (entries : list Z) : list Z :=
  match entries with
  | [] => []
  | x :: entries => if in_memory x then PM_PAGEMAP_PFN x :: frames entries else frames entries
  end.

Section spec.
Context (pagesize : Z) (counts : Z -> Z).

Definition usage_of_frame (pfn : Z) : pm_memusage :=
  mk_pm_memusage pagesize (if 1 <=? counts pfn then pagesize else 0)
    (if 1 <=? counts pfn then pagesize / counts pfn else 0) (if counts pfn =? 1 then pagesize else 0).
Definition plus (a b : pm_memusage) : pm_memusage :=
  mk_pm_memusage (vss a + vss b) (rss a + rss b) (pss a + pss b) (uss a + uss b).
Fixpoint usage_of (l : list Z) : pm_memusage :=
  match l with
  | [] => pm_memusage_zero
  | pfn :: l => plus (usage_of_frame pfn) (usage_of l)
  end.

Lemma plus_assoc a b c : plus a (plus b c) = plus (plus a b) c.
Proof. unfold plus. cbn. f_equal; lia. Qed.
Lemma plus_zero a : plus a pm_memusage_zero = a.
Proof. destruct a. unfold plus. cbn. f_equal; lia. Qed.
Lemma usage_of_app l1 l2 : usage_of (l1 ++ l2) = plus (usage_of l1) (usage_of l2).
Proof.
  induction l1 as [|x l1 IH]; cbn; [by destruct (usage_of l2)|]. by rewrite IH, plus_assoc.
Qed.

(** [uss <= pss <= rss <= vss] *)
Definition ordered (u : pm_memusage) : Prop := 0 <= uss u <= pss u /\ pss u <= rss u <= vss u.
Lemma ordered_plus a b : ordered a -> ordered b -> ordered (plus a b).
Proof. unfold ordered, plus. cbn. lia. Qed.
Lemma ordered_frame pfn : 0 < pagesize -> ordered (usage_of_frame pfn).
Proof.
  intros Hp. unfold ordered, usage_of_frame. cbn. destruct (Z.leb_spec 1 (counts pfn)), (Z.eqb_spec (counts pfn) 1); try lia.
  - rewrite e, Z.div_1_r. lia.
  - pose proof (Z.div_pos pagesize (counts pfn)). pose proof (Z.div_le_upper_bound pagesize (counts pfn) pagesize). nia.
Qed.
Lemma ordered_usage l : 0 < pagesize -> ordered (usage_of l).
Proof. intros Hp. induction l as [|x l IH]; cbn; [unfold ordered; cbn; lia|]. apply ordered_plus; [by apply ordered_frame|done]. Qed.
Lemma vss_usage l : vss (usage_of l) = pagesize * Z.of_nat (length l).
Proof. induction l as [|x l IH]; cbn [usage_of plus vss usage_of_frame length pm_memusage_zero]; lia. Qed.
End spec.

(** ** The code computes it *)

Section correct.
Context (pagesize : Z) (kpagecount kpageflags : Z -> Z -> read_result) (pagemap : Z -> Z -> Z -> read_result).
Context (counts : Z -> Z).
Context (Hpage : 0 < pagesize < 2 ^ 31).

(** The table of the counts holds a number for each frame. *)
Definition counts_readable : Prop :=
  forall pfn, 0 <= pfn < 2 ^ 55 ->
    0 <= counts pfn < 2 ^ 64 /\ kpagecount (pfn * 8) 8 = Read_bytes (le_bytes 8 (counts pfn)).

(** The page map of a process has the entries [es] for a mapping, or ends before it. *)
Record map_readable (pid : Z) (m : pm_map) (es : list Z) : Prop := {
  mr_range : 0 <= m_start m < m_end m;
  mr_small : m_end m / pagesize < 2 ^ 28;
  mr_entries : Forall (fun e => 0 <= e < 2 ^ 64) es;
  mr_length : es = [] \/ Z.of_nat (length es) = (m_end m - m_start m) / pagesize;
  mr_file : pagemap pid (8 * (m_start m / pagesize)) (8 * ((m_end m - m_start m) / pagesize)) =
              Read_bytes (mjoin (le_bytes 8 <$> es))
}.

(** A state where [malloc] succeeds. *)
Definition roomy (s : pm_state) : Prop := pm_allocs s = [].

Lemma alloc_roomy s : roomy s -> alloc s = Done true s.
Proof. intros Hs. unfold alloc. erewrite mbind_done by done. by rewrite Hs. Qed.

Lemma lseek_small off s : 0 <= off < 2 ^ 63 -> lseek_set off s = Done off s.
Proof. intros Ho. unfold lseek_set. rewrite s64_small by lia. by rewrite (proj2 (Z.ltb_ge off 0)) by lia. Qed.

Lemma pm_kernel_count_done pfn v s :
  counts_readable -> 0 <= pfn < 2 ^ 55 -> pm_kernel_count kpagecount pfn v s = Done (0, counts pfn) s.
Proof.
  intros Hc Hp. destruct (Hc pfn Hp) as [Hr E]. unfold pm_kernel_count, read_u64.
  rewrite u64_small by lia. erewrite mbind_done by (apply lseek_small; lia).
  rewrite (proj2 (Z.eqb_neq _ _)) by lia. unfold read_at. rewrite E. erewrite mbind_done by done.
  cbv beta iota zeta. rewrite length_le_bytes. change (Z.of_nat 8 <? 8) with false. cbv iota zeta. unfold mret'. do 2 f_equal.
  rewrite drop_ge by (by rewrite length_le_bytes). rewrite app_nil_r, le_value_bytes.
  by apply Z.mod_small.
Qed.

Lemma pm_map_pagemap_done pid m es s :
  map_readable pid m es -> roomy s -> pm_map_pagemap pagesize pagemap pid m s = Done (0, es) s.
Proof.
  intros [[H0 Hlt] Hsm He Hl Hf] Hs. unfold pm_map_pagemap, pm_process_pagemap_range.
  rewrite (proj2 (Z.leb_gt _ _)) by lia.
  pose proof (Z.div_pos (m_start m) pagesize H0 ltac:(lia)).
  pose proof (Z.div_pos (m_end m - m_start m) pagesize ltac:(lia) ltac:(lia)).
  pose proof (Z.div_le_mono (m_start m) (m_end m) pagesize ltac:(lia) ltac:(lia)).
  pose proof (Z.div_le_mono (m_end m - m_start m) (m_end m) pagesize ltac:(lia) ltac:(lia)).
  set (fp := m_start m / pagesize) in *. set (np := (m_end m - m_start m) / pagesize) in *. cbv zeta.
  rewrite !s32_small by lia. rewrite (mbind_done _ _ _ _ _ (alloc_roomy _ Hs)). cbn [negb].
  rewrite !u64_small by lia. erewrite mbind_done by (apply lseek_small; lia).
  rewrite (proj2 (Z.eqb_neq _ _)) by lia. unfold read_at.
  rewrite (Z.mul_comm fp), (Z.mul_comm np), Hf. erewrite mbind_done by done.
  cbv beta iota zeta. rewrite length_entries. destruct Hl as [->|Hl].
  - cbn [length Nat.mul]. change (s32 (Z.of_nat (8 * 0)) =? 0) with true. done.
  - rewrite !s32_small by lia. destruct (Z.eqb_spec (Z.of_nat (8 * length es)) 0) as [E|E].
    + assert (es = []) as -> by (destruct es; [done|cbn in E; lia]). done.
    + rewrite (proj2 (Z.ltb_ge (Z.of_nat (8 * length es)) 0)) by lia.
      rewrite (proj2 (Z.ltb_ge (Z.of_nat (8 * length es)) (8 * np))) by lia.
      replace (Z.to_nat np) with (length es) by lia. rewrite load_entries by done. done.
Qed.

(** A page is added without overflow. *)
Lemma add_page_plus pfn u :
  ordered u -> vss u + pagesize < 2 ^ 64 ->
  add_page pagesize (counts pfn) (add_vss pagesize u) = plus u (usage_of_frame pagesize counts pfn).
Proof.
  intros [Hu1 Hu2] Hv. pose proof (ordered_frame pagesize counts pfn (proj1 Hpage)) as [Ho1 Ho2].
  unfold add_page, add_vss, plus, usage_of_frame in *. cbn in *. f_equal; apply u64_small; lia.
Qed.

Lemma usage_loop_done es count u s :
  counts_readable -> ordered u -> vss u + pagesize * Z.of_nat (length es) < 2 ^ 64 ->
  usage_loop pagesize kpagecount es count u s = Done (0, plus u (usage_of pagesize counts (frames es))) s.
Proof.
  intros Hc. revert count u. induction es as [|x es IH]; intros count u Ho Hv.
  - cbn. by rewrite plus_zero.
  - cbn [usage_loop frames]. cbn [length] in Hv. unfold in_memory.
    destruct (PM_PAGEMAP_PRESENT x), (PM_PAGEMAP_SWAPPED x); cbn [negb orb andb]; try (apply IH; [done|lia]).
    rewrite (mbind_done _ _ _ _ _ (pm_kernel_count_done _ _ _ Hc (pfn_range x))). cbv beta iota. cbn [Z.eqb negb].
    change (negb (0 =? 0)) with false. cbv iota. rewrite add_page_plus by (done || lia). cbn [usage_of].
    rewrite plus_assoc. apply IH; [apply ordered_plus; [done|apply ordered_frame; lia]|]. cbn [vss plus usage_of_frame]. lia.
Qed.

Lemma pm_map_usage_done pid m es c out s :
  counts_readable -> map_readable pid m es -> roomy s ->
  pm_map_usage pagesize kpagecount pagemap c pid m out s = Done (0, usage_of pagesize counts (frames es)) s.
Proof.
  intros Hc Hm Hs. unfold pm_map_usage. rewrite (mbind_done _ _ _ _ _ (pm_map_pagemap_done _ _ _ _ Hm Hs)).
  cbv beta iota. change (negb (0 =? 0)) with false. cbv iota.
  destruct Hm as [[H0 Hlt] Hsm He Hl _].
  assert (Hlen : Z.of_nat (length es) < 2 ^ 28).
  { destruct Hl as [->|Hl]; [done|]. rewrite Hl.
    pose proof (Z.div_le_mono (m_end m - m_start m) (m_end m) pagesize ltac:(lia) ltac:(lia)). lia. }
  rewrite (mbind_done _ _ _ _ _ (usage_loop_done es c pm_memusage_zero s Hc ltac:(unfold ordered; cbn; lia) ltac:(cbn [vss pm_memusage_zero]; nia))).
  cbv beta iota. change (negb (0 =? 0)) with false. cbv iota. unfold mret'. do 2 f_equal.
  generalize (usage_of pagesize counts (frames es)). by intros [].
Qed.

(** ** Processes *)

Definition all_frames (l : list (list Z)) : list Z := mjoin (frames <$> l).

Lemma maps_loop_done pid ms ess c mu u s :
  counts_readable -> Forall2 (map_readable pid) ms ess -> roomy s -> ordered u ->
  vss u + pagesize * Z.of_nat (length (all_frames ess)) < 2 ^ 64 ->
  maps_loop (pm_map_usage pagesize kpagecount pagemap c pid) ms mu u s =
    Done (0, plus u (usage_of pagesize counts (all_frames ess))) s.
Proof.
  intros Hc Hm Hs. revert mu u. induction Hm as [|m es ms ess Hm _ IH]; intros mu u Ho Hv.
  - cbn. by rewrite plus_zero.
  - change (all_frames (es :: ess)) with (frames es ++ all_frames ess) in *. rewrite length_app in Hv.
    cbn [maps_loop]. rewrite (mbind_done _ _ _ _ _ (pm_map_usage_done _ _ _ _ _ _ Hc Hm Hs)). cbv beta iota.
    change (negb (0 =? 0)) with false. cbv iota.
    pose proof (ordered_usage pagesize counts (frames es) (proj1 Hpage)) as Hf.
    pose proof (vss_usage pagesize counts (frames es)) as Hvs.
    assert (Ep : pm_memusage_add u (usage_of pagesize counts (frames es)) = plus u (usage_of pagesize counts (frames es))).
    { destruct Ho as [Ho1 Ho2]. destruct Hf as [Hf1 Hf2]. unfold pm_memusage_add, plus. f_equal; apply u64_small; nia. }
    rewrite Ep, IH; [by rewrite usage_of_app, plus_assoc|by apply ordered_plus|]. cbn [vss plus]. lia.
Qed.

Lemma pm_process_usage_done p ess c mu out s :
  counts_readable -> Forall2 (map_readable (pid p)) (maps p) ess -> roomy s ->
  pagesize * Z.of_nat (length (all_frames ess)) < 2 ^ 64 ->
  pm_process_usage pagesize kpagecount pagemap c mu p out s = Done (0, usage_of pagesize counts (all_frames ess)) s.
Proof.
  intros Hc Hm Hs Hv. unfold pm_process_usage.
  rewrite (mbind_done _ _ _ _ _ (maps_loop_done (pid p) (maps p) ess c mu pm_memusage_zero s Hc Hm Hs ltac:(unfold ordered; cbn; lia) Hv)).
  cbv beta iota. change (negb (0 =? 0)) with false. cbv iota. unfold mret'. do 2 f_equal.
  generalize (usage_of pagesize counts (all_frames ess)). by intros [].
Qed.
End correct.

(** ** Proportional sizes *)

Definition occurrences (f : Z) (l : list Z) : Z := Z.of_nat (length (filter (fun g => g = f) l)).
Definition sum_over (g : Z -> Z) (l : list Z) : Z := foldr (fun f a => g f + a) 0 l.

Lemma sum_over_cons g f l : sum_over g (f :: l) = g f + sum_over g l.
Proof. reflexivity. Qed.
Lemma sum_over_ext g h l : (forall f, f ∈ l -> g f = h f) -> sum_over g l = sum_over h l.
Proof. induction l as [|x l IH]; intros H; [done|]. rewrite !sum_over_cons, H, IH; [done|set_solver|set_solver]. Qed.
Lemma sum_over_le g h l : (forall f, f ∈ l -> g f <= h f) -> sum_over g l <= sum_over h l.
Proof.
  induction l as [|x l IH]; intros H; [done|]. rewrite !sum_over_cons. pose proof (H x ltac:(set_solver)).
  pose proof (IH ltac:(set_solver)). lia.
Qed.
Lemma sum_over_plus g h l : sum_over (fun f => g f + h f) l = sum_over g l + sum_over h l.
Proof. induction l as [|x l IH]; [done|]. rewrite !sum_over_cons. lia. Qed.
Lemma sum_over_const c l : sum_over (fun _ => c) l = c * Z.of_nat (length l).
Proof. induction l as [|x l IH]; [cbn; lia|]. rewrite sum_over_cons. cbn [length]. lia. Qed.
Lemma sum_over_single x v l :
  NoDup l -> x ∈ l -> sum_over (fun f => if decide (f = x) then v else 0) l = v.
Proof.
  induction 1 as [|y l Hy Hnd IH]; intros Hx; [set_solver|]. rewrite sum_over_cons.
  destruct (decide (y = x)) as [->|Hne].
  - rewrite (sum_over_ext _ (fun _ => 0)), sum_over_const; [lia|]. intros f Hf. case_decide; [by subst|done].
  - rewrite IH by set_solver. lia.
Qed.

(** Counting by frame: a sum over the pages is a sum over the frames. *)
Lemma sum_by_frame (share : Z -> Z) l d :
  NoDup d -> l ⊆ d -> sum_over share l = sum_over (fun f => occurrences f l * share f) d.
Proof.
  intros Hd. induction l as [|x l IH]; intros Hl.
  - rewrite (sum_over_ext (fun f => occurrences f [] * share f) (fun _ => 0)), sum_over_const by done. done.
  - rewrite sum_over_cons, IH by set_solver.
    rewrite <-(sum_over_single x (share x) d Hd ltac:(set_solver)), <-sum_over_plus. apply sum_over_ext.
    intros f _. unfold occurrences. rewrite filter_cons. destruct (decide (x = f)) as [->|Hne].
    + rewrite decide_True by done. cbn [length]. lia.
    + rewrite decide_False by congruence. lia.
Qed.

Lemma occurrences_sum l d : NoDup d -> l ⊆ d -> Z.of_nat (length l) = sum_over (fun f => occurrences f l) d.
Proof.
  intros Hd Hl. pose proof (sum_by_frame (fun _ => 1) l d Hd Hl) as E. rewrite sum_over_const in E.
  rewrite (sum_over_ext _ (fun f => occurrences f l * 1)); [lia|]. intros; lia.
Qed.

Lemma occurrences_pos f l : f ∈ l -> 1 <= occurrences f l.
Proof.
  intros Hf. unfold occurrences. assert (f ∈ filter (fun g => g = f) l) as H by (by apply list_elem_of_filter).
  destruct (filter _ l); [set_solver|]. cbn [length]. lia.
Qed.

Section proportional.
Context (pagesize : Z) (counts : Z -> Z).

Definition share (f : Z) : Z := if 1 <=? counts f then pagesize / counts f else 0.
Lemma pss_sum l : pss (usage_of pagesize counts l) = sum_over share l.
Proof. induction l as [|x l IH]; [done|]. rewrite sum_over_cons, <-IH. done. Qed.

(** The memory of the frames, up to less than a byte for each page. *)
Lemma pss_bounds l :
  (forall f, f ∈ l -> counts f = occurrences f l) ->
  let memory := pagesize * Z.of_nat (size (list_to_set l : gset Z)) in
  memory - Z.of_nat (length l) <= pss (usage_of pagesize counts l) <= memory.
Proof.
  intros Hc memory. set (d := elements (list_to_set l : gset Z)).
  assert (Hd : NoDup d) by apply NoDup_elements.
  assert (Hl : l ⊆ d) by (intros f Hf; apply elem_of_elements; by apply elem_of_list_to_set).
  assert (Hm : memory = sum_over (fun _ => pagesize) d) by (by rewrite sum_over_const).
  assert (Hin : forall f, f ∈ d -> f ∈ l) by (intros f Hf; apply elem_of_elements in Hf; by apply elem_of_list_to_set in Hf).
  rewrite pss_sum, (sum_by_frame share l d Hd Hl), (occurrences_sum l d Hd Hl), Hm.
  assert (Hterm : forall f, f ∈ d -> pagesize - occurrences f l <= occurrences f l * share f <= pagesize).
  { intros f Hf. pose proof (occurrences_pos f l (Hin f Hf)). unfold share. rewrite (Hc f (Hin f Hf)).
    rewrite (proj2 (Z.leb_le _ _)) by done. pose proof (Z.div_mod pagesize (occurrences f l) ltac:(lia)).
    pose proof (Z.mod_pos_bound pagesize (occurrences f l) ltac:(lia)). lia. }
  split.
  - assert (sum_over (fun _ => pagesize) d <= sum_over (fun f => occurrences f l * share f + occurrences f l) d); [|rewrite sum_over_plus in *; lia].
    apply sum_over_le. intros f Hf. specialize (Hterm f Hf). lia.
  - apply sum_over_le. intros f Hf. apply (Hterm f Hf).
Qed.
End proportional.

(** ** Properties *)

(** C24: [pm_process_usage] adds up the pages of the process. When /proc gives the page
    maps and the counts, it returns 0 and the sums over the frames of the pages that
    are present and not swapped, without overflow: the page size for [vss], for [rss]
    when the frame is mapped at all, divided by the count for [pss], and only for
    frames mapped once for [uss]; so [uss <= pss <= rss <= vss]. *)
Theorem pm_process_usage_correct (pagesize : Z) (kpagecount : Z -> Z -> read_result) (pagemap : Z -> Z -> Z -> read_result)
    (counts : Z -> Z) (p : pm_process) (entries : list (list Z)) (uninit_count : Z) (uninit_usage out : pm_memusage)
    (s : pm_state)
  (Hpage : 0 < pagesize < 2 ^ 31) (Hcounts : counts_readable kpagecount counts)
  (Hmaps : Forall2 (map_readable pagesize pagemap (pid p)) (maps p) entries) (Hroom : roomy s)
  (Hsmall : pagesize * Z.of_nat (length (all_frames entries)) < 2 ^ 64) :
  exists u, pm_process_usage pagesize kpagecount pagemap uninit_count uninit_usage p out s = Done (0, u) s /\
    vss u = pagesize * Z.of_nat (length (all_frames entries)) /\
    rss u = sum_over (fun f => if 1 <=? counts f then pagesize else 0) (all_frames entries) /\
    pss u = sum_over (fun f => if 1 <=? counts f then pagesize / counts f else 0) (all_frames entries) /\
    uss u = sum_over (fun f => if counts f =? 1 then pagesize else 0) (all_frames entries) /\
    0 <= uss u <= pss u /\ pss u <= rss u <= vss u.
Proof.
  exists (usage_of pagesize counts (all_frames entries)).
  split; [by apply pm_process_usage_done|]. rewrite vss_usage.
  destruct (ordered_usage pagesize counts (all_frames entries) (proj1 Hpage)) as [Ho1 Ho2]. rewrite vss_usage in Ho2.
  split_and!; [done| | | |lia..]; clear; induction (all_frames entries) as [|x l IH]; try done;
    rewrite sum_over_cons, <-IH; done.
Qed.

(** The proportional sizes add up to the memory. When the kernel's count of each
    frame is the number of the pages of these processes that are in it, the [pss] of
    the processes, as [pm_process_usage] returns them, sum up to the size of their
    distinct frames, short by less than a byte for each page. *)
Theorem pss_sums_to_memory (pagesize : Z) (kpagecount : Z -> Z -> read_result) (pagemap : Z -> Z -> Z -> read_result)
    (counts : Z -> Z) (procs : list (pm_process * list (list Z))) (uninit_count : Z) (uninit_usage out : pm_memusage)
    (s : pm_state)
  (Hpage : 0 < pagesize < 2 ^ 31) (Hcounts : counts_readable kpagecount counts) (Hroom : roomy s)
  (Hmaps : Forall (fun pe => Forall2 (map_readable pagesize pagemap (pid pe.1)) (maps pe.1) pe.2 /\
             pagesize * Z.of_nat (length (all_frames pe.2)) < 2 ^ 64) procs) :
  let pages := mjoin ((fun pe => all_frames pe.2) <$> procs) in
  (forall f, f ∈ pages -> counts f = occurrences f pages) ->
  exists us, Forall2 (fun pe u => pm_process_usage pagesize kpagecount pagemap uninit_count uninit_usage pe.1 out s =
                                    Done (0, u) s) procs us /\
    let memory := pagesize * Z.of_nat (size (list_to_set pages : gset Z)) in
    memory - Z.of_nat (length pages) <= foldr (fun u a => pss u + a) 0 us <= memory.
Proof.
  intros pages Hocc. exists ((fun pe => usage_of pagesize counts (all_frames pe.2)) <$> procs). split.
  - apply Forall2_fmap_r, Forall_Forall2_diag. eapply Forall_impl; [exact Hmaps|].
    intros pe [Hm Hl]. by apply pm_process_usage_done.
  - assert (E : foldr (fun u a => pss u + a) 0 ((fun pe => usage_of pagesize counts (all_frames pe.2)) <$> procs) =
      pss (usage_of pagesize counts pages)).
    { subst pages. clear. induction procs as [|pe procs IH]; [done|].
      change (mjoin ((fun pe => all_frames pe.2) <$> pe :: procs)) with (all_frames pe.2 ++ mjoin ((fun pe => all_frames pe.2) <$> procs)).
      rewrite usage_of_app. cbn. by rewrite IH. }
    rewrite E. by apply pss_bounds.
Qed.

(** ** Witnesses

    Two processes that share frame 5; the first has frame 6 for itself. *)
Definition two_counts (f : Z) : Z := if f =? 5 then 2 else if f =? 6 then 1 else 0.
Definition two_kpagecount (off n : Z) : read_result := Read_bytes (le_bytes 8 (two_counts (off / 8))).
Definition two_entries (pid : Z) : list Z := if pid =? 1 then [2 ^ 63 + 5; 2 ^ 63 + 6] else [2 ^ 63 + 5].
Definition two_pagemap (pid off n : Z) : read_result := Read_bytes (mjoin (le_bytes 8 <$> two_entries pid)).
Definition process1 : pm_process := mk_pm_process 1 [mk_pm_map 4096 12288 0 1 []].
Definition process2 : pm_process := mk_pm_process 2 [mk_pm_map 8192 12288 0 1 []].
Definition pm_start : pm_state := mk_pm_state 0 [] [].

Lemma two_counts_readable : counts_readable two_kpagecount two_counts.
Proof.
  intros pfn Hp. split; [unfold two_counts; destruct (_ =? _); [lia|destruct (_ =? _); lia]|].
  unfold two_kpagecount. by rewrite Z.div_mul.
Qed.
Lemma process1_readable : Forall2 (map_readable 4096 two_pagemap 1) (maps process1) [two_entries 1].
Proof.
  apply Forall2_cons. split; [|apply Forall2_nil_2]. split; [cbn; lia|by vm_compute| |right; by vm_compute|done].
  apply Forall_cons. split; [split; by vm_compute|]. apply Forall_singleton. split; by vm_compute.
Qed.
Lemma process2_readable : Forall2 (map_readable 4096 two_pagemap 2) (maps process2) [two_entries 2].
Proof.
  apply Forall2_cons. split; [|apply Forall2_nil_2]. split; [cbn; lia|by vm_compute| |right; by vm_compute|done].
  apply Forall_singleton. split; by vm_compute.
Qed.

Lemma pm_process_usage_correct_witness :
  exists u, pm_process_usage 4096 two_kpagecount two_pagemap 0 pm_memusage_zero process1 pm_memusage_zero pm_start =
    Done (0, u) pm_start /\ pss u = 6144 /\ uss u = 4096.
Proof.
  destruct (pm_process_usage_correct 4096 two_kpagecount two_pagemap two_counts process1 [two_entries 1] 0
    pm_memusage_zero pm_memusage_zero pm_start) as (u & E & _ & _ & Hp & Hu & _);
    [lia|exact two_counts_readable|exact process1_readable|done|by vm_compute|].
  exists u. split; [exact E|]. rewrite Hp, Hu. split; by vm_compute.
Defined.

Lemma pss_sums_to_memory_witness :
  exists us, length us = 2%nat /\ foldr (fun u a => pss u + a) 0 us <= 8192.
Proof.
  destruct (pss_sums_to_memory 4096 two_kpagecount two_pagemap two_counts
    [(process1, [two_entries 1]); (process2, [two_entries 2])] 0 pm_memusage_zero pm_memusage_zero pm_start)
    as (us & Hus & _ & Hle).
  - lia.
  - exact two_counts_readable.
  - done.
  - apply Forall_cons. split; [split; [exact process1_readable|by vm_compute]|].
    apply Forall_singleton. split; [exact process2_readable|by vm_compute].
  - intros f Hf. assert (f = 5 \/ f = 6) as [-> | ->]; [|by vm_compute..].
    vm_compute in Hf. set_solver.
  - exists us. split; [by apply Forall2_length in Hus|exact Hle].
Defined.

(** A mapping without a name gets the name of the mapping before it, which [sscanf]
    left in the array. *)
Example anonymous_takes_name :
  let text := str "1000-2000 r-xp 00000000 00:00 1 /a"%string ++ 10 :: str "3000-4000 rw-p 00000000 00:00 0"%string ++ [10] in
  exists l, read_maps (inr text) [] [] pm_start = Done (0, l) pm_start /\ m_name <$> l = [str "/a"%string; str "/a"%string].
Proof. eexists. split; [vm_compute; reflexivity|reflexivity]. Qed.

(** An error of the working set's loop is returned as success. *)
Example workingset_hides_error :
  pm_map_workingset 4096 two_kpagecount (fun _ _ => Read_error 5) two_pagemap 0 0 1 (mk_pm_map 4096 12288 0 1 [])
    pm_memusage_zero pm_start = Done (0, pm_memusage_zero) (mk_pm_state 5 [] []).
Proof. by vm_compute. Qed.

(** A short read of the table of counts returns [errno], which it does not set: with 0
    the page is counted with what the variable held. *)
Example short_count_accepted :
  pm_kernel_count (fun _ _ => Read_bytes []) 5 3 pm_start = Done (0, 3) pm_start.
Proof. by vm_compute. Qed.
