(* ===== verification/Showmap.v ===== *)
(** * The mappings of a process by name (showmap/showmap.c)

    The list of mappings is a value: a node belongs to the list or is the one that is
    being read. The text of /proc/<pid>/smaps is a parameter; [None] is a program that
    reads what was never set. *)

From Stdlib Require Import String.
From S2P Require Import Prelude Bytes Scanf.

Record mapinfo := mk_mapinfo {
  mi_start : Z; mi_end : Z;
  mi_size : Z; mi_rss : Z; mi_pss : Z;
  mi_shared_clean : Z; mi_shared_dirty : Z; mi_private_clean : Z; mi_private_dirty : Z;
  mi_is_bss : Z; mi_count : Z;
  mi_name : list Z
}.

Definition is_library (name : list Z) : bool :=
  let len := length name in
  (4 <=? len)%nat && bool_decide (name !! 0%nat = Some 47) && bool_decide (name !! (len - 3)%nat = Some 46) &&
  bool_decide (name !! (len - 2)%nat = Some 115) && bool_decide (name !! (len - 1)%nat = Some 111).

(** [strlcpy] into an array of [size] bytes. *)
Definition strlcpy (size : nat) (s : list Z) : list Z := take (size - 1) s.

(** [%lx-%lx %*s %*x %*x:%*x %*d%n] *)
Definition header_format : list directive :=
  [Hex true; Lit 45; Hex true; Space; Str false None; Space; Hex false; Space; Hex false; Lit 58; Hex false;
   Space; Dec false; Count].

Definition anon_name : list Z := str "[anon]"%string.

(** [parse_header]: the inner [None] is the result -1. *)
Definition parse_header (line : list Z) (prev : option mapinfo) : option (option mapinfo) :=
  match sscanf (length line) header_format line with
  | [Num_ start; Num_ end_; Num_ name_pos] =>
      let rest := skip_space (drop (Z.to_nat name_pos) line) in
      let '(name, is_bss) :=
        match rest with
        | _ :: _ => (strlcpy 128 rest, 0)
        | [] =>
            match prev with
            | Some p => if (start =? mi_end p) && is_library (mi_name p)
                        then (strlcpy 128 (mi_name p), 1) else (strlcpy 128 anon_name, 0)
            | None => (strlcpy 128 anon_name, 0)
            end
        end in
      Some (Some (mk_mapinfo (u32 start) (u32 end_) 0 0 0 0 0 0 0 is_bss 1 name))
  | [Num_ start; Num_ end_] => None
  | _ => Some None
  end.

(** [%63s %d kB] *)
Definition field_format : list directive := [Str true (Some 63%nat); Space; Dec true; Space; Lit 107; Lit 66].

(** [parse_field]: [None] is the result -1. *)
Definition parse_field (mi : mapinfo) (line : list Z) : option mapinfo :=
  let '(mk_mapinfo st en sz rs ps sc sd pc pd bss cnt nm) := mi in
  match sscanf (length line) field_format line with
  | [Str_ field; Num_ size] =>
      let v := u32 size in
      Some (if bool_decide (field = str "Size:"%string) then mk_mapinfo st en v rs ps sc sd pc pd bss cnt nm
            else if bool_decide (field = str "Rss:"%string) then mk_mapinfo st en sz v ps sc sd pc pd bss cnt nm
            else if bool_decide (field = str "Pss:"%string) then mk_mapinfo st en sz rs v sc sd pc pd bss cnt nm
            else if bool_decide (field = str "Shared_Clean:"%string) then mk_mapinfo st en sz rs ps v sd pc pd bss cnt nm
            else if bool_decide (field = str "Shared_Dirty:"%string) then mk_mapinfo st en sz rs ps sc v pc pd bss cnt nm
            else if bool_decide (field = str "Private_Clean:"%string) then mk_mapinfo st en sz rs ps sc sd v pd bss cnt nm
            else if bool_decide (field = str "Private_Dirty:"%string) then mk_mapinfo st en sz rs ps sc sd pc v bss cnt nm
            else mi)
  | _ => None
  end.

Definition order_before (a b : mapinfo) (sort_by_address : bool) : bool :=
  if sort_by_address then
    (mi_start a <? mi_start b) || (mi_start a =? mi_start b) && (mi_end a <? mi_end b)
  else str_lt (mi_name a) (mi_name b).

(** What a mapping of the same name adds to an entry. *)
Definition coalesce (current map : mapinfo) : mapinfo :=
  mk_mapinfo (mi_start current) (mi_end current)
    (u32 (mi_size current + mi_size map)) (u32 (mi_rss current + mi_rss map)) (u32 (mi_pss current + mi_pss map))
    (u32 (mi_shared_clean current + mi_shared_clean map)) (u32 (mi_shared_dirty current + mi_shared_dirty map))
    (u32 (mi_private_clean current + mi_private_clean map)) (u32 (mi_private_dirty current + mi_private_dirty map))
    (Z.land (mi_is_bss current) (mi_is_bss map)) (s32 (mi_count current + 1)) (mi_name current).

(** The loop of [enqueue_map] from [current] on. *)
Fixpoint enqueue_loop (current : list mapinfo) (map : mapinfo) (sort_by_address coalesce_by_name : bool) : list mapinfo :=
  match current with
  | [] => [map]
  | c :: next =>
      if coalesce_by_name && bool_decide (mi_name map = mi_name c) then coalesce c map :: next
      else if order_before map c sort_by_address then map :: c :: next
      else c :: enqueue_loop next map sort_by_address coalesce_by_name
  end.
Definition enqueue_map (head : list mapinfo) (map : option mapinfo) (sort_by_address coalesce_by_name : bool) : list mapinfo :=
  match map with
  | None => head
  | Some map => enqueue_loop head map sort_by_address coalesce_by_name
  end.

(** Without the newline at the end; [None] where the string is empty. *)
Definition chomp (line : list Z) : option (list Z) :=
  match last line with
  | None => None
  | Some c => Some (if c =? 10 then take (length line - 1) line else line)
  end.

Fixpoint load_loop (lines : list (list Z)) (head : list mapinfo) (current : option mapinfo)
    (sort_by_address coalesce_by_name : bool) : option (list mapinfo) :=
  match lines with
  | [] => Some (enqueue_map head current sort_by_address coalesce_by_name)
  | line :: lines =>
      line ← chomp (c_string line);
      match c ← current; parse_field c line with
      | Some c => load_loop lines head (Some c) sort_by_address coalesce_by_name
      | None =>
          next ← parse_header line current;
          match next with
          | Some next =>
              load_loop lines (enqueue_map head current sort_by_address coalesce_by_name) (Some next)
                sort_by_address coalesce_by_name
          | None => load_loop lines head current sort_by_address coalesce_by_name
          end
      end
  end.

(** [load_maps]: the empty list is [NULL]. *)
Definition load_maps (smaps : option (list Z)) (sort_by_address coalesce_by_name : bool) : option (list mapinfo) :=
  match smaps with
  | None => Some []
  | Some text => load_loop (file_lines 1024 text) [] None sort_by_address coalesce_by_name
  end.

(** ** The report *)

Record totals := mk_totals {
  t_size : Z; t_rss : Z; t_pss : Z;
  t_shared_clean : Z; t_shared_dirty : Z; t_private_clean : Z; t_private_dirty : Z;
  t_count : Z
}.

Definition no_totals : totals := mk_totals 0 0 0 0 0 0 0 0.
Definition add_totals (t : totals) (mi : mapinfo) : totals :=
  mk_totals (u32 (t_size t + mi_size mi)) (u32 (t_rss t + mi_rss mi)) (u32 (t_pss t + mi_pss mi))
    (u32 (t_shared_clean t + mi_shared_clean mi)) (u32 (t_shared_dirty t + mi_shared_dirty mi))
    (u32 (t_private_clean t + mi_private_clean mi)) (u32 (t_private_dirty t + mi_private_dirty mi))
    (u32 (t_count t + mi_count mi)).

(** The rows that are printed, and the totals of all. *)
Fixpoint report (terse : bool) (l : list mapinfo) (rows : list mapinfo) (t : totals) : list mapinfo * totals :=
  match l with
  | [] => (rows, t)
  | mi :: l =>
      if terse && (mi_private_dirty mi =? 0) then report terse l rows (add_totals t mi)
      else report terse l (rows ++ [mi]) (add_totals t mi)
  end.

(** [show_map]: the result and what it prints; the outer [None] as for [load_maps]. *)
Definition show_map (verbose terse addresses : bool) (smaps : option (list Z)) : option (Z * list mapinfo * totals) :=
  milist ← load_maps smaps addresses (negb verbose && negb addresses);
  match milist with
  | [] => Some (1, [], no_totals)
  | _ => let '(rows, t) := report terse milist [] no_totals in Some (0, rows, t)
  end.
