(* ===== verification/ShowmapProps.v ===== *)
(** * What the report says (properties of Showmap)

    The list of the report is that of the mappings in the file, sorted, with those of
    one name added up if they are coalesced; no option changes the totals. *)

From Stdlib Require Import String Sorted.
From S2P Require Import Prelude Bytes Scanf Showmap.

(** ** The mappings of the file *)

(** The mappings in the order of the file: the parser alone. *)
Fixpoint parse_maps (lines : list (list Z)) (current : option mapinfo) : option (list mapinfo) :=
  match lines with
  | [] => Some (option_list current)
  | line :: lines =>
      line ← chomp (c_string line);
      match c ← current; parse_field c line with
      | Some c => parse_maps lines (Some c)
      | None =>
          next ← parse_header line current;
          match next with
          | Some next => app (option_list current) <$> parse_maps lines (Some next)
          | None => parse_maps lines current
          end
      end
  end.

Definition enqueue_all (s c : bool) (head l : list mapinfo) : list mapinfo :=
  foldl (fun h m => enqueue_loop h m s c) head l.

Lemma enqueue_option s c head current :
  enqueue_map head current s c = enqueue_all s c head (option_list current).
Proof. by destruct current. Qed.

(** Loading is parsing, then inserting each mapping. *)
Lemma load_loop_parse s c lines head current :
  load_loop lines head current s c = enqueue_all s c head <$> parse_maps lines current.
Proof.
  revert head current. induction lines as [|line lines IH]; intros head current.
  - cbn. by rewrite enqueue_option.
  - cbn [load_loop parse_maps]. destruct (chomp (c_string line)) as [l|]; [|done]. cbn [mbind option_bind].
    destruct (current ≫= (fun c0 => parse_field c0 l)) as [c1|]; [apply IH|].
    destruct (parse_header l current) as [[next|]|]; cbn [mbind option_bind]; [|apply IH|done].
    rewrite IH, enqueue_option. destruct (parse_maps lines (Some next)) as [ms|]; [|done]. cbn.
    f_equal. unfold enqueue_all. by rewrite foldl_app.
Qed.

(** Every mapping counts once before it is coalesced. *)
Definition once (m : mapinfo) : Prop := mi_count m = 1.

Lemma parse_field_once m line m' : once m -> parse_field m line = Some m' -> once m'.
Proof.
  unfold once, parse_field. destruct m as [st en sz rs ps sc sd pc pd bss cnt nm]. cbn [mi_count]. intros ->.
  destruct (sscanf _ field_format _) as [|[|f] [|[v|] [|]]]; try done. intros [= <-].
  repeat (case_bool_decide; [done|]). done.
Qed.
Lemma parse_header_once line prev m : parse_header line prev = Some (Some m) -> once m.
Proof.
  unfold parse_header. destruct (sscanf _ header_format _) as [|[a|] [|[b|] [|[n|] [|]]]]; try done.
  destruct (skip_space _); [destruct prev as [p|]; [destruct (_ && _)|]|]; by intros [= <-].
Qed.

Lemma parse_maps_once lines current l :
  (forall m, current = Some m -> once m) -> parse_maps lines current = Some l -> Forall once l.
Proof.
  revert current l. induction lines as [|line lines IH]; intros current l Hc; cbn [parse_maps].
  - intros [= <-]. destruct current as [m|]; cbn; [apply Forall_singleton; by apply Hc|apply Forall_nil_2].
  - destruct (chomp (c_string line)) as [x|]; [|done]. cbn [mbind option_bind].
    destruct (current ≫= (fun c0 => parse_field c0 x)) as [c1|] eqn:Ef.
    + apply IH. intros m [= <-]. destruct current as [c0|]; [|done]. by eapply parse_field_once, Ef; apply Hc.
    + destruct (parse_header x current) as [[next|]|] eqn:Eh; cbn [mbind option_bind]; [|by apply IH|done].
      intros (ms & Em & ->)%fmap_Some. apply Forall_app. split.
      * destruct current as [m|]; cbn; [apply Forall_singleton; by apply Hc|apply Forall_nil_2].
      * eapply IH; [|exact Em]. intros m [= <-]. by eapply parse_header_once.
Qed.

(** ** Totals *)

Definition sum_of (f : mapinfo -> Z) (l : list mapinfo) : Z := foldr (fun m a => f m + a) 0 l.
Lemma sum_of_cons f m l : sum_of f (m :: l) = f m + sum_of f l.
Proof. reflexivity. Qed.

Lemma u32_add a b : u32 (u32 a + b) = u32 (a + b).
Proof. unfold u32. by rewrite Z.add_mod_idemp_l by lia. Qed.
Lemma u32_add_r a b : u32 (a + u32 b) = u32 (a + b).
Proof. rewrite Z.add_comm, u32_add. by rewrite Z.add_comm. Qed.
Lemma u32_s32 a : u32 (s32 a) = u32 a.
Proof. unfold u32, s32. dlia. Qed.

(** A member that coalescing adds up. *)
Definition additive (f : mapinfo -> Z) : Prop :=
  forall c m, once m -> u32 (f (coalesce c m)) = u32 (f c + f m).

(** The entries of a name are those of the file, in total. *)
Lemma enqueue_sum f s c head m (P : list Z -> bool) :
  additive f -> once m ->
  u32 (sum_of f (filter (fun x => P (mi_name x)) (enqueue_loop head m s c))) =
  u32 (sum_of f (filter (fun x => P (mi_name x)) (m :: head))).
Proof.
  intros Hf Hm. induction head as [|x head IH]; [done|]. cbn [enqueue_loop].
  destruct (c && bool_decide (mi_name m = mi_name x)) eqn:E.
  - apply andb_true_iff in E as [_ En%bool_decide_eq_true]. rewrite !filter_cons.
    change (mi_name (coalesce x m)) with (mi_name x). rewrite En.
    case_decide; [|done]. rewrite !sum_of_cons, <-u32_add, Hf by done. rewrite u32_add. f_equal. lia.
  - destruct (order_before m x s); [done|]. rewrite !filter_cons in *.
    destruct (decide (P (mi_name x))), (decide (P (mi_name m))); rewrite ?sum_of_cons in *; try exact IH;
      rewrite <-(u32_add_r (f x)), IH, u32_add_r; f_equal; lia.
Qed.

Lemma enqueue_all_sum f s c l (P : list Z -> bool) :
  additive f -> Forall once l ->
  u32 (sum_of f (filter (fun x => P (mi_name x)) (enqueue_all s c [] l))) = u32 (sum_of f (filter (fun x => P (mi_name x)) l)).
Proof.
  intros Hf Hl.
  assert (H : forall head, u32 (sum_of f (filter (fun x => P (mi_name x)) (enqueue_all s c head l))) =
    u32 (sum_of f (filter (fun x => P (mi_name x)) head) + sum_of f (filter (fun x => P (mi_name x)) l))).
  { induction Hl as [|m l Hm _ IH]; intros head; [symmetry; exact (f_equal u32 (Z.add_0_r _))|].
    change (enqueue_all s c head (m :: l)) with (enqueue_all s c (enqueue_loop head m s c) l).
    rewrite IH, <-u32_add, enqueue_sum by done. rewrite u32_add, !filter_cons.
    case_decide; rewrite ?sum_of_cons; f_equal; lia. }
  rewrite H. done.
Qed.

(** The totals as sums. *)
Definition totals_of (l : list mapinfo) : totals :=
  mk_totals (u32 (sum_of mi_size l)) (u32 (sum_of mi_rss l)) (u32 (sum_of mi_pss l))
    (u32 (sum_of mi_shared_clean l)) (u32 (sum_of mi_shared_dirty l))
    (u32 (sum_of mi_private_clean l)) (u32 (sum_of mi_private_dirty l)) (u32 (sum_of mi_count l)).

Lemma totals_enqueue s c l (P : list Z -> bool) :
  Forall once l ->
  totals_of (filter (fun x => P (mi_name x)) (enqueue_all s c [] l)) = totals_of (filter (fun x => P (mi_name x)) l).
Proof.
  intros Hl. unfold totals_of. f_equal; apply enqueue_all_sum; try done; intros x m Hm; cbn;
    rewrite ?u32_s32; unfold once in Hm; rewrite ?Hm; unfold u32; try apply Z.mod_mod; try done; lia.
Qed.

Lemma report_spec terse l rows t :
  report terse l rows t =
    (rows ++ filter (fun m => terse && (mi_private_dirty m =? 0) = false) l, foldl add_totals t l).
Proof.
  revert rows t. induction l as [|m l IH]; intros rows t; cbn [report foldl]; [by rewrite app_nil_r|].
  rewrite filter_cons. destruct (terse && (mi_private_dirty m =? 0)).
  - rewrite decide_False by done. apply IH.
  - rewrite decide_True by done. rewrite IH, <-app_assoc. done.
Qed.

Lemma foldl_totals l : foldl add_totals no_totals l = totals_of l.
Proof.
  assert (H : forall a b c d e g h i, foldl add_totals (mk_totals (u32 a) (u32 b) (u32 c) (u32 d) (u32 e) (u32 g) (u32 h) (u32 i)) l =
    mk_totals (u32 (a + sum_of mi_size l)) (u32 (b + sum_of mi_rss l)) (u32 (c + sum_of mi_pss l))
    (u32 (d + sum_of mi_shared_clean l)) (u32 (e + sum_of mi_shared_dirty l))
    (u32 (g + sum_of mi_private_clean l)) (u32 (h + sum_of mi_private_dirty l)) (u32 (i + sum_of mi_count l))).
  { induction l as [|m l IH]; intros; cbn [foldl]; [unfold sum_of; cbn [foldr]; by rewrite !Z.add_0_r|].
    unfold add_totals at 2. cbn [t_size t_rss t_pss t_shared_clean t_shared_dirty t_private_clean t_private_dirty t_count].
    rewrite !u32_add, IH, !sum_of_cons. by rewrite !Z.add_assoc. }
  apply (H 0 0 0 0 0 0 0 0).
Qed.

(** ** Order *)

Definition before (s : bool) (a b : mapinfo) : Prop := order_before b a s = false.

Lemma order_trans s a b c : order_before a b s = true -> order_before b c s = true -> order_before a c s = true.
Proof.
  unfold order_before. destruct s; [|apply str_lt_trans].
  rewrite !orb_true_iff, !andb_true_iff, !Z.ltb_lt, !Z.eqb_eq. lia.
Qed.
Lemma order_irrefl s a : order_before a a s = false.
Proof. unfold order_before. destruct s; [|apply str_lt_irrefl]. by rewrite !Z.ltb_irrefl, Z.eqb_refl. Qed.
Lemma order_asym s a b : order_before a b s = true -> before s a b.
Proof.
  intros H. unfold before. destruct (order_before b a s) eqn:E; [|done].
  pose proof (order_trans s a b a H E) as Hi. by rewrite order_irrefl in Hi.
Qed.
Lemma before_step s m c x : order_before m c s = true -> before s c x -> before s m x.
Proof.
  unfold before. intros H Hb. destruct (order_before x m s) eqn:E; [|done].
  by rewrite (order_trans s x m c E H) in Hb.
Qed.

(** Without coalescing: insertion sort. *)
Lemma enqueue_perm s head m : enqueue_loop head m s false ≡ₚ m :: head.
Proof.
  induction head as [|c head IH]; [done|]. cbn [enqueue_loop andb].
  destruct (order_before m c s); [done|]. rewrite IH. apply Permutation_swap.
Qed.
Lemma enqueue_sorted s head m :
  StronglySorted (before s) head -> StronglySorted (before s) (enqueue_loop head m s false).
Proof.
  induction 1 as [|c head Hs IH Hc]; [repeat constructor|]. cbn [enqueue_loop andb].
  destruct (order_before m c s) eqn:E.
  - constructor; [by constructor|]. apply Forall_cons. split; [by apply order_asym|].
    eapply Forall_impl; [exact Hc|]. intros x. by apply before_step.
  - constructor; [done|]. rewrite enqueue_perm. apply Forall_cons. split; [exact E|done].
Qed.

(** With coalescing: the names are strictly increasing. *)
Definition name_lt (a b : mapinfo) : Prop := str_lt (mi_name a) (mi_name b) = true.

Lemma enqueue_names head m x :
  x ∈ enqueue_loop head m false true -> mi_name x = mi_name m \/ exists y, y ∈ head /\ mi_name x = mi_name y.
Proof.
  induction head as [|c head IH]; cbn [enqueue_loop]; [set_solver|]. cbn [andb].
  case_bool_decide as E.
  - intros [->|Hx]%elem_of_cons; [left; by rewrite E|right; exists x; set_solver].
  - destruct (order_before m c false); set_solver.
Qed.
Lemma enqueue_strict head m :
  StronglySorted name_lt head -> StronglySorted name_lt (enqueue_loop head m false true).
Proof.
  induction 1 as [|c head Hs IH Hc]; [repeat constructor|]. cbn [enqueue_loop andb]. case_bool_decide as E.
  - constructor; [done|]. exact Hc.
  - destruct (order_before m c false) eqn:Eo; unfold order_before in Eo.
    + constructor; [by constructor|]. apply Forall_cons. split; [exact Eo|].
      eapply Forall_impl; [exact Hc|]. intros x Hx. unfold name_lt in *. by eapply str_lt_trans.
    + constructor; [done|]. apply Forall_forall. intros x Hx. unfold name_lt.
      destruct (enqueue_names _ _ _ Hx) as [->|(y & Hy & ->)].
      * destruct (str_lt_total _ _ Eo) as [En|En]; [done|exact En].
      * rewrite Forall_forall in Hc. by apply Hc.
Qed.

Lemma enqueue_all_sorted s l :
  enqueue_all s false [] l ≡ₚ l /\ StronglySorted (before s) (enqueue_all s false [] l).
Proof.
  assert (H : forall head, StronglySorted (before s) head ->
    enqueue_all s false head l ≡ₚ head ++ l /\ StronglySorted (before s) (enqueue_all s false head l)).
  { induction l as [|m l IH]; intros head Hh; [by rewrite app_nil_r|].
    destruct (IH (enqueue_loop head m s false)) as [Hp Hs]; [by apply enqueue_sorted|].
    split; [|exact Hs]. change (enqueue_all s false head (m :: l)) with (enqueue_all s false (enqueue_loop head m s false) l).
    rewrite Hp, enqueue_perm. apply Permutation_middle. }
  apply (H []). constructor.
Qed.
Lemma enqueue_all_strict l : StronglySorted name_lt (enqueue_all false true [] l).
Proof.
  assert (H : forall head, StronglySorted name_lt head -> StronglySorted name_lt (enqueue_all false true head l)).
  { induction l as [|m l IH]; intros head Hh; [done|]. apply (IH (enqueue_loop head m false true)). by apply enqueue_strict. }
  apply H. constructor.
Qed.

(** ** The report *)

Lemma enqueue_nonempty s c head m : enqueue_loop head m s c <> [].
Proof. destruct head as [|x head]; [done|]. cbn. destruct (c && _); [done|]. by destruct (order_before _ _ _). Qed.
Lemma enqueue_all_nonempty s c head l : head <> [] \/ l <> [] -> enqueue_all s c head l <> [].
Proof.
  revert head. induction l as [|m l IH]; intros head Hh; [by destruct Hh|].
  apply (IH (enqueue_loop head m s c)). left. apply enqueue_nonempty.
Qed.

Lemma filter_all {A} (P : A -> Prop) `{forall x, Decision (P x)} (l : list A) : (forall x, P x) -> filter P l = l.
Proof. intros Hp. induction l as [|x l IH]; [done|]. by rewrite filter_cons_True, IH. Qed.

Lemma show_map_spec verbose terse addresses text l :
  parse_maps (file_lines 1024 text) None = Some l -> l <> [] ->
  let ml := enqueue_all addresses (negb verbose && negb addresses) [] l in
  show_map verbose terse addresses (Some text) =
    Some (0, filter (fun m => terse && (mi_private_dirty m =? 0) = false) ml, totals_of ml).
Proof.
  intros Hl Hne ml. unfold show_map, load_maps. rewrite load_loop_parse, Hl. cbn [fmap option_fmap option_map mbind option_bind].
  fold ml. pose proof (enqueue_all_nonempty addresses (negb verbose && negb addresses) [] l (or_intror Hne)) as Hml.
  fold ml in Hml. destruct ml as [|m ml]; [done|]. rewrite report_spec, foldl_totals. done.
Qed.

(** C25: showmap reports what smaps says. If the file has mappings, the report succeeds;
    its totals are those of the mappings in the file modulo 2^32, whatever the options,
    and so are the totals of the entries of any name; the entries are the mappings,
    sorted by name or address, or, when coalesced, one entry for each name in strictly
    increasing order; only the entries without private dirty pages are left out of a
    terse report. If the file has no mapping the result is 1. *)
Theorem show_map_correct (verbose terse addresses : bool) (text : list Z) (l : list mapinfo)
  (Hl : parse_maps (file_lines 1024 text) None = Some l) :
  (l = [] -> show_map verbose terse addresses (Some text) = Some (1, [], no_totals)) /\
  (l <> [] -> exists ml,
    show_map verbose terse addresses (Some text) =
      Some (0, filter (fun m => terse && (mi_private_dirty m =? 0) = false) ml, totals_of l) /\
    (forall name, totals_of (filter (fun m => bool_decide (mi_name m = name)) ml) =
                  totals_of (filter (fun m => bool_decide (mi_name m = name)) l)) /\
    if negb verbose && negb addresses then StronglySorted name_lt ml
    else ml ≡ₚ l /\ StronglySorted (before addresses) ml).
Proof.
  split.
  - intros ->. unfold show_map, load_maps. by rewrite load_loop_parse, Hl.
  - intros Hne. assert (Ho : Forall once l) by (eapply parse_maps_once; [|exact Hl]; done).
    set (c := negb verbose && negb addresses).
    exists (enqueue_all addresses c [] l). split_and!.
    + rewrite (show_map_spec _ _ _ _ _ Hl Hne). fold c. do 2 f_equal.
      pose proof (totals_enqueue addresses c l (fun _ => true) Ho) as E.
      by rewrite !filter_all in E by done.
    + intros name. pose proof (totals_enqueue addresses c l (fun n : list Z => bool_decide (n = name)) Ho) as E. exact E.
    + destruct c eqn:Ec; [|apply enqueue_all_sorted]. subst c. apply andb_true_iff in Ec as [_ Ea].
      destruct addresses; [done|apply enqueue_all_strict].
Qed.

(** Three mappings, two of one library. *)
Definition smaps_text : list Z :=
  str "1000-2000 r-xp 00000000 00:00 1   /lib/b.so"%string ++ [10] ++ str "Rss:        4 kB"%string ++ [10] ++
  str "2000-3000 rw-p 00000000 00:00 0"%string ++ [10] ++ str "Rss:        3 kB"%string ++ [10] ++
  str "5000-6000 r-xp 00000000 00:00 2   /a"%string ++ [10] ++ str "Rss:        1 kB"%string ++ [10].

Lemma show_map_correct_witness :
  exists ml, show_map false false false (Some smaps_text) = Some (0, ml, mk_totals 0 8 0 0 0 0 0 3) /\
    StronglySorted name_lt ml.
Proof.
  destruct (show_map_correct false false false smaps_text
    [mk_mapinfo 4096 8192 0 4 0 0 0 0 0 0 1 (str "/lib/b.so"%string);
     mk_mapinfo 8192 12288 0 3 0 0 0 0 0 1 1 (str "/lib/b.so"%string);
     mk_mapinfo 20480 24576 0 1 0 0 0 0 0 0 1 (str "/a"%string)]) as [_ H]; [by vm_compute|].
  destruct H as (ml & E & _ & Hs); [done|]. exists ml. split; [|exact Hs].
  rewrite E. rewrite filter_all by done. by vm_compute.
Defined.
