(* ===== verification/PagemapLib.v ===== *)
(** * The interface of libpagemap

    What the reports call, as a class of operations, and what they rely on, as a class
    of laws over a description of the processes. The functions of Pagemap are an
    instance, and the laws hold of it when /proc can be read. *)

From S2P Require Import Prelude Bytes Scanf Pagemap PagemapProps.

Class pm_lib := {
  lib_kernel_pids : M pm_state (Z * list Z);
  lib_process_create : Z -> M pm_state (Z * option pm_process);
  lib_process_maps : pm_process -> M pm_state (Z * list pm_map);
  lib_map_usage : pm_process -> pm_map -> pm_memusage -> M pm_state (Z * pm_memusage);
  lib_process_usage : pm_process -> pm_memusage -> M pm_state (Z * pm_memusage);
  lib_process_workingset : pm_process -> option pm_memusage -> bool -> M pm_state (Z * option pm_memusage)
}.

(** The processes: the numbers in /proc, those that can be opened, and the usage of
    each of their mappings. *)
Record world := mk_world {
  w_pids : list Z;
  w_process : Z -> option pm_process;
  w_usage : Z -> pm_map -> pm_memusage
}.

Definition total_usage (l : list pm_memusage) : pm_memusage := foldl pm_memusage_add pm_memusage_zero l.

Class pm_lib_ok `{pm_lib} (w : world) : Prop := {
  lib_pids_ok s : roomy s -> lib_kernel_pids s = Done (0, w_pids w) s;
  lib_create_ok n s : roomy s ->
    exists e s', lib_process_create n s = Done (e, w_process w n) s' /\ roomy s' /\ (e = 0 <-> is_Some (w_process w n));
  lib_maps_ok p s : roomy s -> lib_process_maps p s = Done (0, maps p) s;
  lib_map_usage_ok n p m out s : roomy s -> w_process w n = Some p -> m ∈ maps p ->
    lib_map_usage p m out s = Done (0, w_usage w n m) s;
  lib_usage_ok n p out s : roomy s -> w_process w n = Some p ->
    lib_process_usage p out s = Done (0, total_usage (w_usage w n <$> maps p)) s
}.

(** ** The implementation *)

(** The files of /proc, and the variables that are read before they are set. *)
Record proc_fs := mk_proc_fs {
  fs_pagesize : Z;
  fs_kpagecount : Z -> Z -> read_result;
  fs_kpageflags : Z -> Z -> read_result;
  fs_pagemap : Z -> Z -> Z -> read_result;
  fs_names : Z + list (list Z);
  fs_open_pagemap : Z -> Z;
  fs_maps : Z -> Z + list Z;
  fs_clear_refs : Z -> Z + Z;
  uninit_count : Z;
  uninit_flags : Z;
  uninit_usage : pm_memusage;
  uninit_perms : list Z;
  uninit_name : list Z
}.

#[export] Instance pagemap_lib (f : proc_fs) : pm_lib := {
  lib_kernel_pids := pm_kernel_pids (fs_names f);
  lib_process_create := fun n => pm_process_create (fs_open_pagemap f n) (fs_maps f n) (uninit_perms f) (uninit_name f) n;
  lib_process_maps := pm_process_maps;
  lib_map_usage := fun p => pm_map_usage (fs_pagesize f) (fs_kpagecount f) (fs_pagemap f) (uninit_count f) (pid p);
  lib_process_usage := pm_process_usage (fs_pagesize f) (fs_kpagecount f) (fs_pagemap f) (uninit_count f) (uninit_usage f);
  lib_process_workingset := pm_process_workingset (fs_pagesize f) (fs_kpagecount f) (fs_kpageflags f) (fs_pagemap f)
    (uninit_count f) (uninit_flags f) (uninit_usage f) (fs_clear_refs f)
}.

(** The numbers among the names of the directory. *)
Definition number_of (name : list Z) : option Z := fst <$> scan_dec name.

Lemma pids_loop_done names pids n s :
  roomy s -> pids_loop names pids n s = Done (0, pids ++ omap number_of names) s.
Proof.
  intros Hs. revert pids n. induction names as [|name names IH]; intros pids n; cbn [pids_loop].
  - rewrite (mbind_done _ _ _ _ _ (alloc_roomy _ Hs)). by rewrite app_nil_r.
  - change (omap number_of (name :: names)) with
      (match number_of name with Some y => y :: omap number_of names | None => omap number_of names end).
    unfold number_of. destruct (scan_dec name) as [[p r]|]; cbn [fmap option_fmap option_map fst]; [|apply IH].
    destruct (n <=? Z.of_nat (length pids)); [rewrite (mbind_done _ _ _ _ _ (alloc_roomy _ Hs))|];
      rewrite IH, <-app_assoc; done.
Qed.

(** /proc describes the world. *)
Record describes (f : proc_fs) (w : world) (counts : Z -> Z) (entries : Z -> pm_map -> list Z) : Prop := {
  ds_pagesize : 0 < fs_pagesize f < 2 ^ 31;
  ds_counts : counts_readable (fs_kpagecount f) counts;
  ds_pids : exists names, fs_names f = inr names /\ w_pids w = omap number_of names;
  ds_process n : match w_process w n with
    | Some p => fs_open_pagemap f n = 0 /\ pid p = n /\
                forall s, roomy s -> read_maps (fs_maps f n) (uninit_perms f) (uninit_name f) s = Done (0, maps p) s
    | None => fs_open_pagemap f n <> 0
    end;
  ds_maps n p : w_process w n = Some p ->
    Forall (fun m => map_readable (fs_pagesize f) (fs_pagemap f) n m (entries n m)) (maps p);
  ds_small n p : w_process w n = Some p ->
    fs_pagesize f * Z.of_nat (length (all_frames (entries n <$> maps p))) < 2 ^ 64;
  ds_usage n m : w_usage w n m = usage_of (fs_pagesize f) counts (frames (entries n m))
}.

Lemma all_frames_cons es l : all_frames (es :: l) = frames es ++ all_frames l.
Proof. reflexivity. Qed.

(** Adding up in [size_t] what does not overflow. *)
Lemma total_usage_exact pagesize counts (l : list (list Z)) u :
  0 < pagesize -> ordered u -> vss u + pagesize * Z.of_nat (length (all_frames l)) < 2 ^ 64 ->
  foldl pm_memusage_add u ((fun es => usage_of pagesize counts (frames es)) <$> l) =
    plus u (usage_of pagesize counts (all_frames l)).
Proof.
  intros Hp. revert u. induction l as [|es l IH]; intros u Ho Hv; [cbn; by rewrite plus_zero|].
  rewrite all_frames_cons in *. rewrite length_app in Hv. cbn [fmap list_fmap foldl].
  pose proof (ordered_usage pagesize counts (frames es) Hp) as Hf.
  pose proof (vss_usage pagesize counts (frames es)) as Hvs.
  assert (E : pm_memusage_add u (usage_of pagesize counts (frames es)) = plus u (usage_of pagesize counts (frames es))).
  { destruct Ho as [Ho1 Ho2]. destruct Hf as [Hf1 Hf2]. unfold pm_memusage_add, plus. f_equal; apply u64_small; nia. }
  rewrite E, IH; [by rewrite usage_of_app, plus_assoc|by apply ordered_plus|]. cbn [vss plus]. lia.
Qed.

Lemma world_usage f w counts entries n p :
  describes f w counts entries -> w_process w n = Some p ->
  total_usage (w_usage w n <$> maps p) = usage_of (fs_pagesize f) counts (all_frames (entries n <$> maps p)).
Proof.
  intros D E. unfold total_usage.
  assert (Em : w_usage w n <$> maps p = (fun es => usage_of (fs_pagesize f) counts (frames es)) <$> (entries n <$> maps p)).
  { rewrite <-list_fmap_compose. apply list_fmap_ext. intros i m _. cbn. by rewrite (ds_usage _ _ _ _ D). }
  rewrite Em, total_usage_exact; [|apply D|unfold ordered; cbn; lia|by apply (ds_small _ _ _ _ D)].
  generalize (usage_of (fs_pagesize f) counts (all_frames (entries n <$> maps p))). by intros [].
Qed.

Lemma pagemap_lib_ok f w counts entries : describes f w counts entries -> pm_lib_ok (H := pagemap_lib f) w.
Proof.
  intros D. pose proof (ds_pagesize _ _ _ _ D) as Hp. pose proof (ds_counts _ _ _ _ D) as Hc. split.
  - intros s Hs. destruct (ds_pids _ _ _ _ D) as (names & E & Ew). cbn. unfold pm_kernel_pids. rewrite E.
    rewrite (mbind_done _ _ _ _ _ (alloc_roomy _ Hs)), pids_loop_done by done. by rewrite Ew.
  - intros n s Hs. pose proof (ds_process _ _ _ _ D n) as Hd. cbn. unfold pm_process_create.
    rewrite (mbind_done _ _ _ _ _ (alloc_roomy _ Hs)). cbn [negb].
    destruct (w_process w n) as [p|].
    + destruct Hd as (-> & Hpid & Hr). exists 0, s. split_and!; [|done|by split].
      change (negb (0 =? 0)) with false. cbv iota. rewrite (mbind_done _ _ _ _ _ (Hr s Hs)). cbv beta iota.
      change (negb (0 =? 0)) with false. cbv iota. unfold mret'. do 3 f_equal. destruct p. cbn in *. by subst.
    + rewrite (proj2 (Z.eqb_neq _ _) Hd). cbn [negb]. eexists _, _. split; [reflexivity|]. split; [exact Hs|].
      split; [done|by intros []].
  - intros p s Hs. cbn. unfold pm_process_maps. destruct (maps p); [done|].
    by rewrite (mbind_done _ _ _ _ _ (alloc_roomy _ Hs)).
  - intros n p m out s Hs E Hm. pose proof (ds_maps _ _ _ _ D n p E) as Hr. rewrite Forall_forall in Hr.
    pose proof (ds_process _ _ _ _ D n) as Hd. rewrite E in Hd. destruct Hd as (_ & Hpid & _). cbn. rewrite Hpid.
    rewrite (pm_map_usage_done _ _ _ counts Hp _ _ (entries n m) _ _ _ Hc (Hr m Hm) Hs). by rewrite (ds_usage _ _ _ _ D).
  - intros n p out s Hs E. pose proof (ds_maps _ _ _ _ D n p E) as Hr.
    pose proof (ds_process _ _ _ _ D n) as Hd. rewrite E in Hd. destruct Hd as (_ & Hpid & _). cbn.
    rewrite (world_usage _ _ _ _ _ _ D E).
    apply pm_process_usage_done; [done|done| |done|by apply (ds_small _ _ _ _ D)].
    rewrite Hpid. apply Forall2_fmap_r, Forall_Forall2_diag. exact Hr.
Qed.
