(* ===== verification/Procrank.v ===== *)
(** * Processes by memory usage (procrank/procrank.c)

    The program over the interface of libpagemap. [exit] with an error is a jump out;
    what is printed are the rows, the totals and the numbers of /proc/meminfo. The
    standard library's [qsort] is a merge sort: where the comparison is 0 the order is
    the library's choice. *)

From stdpp Require Import sorting.
From Stdlib Require Import String.
From S2P Require Import Prelude Bytes Scanf Pagemap PagemapProps PagemapLib.

Definition exit_failure {A} : M pm_state A := longjmp.

(** [qsort] with a comparison function. *)
Definition cmp_le {A} (cmp : A -> A -> Z) (a b : A) : Prop := cmp a b <= 0.
#[export] Instance cmp_le_dec {A} (cmp : A -> A -> Z) : RelDecision (cmp_le cmp).
Proof. intros a b. unfold cmp_le. apply _. Defined.
Definition qsort {A} (cmp : A -> A -> Z) (l : list A) : list A := merge_sort (cmp_le cmp) l.

Definition numcmp (a b : Z) : Z := if a <? b then -1 else if b <? a then 1 else 0.

(** The members [sort_by_<field>] compares, as [long long]. *)
Inductive sort_field := By_vss | By_rss | By_pss | By_uss.
Definition field_of (k : sort_field) (u : pm_memusage) : Z :=
  match k with By_vss => vss u | By_rss => rss u | By_pss => pss u | By_uss => uss u end.
Definition sort_by (k : sort_field) (order : Z) (a b : pm_memusage) : Z :=
  order * numcmp (s64 (field_of k a)) (s64 (field_of k b)).

(** ** /proc/meminfo *)

Definition meminfo_tags : list (list Z) :=
  str <$> ["MemTotal:"; "MemFree:"; "Buffers:"; "Cached:"; "Shmem:"; "Slab:"]%string.

(** The index of the first tag that begins the string, and what follows it. *)
Fixpoint find_tag (i : nat) (tags : list (list Z)) (p : list Z) : option (nat * list Z) :=
  match tags with
  | [] => None
  | t :: tags => if bool_decide (take (length t) p = t) then Some (i, drop (length t) p) else find_tag (S i) tags p
  end.

Fixpoint skip_blanks (p : list Z) : list Z :=
  match p with c :: p' => if c =? 32 then skip_blanks p' else p | [] => [] end.
(** Up to and over the next newline. *)
Fixpoint next_line (p : list Z) : list Z :=
  match p with c :: p' => if c =? 10 then p' else next_line p' | [] => [] end.

(** The loop of [print_mem_info]; the character after the number is overwritten and
    skipped. *)
Fixpoint mem_loop (fuel : nat) (p : list Z) (numFound : Z) (mem : list Z) : list Z :=
  match fuel with
  | O => mem
  | S fuel =>
      match p with
      | [] => mem
      | _ =>
          if 6 <=? numFound then mem
          else
            match find_tag 0 meminfo_tags p with
            | Some (i, q) =>
                let '(_, num, rest) := digits dec_digit 10 0 (skip_blanks q) in
                mem_loop fuel (next_line (drop 1 rest)) (numFound + 1) (<[i := num]> mem)
            | None => mem_loop fuel (next_line p) numFound mem
            end
      end
  end.
(** [print_mem_info]: what it prints of the first 1023 bytes. *)
Definition print_mem_info (text : list Z) : list Z :=
  let p := c_string (take 1023 text) in mem_loop (length p) p 0 (replicate 6 0).

(** ** Names *)

Definition unknown_cmdline : list Z := str "<unknown>"%string.

(** [getprocname]: the result and the string in the buffer of [len] bytes; the file is
    what /proc/<pid>/cmdline holds, if it can be opened. *)
Definition getprocname (file : option (list Z)) (len : nat) : Z * list Z :=
  if (len <=? 0)%nat then (-1, [])
  else
    match (text ← file; fgets len text) with
    | Some (line, _) => (0, c_string line)
    | None =>
        (if bool_decide (len <= length unknown_cmdline)%nat then 4
         else match file with None => 2 | Some _ => 3 end,
         take (len - 1) unknown_cmdline)
    end.

(** ** The program *)

Inductive ws_mode := WS_OFF | WS_ONLY | WS_RESET.

Record options := mk_options { o_sort : sort_field; o_order : Z; o_ws : ws_mode }.
Inductive parsed := Run (o : options) | Exit (status : Z).

Fixpoint parse_args (args : list (list Z)) (o : options) : parsed :=
  match args with
  | [] => Run o
  | a :: args =>
      if bool_decide (a = str "-v"%string) then parse_args args (mk_options By_vss (o_order o) (o_ws o))
      else if bool_decide (a = str "-r"%string) then parse_args args (mk_options By_rss (o_order o) (o_ws o))
      else if bool_decide (a = str "-p"%string) then parse_args args (mk_options By_pss (o_order o) (o_ws o))
      else if bool_decide (a = str "-u"%string) then parse_args args (mk_options By_uss (o_order o) (o_ws o))
      else if bool_decide (a = str "-w"%string) then parse_args args (mk_options (o_sort o) (o_order o) WS_ONLY)
      else if bool_decide (a = str "-W"%string) then parse_args args (mk_options (o_sort o) (o_order o) WS_RESET)
      else if bool_decide (a = str "-R"%string) then parse_args args (mk_options (o_sort o) (o_order o * -1) (o_ws o))
      else if bool_decide (a = str "-h"%string) then Exit 0
      else Exit 1
  end.
Definition default_options : options := mk_options By_pss (-1) WS_OFF.

Record proc_info := mk_proc_info { pi_pid : Z; pi_usage : pm_memusage }.

Section procrank.
Context `{pm_lib}.

(** The usage of one process, which stays 0 when it cannot be read. *)
Definition proc_usage (ws : ws_mode) (n : Z) : M pm_state proc_info :=
  do ok <- alloc;
  if negb ok then exit_failure
  else
    do (error, proc) <- lib_process_create n;
    match proc with
    | Some p =>
        if negb (error =? 0) then mret' (mk_proc_info n pm_memusage_zero)
        else
          match ws with
          | WS_OFF =>
              do (error, usage) <- lib_process_usage p pm_memusage_zero;
              mret' (mk_proc_info n usage)
          | WS_ONLY =>
              do (error, usage) <- lib_process_workingset p (Some pm_memusage_zero) false;
              mret' (mk_proc_info n (default pm_memusage_zero usage))
          | WS_RESET =>
              do (error, usage) <- lib_process_workingset p None true;
              mret' (mk_proc_info n pm_memusage_zero)
          end
    | None => if error =? 0 then stuck else mret' (mk_proc_info n pm_memusage_zero)
    end.

Fixpoint collect (ws : ws_mode) (pids : list Z) : M pm_state (list proc_info) :=
  match pids with
  | [] => mret' []
  | n :: pids => do i <- proc_usage ws n; do l <- collect ws pids; mret' (i :: l)
  end.

(** The rows, and the totals of those printed. *)
Fixpoint print_procs (cmdline : Z -> option (list Z)) (l : list proc_info) (total_pss total_uss : Z) :
    list (proc_info * list Z) * Z * Z :=
  match l with
  | [] => ([], total_pss, total_uss)
  | i :: l =>
      let '(ret, name) := getprocname (cmdline (pi_pid i)) 256 in
      if ret <? 0 then print_procs cmdline l total_pss total_uss
      else
        let '(rows, p, u) := print_procs cmdline l (u64 (total_pss + pss (pi_usage i))) (u64 (total_uss + uss (pi_usage i))) in
        ((i, name) :: rows, p, u)
  end.

(** What follows the options in [main]: [None] after a reset. *)
Definition procrank (cmdline : Z -> option (list Z)) (o : options) :
    M pm_state (option (list (proc_info * list Z) * Z * Z)) :=
  do (error, pids) <- lib_kernel_pids;
  if negb (error =? 0) then exit_failure
  else
    do ok <- alloc;
    if negb ok then exit_failure
    else
      do procs <- collect (o_ws o) pids;
      match o_ws o with
      | WS_RESET => mret' None
      | _ =>
          let procs := filter (fun i => vss (pi_usage i) <> 0) procs in
          let procs := qsort (fun a b => sort_by (o_sort o) (o_order o) (pi_usage a) (pi_usage b)) procs in
          mret' (Some (print_procs cmdline procs 0 0))
      end.
End procrank.
