(* ===== verification/ProcrankProps.v ===== *)
(** * What procrank prints (properties of Procrank)

    Proved against the laws of the interface, then with libpagemap underneath: the
    total it prints is the memory in use. *)

From stdpp Require Import sorting.
From S2P Require Import Prelude Bytes Scanf Pagemap PagemapProps PagemapLib Procrank.

(** ** Sorting *)

Lemma numcmp_spec a b : numcmp a b = match a ?= b with Lt => -1 | Eq => 0 | Gt => 1 end.
Proof.
  unfold numcmp. destruct (Z.compare_spec a b) as [->|Hlt|Hgt].
  - by rewrite Z.ltb_irrefl.
  - by rewrite (proj2 (Z.ltb_lt a b)).
  - rewrite (proj2 (Z.ltb_ge a b)) by lia. by rewrite (proj2 (Z.ltb_lt b a)).
Qed.

(** The order of the rows: by the field, descending unless reversed. *)
Definition row_le (k : sort_field) (order : Z) (a b : pm_memusage) : Prop :=
  order * s64 (field_of k a) <= order * s64 (field_of k b).

Lemma sort_by_le k order a b : order = 1 \/ order = -1 -> sort_by k order a b <= 0 <-> row_le k order a b.
Proof.
  unfold sort_by, row_le. intros Ho. rewrite numcmp_spec.
  destruct (Z.compare_spec (s64 (field_of k a)) (s64 (field_of k b))), Ho as [-> | ->]; lia.
Qed.

Section sorting.
Context {A} (g : A -> pm_memusage) (k : sort_field) (order : Z) (Ho : order = 1 \/ order = -1).
Notation cmp := (fun a b => sort_by k order (g a) (g b)).

Lemma qsort_sorted l : StronglySorted (fun a b => row_le k order (g a) (g b)) (qsort cmp l).
Proof.
  assert (Ht : Total (cmp_le cmp)).
  { intros a b. unfold cmp_le. rewrite !sort_by_le by done. unfold row_le. lia. }
  assert (Htr : Transitive (cmp_le cmp)).
  { intros a b c. unfold cmp_le. rewrite !sort_by_le by done. unfold row_le. lia. }
  pose proof (StronglySorted_merge_sort (cmp_le cmp) l) as Hs.
  unfold qsort. induction Hs as [|a l' Hs IH Ha]; constructor; [done|].
  eapply Forall_impl; [exact Ha|]. intros b Hb. by apply sort_by_le.
Qed.
Lemma qsort_perm l : qsort cmp l ≡ₚ l.
Proof. apply merge_sort_Permutation. Qed.
End sorting.

(** ** Against the interface *)

(** The usage of a process, 0 for one that cannot be opened. *)
Definition world_usage_of (w : world) (n : Z) : pm_memusage :=
  match w_process w n with
  | Some p => total_usage (w_usage w n <$> maps p)
  | None => pm_memusage_zero
  end.
Definition world_info (w : world) (n : Z) : proc_info := mk_proc_info n (world_usage_of w n).

Section interface.
Context `{pm_lib_ok w}.

Lemma proc_usage_done n s :
  roomy s -> exists s', proc_usage WS_OFF n s = Done (world_info w n) s' /\ roomy s'.
Proof.
  intros Hs. unfold proc_usage, world_info, world_usage_of. rewrite (mbind_done _ _ _ _ _ (alloc_roomy _ Hs)). cbn [negb].
  destruct (lib_create_ok n s Hs) as (e & s' & E & Hs' & He). rewrite (mbind_done _ _ _ _ _ E). cbv beta iota.
  destruct (w_process w n) as [p|] eqn:Ep.
  - assert (e = 0) as -> by (by apply He). cbn [Z.eqb negb].
    rewrite (mbind_done _ _ _ _ _ (lib_usage_ok n p pm_memusage_zero s' Hs' Ep)). by exists s'.
  - assert (e <> 0) as Hne by (intros ->; by destruct He as [[] _]). rewrite (proj2 (Z.eqb_neq _ _) Hne). by exists s'.
Qed.

Lemma collect_done ns s :
  roomy s -> exists s', collect WS_OFF ns s = Done (world_info w <$> ns) s' /\ roomy s'.
Proof.
  revert s. induction ns as [|n ns IH]; intros s Hs; [by exists s|]. cbn [collect].
  destruct (proc_usage_done n s Hs) as (s1 & E1 & H1). rewrite (mbind_done _ _ _ _ _ E1).
  destruct (IH s1 H1) as (s2 & E2 & H2). rewrite (mbind_done _ _ _ _ _ E2). by exists s2.
Qed.
End interface.

Definition sum_pss (l : list proc_info) : Z := foldr (fun i a => pss (pi_usage i) + a) 0 l.
Definition sum_uss (l : list proc_info) : Z := foldr (fun i a => uss (pi_usage i) + a) 0 l.

Lemma getprocname_ok file : (getprocname file 256).1 <? 0 = false.
Proof.
  unfold getprocname. change (256 <=? 0)%nat with false. cbv iota.
  destruct (text ← file; fgets 256 text) as [[line rest]|]; [done|].
  change (bool_decide (256 <= length unknown_cmdline)%nat) with false. by destruct file.
Qed.

(** Every row is printed, and the totals are those of the rows. *)
Lemma print_procs_spec cmdline l p u :
  print_procs cmdline l (u64 p) (u64 u) =
    ((fun i => (i, (getprocname (cmdline (pi_pid i)) 256).2)) <$> l, u64 (p + sum_pss l), u64 (u + sum_uss l)).
Proof.
  revert p u. induction l as [|i l IH]; intros p u.
  - cbn. by rewrite !Z.add_0_r.
  - cbn [print_procs fmap list_fmap]. pose proof (getprocname_ok (cmdline (pi_pid i))) as Hr.
    destruct (getprocname (cmdline (pi_pid i)) 256) as [ret name]. cbn [fst snd] in *. rewrite Hr.
    assert (E : forall a b, u64 (u64 a + b) = u64 (a + b)) by (intros; unfold u64; by rewrite Z.add_mod_idemp_l by lia).
    rewrite !E, IH. cbv beta iota.
    change (sum_pss (i :: l)) with (pss (pi_usage i) + sum_pss l). change (sum_uss (i :: l)) with (uss (pi_usage i) + sum_uss l).
    by rewrite !Z.add_assoc.
Qed.

Lemma sum_pss_perm l l' : l ≡ₚ l' -> sum_pss l = sum_pss l'.
Proof. induction 1; unfold sum_pss in *; cbn in *; lia. Qed.
Lemma sum_uss_perm l l' : l ≡ₚ l' -> sum_uss l = sum_uss l'.
Proof. induction 1; unfold sum_uss in *; cbn in *; lia. Qed.

Lemma procrank_spec `{pm_lib_ok w} cmdline k order s :
  roomy s -> order = 1 \/ order = -1 ->
  let shown := filter (fun i => vss (pi_usage i) <> 0) (world_info w <$> w_pids w) in
  exists rows s', procrank cmdline (mk_options k order WS_OFF) s =
      Done (Some (rows, u64 (sum_pss shown), u64 (sum_uss shown))) s' /\ roomy s' /\
    rows.*1 ≡ₚ shown /\ StronglySorted (fun a b => row_le k order (pi_usage a) (pi_usage b)) rows.*1 /\
    Forall (fun r => r.2 = (getprocname (cmdline (pi_pid r.1)) 256).2) rows.
Proof.
  intros Hs Ho shown. unfold procrank. rewrite (mbind_done _ _ _ _ _ (lib_pids_ok s Hs)). cbv beta iota.
  change (negb (0 =? 0)) with false. cbv iota. rewrite (mbind_done _ _ _ _ _ (alloc_roomy _ Hs)). cbn [negb o_ws o_sort o_order].
  destruct (collect_done (w := w) (w_pids w) s Hs) as (s' & E & Hs'). rewrite (mbind_done _ _ _ _ _ E). cbv iota. fold shown.
  set (sorted := qsort (fun a b => sort_by k order (pi_usage a) (pi_usage b)) shown).
  assert (Hperm : sorted ≡ₚ shown) by apply qsort_perm.
  exists ((fun i => (i, (getprocname (cmdline (pi_pid i)) 256).2)) <$> sorted), s'.
  assert (Hfst : ((fun i => (i, (getprocname (cmdline (pi_pid i)) 256).2)) <$> sorted).*1 = sorted).
  { rewrite <-list_fmap_compose. apply list_fmap_id. }
  split_and!.
  - unfold mret'. do 2 f_equal. change 0 with (u64 0). rewrite print_procs_spec. cbn [Z.add].
    by rewrite (sum_pss_perm _ _ Hperm), (sum_uss_perm _ _ Hperm).
  - exact Hs'.
  - by rewrite Hfst.
  - rewrite Hfst. by apply (qsort_sorted pi_usage).
  - apply Forall_fmap, Forall_true. done.
Qed.

(** procrank lists every process once and sorts them. Over any library that keeps
    its promises, with [-v], [-r], [-p] or [-u] and with or without [-R], the rows are
    the processes whose usage is not 0, in the order of the field, each with its name
    or "<unknown>", and the totals are the sums over the rows. *)
Theorem procrank_correct `{pm_lib_ok w} (cmdline : Z -> option (list Z)) (k : sort_field) (order : Z) (s : pm_state)
  (Hroom : roomy s) (Horder : order = 1 \/ order = -1) :
  let shown := filter (fun i => vss (pi_usage i) <> 0) (world_info w <$> w_pids w) in
  exists rows s', procrank cmdline (mk_options k order WS_OFF) s =
      Done (Some (rows, u64 (sum_pss shown), u64 (sum_uss shown))) s' /\
    rows.*1 ≡ₚ shown /\ StronglySorted (fun a b => row_le k order (pi_usage a) (pi_usage b)) rows.*1 /\
    Forall (fun r => r.2 = (getprocname (cmdline (pi_pid r.1)) 256).2) rows.
Proof.
  intros shown. destruct (procrank_spec (w := w) cmdline k order s Hroom Horder) as (rows & s' & E & _ & Hrest).
  by exists rows, s'.
Qed.

(** ** With libpagemap *)

Definition process_pages (w : world) (entries : Z -> pm_map -> list Z) (n : Z) : list Z :=
  match w_process w n with Some p => all_frames (entries n <$> maps p) | None => [] end.
Definition all_pages (w : world) (entries : Z -> pm_map -> list Z) : list Z :=
  mjoin (process_pages w entries <$> w_pids w).

Lemma world_usage_pages f w counts entries n :
  describes f w counts entries -> world_usage_of w n = usage_of (fs_pagesize f) counts (process_pages w entries n).
Proof.
  intros D. unfold world_usage_of, process_pages. destruct (w_process w n) as [p|] eqn:E; [|done].
  by apply (world_usage _ _ _ _ _ _ D).
Qed.

Lemma sum_pss_pages f w counts entries ns :
  describes f w counts entries ->
  sum_pss (filter (fun i => vss (pi_usage i) <> 0) (world_info w <$> ns)) =
    pss (usage_of (fs_pagesize f) counts (mjoin (process_pages w entries <$> ns))).
Proof.
  intros D. induction ns as [|n ns IH]; [done|].
  change (mjoin (process_pages w entries <$> n :: ns)) with (process_pages w entries n ++ mjoin (process_pages w entries <$> ns)).
  rewrite usage_of_app. change (world_info w <$> n :: ns) with (world_info w n :: (world_info w <$> ns)). rewrite filter_cons.
  assert (Eu : pi_usage (world_info w n) = usage_of (fs_pagesize f) counts (process_pages w entries n))
    by (by apply world_usage_pages).
  rewrite Eu. cbn [pss plus]. rewrite <-IH. destruct (decide (vss _ <> 0)) as [Hv|Hv].
  - unfold sum_pss. cbn [foldr]. by rewrite Eu.
  - destruct (ordered_usage (fs_pagesize f) counts (process_pages w entries n)) as [H1 H2]; [apply D|].
    destruct (decide (vss (usage_of (fs_pagesize f) counts (process_pages w entries n)) = 0)) as [Hz|Hz]; [lia|by destruct Hv].
Qed.

(** C26: the total that procrank prints is the memory in use. With libpagemap over a
    /proc whose counts are the numbers of pages of the listed processes in each frame,
    the total [pss] is the size of the distinct frames, short by less than a byte for
    each page. *)
Theorem procrank_total_is_memory (f : proc_fs) (w : world) (counts : Z -> Z) (entries : Z -> pm_map -> list Z)
    (cmdline : Z -> option (list Z)) (s : pm_state)
  (Hproc : describes f w counts entries) (Hroom : roomy s)
  (Hcounts : forall g, g ∈ all_pages w entries -> counts g = occurrences g (all_pages w entries)) :
  let memory := fs_pagesize f * Z.of_nat (size (list_to_set (all_pages w entries) : gset Z)) in
  memory < 2 ^ 64 ->
  exists rows total_pss total_uss s',
    procrank (H := pagemap_lib f) cmdline default_options s = Done (Some (rows, total_pss, total_uss)) s' /\
    memory - Z.of_nat (length (all_pages w entries)) <= total_pss <= memory.
Proof.
  intros memory Hm. pose proof (pagemap_lib_ok f w counts entries Hproc) as Hok.
  destruct (procrank_spec (H := pagemap_lib f) (H0 := Hok) cmdline By_pss (-1) s Hroom (or_intror eq_refl)) as (rows & s' & E & _).
  eexists rows, _, _, s'. split; [exact E|]. rewrite (sum_pss_pages _ _ _ _ _ Hproc). fold (all_pages w entries).
  pose proof (pss_bounds (fs_pagesize f) counts (all_pages w entries) Hcounts) as Hb. cbv zeta in Hb. fold memory in Hb.
  destruct (ordered_usage (fs_pagesize f) counts (all_pages w entries)) as [Ho1 _]; [apply Hproc|].
  rewrite u64_small by lia. exact Hb.
Qed.

(** ** Witnesses: the two processes of PagemapProps *)

Definition two_world : world :=
  mk_world [1; 2] (fun n => if n =? 1 then Some process1 else if n =? 2 then Some process2 else None)
    (fun n m => usage_of 4096 two_counts (frames (two_entries n))).
Definition two_proc : proc_fs :=
  mk_proc_fs 4096 two_kpagecount (fun _ _ => Read_error 5) two_pagemap (inr [[49]; [46]; [50]])
    (fun n => if n =? 1 then 0 else if n =? 2 then 0 else 2)
    (fun n => if n =? 1 then inr [49; 48; 48; 48; 45; 51; 48; 48; 48; 32; 114; 10]
              else inr [50; 48; 48; 48; 45; 51; 48; 48; 48; 32; 114; 10])
    (fun _ => inl 2) 0 0 pm_memusage_zero [] [].

Lemma two_proc_describes : describes two_proc two_world two_counts (fun n _ => two_entries n).
Proof.
  split.
  - cbn. lia.
  - exact two_counts_readable.
  - exists [[49]; [46]; [50]]. split; [done|]. by vm_compute.
  - intros n. cbn. destruct (Z.eqb_spec n 1) as [->|H1]; [|destruct (Z.eqb_spec n 2) as [->|H2]; [|done]];
      split_and!; try done; intros [e al cl] Hs; unfold roomy in Hs; cbn in Hs; subst al; by vm_compute.
  - intros n p. cbn. destruct (Z.eqb_spec n 1) as [->|H1]; [|destruct (Z.eqb_spec n 2) as [->|H2]; [|done]]; intros [= <-].
    + pose proof process1_readable as Hr. apply Forall2_cons in Hr as [Hr _]. by apply Forall_singleton.
    + pose proof process2_readable as Hr. apply Forall2_cons in Hr as [Hr _]. by apply Forall_singleton.
  - intros n p. cbn. destruct (Z.eqb_spec n 1) as [->|H1]; [|destruct (Z.eqb_spec n 2) as [->|H2]; [|done]]; intros [= <-]; by vm_compute.
  - done.
Qed.

Lemma procrank_correct_witness :
  exists rows s', procrank (H := pagemap_lib two_proc) (fun _ => None) (mk_options By_uss 1 WS_OFF) pm_start =
    Done (Some (rows, 8192, 4096)) s' /\ (pi_pid <$> rows.*1) ≡ₚ [1; 2].
Proof.
  destruct (procrank_correct (H := pagemap_lib two_proc) (H0 := pagemap_lib_ok _ _ _ _ two_proc_describes) (fun _ => None) By_uss 1 pm_start)
    as (rows & s' & E & Hp & _); [done|by left|].
  exists rows, s'. split; [rewrite E; by vm_compute|]. rewrite Hp. by vm_compute.
Defined.

Lemma procrank_total_is_memory_witness :
  exists rows total_pss total_uss s',
    procrank (H := pagemap_lib two_proc) (fun _ => None) default_options pm_start = Done (Some (rows, total_pss, total_uss)) s' /\
    8189 <= total_pss <= 8192.
Proof.
  apply (procrank_total_is_memory two_proc two_world two_counts (fun n _ => two_entries n) (fun _ => None) pm_start two_proc_describes).
  - done.
  - intros g Hg. assert (g = 5 \/ g = 6) as [-> | ->]; [|by vm_compute..]. vm_compute in Hg. set_solver.
  - by vm_compute.
Defined.
