(* ===== verification/Librank.v ===== *)
(** * Libraries by memory usage (librank/librank.c)

    The table of the libraries is a list of structures, each with the list of the
    mappings of the processes; a pointer into it is an index. A process structure is
    named by the number of its allocation, since [get_mapping] compares pointers. *)

From Stdlib Require Import String.
From S2P Require Import Prelude Bytes Scanf Pagemap PagemapProps PagemapLib Procrank.

Record process_info := mk_process_info { pr_pid : Z; pr_cmdline : list Z }.
Record mapping_info := mk_mapping_info { mp_proc : nat; mp_usage : pm_memusage }.
Record library_info := mk_library_info {
  li_name : list Z;
  li_mappings : list mapping_info;
  li_mappings_size : Z;
  li_total : pm_memusage
}.

Definition MAX_CMDLINE : nat := 256.
Definition INIT_LIBRARIES : Z := 16.
Definition INIT_MAPPINGS : Z := 4.
Definition library_name_blacklist : list (list Z) := str <$> ["[heap]"; "[stack]"; ""]%string.

Record librank_state := mk_librank {
  lr_pm : pm_state;
  lr_libraries : list library_info;
  lr_libraries_size : Z;
  lr_procs : list process_info
}.

Definition with_pm {A} (m : M pm_state A) : M librank_state A :=
  zoom (fun s => Some (lr_pm s)) (fun p s => mk_librank p (lr_libraries s) (lr_libraries_size s) (lr_procs s)) m.
Definition set_libraries (l : list library_info) (n : Z) : M librank_state unit :=
  modify (fun s => mk_librank (lr_pm s) l n (lr_procs s)).
(** [malloc] or [exit]. *)
Definition must_alloc : M librank_state unit :=
  do ok <- with_pm alloc; if ok : bool then mret' tt else longjmp.

Fixpoint find_library (i : nat) (l : list library_info) (name : list Z) : option nat :=
  match l with
  | [] => None
  | li :: l => if bool_decide (li_name li = name) then Some i else find_library (S i) l name
  end.

Definition get_library (name : list Z) : M librank_state (option nat) :=
  if bool_decide (name ∈ library_name_blacklist) then mret' None
  else
    do s <- get;
    match find_library 0 (lr_libraries s) name with
    | Some i => mret' (Some i)
    | None =>
        let grow := lr_libraries_size s <=? Z.of_nat (length (lr_libraries s)) in
        (if grow then must_alloc else mret' tt);;;
        must_alloc;;;
        must_alloc;;;
        must_alloc;;;
        set_libraries (lr_libraries s ++ [mk_library_info name [] INIT_MAPPINGS pm_memusage_zero])
          (if grow then s32 (2 * lr_libraries_size s) else lr_libraries_size s);;;
        mret' (Some (length (lr_libraries s)))
    end.

Fixpoint find_mapping (j : nat) (l : list mapping_info) (proc : nat) : option nat :=
  match l with
  | [] => None
  | m :: l => if Nat.eqb (mp_proc m) proc then Some j else find_mapping (S j) l proc
  end.

Definition put_library (i : nat) (li : library_info) : M librank_state unit :=
  do s <- get; set_libraries (<[i := li]> (lr_libraries s)) (lr_libraries_size s).

Definition get_mapping (i proc : nat) : M librank_state nat :=
  do s <- get;
  do li <- deref (lr_libraries s !! i);
  match find_mapping 0 (li_mappings li) proc with
  | Some j => mret' j
  | None =>
      let grow := li_mappings_size li <=? Z.of_nat (length (li_mappings li)) in
      (if grow then must_alloc else mret' tt);;;
      must_alloc;;;
      put_library i (mk_library_info (li_name li) (li_mappings li ++ [mk_mapping_info proc pm_memusage_zero])
        (if grow then s32 (2 * li_mappings_size li) else li_mappings_size li) (li_total li));;;
      mret' (length (li_mappings li))
  end.

(** Adding to a mapping and to its library. *)
Definition add_usage (i j : nat) (usage : pm_memusage) : M librank_state unit :=
  do s <- get;
  do li <- deref (lr_libraries s !! i);
  do m <- deref (li_mappings li !! j);
  put_library i (mk_library_info (li_name li)
    (<[j := mk_mapping_info (mp_proc m) (pm_memusage_add (mp_usage m) usage)]> (li_mappings li))
    (li_mappings_size li) (pm_memusage_add (li_total li) usage)).

(** [sprintf] of "/proc/%d/cmdline" into 20 bytes is stuck when it does not fit. *)
Fixpoint digits_of (fuel : nat) (n : Z) : Z :=
  match fuel with
  | O => 1
  | S fuel => if n <? 10 then 1 else 1 + digits_of fuel (n / 10)
  end.
Definition filename_fits (pid : Z) : bool :=
  6 + (if pid <? 0 then 1 + digits_of 10 (- pid) else digits_of 10 pid) + 8 <? 20.

Definition getprocname_lib (file : option (list Z)) (len : nat) : list Z :=
  match (text ← file; fgets len text) with
  | Some (line, _) => c_string line
  | None => []
  end.

Section librank.
Context `{pm_lib} (cmdline : Z -> option (list Z)).

Definition get_process (n : Z) : M librank_state nat :=
  must_alloc;;;
  if negb (filename_fits n) then stuck
  else
    do s <- get;
    put (mk_librank (lr_pm s) (lr_libraries s) (lr_libraries_size s)
           (lr_procs s ++ [mk_process_info n (getprocname_lib (cmdline n) MAX_CMDLINE)]));;;
    mret' (length (lr_procs s)).

(** [prefix]: the option [-P]. *)
Context (prefix : option (list Z)).

Definition skipped (name : list Z) : bool :=
  match prefix with
  | Some p => negb (bool_decide (take (length p) name = p))
  | None => false
  end.

(** The mappings of one process; [out] is the variable [map_usage]. *)
Fixpoint maps_of_process (p : pm_process) (proc : nat) (l : list pm_map) (out : pm_memusage) : M librank_state pm_memusage :=
  match l with
  | [] => mret' out
  | m :: l =>
      if skipped (m_name m) then maps_of_process p proc l out
      else
        do li <- get_library (m_name m);
        match li with
        | None => maps_of_process p proc l out
        | Some i =>
            do j <- get_mapping i proc;
            do (error, out) <- with_pm (lib_map_usage p m out);
            if negb (error =? 0) then longjmp
            else
              add_usage i j out;;;
              maps_of_process p proc l out
        end
  end.

Fixpoint processes (pids : list Z) (out : pm_memusage) : M librank_state unit :=
  match pids with
  | [] => mret' tt
  | n :: pids =>
      do (error, p) <- with_pm (lib_process_create n);
      if negb (error =? 0) then processes pids out
      else
        do p <- deref p;
        do proc <- get_process n;
        do (error, maps) <- with_pm (lib_process_maps p);
        if negb (error =? 0) then longjmp
        else
          do out <- maps_of_process p proc maps out;
          processes pids out
  end.

(** The report: the libraries by [pss], the mappings of each by the field. *)
Definition licmp (order : Z) (a b : library_info) : Z :=
  order * numcmp (s64 (pss (li_total a))) (s64 (pss (li_total b))).

Definition report_libraries (k : sort_field) (order : Z) (l : list library_info) : list (library_info * list mapping_info) :=
  (fun li => (li, qsort (fun a b => sort_by k order (mp_usage a) (mp_usage b)) (li_mappings li))) <$> qsort (licmp order) l.

(** [main] after the options, from a state without libraries; [uninit] is [map_usage]
    at first. *)
Definition librank (k : sort_field) (order : Z) (uninit : pm_memusage) :
    M librank_state (list (library_info * list mapping_info)) :=
  do (error, pids) <- with_pm lib_kernel_pids;
  if negb (error =? 0) then longjmp
  else
    processes pids uninit;;;
    do s <- get;
    mret' (report_libraries k order (lr_libraries s)).
End librank.
