(* ===== verification/LibrankProps.v ===== *)
(** * What librank adds up (properties of Librank)

    The table of the libraries is the aggregation of the mappings seen so far: one
    library for a name, with the usage of all its mappings and one entry for each
    process. *)

From stdpp Require Import sorting.
From Stdlib Require Import String.
From S2P Require Import Prelude Bytes Scanf Pagemap PagemapProps PagemapLib Procrank ProcrankProps Librank.

(** A mapping that was counted: its process, its name and its usage. *)
Definition item : Type := nat * list Z * pm_memusage.
Definition it_proc (x : item) : nat := x.1.1.
Definition it_name (x : item) : list Z := x.1.2.
Definition it_usage (x : item) : pm_memusage := x.2.

Definition usage_for (P : item -> Prop) `{forall x, Decision (P x)} (items : list item) : pm_memusage :=
  total_usage (it_usage <$> filter P items).

Lemma usage_for_snoc (P : item -> Prop) `{forall x, Decision (P x)} items x :
  usage_for P (items ++ [x]) =
    if decide (P x) then pm_memusage_add (usage_for P items) (it_usage x) else usage_for P items.
Proof.
  unfold usage_for, total_usage. rewrite filter_app, fmap_app, foldl_app. rewrite filter_cons, filter_nil.
  by case_decide.
Qed.

Record lib_ok (items : list item) (li : library_info) : Prop := {
  lo_total : li_total li = usage_for (fun x => it_name x = li_name li) items;
  lo_procs : NoDup (mp_proc <$> li_mappings li);
  lo_cover x : x ∈ items -> it_name x = li_name li -> it_proc x ∈ mp_proc <$> li_mappings li;
  lo_mapping m : m ∈ li_mappings li ->
    mp_usage m = usage_for (fun x => it_name x = li_name li /\ it_proc x = mp_proc m) items
}.
Record table (items : list item) (libs : list library_info) : Prop := {
  tb_names : NoDup (li_name <$> libs);
  tb_cover x : x ∈ items -> it_name x ∈ li_name <$> libs;
  tb_libs li : li ∈ libs -> lib_ok items li
}.

Lemma table_nil : table [] [].
Proof. split; [constructor|set_solver|set_solver]. Qed.

Lemma filter_none {A} (P : A -> Prop) `{forall x, Decision (P x)} (l : list A) : (forall x, x ∈ l -> ~ P x) -> filter P l = [].
Proof.
  induction l as [|x l IH]; intros Hn; [done|]. rewrite filter_cons_False by (apply Hn; set_solver). apply IH. set_solver.
Qed.

(** A library that no mapping has been counted for. *)
Lemma table_new items libs name n :
  table items libs -> name ∉ li_name <$> libs -> table items (libs ++ [mk_library_info name [] n pm_memusage_zero]).
Proof.
  intros [Hn Hc Hl] Hname. split.
  - rewrite fmap_app. apply NoDup_app. split_and!; [done| |apply NoDup_singleton]. set_solver.
  - intros x Hx. rewrite fmap_app. set_solver.
  - intros li [Hli|Hli]%elem_of_app; [by apply Hl|]. apply list_elem_of_singleton in Hli as ->. split.
    + cbn. unfold usage_for. rewrite filter_none; [done|]. intros x Hx Ex. apply Hname. rewrite <-Ex. by apply Hc.
    + constructor.
    + cbn. intros x Hx Ex. exfalso. apply Hname. rewrite <-Ex. by apply Hc.
    + set_solver.
Qed.

(** Changing a library that keeps its name. *)
Lemma table_update items libs i li li' :
  table items libs -> libs !! i = Some li -> li_name li' = li_name li -> lib_ok items li' ->
  table items (<[i := li']> libs).
Proof.
  intros [Hn Hc Hl] Ei En Hli.
  assert (Enames : li_name <$> <[i := li']> libs = li_name <$> libs).
  { rewrite list_fmap_insert, En. apply list_insert_id. by rewrite list_lookup_fmap, Ei. }
  split; rewrite ?Enames; [done|done|]. intros x [k Hk]%list_elem_of_lookup.
  destruct (decide (k = i)) as [->|Hne].
  - rewrite list_lookup_insert_eq in Hk by (by eapply lookup_lt_Some). by injection Hk as <-.
  - rewrite list_lookup_insert_ne in Hk by done. apply Hl. by eapply list_elem_of_lookup_2.
Qed.

Lemma lib_ok_new_mapping items li proc n :
  lib_ok items li -> proc ∉ mp_proc <$> li_mappings li ->
  lib_ok items (mk_library_info (li_name li) (li_mappings li ++ [mk_mapping_info proc pm_memusage_zero]) n (li_total li)).
Proof.
  intros [Ht Hp Hc Hm] Hproc. split; cbn [li_total li_name li_mappings].
  - done.
  - rewrite fmap_app. apply NoDup_app. split_and!; [done| |apply NoDup_singleton]. set_solver.
  - intros x Hx Ex. rewrite fmap_app. apply elem_of_app. left. by apply Hc.
  - intros m [Hin|Hin]%elem_of_app; [by apply Hm|]. apply list_elem_of_singleton in Hin as ->. cbn [mp_usage mp_proc].
    unfold usage_for. rewrite filter_none; [done|]. intros x Hx [Ex Ep]. apply Hproc. rewrite <-Ep. by apply Hc.
Qed.

(** Counting one more mapping. *)
Lemma table_add items libs i li j m u :
  table items libs -> libs !! i = Some li -> li_mappings li !! j = Some m ->
  table (items ++ [(mp_proc m, li_name li, u)])
    (<[i := mk_library_info (li_name li) (<[j := mk_mapping_info (mp_proc m) (pm_memusage_add (mp_usage m) u)]> (li_mappings li))
              (li_mappings_size li) (pm_memusage_add (li_total li) u)]> libs).
Proof.
  intros [Hn Hc Hl] Ei Ej. set (x := (mp_proc m, li_name li, u)).
  set (li' := mk_library_info _ _ _ _).
  assert (Enames : li_name <$> <[i := li']> libs = li_name <$> libs).
  { rewrite list_fmap_insert. apply list_insert_id. by rewrite list_lookup_fmap, Ei. }
  assert (Eprocs : mp_proc <$> li_mappings li' = mp_proc <$> li_mappings li).
  { cbn. rewrite list_fmap_insert. apply list_insert_id. by rewrite list_lookup_fmap, Ej. }
  assert (Hli : lib_ok items li) by (apply Hl; by eapply list_elem_of_lookup_2).
  split; rewrite ?Enames; [done| |].
  - intros y [Hy|Hy]%elem_of_app; [by apply Hc|]. apply list_elem_of_singleton in Hy as ->.
    apply list_elem_of_fmap. exists li. split; [done|]. by eapply list_elem_of_lookup_2.
  - intros l [k Hk]%list_elem_of_lookup. destruct (decide (k = i)) as [->|Hne].
    + rewrite list_lookup_insert_eq in Hk by (by eapply lookup_lt_Some). injection Hk as <-. destruct Hli as [Ht Hp Hcov Hm].
      split; [|by rewrite Eprocs| |].
      * rewrite usage_for_snoc, decide_True by done. cbn [li_total li']. by rewrite Ht.
      * intros y [Hy|Hy]%elem_of_app Ey; rewrite Eprocs; [by apply Hcov|].
        apply list_elem_of_singleton in Hy as ->. apply list_elem_of_fmap. exists m. split; [done|]. by eapply list_elem_of_lookup_2.
      * intros m' [k' Hk']%list_elem_of_lookup. cbn [li_mappings li'] in Hk'. rewrite usage_for_snoc.
        destruct (decide (k' = j)) as [->|Hne'].
        -- rewrite list_lookup_insert_eq in Hk' by (by eapply lookup_lt_Some). injection Hk' as <-.
           rewrite decide_True by done. cbn [mp_usage mp_proc]. f_equal. apply Hm. by eapply list_elem_of_lookup_2.
        -- rewrite list_lookup_insert_ne in Hk' by done. rewrite decide_False.
           { apply Hm. by eapply list_elem_of_lookup_2. }
           intros [_ Ep]. apply Hne'. eapply (NoDup_lookup _ _ _ (mp_proc m)); [exact Hp| |].
           { rewrite list_lookup_fmap, Hk'. cbn. f_equal. symmetry. exact Ep. }
           { by rewrite list_lookup_fmap, Ej. }
    + rewrite list_lookup_insert_ne in Hk by done.
      assert (Hl' : lib_ok items l) by (apply Hl; by eapply list_elem_of_lookup_2).
      assert (Hdiff : li_name li <> li_name l).
      { intros En. apply Hne. eapply (NoDup_lookup _ _ _ (li_name l)); [exact Hn| |].
        - by rewrite list_lookup_fmap, Hk.
        - rewrite list_lookup_fmap, Ei. cbn. by rewrite En. }
      destruct Hl' as [Ht Hp Hcov Hm]. split.
      * rewrite usage_for_snoc, decide_False by done. done.
      * done.
      * intros y [Hy|Hy]%elem_of_app Ey; [by apply Hcov|]. apply list_elem_of_singleton in Hy as ->. done.
      * intros m' Hm'. rewrite usage_for_snoc, decide_False by (intros [? _]; done). by apply Hm.
Qed.

(** ** The operations *)

Lemma with_pm_done {A} (m : M pm_state A) a p p' libs n ps :
  m p = Done a p' -> with_pm m (mk_librank p libs n ps) = Done a (mk_librank p' libs n ps).
Proof. intros E. unfold with_pm, zoom. cbn [lr_pm]. by rewrite E. Qed.
Lemma must_alloc_done p libs n ps : roomy p -> must_alloc (mk_librank p libs n ps) = Done tt (mk_librank p libs n ps).
Proof. intros Hp. unfold must_alloc. by rewrite (mbind_done _ _ _ _ _ (with_pm_done _ _ _ _ libs n ps (alloc_roomy _ Hp))). Qed.
Lemma alloc_if_done (b : bool) p libs n ps :
  roomy p -> (if b then must_alloc else mret' tt) (mk_librank p libs n ps) = Done tt (mk_librank p libs n ps).
Proof. intros Hp. destruct b; [by apply must_alloc_done|done]. Qed.

Lemma find_library_spec k l name :
  match find_library k l name with
  | Some i => exists li, l !! (i - k)%nat = Some li /\ li_name li = name /\ (k <= i)%nat
  | None => name ∉ li_name <$> l
  end.
Proof.
  revert k. induction l as [|li l IH]; intros k; cbn [find_library]; [set_solver|].
  case_bool_decide as E; [exists li; rewrite Nat.sub_diag; by split_and!|].
  specialize (IH (S k)). destruct (find_library (S k) l name) as [i|].
  - destruct IH as (li' & Hi & En & Hk). exists li'. split_and!; [|done|lia].
    replace (i - k)%nat with (S (i - S k)) by lia. done.
  - rewrite fmap_cons. set_solver.
Qed.
Lemma find_mapping_spec k l proc :
  match find_mapping k l proc with
  | Some j => exists m, l !! (j - k)%nat = Some m /\ mp_proc m = proc /\ (k <= j)%nat
  | None => proc ∉ mp_proc <$> l
  end.
Proof.
  revert k. induction l as [|m l IH]; intros k; cbn [find_mapping]; [set_solver|].
  destruct (Nat.eqb_spec (mp_proc m) proc) as [E|E]; [exists m; rewrite Nat.sub_diag; by split_and!|].
  specialize (IH (S k)). destruct (find_mapping (S k) l proc) as [j|].
  - destruct IH as (m' & Hj & Ep & Hk). exists m'. split_and!; [|done|lia].
    replace (j - k)%nat with (S (j - S k)) by lia. done.
  - rewrite fmap_cons. set_solver.
Qed.

Lemma get_library_done items p libs n ps name :
  roomy p -> table items libs -> name ∉ library_name_blacklist ->
  exists i li libs' n', get_library name (mk_librank p libs n ps) = Done (Some i) (mk_librank p libs' n' ps) /\
    table items libs' /\ libs' !! i = Some li /\ li_name li = name.
Proof.
  intros Hp Ht Hb. unfold get_library. rewrite bool_decide_eq_false_2 by done. erewrite mbind_done by done. cbn [lr_libraries lr_libraries_size].
  pose proof (find_library_spec 0 libs name) as Hf. destruct (find_library 0 libs name) as [i|].
  - destruct Hf as (li & Ei & En & _). rewrite Nat.sub_0_r in Ei. exists i, li, libs, n. by split_and!.
  - erewrite mbind_done by (by apply alloc_if_done). do 3 erewrite mbind_done by (by apply must_alloc_done).
    eexists _, _, _, _. split_and!; [reflexivity|by apply table_new| |].
    + by apply list_lookup_middle.
    + done.
Qed.

Lemma get_mapping_done items p libs n ps i li proc :
  roomy p -> table items libs -> libs !! i = Some li ->
  exists j m li' libs', get_mapping i proc (mk_librank p libs n ps) = Done j (mk_librank p libs' n ps) /\
    table items libs' /\ libs' !! i = Some li' /\ li_name li' = li_name li /\
    li_mappings li' !! j = Some m /\ mp_proc m = proc.
Proof.
  intros Hp Ht Ei. unfold get_mapping. erewrite mbind_done by done. cbn [lr_libraries]. rewrite Ei. cbn [deref].
  erewrite mbind_done by done.
  pose proof (find_mapping_spec 0 (li_mappings li) proc) as Hf. destruct (find_mapping 0 (li_mappings li) proc) as [j|].
  - destruct Hf as (m & Ej & Em & _). rewrite Nat.sub_0_r in Ej. exists j, m, li, libs. by split_and!.
  - erewrite mbind_done by (by apply alloc_if_done). erewrite mbind_done by (by apply must_alloc_done).
    eexists _, _, _, _. split_and!; [reflexivity| | | | |].
    + eapply table_update; [exact Ht|exact Ei|done|]. apply lib_ok_new_mapping; [|exact Hf].
      apply Ht. by eapply list_elem_of_lookup_2.
    + apply list_lookup_insert_eq. by eapply lookup_lt_Some.
    + done.
    + by apply list_lookup_middle.
    + done.
Qed.

Lemma add_usage_done items p libs n ps i li j m u :
  table items libs -> libs !! i = Some li -> li_mappings li !! j = Some m ->
  exists libs', add_usage i j u (mk_librank p libs n ps) = Done tt (mk_librank p libs' n ps) /\
    table (items ++ [(mp_proc m, li_name li, u)]) libs'.
Proof.
  intros Ht Ei Ej. unfold add_usage. erewrite mbind_done by done. cbn [lr_libraries]. rewrite Ei. cbn [deref].
  erewrite mbind_done by done. rewrite Ej. cbn [deref]. erewrite mbind_done by done.
  eexists. split; [reflexivity|]. by apply table_add.
Qed.

(** ** The loops *)

Section loops.
Context `{pm_lib_ok w} (cmdline : Z -> option (list Z)) (prefix : option (list Z)).

Definition counted (m : pm_map) : bool :=
  negb (skipped prefix (m_name m)) && bool_decide (m_name m ∉ library_name_blacklist).
Definition items_of_maps (n : Z) (proc : nat) (l : list pm_map) : list item :=
  (fun m => (proc, m_name m, w_usage w n m)) <$> filter (fun m => counted m) l.

Lemma maps_of_process_done n p proc l items pm libs sz ps out :
  roomy pm -> w_process w n = Some p -> (forall m, m ∈ l -> m ∈ maps p) -> table items libs ->
  exists out' libs' sz', maps_of_process prefix p proc l out (mk_librank pm libs sz ps) =
      Done out' (mk_librank pm libs' sz' ps) /\ table (items ++ items_of_maps n proc l) libs'.
Proof.
  intros Hp Ep. revert items libs sz out. induction l as [|m l IH]; intros items libs sz out Hl Ht.
  - exists out, libs, sz. split; [done|]. by rewrite app_nil_r.
  - cbn [maps_of_process]. unfold items_of_maps. rewrite filter_cons. unfold counted.
    destruct (skipped prefix (m_name m)) eqn:Es; cbn [negb andb].
    { rewrite decide_False by (intros []). apply IH; [set_solver|done]. }
    destruct (decide (m_name m ∈ library_name_blacklist)) as [Hb|Hb].
    { rewrite bool_decide_eq_false_2 by tauto. rewrite decide_False by (intros []).
      erewrite mbind_done by (unfold get_library; by rewrite bool_decide_eq_true_2). apply IH; [set_solver|done]. }
    rewrite bool_decide_eq_true_2 by done. rewrite decide_True by done.
    destruct (get_library_done items pm libs sz ps (m_name m) Hp Ht Hb) as (i & li & libs1 & sz1 & E1 & Ht1 & Ei & En).
    rewrite (mbind_done _ _ _ _ _ E1).
    destruct (get_mapping_done items pm libs1 sz1 ps i li proc Hp Ht1 Ei) as (j & mp & li2 & libs2 & E2 & Ht2 & Ei2 & En2 & Ej & Em).
    rewrite (mbind_done _ _ _ _ _ E2).
    rewrite (mbind_done _ _ _ _ _ (with_pm_done _ _ _ _ libs2 sz1 ps (lib_map_usage_ok n p m out pm Hp Ep (Hl m ltac:(set_solver))))).
    cbv beta iota. change (negb (0 =? 0)) with false. cbv iota.
    destruct (add_usage_done items pm libs2 sz1 ps i li2 j mp (w_usage w n m) Ht2 Ei2 Ej) as (libs3 & E3 & Ht3).
    rewrite (mbind_done _ _ _ _ _ E3).
    destruct (IH (items ++ [(mp_proc mp, li_name li2, w_usage w n m)]) libs3 sz1 (w_usage w n m)) as (out' & libs' & sz' & E4 & Ht4);
      [set_solver|done|].
    exists out', libs', sz'. split; [exact E4|]. rewrite <-app_assoc in Ht4. rewrite Em, En2, En in Ht4. exact Ht4.
Qed.

(** The mappings that are counted; processes are numbered as they are opened. *)
Fixpoint items_of (pids : list Z) (k : nat) : list item :=
  match pids with
  | [] => []
  | n :: pids =>
      match w_process w n with
      | Some p => items_of_maps n k (maps p) ++ items_of pids (S k)
      | None => items_of pids k
      end
  end.
(** Their structures. *)
Fixpoint procs_of (pids : list Z) : list process_info :=
  match pids with
  | [] => []
  | n :: pids =>
      match w_process w n with
      | Some p => mk_process_info n (getprocname_lib (cmdline n) MAX_CMDLINE) :: procs_of pids
      | None => procs_of pids
      end
  end.

Lemma processes_done pids items pm libs sz ps out :
  roomy pm -> table items libs ->
  (forall n, n ∈ pids -> is_Some (w_process w n) -> filename_fits n = true) ->
  exists pm' libs' sz', processes cmdline prefix pids out (mk_librank pm libs sz ps) =
      Done tt (mk_librank pm' libs' sz' (ps ++ procs_of pids)) /\
    table (items ++ items_of pids (length ps)) libs'.
Proof.
  revert items pm libs sz ps out. induction pids as [|n pids IH]; intros items pm libs sz ps out Hp Ht Hf.
  - exists pm, libs, sz. cbn. by rewrite !app_nil_r.
  - cbn [processes items_of procs_of].
    destruct (lib_create_ok n pm Hp) as (e & pm1 & E1 & Hp1 & He).
    rewrite (mbind_done _ _ _ _ _ (with_pm_done _ _ _ _ libs sz ps E1)). cbv beta iota.
    destruct (w_process w n) as [p|] eqn:Ep.
    + assert (e = 0) as -> by (by apply He). change (negb (0 =? 0)) with false. cbv iota. cbn [deref].
      erewrite mbind_done by done. set (k := length ps).
      assert (Eg : get_process cmdline n (mk_librank pm1 libs sz ps) =
        Done k (mk_librank pm1 libs sz (ps ++ [mk_process_info n (getprocname_lib (cmdline n) MAX_CMDLINE)]))).
      { unfold get_process. rewrite (mbind_done _ _ _ _ _ (must_alloc_done pm1 libs sz ps Hp1)).
        rewrite Hf by (set_solver || by eexists). cbn [negb]. done. }
      rewrite (mbind_done _ _ _ _ _ Eg).
      rewrite (mbind_done _ _ _ _ _ (with_pm_done _ _ _ _ libs sz _ (lib_maps_ok p pm1 Hp1))). cbv beta iota.
      change (negb (0 =? 0)) with false. cbv iota.
      destruct (maps_of_process_done n p k (maps p) items pm1 libs sz
        (ps ++ [mk_process_info n (getprocname_lib (cmdline n) MAX_CMDLINE)]) out Hp1 Ep ltac:(done) Ht)
        as (out' & libs2 & sz2 & E2 & Ht2). rewrite (mbind_done _ _ _ _ _ E2).
      destruct (IH _ pm1 libs2 sz2 (ps ++ [mk_process_info n (getprocname_lib (cmdline n) MAX_CMDLINE)]) out' Hp1 Ht2)
        as (pm' & libs' & sz' & E3 & Ht3); [set_solver|].
      exists pm', libs', sz'. rewrite E3. rewrite <-!app_assoc in *. split; [done|].
      rewrite length_app in Ht3. cbn [length] in Ht3. rewrite Nat.add_1_r in Ht3. exact Ht3.
    + assert (Hne : e <> 0) by (intros ->; by destruct He as [[] _]). rewrite (proj2 (Z.eqb_neq _ _) Hne). cbn [negb].
      apply IH; [done|done|set_solver].
Qed.
End loops.

(** C27: librank aggregates by library and process. Over any library that keeps its
    promises, its report has one entry for each name, in the order of the total [pss];
    the total of a name is the sum over the mappings of that name that are not
    excluded, in all processes; below it is one entry for each process that has such a
    mapping, in the order of the field, with the sum over its own; and no such mapping
    is left out. *)
Theorem librank_correct `{pm_lib_ok w} (cmdline : Z -> option (list Z)) (prefix : option (list Z)) (k : sort_field)
    (order : Z) (uninit : pm_memusage) (pm : pm_state)
  (Hroom : roomy pm) (Horder : order = 1 \/ order = -1)
  (Hpids : forall n, n ∈ w_pids w -> is_Some (w_process w n) -> filename_fits n = true) :
  exists report s', librank cmdline prefix k order uninit (mk_librank pm [] INIT_LIBRARIES []) = Done report s' /\
    lr_procs s' = procs_of (w := w) cmdline (w_pids w) /\
    table (items_of (w := w) prefix (w_pids w) 0) report.*1 /\
    StronglySorted (fun a b => row_le By_pss order (li_total a) (li_total b)) report.*1 /\
    Forall (fun r => r.2 ≡ₚ li_mappings r.1 /\
              StronglySorted (fun a b => row_le k order (mp_usage a) (mp_usage b)) r.2) report.
Proof.
  unfold librank. rewrite (mbind_done _ _ _ _ _ (with_pm_done _ _ _ _ [] INIT_LIBRARIES [] (lib_pids_ok pm Hroom))). cbv beta iota.
  change (negb (0 =? 0)) with false. cbv iota.
  destruct (processes_done (w := w) cmdline prefix (w_pids w) [] pm [] INIT_LIBRARIES [] uninit Hroom table_nil Hpids)
    as (pm' & libs & sz & E & Ht).
  rewrite (mbind_done _ _ _ _ _ E). erewrite mbind_done by done. cbn [lr_libraries].
  eexists _, _. split; [reflexivity|]. split; [done|].
  assert (E1 : (report_libraries k order libs).*1 = qsort (licmp order) libs).
  { unfold report_libraries. rewrite <-list_fmap_compose. apply list_fmap_id. }
  assert (Hperm : qsort (licmp order) libs ≡ₚ libs) by apply merge_sort_Permutation.
  rewrite E1. split_and!.
  - destruct Ht as [Hn Hc Hl]. split.
    + by rewrite Hperm.
    + intros x Hx. rewrite Hperm. by apply Hc.
    + intros li Hli. apply Hl. by rewrite <-Hperm.
  - apply (qsort_sorted li_total By_pss order Horder).
  - apply Forall_fmap, Forall_forall. intros li _. split; [apply merge_sort_Permutation|by apply (qsort_sorted mp_usage)].
Qed.

(** Two processes that map the same library. *)
Definition named_process (n start : Z) : pm_process := mk_pm_process n [mk_pm_map start 12288 0 5 (str "/a"%string)].
Definition named_world : world :=
  mk_world [1; 2] (fun n => if n =? 1 then Some (named_process 1 4096) else if n =? 2 then Some (named_process 2 8192) else None)
    (fun n m => usage_of 4096 two_counts (frames (two_entries n))).
Definition named_proc : proc_fs :=
  mk_proc_fs 4096 two_kpagecount (fun _ _ => Read_error 5) two_pagemap (inr [[49]; [50]])
    (fun n => if n =? 1 then 0 else if n =? 2 then 0 else 2)
    (fun n => inr (str (if n =? 1 then "1000-3000 r-xp 0 0:0 1 /a"%string else "2000-3000 r-xp 0 0:0 1 /a"%string)))
    (fun _ => inl 2) 0 0 pm_memusage_zero [] [].

Lemma named_describes : describes named_proc named_world two_counts (fun n _ => two_entries n).
Proof.
  split.
  - cbn. lia.
  - exact two_counts_readable.
  - exists [[49]; [50]]. split; [done|]. by vm_compute.
  - intros n. cbn. destruct (Z.eqb_spec n 1) as [->|H1]; [|destruct (Z.eqb_spec n 2) as [->|H2]; [|done]];
      split_and!; try done; intros [e al cl] Hs; unfold roomy in Hs; cbn in Hs; subst al; by vm_compute.
  - intros n p. cbn. destruct (Z.eqb_spec n 1) as [->|H1]; [|destruct (Z.eqb_spec n 2) as [->|H2]; [|done]]; intros [= <-].
    + pose proof process1_readable as Hr. apply Forall2_cons in Hr as [[R1 R2 R3 R4 R5] _]. apply Forall_singleton. by split.
    + pose proof process2_readable as Hr. apply Forall2_cons in Hr as [[R1 R2 R3 R4 R5] _]. apply Forall_singleton. by split.
  - intros n p. cbn. destruct (Z.eqb_spec n 1) as [->|H1]; [|destruct (Z.eqb_spec n 2) as [->|H2]; [|done]]; intros [= <-]; by vm_compute.
  - done.
Qed.

Lemma librank_correct_witness :
  exists report s', librank (H := pagemap_lib named_proc) (fun _ => None) None By_vss (-1) pm_memusage_zero
      (mk_librank pm_start [] INIT_LIBRARIES []) = Done report s' /\
    (li_name <$> report.*1) = [str "/a"%string] /\ (pss ∘ li_total <$> report.*1) = [8192].
Proof.
  destruct (librank_correct (H := pagemap_lib named_proc) (H0 := pagemap_lib_ok _ _ _ _ named_describes)
    (fun _ => None) None By_vss (-1) pm_memusage_zero pm_start) as (report & s' & E & _).
  - done.
  - by right.
  - intros n Hn _. cbn in Hn. assert (n = 1 \/ n = 2) as [-> | ->] by set_solver; by vm_compute.
  - exists report, s'. split; [exact E|]. vm_compute in E. injection E as <- _. by vm_compute.
Defined.

(** The path of a process whose number has six digits overruns its array. *)
Example long_pid_overflows : filename_fits 99999 = true /\ filename_fits 100000 = false.
Proof. split; by vm_compute. Qed.
