(* ===== verification/Showslab.v ===== *)
(** * The slab caches by size (showslab/showslab.c)

    The list of the caches is a linked list in a heap: a node is named by its address,
    [NULL] is [None]. The sort works on the links. *)

From Stdlib Require Import String.
From S2P Require Import Prelude Bytes Scanf.

Record slab_info := mk_slab_info {
  s_name : list Z;
  s_next : option nat;
  s_nr_pages : Z;
  s_nr_objs : Z;
  s_nr_active_objs : Z;
  s_obj_size : Z;
  s_objs_per_slab : Z;
  s_nr_slabs : Z;
  s_use : Z
}.

Record slab_stat := mk_slab_stat {
  st_total_size : Z; st_active_size : Z;
  st_nr_objs : Z; st_nr_active_objs : Z;
  st_nr_slabs : Z; st_nr_active_slabs : Z;
  st_nr_caches : Z; st_nr_active_caches : Z;
  st_avg_obj_size : Z; st_min_obj_size : Z; st_max_obj_size : Z
}.

Notation heap := (gmap nat slab_info).

Definition set_next (v : option nat) (n : slab_info) : slab_info :=
  mk_slab_info (s_name n) v (s_nr_pages n) (s_nr_objs n) (s_nr_active_objs n) (s_obj_size n)
    (s_objs_per_slab n) (s_nr_slabs n) (s_use n).

Definition node (x : nat) : M heap slab_info := do h <- get; deref (h !! x).
Definition store_next (x : nat) (v : option nat) : M heap unit :=
  do n <- node x; modify (fun h => <[x := set_next v n]> h).

(** ** Sorting *)

Section sort.
Context (sort_func : slab_info -> slab_info -> bool).

(** The loop of [merge_objs]: [p] is the last node of the result, [None] for the local
    variable [list], whose link is [head]. *)
Fixpoint merge_loop (fuel : nat) (p head a b : option nat) : M heap (option nat) :=
  match fuel with
  | O => fun _ => NoFuel
  | S fuel =>
      match a, b with
      | Some x, Some y =>
          do nx <- node x;
          do ny <- node y;
          let z := if sort_func nx ny then x else y in
          (match p with Some q => store_next q (Some z) | None => mret' tt end);;;
          do nz <- node z;
          merge_loop fuel (Some z) (match p with Some _ => head | None => Some z end)
            (if sort_func nx ny then s_next nz else a) (if sort_func nx ny then b else s_next nz)
      | _, _ =>
          let rest := match a with None => b | _ => a end in
          match p with
          | Some q => store_next q rest;;; mret' head
          | None => mret' rest
          end
      end
  end.
Definition merge_objs (fuel : nat) (a b : option nat) : M heap (option nat) := merge_loop fuel None None a b.

(** The node in the middle: [b] moves twice as fast. *)
Fixpoint split_loop (fuel : nat) (list : nat) (b : option nat) : M heap nat :=
  match fuel with
  | O => fun _ => NoFuel
  | S fuel =>
      match b with
      | None => mret' list
      | Some y =>
          do ny <- node y;
          match s_next ny with
          | None => mret' list
          | Some z =>
              do nl <- node list;
              do list <- deref (s_next nl);
              do nz <- node z;
              split_loop fuel list (s_next nz)
          end
      end
  end.

Fixpoint slabsort (fuel : nat) (list : option nat) : M heap (option nat) :=
  match fuel with
  | O => fun _ => NoFuel
  | S fuel' =>
      match list with
      | None => mret' list
      | Some x =>
          do nx <- node x;
          match s_next nx with
          | None => mret' list
          | Some _ =>
              do mid <- split_loop fuel x (s_next nx);
              do nm <- node mid;
              let b := s_next nm in
              store_next mid None;;;
              do a <- slabsort fuel' list;
              do b <- slabsort fuel' b;
              merge_objs fuel a b
          end
      end
  end.
End sort.

Definition sort_name (a b : slab_info) : bool := str_lt (s_name a) (s_name b).
(** [BUILD_SORT_FUNC] *)
Definition sort_val (val : slab_info -> Z) (a b : slab_info) : bool := val b <? val a.

Definition set_sort_func (key : Z) : option (slab_info -> slab_info -> bool) :=
  let key := if (65 <=? key) && (key <=? 90) then key + 32 else key in
  if key =? 97 then Some (sort_val s_nr_active_objs)
  else if key =? 99 then Some (sort_val s_nr_pages)
  else if key =? 108 then Some (sort_val s_nr_slabs)
  else if key =? 110 then Some sort_name
  else if key =? 111 then Some (sort_val s_nr_objs)
  else if key =? 112 then Some (sort_val s_objs_per_slab)
  else if key =? 115 then Some (sort_val s_obj_size)
  else if key =? 117 then Some (sort_val s_use)
  else None.
Definition DEF_SORT_FUNC : slab_info -> slab_info -> bool := sort_val s_nr_objs.

(** ** Reading *)

Definition lits (s : string) : list directive := Lit <$> str s.

Definition version_format : list directive :=
  lits "slabinfo"%string ++ [Space; Lit 45; Space] ++ lits "version:"%string ++ [Space; Uns 32; Lit 46; Uns 32].
Definition SLABINFO_LINE_LEN : nat := 512.
Definition SLABINFO_NAME_LEN : nat := 32.
Definition slab_format : list directive :=
  [Str true (Some SLABINFO_NAME_LEN); Space; Uns 64; Space; Uns 64; Space; Uns 64; Space; Uns 64; Space; Uns 64; Space;
   Lit 58; Space] ++ lits "tunables"%string ++ [Space; Dec false; Space; Dec false; Space; Dec false; Space; Lit 58; Space] ++
  lits "slabdata"%string ++ [Space; Uns 64; Space; Uns 64; Space; Dec false].

Definition no_stats : slab_stat := mk_slab_stat 0 0 0 0 0 0 0 0 0 0 0.
Definition INT_MAX : Z := 2 ^ 31 - 1.

(** What a cache adds to the statistics; the number of caches is counted before. *)
Definition add_stats (p : slab_info) (nr_active_slabs : Z) (s : slab_stat) : slab_stat :=
  mk_slab_stat (u64 (st_total_size s + u64 (s_nr_objs p * s_obj_size p)))
    (u64 (st_active_size s + u64 (s_nr_active_objs p * s_obj_size p)))
    (u64 (st_nr_objs s + s_nr_objs p)) (u64 (st_nr_active_objs s + s_nr_active_objs p))
    (u64 (st_nr_slabs s + s_nr_slabs p)) (u64 (st_nr_active_slabs s + nr_active_slabs))
    (st_nr_caches s) (if s_nr_objs p =? 0 then st_nr_active_caches s else u64 (st_nr_active_caches s + 1))
    (st_avg_obj_size s)
    (if s_obj_size p <? st_min_obj_size s then s_obj_size p else st_min_obj_size s)
    (if st_max_obj_size s <? s_obj_size p then s_obj_size p else st_max_obj_size s).
Definition count_cache (s : slab_stat) : slab_stat :=
  mk_slab_stat (st_total_size s) (st_active_size s) (st_nr_objs s) (st_nr_active_objs s) (st_nr_slabs s)
    (st_nr_active_slabs s) (u64 (st_nr_caches s + 1)) (st_nr_active_caches s) (st_avg_obj_size s)
    (st_min_obj_size s) (st_max_obj_size s).
Definition average (s : slab_stat) : slab_stat :=
  mk_slab_stat (st_total_size s) (st_active_size s) (st_nr_objs s) (st_nr_active_objs s) (st_nr_slabs s)
    (st_nr_active_slabs s) (st_nr_caches s) (st_nr_active_caches s)
    (if st_nr_objs s =? 0 then st_avg_obj_size s else st_total_size s / st_nr_objs s)
    (st_min_obj_size s) (st_max_obj_size s).

(** One line: the cache and its number of active slabs, if it has the eight fields. *)
Definition parse_slab (line : list Z) : option (slab_info * Z) :=
  match sscanf (length line) slab_format line with
  | [Str_ name; Num_ active; Num_ objs; Num_ size; Num_ per_slab; Num_ pages_per_slab; Num_ active_slabs; Num_ slabs] =>
      Some (mk_slab_info name None (u64 (slabs * pages_per_slab)) objs active size per_slab slabs
              (if objs =? 0 then 0 else u64 (100 * active) / objs), active_slabs)
  | _ => None
  end.

Definition head_char (line : list Z) : Z := default 0 (line !! 0%nat).

(** The loop of [get_slabinfo]: the head, the last node and the statistics; the nodes
    are numbered as they are allocated, and [malloc] succeeds. A name that fills its
    array is stuck: its terminator is written beyond. *)
Fixpoint slab_loop (lines : list (list Z)) (head prev : option nat) (stats : slab_stat) :
    M heap (option nat * option nat * slab_stat) :=
  match lines with
  | [] => mret' (head, prev, stats)
  | line :: lines =>
      if bool_decide (head_char line = 35) then slab_loop lines head prev stats
      else
        do h <- get;
        let p := size h in
        let first := st_nr_caches stats =? 0 in
        let head := if first then Some p else head in
        let prev := if first then Some p else prev in
        let stats := count_cache stats in
        match parse_slab line with
        | None => put (<[p := mk_slab_info [] None 0 0 0 0 0 0 0]> h);;; mret' (None, Some p, stats)
        | Some (n, active_slabs) =>
            if bool_decide (SLABINFO_NAME_LEN <= length (s_name n))%nat then stuck
            else
              put (<[p := n]> h);;;
              do q <- deref prev;
              store_next q (Some p);;;
              slab_loop lines head (Some p) (add_stats n active_slabs stats)
        end
  end.

(** [get_slabinfo]: the list, [None] for [NULL], and the statistics. *)
Definition get_slabinfo (file : option (list Z)) : M heap (option nat * slab_stat) :=
  match file with
  | None => mret' (None, no_stats)
  | Some text =>
      match c_string <$> file_lines SLABINFO_LINE_LEN text with
      | [] => mret' (None, no_stats)
      | line :: lines =>
          match sscanf (length line) version_format line with
          | [Num_ major; Num_ minor] =>
              if negb (major =? 2) || (1 <? minor) then mret' (None, no_stats)
              else
                let stats := mk_slab_stat 0 0 0 0 0 0 0 0 0 INT_MAX 0 in
                do (head, p, stats) <- slab_loop lines None None stats;
                (match p with Some q => store_next q None | None => mret' tt end);;;
                mret' (head, average stats)
          | _ => mret' (None, no_stats)
          end
      end
  end.

(** The first rows of the list. *)
Fixpoint rows (n : nat) (p : option nat) : M heap (list slab_info) :=
  match n, p with
  | S n, Some x => do nx <- node x; do l <- rows n (s_next nx); mret' (nx :: l)
  | _, _ => mret' []
  end.

(** [main] after the options: [None] where it exits with a failure. *)
Definition showslab (sort_func : slab_info -> slab_info -> bool) (nr_rows : nat) (file : option (list Z)) :
    M heap (option (slab_stat * list slab_info)) :=
  do (list, stats) <- get_slabinfo file;
  match list with
  | None => mret' None
  | Some _ =>
      do h <- get;
      do list <- slabsort sort_func (S (size h)) list;
      do l <- rows nr_rows list;
      mret' (Some (stats, l))
  end.
