(* ===== verification/ShowslabProps.v ===== *)
(** * The list of the caches is sorted (properties of Showslab)

    A pointer is the head of a chain of nodes; the sort relinks the chain into one of
    the same nodes in order, and touches nothing else. *)

From Stdlib Require Import String Sorted.
From S2P Require Import Prelude Bytes Scanf Showslab.

(** ** Chains *)

(** The nodes [l] are linked from [p] to [e]. *)
Fixpoint chain (h : heap) (p : option nat) (l : list nat) (e : option nat) : Prop :=
  match l with
  | [] => p = e
  | x :: l => p = Some x /\ exists n, h !! x = Some n /\ chain h (s_next n) l e
  end.

Lemma chain_frame h h' p l e :
  (forall x, x ∈ l -> h' !! x = h !! x) -> chain h p l e -> chain h' p l e.
Proof.
  revert p. induction l as [|x l IH]; intros p Hf; cbn; [done|]. intros (-> & n & En & Hc).
  split; [done|]. exists n. split; [rewrite Hf by set_solver; done|]. apply IH; [|done]. intros y Hy. apply Hf. set_solver.
Qed.
Lemma chain_app h p l1 l2 e : chain h p (l1 ++ l2) e <-> exists m, chain h p l1 m /\ chain h m l2 e.
Proof.
  revert p. induction l1 as [|x l1 IH]; intros p; cbn.
  - split; [intros Hc; by exists p|by intros (m & -> & Hc)].
  - split.
    + intros (-> & n & En & Hc). apply IH in Hc as (m & H1 & H2). exists m. split; [|done]. split; [done|]. by exists n.
    + intros (m & (-> & n & En & H1) & H2). split; [done|]. exists n. split; [done|]. apply IH. by exists m.
Qed.
Lemma chain_lookup h p l e x : chain h p l e -> x ∈ l -> is_Some (h !! x).
Proof.
  revert p. induction l as [|y l IH]; intros p; cbn; [set_solver|]. intros (_ & n & En & Hc) [->|Hx]%elem_of_cons; [by eexists|].
  by eapply IH.
Qed.
(** Cutting or extending after the last node. *)
Lemma chain_relink h p l x e v n :
  chain h p (l ++ [x]) e -> x ∉ l -> h !! x = Some n -> chain (<[x := set_next v n]> h) p (l ++ [x]) v.
Proof.
  intros Hc Hx En. apply chain_app in Hc as (m & H1 & H2). apply chain_app. exists m. split.
  - eapply chain_frame; [|exact H1]. intros y Hy. apply lookup_insert_ne. intros ->. done.
  - cbn in *. destruct H2 as [-> _]. split; [done|]. exists (set_next v n). split; [by rewrite lookup_insert_eq|done].
Qed.

(** Two heaps that differ in links only, of the nodes [l] only. *)
Definition relinked (l : list nat) (h h' : heap) : Prop :=
  (forall x, x ∉ l -> h' !! x = h !! x) /\ forall x, set_next None <$> h' !! x = set_next None <$> h !! x.

Lemma relinked_refl l h : relinked l h h.
Proof. done. Qed.
Lemma relinked_trans l h1 h2 h3 : relinked l h1 h2 -> relinked l h2 h3 -> relinked l h1 h3.
Proof. intros [A1 B1] [A2 B2]. split; [intros x Hx; by rewrite A2, A1|intros x; by rewrite B2, B1]. Qed.
Lemma relinked_weaken l l' h h' : relinked l h h' -> l ⊆ l' -> relinked l' h h'.
Proof. intros [A B] Hl. split; [|done]. intros x Hx. apply A. set_solver. Qed.
Lemma relinked_set l h x v n : h !! x = Some n -> x ∈ l -> relinked l h (<[x := set_next v n]> h).
Proof.
  intros En Hx. split; intros y.
  - intros Hy. apply lookup_insert_ne. by intros ->.
  - destruct (decide (x = y)) as [<-|Hne]; [by rewrite lookup_insert_eq, En|by rewrite lookup_insert_ne].
Qed.

Lemma slab_node_done h x n : h !! x = Some n -> node x h = Done n h.
Proof. intros E. unfold node. erewrite mbind_done by done. by rewrite E. Qed.
Lemma store_next_done h x v n : h !! x = Some n -> store_next x v h = Done tt (<[x := set_next v n]> h).
Proof. intros E. unfold store_next. by rewrite (mbind_done _ _ _ _ _ (slab_node_done _ _ _ E)). Qed.

(** ** The middle *)

Lemma split_loop_spec fuel h x l b lb :
  chain h (Some x) (x :: l) None -> chain h b lb None ->
  (1 <= length l)%nat -> (length lb <= length l)%nat -> (length lb < fuel)%nat ->
  exists l1 mid l2, split_loop fuel x b h = Done mid h /\ x :: l = l1 ++ mid :: l2 /\ l2 <> [].
Proof.
  revert x l b lb. induction fuel as [|fuel IH]; intros x l b lb Hx Hb H1 Hle Hf; [lia|]. cbn [split_loop].
  assert (Hstop : exists l1 mid l2, Done x h = Done mid h /\ x :: l = l1 ++ mid :: l2 /\ l2 <> []).
  { exists [], x, l. split_and!; [done|done|by intros ->; cbn in H1; lia]. }
  destruct lb as [|y lb]; [cbn in Hb; subst b; exact Hstop|]. cbn in Hb. destruct Hb as (-> & ny & Ey & Hb).
  rewrite (mbind_done _ _ _ _ _ (slab_node_done _ _ _ Ey)).
  destruct lb as [|z lb]; [cbn in Hb; rewrite Hb; exact Hstop|]. cbn in Hb. destruct Hb as (-> & nz & Ez & Hb).
  cbn in Hx. destruct Hx as (_ & nx & Ex & Hx). rewrite (mbind_done _ _ _ _ _ (slab_node_done _ _ _ Ex)).
  destruct l as [|x' l]; [cbn in H1; lia|]. pose proof Hx as Hx'. cbn in Hx'. destruct Hx' as (Enx & _).
  rewrite Enx in *. cbn [deref]. erewrite mbind_done by done. rewrite (mbind_done _ _ _ _ _ (slab_node_done _ _ _ Ez)).
  cbn [length] in *. destruct (IH x' l (s_next nz) lb Hx Hb) as (l1 & mid & l2 & E & El & Hl2); [lia|lia|lia|].
  exists (x :: l1), mid, l2. split_and!; [exact E|by rewrite El|done].
Qed.

(** ** Merging *)

(** What a comparison must satisfy: it does not look at the links, and "not after" is a
    total preorder. *)
Class SortFunc (f : slab_info -> slab_info -> bool) : Prop := {
  sort_links u v a b : f (set_next u a) (set_next v b) = f a b;
  sort_asym a b : f a b = true -> f b a = false;
  sort_trans a b c : f b a = false -> f c b = false -> f c a = false
}.

#[export] Instance sort_name_ok : SortFunc sort_name.
Proof.
  split; unfold sort_name; [done| |].
  - intros a b H. destruct (str_lt (s_name b) (s_name a)) eqn:E; [|done].
    pose proof (str_lt_trans _ _ _ H E) as Hi. by rewrite str_lt_irrefl in Hi.
  - intros a b c H1 H2. destruct (str_lt (s_name c) (s_name a)) eqn:E; [|done].
    destruct (str_lt_total _ _ H1) as [En|En]; [by rewrite En, E in H2|].
    by rewrite (str_lt_trans _ _ _ E En) in H2.
Qed.

Definition plain (val : slab_info -> Z) : Prop := forall v n, val (set_next v n) = val n.
Lemma sort_val_ok val : plain val -> SortFunc (sort_val val).
Proof.
  intros Hp. split; unfold sort_val.
  - intros u v a b. by rewrite !Hp.
  - intros a b. rewrite Z.ltb_lt, Z.ltb_ge. lia.
  - intros a b c. rewrite !Z.ltb_ge. lia.
Qed.

(** Every comparison the program chooses. *)
Lemma set_sort_func_ok key f : set_sort_func key = Some f -> SortFunc f.
Proof.
  unfold set_sort_func. repeat (match goal with |- context [if ?b then _ else _] => destruct b end; cbv zeta);
    intros [= <-]; try apply sort_name_ok; by apply sort_val_ok.
Qed.

Section sorting.
Context (f : slab_info -> slab_info -> bool) `{!SortFunc f}.

(** The nodes as they are in [h0], without their links. *)
Definition dummy : slab_info := mk_slab_info [] None 0 0 0 0 0 0 0.
Definition content (h0 : heap) (x : nat) : slab_info := default dummy (set_next None <$> h0 !! x).
Definition le (h0 : heap) (x y : nat) : Prop := f (content h0 y) (content h0 x) = false.

Lemma le_trans h0 x y z : le h0 x y -> le h0 y z -> le h0 x z.
Proof. apply sort_trans. Qed.

Lemma content_relinked l h0 h x n : relinked l h0 h -> h !! x = Some n -> content h0 x = set_next None n.
Proof. intros [_ B] E. unfold content. rewrite <-B, E. done. Qed.
Lemma compare_content l h0 h x y nx ny :
  relinked l h0 h -> h !! x = Some nx -> h !! y = Some ny -> f nx ny = f (content h0 x) (content h0 y).
Proof. intros R Ex Ey. rewrite (content_relinked _ _ _ _ _ R Ex), (content_relinked _ _ _ _ _ R Ey). by rewrite sort_links. Qed.

(** What has been merged so far: nothing, or a chain that ends in the node [p]. *)
Definition merged (h : heap) (p head : option nat) (done : list nat) : Prop :=
  match p with
  | None => done = []
  | Some q => exists d e, done = d ++ [q] /\ chain h head done e
  end.

(** Linking the last node to [v]. *)
Lemma merged_link h p head done v all :
  merged h p head done -> NoDup done -> done ⊆ all ->
  exists h', (match p with Some q => store_next q v | None => mret' tt end) h = Done tt h' /\
    relinked all h h' /\ (forall x, x ∉ done -> h' !! x = h !! x) /\
    chain h' (match p with Some _ => head | None => v end) done v.
Proof.
  intros Hm Hnd Hall. destruct p as [q|]; cbn in Hm.
  - destruct Hm as (d & e & -> & Hc). apply NoDup_app in Hnd as (Hd & Hdq & _).
    assert (Hq : q ∉ d) by set_solver.
    destruct (chain_lookup h head (d ++ [q]) e q Hc ltac:(set_solver)) as [n En].
    exists (<[q := set_next v n]> h). split_and!.
    + by apply store_next_done.
    + apply relinked_set; [done|set_solver].
    + intros x Hx. apply lookup_insert_ne. set_solver.
    + eapply chain_relink; [exact Hc|done|done].
  - subst done. exists h. by split_and!.
Qed.

(** One of the lists is empty: the rest of the other follows. *)
Lemma merge_rest h0 h p head done v l all :
  merged h p head done -> chain h v l None -> NoDup done -> (forall x, x ∈ done -> x ∉ l) ->
  done ⊆ all -> StronglySorted (le h0) l ->
  exists r h' l', (match p with Some q => store_next q v;;; mret' head | None => mret' v end) h = Done r h' /\
    chain h' r (done ++ l') None /\ l' ≡ₚ l /\ relinked all h h' /\
    (forall x, x ∉ done ++ l -> h' !! x = h !! x) /\ StronglySorted (le h0) l'.
Proof.
  intros Hm Hv Hdone Hdl Hall Hsl. destruct (merged_link h p head done v all Hm Hdone Hall) as (h' & E & R & Hout & Hc).
  exists (match p with Some _ => head | None => v end), h', l. split_and!; [|
    |done|done|intros x Hx; apply Hout; set_solver|done].
  - destruct p; [by rewrite (mbind_done _ _ _ _ _ E)|]. by injection E as ->.
  - apply chain_app. exists v. split; [done|]. eapply chain_frame; [|exact Hv]. intros x Hx. apply Hout. set_solver.
Qed.

Lemma merge_loop_spec fuel h0 h p head done a la b lb all :
  merged h p head done -> chain h a la None -> chain h b lb None ->
  NoDup (done ++ la ++ lb) -> done ++ la ++ lb ⊆ all -> relinked all h0 h ->
  (length la + length lb < fuel)%nat ->
  StronglySorted (le h0) la -> StronglySorted (le h0) lb ->
  exists r h' l, merge_loop f fuel p head a b h = Done r h' /\ chain h' r (done ++ l) None /\ l ≡ₚ la ++ lb /\
    relinked all h h' /\ (forall x, x ∉ done ++ la ++ lb -> h' !! x = h !! x) /\ StronglySorted (le h0) l.
Proof.
  revert h p head done a la b lb. induction fuel as [|fuel IH];
    intros h p head done a la b lb Hm Ha Hb Hnd Hall R0 Hf Sa Sb; [lia|].
  pose proof Hnd as Hnd'. apply NoDup_app in Hnd' as (Hdone & Hdis & Hab). apply NoDup_app in Hab as (Hna & Hdab & Hnb).
  cbn [merge_loop]. destruct la as [|x la].
  { cbn in Ha. subst a. apply merge_rest; [done|done|done|set_solver|set_solver|done]. }
  destruct lb as [|y lb].
  { cbn in Hb. subst b. pose proof Ha as (-> & _). rewrite app_nil_r in *.
    apply merge_rest; [done|done|done|set_solver|set_solver|done]. }
  cbn in Ha, Hb. destruct Ha as (-> & nx & Ex & Ha). destruct Hb as (-> & ny & Ey & Hb).
  rewrite (mbind_done _ _ _ _ _ (slab_node_done _ _ _ Ex)), (mbind_done _ _ _ _ _ (slab_node_done _ _ _ Ey)).
  pose proof (compare_content _ _ _ _ _ _ _ R0 Ex Ey) as Hcmp.
  apply StronglySorted_inv in Sa as [Sa Fa]. apply StronglySorted_inv in Sb as [Sb Fb].
  set (z := if f nx ny then x else y).
  destruct (merged_link h p head done (Some z) all Hm Hdone ltac:(set_solver)) as (h1 & E1 & R1 & Hout1 & Hc1).
  rewrite (mbind_done _ _ _ _ _ E1).
  assert (Hz : z ∉ done) by (intros Hz; apply (Hdis z Hz); subst z; destruct (f nx ny); set_solver).
  assert (Enz : h1 !! z = Some (if f nx ny then nx else ny)) by (rewrite Hout1 by done; subst z; by destruct (f nx ny)).
  rewrite (mbind_done _ _ _ _ _ (slab_node_done _ _ _ Enz)).
  set (la' := if f nx ny then la else x :: la). set (lb' := if f nx ny then y :: lb else lb).
  assert (Hperm : z :: la' ++ lb' ≡ₚ (x :: la) ++ (y :: lb)).
  { subst z la' lb'. destruct (f nx ny); [done|]. cbn. rewrite Permutation_swap. f_equiv. by rewrite Permutation_middle. }
  assert (Hnd1 : NoDup ((done ++ [z]) ++ la' ++ lb')).
  { rewrite <-app_assoc. cbn. by rewrite Hperm. }
  assert (Hframe : forall p' l', chain h p' l' None -> (forall q, q ∈ l' -> q ∉ done) -> chain h1 p' l' None).
  { intros p' l' Hc Hd. eapply chain_frame; [|exact Hc]. intros q Hq. by apply Hout1, Hd. }
  assert (Hda : forall q, q ∈ x :: la -> q ∉ done) by (intros q Hq Hq'; apply (Hdis q); set_solver).
  assert (Hdb : forall q, q ∈ y :: lb -> q ∉ done) by (intros q Hq Hq'; apply (Hdis q); set_solver).
  destruct (IH h1 (Some z) (match p with Some _ => head | None => Some z end) (done ++ [z])
    (if f nx ny then s_next (if f nx ny then nx else ny) else Some x) la'
    (if f nx ny then Some y else s_next (if f nx ny then nx else ny)) lb')
    as (r & h2 & l & E2 & Hc2 & Hp2 & R2 & Hout2 & S2).
  - cbn. exists done, (s_next (if f nx ny then nx else ny)). split; [done|]. apply chain_app. exists (Some z). split; [exact Hc1|].
    split; [done|]. by exists (if f nx ny then nx else ny).
  - subst la'. destruct (f nx ny).
    + apply Hframe; [exact Ha|]. intros q Hq. apply Hda. set_solver.
    + apply Hframe; [|exact Hda]. split; [done|]. by exists nx.
  - subst lb'. destruct (f nx ny).
    + apply Hframe; [|exact Hdb]. split; [done|]. by exists ny.
    + apply Hframe; [exact Hb|]. intros q Hq. apply Hdb. set_solver.
  - exact Hnd1.
  - rewrite <-app_assoc. cbn. rewrite Hperm. exact Hall.
  - by eapply relinked_trans.
  - apply Permutation_length in Hperm. cbn in Hperm, Hf. rewrite !length_app in Hperm. cbn in Hperm. lia.
  - subst la'. destruct (f nx ny); [done|by constructor].
  - subst lb'. destruct (f nx ny); [by constructor|done].
  - exists r, h2, (z :: l). split_and!.
    + exact E2.
    + by rewrite <-app_assoc in Hc2.
    + by rewrite Hp2, Hperm.
    + by eapply relinked_trans.
    + intros q Hq. rewrite Hout2, Hout1; [done|set_solver|].
      rewrite <-app_assoc. cbn. rewrite Hperm. exact Hq.
    + constructor; [done|]. rewrite Hp2. subst z la' lb'. destruct (f nx ny) eqn:Ef.
      * assert (Hxy : le h0 x y) by (unfold le; apply sort_asym; by rewrite <-Hcmp).
        apply Forall_app. split; [done|]. apply Forall_cons. split; [done|].
        eapply Forall_impl; [exact Fb|]. intros q. by apply le_trans.
      * assert (Hyx : le h0 y x) by (unfold le; by rewrite <-Hcmp).
        apply Forall_app. split; [|done]. apply Forall_cons. split; [done|].
        eapply Forall_impl; [exact Fa|]. intros q. by apply le_trans.
Qed.

(** ** The sort *)

(** Cutting a chain after [mid]. *)
Lemma chain_cut h p l1 mid l2 e all :
  chain h p (l1 ++ mid :: l2) e -> NoDup (l1 ++ mid :: l2) -> mid ∈ all ->
  exists n h', h !! mid = Some n /\ store_next mid None h = Done tt h' /\ relinked all h h' /\
    (forall x, x <> mid -> h' !! x = h !! x) /\ chain h' p (l1 ++ [mid]) None /\ chain h' (s_next n) l2 e.
Proof.
  intros Hc Hnd Hall. rewrite cons_middle in Hc. rewrite app_assoc in Hc. apply chain_app in Hc as (m & Hc1 & Hc2).
  apply NoDup_app in Hnd as (_ & Hd & Hnd). apply NoDup_cons in Hnd as [Hmid _].
  pose proof Hc1 as Hlast. apply chain_app in Hlast as (m' & _ & Hlast). cbn in Hlast. destruct Hlast as (_ & n & En & Em).
  exists n, (<[mid := set_next None n]> h). split_and!.
  - done.
  - by apply store_next_done.
  - by apply relinked_set.
  - intros x Hx. by apply lookup_insert_ne.
  - eapply chain_relink; [exact Hc1|set_solver|done].
  - rewrite Em. eapply chain_frame; [|exact Hc2]. intros x Hx. apply lookup_insert_ne. intros ->. done.
Qed.

Lemma slabsort_spec fuel h0 h p l all :
  chain h p l None -> NoDup l -> l ⊆ all -> relinked all h0 h -> (length l < fuel)%nat ->
  exists r h' l', slabsort f fuel p h = Done r h' /\ chain h' r l' None /\ l' ≡ₚ l /\ relinked all h h' /\
    (forall x, x ∉ l -> h' !! x = h !! x) /\ StronglySorted (le h0) l'.
Proof.
  revert h p l. induction fuel as [|fuel IH]; intros h p l Hc Hnd Hall R0 Hf; [lia|]. cbn [slabsort].
  destruct l as [|x l]; [cbn in Hc; subst p; exists None, h, []; split_and!; try done; constructor|].
  pose proof Hc as (-> & nx & Ex & Hcl). rewrite (mbind_done _ _ _ _ _ (slab_node_done _ _ _ Ex)).
  destruct l as [|x' l].
  { cbn in Hcl. rewrite Hcl. exists (Some x), h, [x]. split_and!; try done. repeat constructor. }
  pose proof Hcl as (Enx & _). rewrite Enx in *.
  destruct (split_loop_spec (S fuel) h x (x' :: l) (Some x') (x' :: l) Hc Hcl) as (l1 & mid & l2 & Es & El & Hl2); [cbn in *; lia..|].
  rewrite (mbind_done _ _ _ _ _ Es). rewrite El in *. rewrite length_app in Hf. cbn in Hf.
  destruct (chain_cut h (Some x) l1 mid l2 None all Hc Hnd ltac:(set_solver)) as (n & h1 & En & E1 & R1 & Out1 & C1 & C2).
  rewrite (mbind_done _ _ _ _ _ (slab_node_done _ _ _ En)), (mbind_done _ _ _ _ _ E1).
  rewrite cons_middle, app_assoc in Hnd. apply NoDup_app in Hnd as (Hn1 & Hd & Hn2).
  assert (Hlen2 : (1 <= length l2)%nat) by (destruct l2; [done|cbn; lia]).
  destruct (IH h1 (Some x) (l1 ++ [mid]) C1 Hn1) as (r1 & h2 & la & E2 & Ca & Pa & R2 & Out2 & Sa);
    [set_solver|by eapply relinked_trans|rewrite length_app; cbn; lia|].
  rewrite (mbind_done _ _ _ _ _ E2).
  destruct (IH h2 (s_next n) l2) as (r2 & h3 & lb & E3 & Cb & Pb & R3 & Out3 & Sb).
  { eapply chain_frame; [|exact C2]. intros y Hy. apply Out2. intros Hy'. by apply (Hd y). }
  { done. }
  { set_solver. }
  { by eapply relinked_trans; [|eapply relinked_trans]. }
  { lia. }
  rewrite (mbind_done _ _ _ _ _ E3). unfold merge_objs.
  pose proof (Permutation_length Pa) as La. pose proof (Permutation_length Pb) as Lb. rewrite length_app in La. cbn in La.
  destruct (merge_loop_spec (S fuel) h0 h3 None None [] r1 la r2 lb all) as (r & h4 & l' & E4 & C4 & P4 & R4 & Out4 & S4);
    [done| |done| | | |lia|done|done|].
  { eapply chain_frame; [|exact Ca]. intros y Hy. apply Out3. rewrite Pa in Hy. by apply Hd. }
  { cbn. rewrite Pa, Pb. by apply NoDup_app. }
  { cbn. rewrite Pa, Pb. set_solver. }
  { by eapply relinked_trans; [|eapply relinked_trans; [|eapply relinked_trans]]. }
  cbn [app] in *. exists r, h4, l'. split_and!; [exact E4|exact C4| | | |exact S4].
  - rewrite P4, Pa, Pb. by rewrite <-app_assoc.
  - by eapply relinked_trans; [|eapply relinked_trans; [|eapply relinked_trans]].
  - intros y Hy. rewrite Out4, Out3, Out2, Out1; [done|set_solver|set_solver|set_solver|]. rewrite Pa, Pb. set_solver.
Qed.
End sorting.

(** C31: [slabsort] sorts the list in place. Given a list without a node twice, and any
    comparison of the program, it ends, with the head of a list of the same nodes in
    which no node comes before one it should follow; the caches are as before up to
    their links, and so is the rest of the heap. *)
Theorem slabsort_correct (key : Z) (f : slab_info -> slab_info -> bool) (h : heap) (p : option nat) (l : list nat) (fuel : nat)
  (Hkey : set_sort_func key = Some f) (Hlist : chain h p l None) (Hnodup : NoDup l) (Hfuel : (length l < fuel)%nat) :
  exists r h' l', slabsort f fuel p h = Done r h' /\ chain h' r l' None /\ l' ≡ₚ l /\
    StronglySorted (fun x y => forall nx ny, h' !! x = Some nx -> h' !! y = Some ny -> f ny nx = false) l' /\
    (forall x, set_next None <$> h' !! x = set_next None <$> h !! x) /\ (forall x, x ∉ l -> h' !! x = h !! x).
Proof.
  pose proof (set_sort_func_ok key f Hkey) as Hf.
  destruct (slabsort_spec f fuel h h p l l) as (r & h' & l' & E & C & P & R & Out & S); [done..|].
  exists r, h', l'. split_and!; [done|done|done| |apply R|done].
  clear -S R Hf. induction S as [|x l' S IH Hx]; constructor; [done|].
  eapply Forall_impl; [exact Hx|]. intros y Hy nx ny Ex Ey.
  rewrite (compare_content f l h h' y x ny nx R Ey Ex). exact Hy.
Qed.

(** Three caches. *)
Definition small_slab (name objs : Z) (next : option nat) : slab_info := mk_slab_info [name] next 0 objs 0 0 0 0 0.
Definition small_heap : heap :=
  {[ 0%nat := small_slab 97 5 (Some 1%nat); 1%nat := small_slab 98 9 (Some 2%nat); 2%nat := small_slab 99 7 None ]}.

Lemma slabsort_correct_witness :
  exists r h' l', slabsort (sort_val s_nr_objs) 4 (Some 0%nat) small_heap = Done r h' /\ chain h' r l' None /\
    l' ≡ₚ [0; 1; 2]%nat.
Proof.
  destruct (slabsort_correct 111 (sort_val s_nr_objs) small_heap (Some 0%nat) [0; 1; 2]%nat 4) as (r & h' & l' & E & C & P & _).
  - reflexivity.
  - repeat (cbn; split; [done|eexists; split; [reflexivity|]]). done.
  - repeat (apply NoDup_cons; split; [set_solver|]). apply NoDup_nil_2.
  - cbn. lia.
  - by exists r, h', l'.
Defined.

(** The report on a file of three caches: the greatest first. *)
Example showslab_three :
  let text := str "slabinfo - version: 2.1"%string ++ [10] ++
    str "a 1 5 8 1 1 : tunables 0 0 0 : slabdata 1 1 0"%string ++ [10] ++
    str "b 1 9 8 1 1 : tunables 0 0 0 : slabdata 1 1 0"%string ++ [10] ++
    str "c 1 7 8 1 1 : tunables 0 0 0 : slabdata 1 1 0"%string ++ [10] in
  exists st l h, showslab DEF_SORT_FUNC 15 (Some text) ∅ = Done (Some (st, l)) h /\
    st_nr_objs st = 21 /\ s_name <$> l = [[98]; [99]; [97]].
Proof. eexists _, _, _. split; [vm_compute; reflexivity|]. split; reflexivity. Qed.

(** A name of 32 characters leaves no room for its terminator. *)
Example long_name_overflows :
  let text := str "slabinfo - version: 2.1"%string ++ [10] ++
    str "abcdefghijklmnopqrstuvwxyzabcdef 1 5 8 1 1 : tunables 0 0 0 : slabdata 1 1 0"%string ++ [10] in
  showslab DEF_SORT_FUNC 15 (Some text) ∅ = Stuck.
Proof. by vm_compute. Qed.
