(* ===== verification/Latencytop.v ===== *)
(** * Latencies by reason (latencytop/latencytop.c)

    The list of entries is a value; the entries are never freed, so the list of free
    entries stays empty. What is written to the files of /proc is recorded; what they
    hold at each reading is a parameter. [exit] is a jump out. The properties: the
    entries are the lines added up by reason, and for a process the lines are those of
    the global file, once for each thread. *)

From stdpp Require Import sorting.
From Stdlib Require Import String.
From S2P Require Import Prelude Bytes Scanf Procrank ProcrankProps.

Definition MAX_LINE : nat := 512.
Definition EXPECTED_VERSION : list Z := str "Latency Top version : v0.1"%string ++ [10].

Record latency_entry := mk_latency_entry { le_count : Z; le_max : Z; le_total : Z; le_reason : list Z }.

(** A file of latencies: the global one, or that of a thread. *)
Inductive stats_file := Global_stats | Thread_stats (pid tid : Z).
#[export] Instance stats_file_eq_dec : EqDecision stats_file.
Proof. solve_decision. Defined.

(** The files that were erased, in order. *)
Definition log : Type := list stats_file.

Definition latency_format : list directive := [Long; Space; Long; Space; Long; Space; Str true None].

Record fields := mk_fields { f_count : Z; f_total : Z; f_max : Z; f_reason : list Z }.

(** What [sscanf] stores into the variables of the loop. *)
Definition store_latency (vs : list value) (v : fields) : fields :=
  match vs with
  | [Num_ c] => mk_fields c (f_total v) (f_max v) (f_reason v)
  | [Num_ c; Num_ t] => mk_fields c t (f_max v) (f_reason v)
  | [Num_ c; Num_ t; Num_ m] => mk_fields c t m (f_reason v)
  | [Num_ c; Num_ t; Num_ m; Str_ r] => mk_fields c t m r
  | _ => v
  end.

(** Adding to the entry that [find_latency_entry] finds. *)
Fixpoint find_add (l : list latency_entry) (v : fields) : option (list latency_entry) :=
  match l with
  | [] => None
  | e :: l =>
      if bool_decide (le_reason e = f_reason v) then
        Some (mk_latency_entry (u64 (le_count e + f_count v)) (if le_max e <? f_max v then f_max v else le_max e)
                (u64 (le_total e + f_total v)) (le_reason e) :: l)
      else cons e <$> find_add l v
  end.

Definition add_latency (head : list latency_entry) (v : fields) : list latency_entry :=
  if (0 <? f_max v) || (0 <? f_total v) then
    match find_add head v with
    | Some l => l
    | None => mk_latency_entry (f_count v) (f_max v) (f_total v) (f_reason v) :: head
    end
  else head.

Fixpoint latency_lines (lines : list (list Z)) (v : fields) (head : list latency_entry) : list latency_entry :=
  match lines with
  | [] => head
  | line :: lines =>
      let v := store_latency (sscanf (length line) latency_format line) v in
      latency_lines lines v (add_latency head v)
  end.

(** [read_latency_file]; [uninit] are the variables before the first line. *)
Definition read_latency_file (uninit : fields) (text : list Z) (entries : list latency_entry) : M log (list latency_entry) :=
  match c_string <$> file_lines MAX_LINE text with
  | [] => longjmp
  | line :: lines =>
      if bool_decide (line = EXPECTED_VERSION) then mret' (latency_lines lines uninit entries) else longjmp
  end.

Section files.
Context (uninit : fields).

(** What the files hold now, [None] for one that cannot be opened. *)
Definition snapshot : Type := stats_file -> option (list Z).

Definition erase_file (files : snapshot) (f : stats_file) : M log bool :=
  match files f with
  | None => mret' false
  | Some _ => modify (fun l => l ++ [f]);;; mret' true
  end.

Definition read_global_stats (files : snapshot) (entries : list latency_entry) (erase : bool) : M log (list latency_entry) :=
  do ok <- (if erase then erase_file files Global_stats else mret' true);
  if negb ok then longjmp
  else
    match files Global_stats with
    | None => longjmp
    | Some text => read_latency_file uninit text entries
    end.

(** [read_thread_stats] erases the file of the thread and opens the global one. *)
Definition read_thread_stats (files : snapshot) (entries : list latency_entry) (erase : bool) (pid tid : Z) (fatal : bool) :
    M log (list latency_entry) :=
  do ok <- (if erase then erase_file files (Thread_stats pid tid) else mret' true);
  if negb ok then (if fatal then longjmp else mret' entries)
  else
    match files Global_stats with
    | None => if fatal then longjmp else mret' entries
    | Some text => read_latency_file uninit text entries
    end.

(** The loop of [read_process_stats] over the names of the directory. *)
Fixpoint read_threads (files : snapshot) (names : list (list Z)) (e : list latency_entry) (erase : bool) (pid : Z) :
    M log (list latency_entry) :=
  match names with
  | [] => mret' e
  | name :: names =>
      match name with
      | c :: _ =>
          if isdigit c then
            do e <- read_thread_stats files e erase pid (default 0 (fst <$> scan_dec name)) false;
            read_threads files names e erase pid
          else read_threads files names e erase pid
      | [] => read_threads files names e erase pid
      end
  end.
Definition read_process_stats (files : snapshot) (task : Z -> option (list (list Z))) (entries : list latency_entry)
    (erase : bool) (pid : Z) : M log (list latency_entry) :=
  match task pid with
  | None => longjmp
  | Some names => read_threads files names entries erase pid
  end.

Definition lat_cmp (a b : latency_entry) : Z := numcmp (s64 (le_max b)) (s64 (le_max a)).

(** [print_latency_entries]: the rows with the average; a count of 0 divides by 0. *)
Fixpoint averages (l : list latency_entry) : M log (list (latency_entry * Z)) :=
  match l with
  | [] => mret' []
  | e :: l =>
      if le_count e =? 0 then stuck
      else do rows <- averages l; mret' ((e, le_total e / le_count e) :: rows)
  end.
Definition print_latency_entries (head : list latency_entry) : M log (list (latency_entry * Z)) :=
  averages (qsort lat_cmp head).

(** One turn of the loop of [main]. *)
Definition update (files : snapshot) (task : Z -> option (list (list Z))) (pid tid : Z) (erase : bool) :
    M log (list (latency_entry * Z)) :=
  do e <-
    (if negb (pid =? 0) then
       if negb (tid =? 0) then read_thread_stats files [] erase pid tid true
       else read_process_stats files task [] erase pid
     else read_global_stats files [] erase);
  print_latency_entries e.

(** The turns, each with what the files hold then; only the first erases. *)
Fixpoint updates (turns : list (snapshot * (Z -> option (list (list Z))))) (pid tid : Z) (erase : bool) :
    M log (list (list (latency_entry * Z))) :=
  match turns with
  | [] => mret' []
  | (files, task) :: turns =>
      do rows <- update files task pid tid erase;
      do rest <- updates turns pid tid false;
      mret' (rows :: rest)
  end.

(** [main] after the options. *)
Definition latencytop (turns : list (snapshot * (Z -> option (list (list Z))))) (pid tid : Z) :
    M log (list (list (latency_entry * Z))) :=
  if negb (tid =? 0) && (pid =? 0) then longjmp else updates turns pid tid true.
End files.

(** ** Lines *)

Definition relevant (v : fields) : bool := (0 <? f_max v) || (0 <? f_total v).
Definition in_range (v : fields) : Prop := 0 <= f_count v < 2 ^ 64 /\ 0 <= f_total v < 2 ^ 64 /\ 0 <= f_max v < 2 ^ 64.

(** A complete line. *)
Definition line_fields (line : list Z) : option fields :=
  match sscanf (length line) latency_format line with
  | [Num_ c; Num_ t; Num_ m; Str_ r] => Some (mk_fields c t m r)
  | _ => None
  end.

Lemma scan_long_range s v r : scan_long s = Some (v, r) -> 0 <= v < 2 ^ 64.
Proof.
  unfold scan_long. destruct (sign (skip_space s)) as [neg s']. destruct (digits _ _ _ _) as [[[|n] w] r']; [done|].
  intros [= <- _]. apply u64_range.
Qed.

Lemma line_fields_range line v : line_fields line = Some v -> in_range v.
Proof.
  unfold line_fields, latency_format. generalize (length line) as n. intros n. cbn [sscanf].
  destruct (scan_long line) as [[c r1]|] eqn:E1; [|done].
  destruct (scan_long (skip_space r1)) as [[t r2]|] eqn:E2; [|done].
  destruct (scan_long (skip_space r2)) as [[m r3]|] eqn:E3; [|done].
  destruct (scan_word _ _) as [[w r4]|]; [|done]. intros [= <-].
  split_and!; cbn; by eapply scan_long_range.
Qed.

Lemma store_complete line v u :
  line_fields line = Some v -> store_latency (sscanf (length line) latency_format line) u = v.
Proof.
  unfold line_fields. destruct (sscanf _ _ _) as [|[c|] [|[t|] [|[m|] [|[|r] [|]]]]]; try done. by intros [= <-].
Qed.

(** ** Adding up *)

Definition of_reason (r : list Z) (v : fields) : Prop := relevant v = true /\ f_reason v = r.
Definition sum_f (g : fields -> Z) (l : list fields) : Z := foldr (fun v a => g v + a) 0 l.
Definition max_f (l : list fields) : Z := foldr (fun v a => Z.max (f_max v) a) 0 l.

Lemma sum_f_app g l1 l2 : sum_f g (l1 ++ l2) = sum_f g l1 + sum_f g l2.
Proof. induction l1 as [|v l1 IH]; [done|]. unfold sum_f in *. cbn. lia. Qed.
Lemma max_f_cons v l : max_f (v :: l) = Z.max (f_max v) (max_f l).
Proof. reflexivity. Qed.
Lemma max_f_nonneg l : 0 <= max_f l.
Proof. induction l as [|v l IH]; [done|]. rewrite max_f_cons. lia. Qed.
Lemma max_f_app l1 l2 : max_f (l1 ++ l2) = Z.max (max_f l1) (max_f l2).
Proof.
  induction l1 as [|v l1 IH]; [pose proof (max_f_nonneg l2); cbn [app]; change (max_f []) with 0; lia|].
  cbn [app]. rewrite !max_f_cons. lia.
Qed.

Record entry_ok (recs : list fields) (e : latency_entry) : Prop := {
  eo_some : filter (of_reason (le_reason e)) recs <> [];
  eo_count : le_count e = u64 (sum_f f_count (filter (of_reason (le_reason e)) recs));
  eo_total : le_total e = u64 (sum_f f_total (filter (of_reason (le_reason e)) recs));
  eo_max : le_max e = max_f (filter (of_reason (le_reason e)) recs)
}.
Record adds_up (recs : list fields) (l : list latency_entry) : Prop := {
  au_nodup : NoDup (le_reason <$> l);
  au_cover v : v ∈ recs -> relevant v = true -> f_reason v ∈ le_reason <$> l;
  au_entry : Forall (entry_ok recs) l
}.

Lemma adds_up_nil : adds_up [] [].
Proof. split; [constructor|set_solver|constructor]. Qed.

Lemma filter_snoc r recs v :
  filter (of_reason r) (recs ++ [v]) = filter (of_reason r) recs ++ (if decide (of_reason r v) then [v] else []).
Proof. by rewrite filter_app. Qed.

Lemma entry_ok_other recs e v : entry_ok recs e -> ~ of_reason (le_reason e) v -> entry_ok (recs ++ [v]) e.
Proof. intros [H1 H2 H3 H4] Hv. split; rewrite filter_snoc, decide_False, app_nil_r by done; done. Qed.

Lemma find_add_spec l v :
  match find_add l v with
  | Some l' => exists l1 e l2, l = l1 ++ e :: l2 /\ le_reason e = f_reason v /\
      l' = l1 ++ mk_latency_entry (u64 (le_count e + f_count v)) (if le_max e <? f_max v then f_max v else le_max e)
                   (u64 (le_total e + f_total v)) (le_reason e) :: l2
  | None => f_reason v ∉ le_reason <$> l
  end.
Proof.
  induction l as [|e l IH]; cbn [find_add]; [set_solver|]. case_bool_decide as E.
  - exists [], e, l. by split_and!.
  - destruct (find_add l v) as [l'|]; cbn [fmap option_fmap option_map].
    + destruct IH as (l1 & e' & l2 & -> & Er & ->). exists (e :: l1), e', l2. by split_and!.
    + rewrite fmap_cons. set_solver.
Qed.

Lemma u64_add_l a b : u64 (u64 a + b) = u64 (a + b).
Proof. unfold u64. by rewrite Z.add_mod_idemp_l by lia. Qed.

(** An entry after one more line of its reason. *)
Lemma entry_ok_added recs e v :
  entry_ok recs e -> relevant v = true -> le_reason e = f_reason v ->
  entry_ok (recs ++ [v]) (mk_latency_entry (u64 (le_count e + f_count v)) (if le_max e <? f_max v then f_max v else le_max e)
                            (u64 (le_total e + f_total v)) (le_reason e)).
Proof.
  intros [H1 H2 H3 H4] Hv Er.
  assert (Ef : filter (of_reason (le_reason e)) (recs ++ [v]) = filter (of_reason (le_reason e)) recs ++ [v])
    by (rewrite filter_snoc, decide_True by done; done).
  split; cbn [le_reason le_count le_total le_max]; rewrite Ef.
  - intros Hn. by destruct (filter _ recs).
  - rewrite H2, u64_add_l, sum_f_app. f_equal. cbn. lia.
  - rewrite H3, u64_add_l, sum_f_app. f_equal. cbn. lia.
  - rewrite max_f_app, <-H4. assert (0 <= le_max e).
    { rewrite H4. apply max_f_nonneg. }
    change (max_f [v]) with (Z.max (f_max v) 0). destruct (Z.ltb_spec (le_max e) (f_max v)); lia.
Qed.

Lemma filter_of_reason_nil recs r :
  (forall v, v ∈ recs -> relevant v = true -> f_reason v <> r) -> filter (of_reason r) recs = [].
Proof.
  induction recs as [|x recs IH]; intros H; [done|]. rewrite filter_cons_False; [apply IH; set_solver|].
  intros [Hr Er]. by apply (H x); [set_solver|..].
Qed.

Lemma add_latency_ok recs l v : adds_up recs l -> in_range v -> adds_up (recs ++ [v]) (add_latency l v).
Proof.
  intros [Hn Hc He] [Hrc [Hrt Hrm]]. unfold add_latency. fold (relevant v). destruct (relevant v) eqn:Hv.
  2:{ split; [done| |].
      - intros w [Hw|Hw]%elem_of_app Hr; [by apply Hc|]. apply list_elem_of_singleton in Hw as ->. congruence.
      - eapply Forall_impl; [exact He|]. intros e Hok. apply entry_ok_other; [done|]. intros [Hr _]. congruence. }
  pose proof (find_add_spec l v) as Hf. destruct (find_add l v) as [l'|].
  - destruct Hf as (l1 & e & l2 & -> & Er & ->). rewrite fmap_app, fmap_cons in Hn. pose proof Hn as Hn'.
    apply NoDup_app in Hn' as (_ & Hd1 & Hn2). apply NoDup_cons in Hn2 as [Hd2 _].
    apply Forall_app in He as [He1 He2]. apply Forall_cons in He2 as [He He2]. split.
    + rewrite fmap_app, fmap_cons. exact Hn.
    + intros w [Hw|Hw]%elem_of_app Hr; rewrite fmap_app, fmap_cons; cbn [le_reason].
      * specialize (Hc w Hw Hr). by rewrite fmap_app, fmap_cons in Hc.
      * apply list_elem_of_singleton in Hw as ->. set_solver.
    + apply Forall_app. split; [|apply Forall_cons; split; [by apply entry_ok_added|]].
      * rewrite Forall_forall in He1 |- *. intros x Hx. apply entry_ok_other; [by apply He1|]. intros [_ Ex].
        apply (Hd1 (le_reason x)); [by apply list_elem_of_fmap_2|]. rewrite <-Ex, <-Er. set_solver.
      * rewrite Forall_forall in He2 |- *. intros x Hx. apply entry_ok_other; [by apply He2|]. intros [_ Ex].
        apply Hd2. rewrite Er, Ex. by apply list_elem_of_fmap_2.
  - split.
    + rewrite fmap_cons. by apply NoDup_cons.
    + intros w [Hw|Hw]%elem_of_app Hr; rewrite fmap_cons; [specialize (Hc w Hw Hr); set_solver|].
      apply list_elem_of_singleton in Hw as ->. set_solver.
    + apply Forall_cons. split.
      * assert (Ef : filter (of_reason (f_reason v)) (recs ++ [v]) = [v]).
        { rewrite filter_snoc, decide_True by done. rewrite filter_of_reason_nil; [done|].
          intros w Hw Hr Er. apply Hf. rewrite <-Er. by apply Hc. }
        split; cbn [le_reason le_count le_total le_max]; rewrite Ef; [done|..].
        -- change (sum_f f_count [v]) with (f_count v + 0). rewrite Z.add_0_r. by rewrite u64_small.
        -- change (sum_f f_total [v]) with (f_total v + 0). rewrite Z.add_0_r. by rewrite u64_small.
        -- change (max_f [v]) with (Z.max (f_max v) 0). lia.
      * rewrite Forall_forall in He |- *. intros x Hx. apply entry_ok_other; [by apply He|]. intros [_ Ex].
        apply Hf. rewrite Ex. by apply list_elem_of_fmap_2.
Qed.

Lemma latency_lines_ok lines vs u recs l :
  Forall2 (fun line v => line_fields line = Some v) lines vs -> adds_up recs l ->
  adds_up (recs ++ vs) (latency_lines lines u l).
Proof.
  intros H. revert u recs l. induction H as [|line v lines vs Hv _ IH]; intros u recs l Hl; [by rewrite app_nil_r|].
  cbn [latency_lines]. rewrite (store_complete _ _ _ Hv). rewrite (cons_middle v), app_assoc. apply IH.
  apply add_latency_ok; [done|by eapply line_fields_range].
Qed.

(** ** The files *)

(** A file of complete lines. *)
Definition latency_text (text : list Z) (vs : list fields) : Prop :=
  exists lines, c_string <$> file_lines MAX_LINE text = EXPECTED_VERSION :: lines /\
    Forall2 (fun line v => line_fields line = Some v) lines vs.

Lemma read_latency_file_done uninit text vs recs l s :
  latency_text text vs -> adds_up recs l ->
  exists l', read_latency_file uninit text l s = Done l' s /\ adds_up (recs ++ vs) l'.
Proof.
  intros (lines & E & Hv) Hl. exists (latency_lines lines uninit l). split; [|by apply latency_lines_ok].
  unfold read_latency_file. rewrite E. by rewrite bool_decide_eq_true_2.
Qed.

Definition starts_with_digit (name : list Z) : bool := match name with c :: _ => isdigit c | [] => false end.
Definition thread_count (names : list (list Z)) : nat := length (filter (fun n => starts_with_digit n = true) names).

Lemma read_threads_done uninit files text vs names recs l pid s :
  files Global_stats = Some text -> latency_text text vs -> adds_up recs l ->
  exists l', read_threads uninit files names l false pid s = Done l' s /\
    adds_up (recs ++ mjoin (replicate (thread_count names) vs)) l'.
Proof.
  intros Hg Ht. revert recs l. induction names as [|name names IH]; intros recs l Hl.
  - exists l. split; [done|]. by rewrite app_nil_r.
  - cbn [read_threads]. unfold thread_count. rewrite filter_cons. destruct name as [|c name].
    { rewrite decide_False by done. by apply IH. }
    cbn [starts_with_digit]. destruct (isdigit c); [|rewrite decide_False by done; by apply IH].
    rewrite decide_True by done.
    destruct (read_latency_file_done uninit text vs recs l s Ht Hl) as (l1 & E1 & H1).
    assert (E : read_thread_stats uninit files l false pid (default 0 (fst <$> scan_dec (c :: name))) false s = Done l1 s).
    { unfold read_thread_stats. erewrite mbind_done by done. cbn [negb]. by rewrite Hg. }
    rewrite (mbind_done _ _ _ _ _ E). destruct (IH (recs ++ vs) l1 H1) as (l2 & E2 & H2).
    exists l2. split; [exact E2|]. rewrite <-app_assoc in H2. exact H2.
Qed.

(** latencytop shows the global latencies for a process. After the first turn the
    entries over all processes add up the lines of the global file by reason: one
    entry for each reason that has a line with a latency, with the sums of the counts
    and totals modulo 2^64 and the greatest maximum. The entries of a process do not
    depend on the files of its threads: they are the lines of the global file, added
    up once for each thread. *)
Theorem latencytop_process_is_global (uninit : fields) (files : snapshot) (task : Z -> option (list (list Z)))
    (text : list Z) (vs : list fields) (names : list (list Z)) (pid : Z) (s : log)
  (Hglobal : files Global_stats = Some text) (Htext : latency_text text vs) (Htask : task pid = Some names) :
  (exists e, read_global_stats uninit files [] false s = Done e s /\ adds_up vs e) /\
  (exists e, read_process_stats uninit files task [] false pid s = Done e s /\
     adds_up (mjoin (replicate (thread_count names) vs)) e).
Proof.
  split.
  - unfold read_global_stats. erewrite mbind_done by done. cbn [negb]. rewrite Hglobal.
    apply (read_latency_file_done uninit text vs [] [] s Htext adds_up_nil).
  - unfold read_process_stats. rewrite Htask.
    apply (read_threads_done uninit files text vs names [] [] pid s Hglobal Htext adds_up_nil).
Qed.

Definition global_text : list Z :=
  EXPECTED_VERSION ++ str "3 30 20 io"%string ++ [10] ++ str "1 5 5 lock"%string ++ [10] ++ str "2 8 6 io"%string ++ [10].
Definition global_fields : list fields :=
  [mk_fields 3 30 20 (str "io"%string); mk_fields 1 5 5 (str "lock"%string); mk_fields 2 8 6 (str "io"%string)].
Definition only_global : snapshot := fun f => match f with Global_stats => Some global_text | _ => None end.

Lemma latencytop_process_is_global_witness :
  (exists e, read_global_stats (mk_fields 0 0 0 []) only_global [] false [] = Done e [] /\ adds_up global_fields e) /\
  (exists e, read_process_stats (mk_fields 0 0 0 []) only_global (fun _ => Some [[46]; [55]; [56]]) [] false 7 [] = Done e [] /\
     adds_up (global_fields ++ global_fields ++ []) e).
Proof.
  apply (latencytop_process_is_global (mk_fields 0 0 0 []) only_global (fun _ => Some [[46]; [55]; [56]]) global_text
    global_fields [[46]; [55]; [56]] 7 []).
  - reflexivity.
  - exists [str "3 30 20 io"%string ++ [10]; str "1 5 5 lock"%string ++ [10]; str "2 8 6 io"%string ++ [10]].
    split; [by vm_compute|]. repeat constructor.
  - reflexivity.
Defined.

(** A line with a latency but no count makes the average divide by 0. *)
Example zero_count_divides :
  print_latency_entries [mk_latency_entry 0 5 5 (str "io"%string)] [] = Stuck.
Proof. by vm_compute. Qed.
