(* ===== verification/Cpustats.v ===== *)
(** * Processor times (cpustats/cpustats.c)

    The static variables are the state. The contents of /proc/stat and of the files of
    the frequencies are parameters; a file that cannot be opened ends the program,
    which is [None], as is an access outside an array. *)

From stdpp Require Import pretty.
From Stdlib Require Import String.
From S2P Require Import Prelude Bytes Scanf.

Record freq_info := mk_freq_info { fi_freq : Z; fi_time : Z }.
Record cpu_times := mk_cpu_times {
  utime : Z; ntime : Z; stime : Z; itime : Z; iowtime : Z; irqtime : Z; sirqtime : Z
}.
Record cpu_info := mk_cpu_info { c_times : cpu_times; c_freqs : list freq_info }.

Record cpustats := mk_cpustats {
  old_total_cpu : cpu_info; new_total_cpu : cpu_info;
  old_cpus : list cpu_info; new_cpus : list cpu_info;
  aggregate_freq_stats : bool
}.

(** What the files hold at a reading: /proc/stat, and time_in_state of each processor. *)
Record sys_files := mk_sys_files { f_stat : option (list Z); f_time_in_state : nat -> option (list Z) }.

Definition lits (s : list Z) : list directive := Lit <$> s.

(** ** Reading *)

Definition times_format : list directive :=
  [Uns 64; Space; Uns 64; Space; Uns 64; Space; Uns 64; Space; Uns 64; Space; Uns 64; Space; Uns 64; Space;
   Dec false; Space; Dec false; Space; Dec false; Space].
Definition total_format : list directive := lits (str "cpu"%string) ++ [Space] ++ times_format.
Definition cpu_format (i : nat) : list directive := lits (str ("cpu" ++ pretty i)%string) ++ [Space] ++ times_format.

(** The members in order, as far as [fscanf] gets. *)
Definition store_times (vs : list value) (t : cpu_times) : cpu_times :=
  let nth i old := match vs !! i with Some (Num_ v) => v | _ => old end in
  mk_cpu_times (nth 0%nat (utime t)) (nth 1%nat (ntime t)) (nth 2%nat (stime t)) (nth 3%nat (itime t))
    (nth 4%nat (iowtime t)) (nth 5%nat (irqtime t)) (nth 6%nat (sirqtime t)).

Definition freq_format : list directive := [Uns 32; Space; Uns 64; Space].
Definition store_freq (vs : list value) (f : freq_info) : freq_info :=
  match vs with
  | [Num_ a] => mk_freq_info a (fi_time f)
  | [Num_ a; Num_ b] => mk_freq_info a b
  | _ => f
  end.

(** The loop of [read_freq_stats]: the frequencies of the processor, and of the total
    if they are aggregated. *)
Fixpoint freq_loop (aggregate : bool) (s : list Z) (freqs total : list freq_info) :
    option (list freq_info * list freq_info) :=
  match freqs with
  | [] => Some ([], total)
  | f :: freqs =>
      let '(vs, s) := fscanf freq_format s in
      let f := store_freq vs f in
      match total with
      | t :: total' =>
          '(fs, ts) ← freq_loop aggregate s freqs total';
          Some (f :: fs, (if aggregate then mk_freq_info (fi_freq f) (u64 (fi_time t + fi_time f)) else t) :: ts)
      | [] =>
          if aggregate then None
          else '(fs, ts) ← freq_loop aggregate s freqs []; Some (f :: fs, ts)
      end
  end.
Definition read_freq_stats (files : sys_files) (aggregate : bool) (i : nat) (cpu total : cpu_info) : option (cpu_info * cpu_info) :=
  s ← f_time_in_state files i;
  '(fs, ts) ← freq_loop aggregate s (c_freqs cpu) (c_freqs total);
  Some (mk_cpu_info (c_times cpu) fs, mk_cpu_info (c_times total) ts).

(** The loop over the processors. *)
Fixpoint cpu_loop (files : sys_files) (aggregate : bool) (s : list Z) (i : nat) (cpus : list cpu_info) (total : cpu_info) :
    option (list cpu_info * cpu_info) :=
  match cpus with
  | [] => Some ([], total)
  | cpu :: cpus =>
      let '(vs, s) := fscanf (cpu_format i) s in
      '(cpu, total) ← read_freq_stats files aggregate i (mk_cpu_info (store_times vs (c_times cpu)) (c_freqs cpu)) total;
      '(cpus, total) ← cpu_loop files aggregate s (S i) cpus total;
      Some (cpu :: cpus, total)
  end.

(** [read_stats] into [total] and [cpus]. *)
Definition read_stats (files : sys_files) (aggregate : bool) (total : cpu_info) (cpus : list cpu_info) :
    option (cpu_info * list cpu_info) :=
  s ← f_stat files;
  let '(vs, s) := fscanf total_format s in
  let total := mk_cpu_info (store_times vs (c_times total))
    (if aggregate then (fun f => mk_freq_info (fi_freq f) 0) <$> c_freqs total else c_freqs total) in
  '(cpus, total) ← cpu_loop files aggregate s 0 cpus total;
  Some (total, cpus).

(** ** Printing *)

Definition get_cpu_total_time (c : cpu_info) : Z :=
  let t := c_times c in
  u64 (utime t + ntime t + stime t + itime t + iowtime t + irqtime t + sirqtime t).

(** The differences, printed as [long]. *)
Definition delta (new old : Z) : Z := s64 (new - old).
Definition time_deltas (new old : cpu_info) : list Z :=
  (fun f => delta (f (c_times new)) (f (c_times old))) <$> [utime; ntime; stime; itime; iowtime; irqtime; sirqtime].
(** [print_freq_stats]: the rows and the total, which is a [long]. *)
Definition freq_deltas (new old : cpu_info) : list (Z * Z) :=
  zip_with (fun f g => (fi_freq f, delta (fi_time f) (fi_time g))) (c_freqs new) (c_freqs old).
Definition freq_total (new old : cpu_info) : Z :=
  foldl (fun a r => s64 (a + r.2)) 0 (freq_deltas new old).

Record cpu_row := mk_cpu_row {
  row_deltas : list Z;
  row_total : option Z;
  row_freqs : option (list (Z * Z) * option Z)
}.

(** [print_cpu_stats] *)
Definition print_freq_stats (minimal : bool) (new old : cpu_info) : option (list (Z * Z) * option Z) :=
  match c_freqs new with
  | [] => None
  | _ => Some (freq_deltas new old, if minimal then None else Some (freq_total new old))
  end.
Definition print_cpu_stats (minimal : bool) (new old : cpu_info) (print_freq : bool) : cpu_row :=
  if negb minimal then
    mk_cpu_row (time_deltas new old) (Some (delta (get_cpu_total_time new) (get_cpu_total_time old)))
      (if print_freq then print_freq_stats minimal new old else None)
  else mk_cpu_row (time_deltas new old) None (print_freq_stats minimal new old).

(** Whether a processor spent its time at other frequencies than the first: the times
    up to the first that differs. The first processor may have fewer frequencies. *)
Fixpoint freq_differs (new old new0 old0 : list freq_info) : option bool :=
  match new, old with
  | a :: new, b :: old =>
      match new0, old0 with
      | a0 :: new0, b0 :: old0 =>
          if u64 (fi_time a - fi_time b) =? u64 (fi_time a0 - fi_time b0) then freq_differs new old new0 old0 else Some true
      | _, _ => None
      end
  | _, _ => Some false
  end.
Fixpoint any_differs (news olds : list cpu_info) (new0 old0 : cpu_info) : option bool :=
  match news, olds with
  | new :: news, old :: olds =>
      d ← freq_differs (c_freqs new) (c_freqs old) (c_freqs new0) (c_freqs old0);
      if d : bool then Some true else any_differs news olds new0 old0
  | _, _ => Some false
  end.
Definition should_print_freq_stats (news olds : list cpu_info) : option bool :=
  match news, olds with
  | new0 :: news, old0 :: olds => any_differs news olds new0 old0
  | _, _ => Some false
  end.

Definition same_freqs (a b : cpu_info) : bool :=
  Nat.eqb (length (c_freqs a)) (length (c_freqs b)) &&
  bool_decide ((fi_freq <$> c_freqs a) = (fi_freq <$> c_freqs b)).
Definition should_aggregate_freq_stats (cpus : list cpu_info) : bool :=
  match cpus with
  | [] => true
  | c0 :: cs => forallb (fun c => same_freqs c c0) cs
  end.

(** [print_stats]: the row of the total, then those of the processors. *)
Definition print_stats (minimal : bool) (s : cpustats) : option (list cpu_row) :=
  print_freq ← should_print_freq_stats (new_cpus s) (old_cpus s);
  Some (print_cpu_stats minimal (new_total_cpu s) (old_total_cpu s) true ::
    zip_with (fun new old => print_cpu_stats minimal new old print_freq) (new_cpus s) (old_cpus s)).

(** ** The program *)

(** The number of processors of a file that holds 0 or 0-N. *)
Definition MAX_BUF_SIZE : nat := 64.
Definition get_cpu_count_from_file (file : option (list Z)) : option Z :=
  s ← file; '(line, _) ← fgets MAX_BUF_SIZE s;
  let line := c_string line in
  if bool_decide (line = str "0"%string ++ [10]) then Some 1
  else match sscanf (length line) (lits (str "0-"%string) ++ [Dec true; Space]) line with
       | [Num_ n] => Some (s32 (n + 1))
       | _ => None
       end.
Definition get_cpu_count (present online : option (list Z)) : option Z :=
  n ← get_cpu_count_from_file present; m ← get_cpu_count_from_file online;
  if n =? m then Some n else None.

(** The number of lines of time_in_state up to one that has no frequency. *)
Fixpoint count_freqs (fuel : nat) (s : list Z) : nat :=
  match fuel with
  | O => O
  | S fuel =>
      match fscanf [Uns 64; Space; Dec false; Space] s with
      | (Num_ f :: _, r) => if f =? 0 then O else S (count_freqs fuel r)
      | _ => O
      end
  end.
Definition get_freq_scales_count (files : sys_files) (i : nat) : option nat :=
  s ← f_time_in_state files i; Some (count_freqs (length s) s).

(** One turn of the loop: the buffers are swapped, read and printed. *)
Definition turn (minimal : bool) (files : sys_files) (s : cpustats) : option (cpustats * list cpu_row) :=
  '(total, cpus) ← read_stats files (aggregate_freq_stats s) (old_total_cpu s) (old_cpus s);
  let s := mk_cpustats (new_total_cpu s) total (new_cpus s) cpus (aggregate_freq_stats s) in
  rows ← print_stats minimal s; Some (s, rows).

Fixpoint turns (minimal : bool) (l : list sys_files) (s : cpustats) : option (list (list cpu_row)) :=
  match l with
  | [] => Some []
  | files :: l => '(s, rows) ← turn minimal files s; rest ← turns minimal l s; Some (rows :: rest)
  end.

(** The set-up of [main] with [n] processors; [uninit] are times and frequencies that
    [malloc] found. The statistics are read twice if they are aggregated. *)
Fixpoint init_cpus (files : sys_files) (uninit_times : cpu_times) (uninit : freq_info) (ixs : list nat) : option (list cpu_info) :=
  match ixs with
  | [] => Some []
  | i :: ixs =>
      n ← get_freq_scales_count files i;
      cs ← init_cpus files uninit_times uninit ixs;
      Some (mk_cpu_info uninit_times (replicate n uninit) :: cs)
  end.
Definition no_times : cpu_times := mk_cpu_times 0 0 0 0 0 0 0.
Definition start (n : nat) (uninit_times : cpu_times) (uninit : freq_info) (files first second : sys_files) : option cpustats :=
  cpus ← init_cpus files uninit_times uninit (seq 0 n);
  '(total, new) ← read_stats first false (mk_cpu_info no_times []) cpus;
  if should_aggregate_freq_stats new then
    c0 ← new !! 0%nat;
    let freqs := replicate (length (c_freqs c0)) uninit in
    '(total, new) ← read_stats second true (mk_cpu_info (c_times total) freqs) new;
    Some (mk_cpustats (mk_cpu_info no_times freqs) total cpus new true)
  else Some (mk_cpustats (mk_cpu_info no_times []) total cpus new false).

(** [main] after its options: the rows of each turn. *)
Definition cpustats_main (minimal : bool) (present online : option (list Z)) (uninit_times : cpu_times) (uninit : freq_info)
    (files first second : sys_files) (l : list sys_files) : option (list (list cpu_row)) :=
  n ← get_cpu_count present online;
  s ← start (Z.to_nat n) uninit_times uninit files first second;
  turns minimal l s.
