(* ===== verification/SaneSchedstat.v ===== *)
(** * Scheduler statistics (sane_schedstat/sane_schedstat.c)

    The global arrays are the state; an index outside them is [Stuck]. The contents of
    /proc/schedstat at each turn are a parameter. *)

From Stdlib Require Import String.
From S2P Require Import Prelude Bytes Scanf.

Definition MAX_CPU : nat := 2.

Record cpu_stat := mk_cpu_stat {
  yld_count : Z; sched_switch : Z; sched_count : Z; sched_goidle : Z; ttwu_count : Z; ttwu_local : Z;
  cpu_time : Z; run_delay : Z; pcount : Z
}.
Definition cpu_stat_zero : cpu_stat := mk_cpu_stat 0 0 0 0 0 0 0 0 0.

Record schedstat := mk_schedstat { cpu_prev : list cpu_stat; cpu_delta : list cpu_stat; tmp : cpu_stat }.
Definition schedstat_zero : schedstat :=
  mk_schedstat (replicate MAX_CPU cpu_stat_zero) (replicate MAX_CPU cpu_stat_zero) cpu_stat_zero.

(** The string after the next newline; [NULL] if there is none. *)
Fixpoint next_line (b : list Z) : option (list Z) :=
  match b with
  | [] => None
  | c :: b => if c =? 10 then Some b else next_line b
  end.

Definition chars (s : string) : list directive := Lit <$> str s.
Definition cpu_line_format : list directive :=
  chars "cpu" ++ [Dec true; Space; Uns 32; Space; Uns 32; Space; Uns 32; Space; Uns 32; Space; Uns 32; Space; Uns 32;
                  Space; Uns 64; Space; Uns 64; Space; Uns 64; Space].

(** The members of [tmp] that [sscanf] sets; the first value is the processor. *)
Definition store_stat (vs : list value) (t : cpu_stat) : cpu_stat :=
  let nth i old := match vs !! i with Some (Num_ v) => v | _ => old end in
  mk_cpu_stat (nth 1%nat (yld_count t)) (nth 2%nat (sched_switch t)) (nth 3%nat (sched_count t))
    (nth 4%nat (sched_goidle t)) (nth 5%nat (ttwu_count t)) (nth 6%nat (ttwu_local t))
    (nth 7%nat (cpu_time t)) (nth 8%nat (run_delay t)) (nth 9%nat (pcount t)).

(** The differences, in the types of the members. *)
Definition stat_delta (a b : cpu_stat) : cpu_stat :=
  mk_cpu_stat (u32 (yld_count a - yld_count b)) (u32 (sched_switch a - sched_switch b))
    (u32 (sched_count a - sched_count b)) (u32 (sched_goidle a - sched_goidle b))
    (u32 (ttwu_count a - ttwu_count b)) (u32 (ttwu_local a - ttwu_local b))
    (u64 (cpu_time a - cpu_time b)) (u64 (run_delay a - run_delay b)) (u64 (pcount a - pcount b)).

Definition parse_cpu_v15 (b : list Z) : M schedstat Z :=
  let vs := sscanf (length b) cpu_line_format b in
  modify (fun s => mk_schedstat (cpu_prev s) (cpu_delta s) (store_stat vs (tmp s)));;;
  if negb (Nat.eqb (length vs) 10) then mret' (-1)
  else
    match vs with
    | Num_ cpu :: _ =>
        do s <- get;
        do prev <- deref (zget (cpu_prev s) cpu);
        do deltas <- deref (zset (cpu_delta s) cpu (stat_delta (tmp s) prev));
        do prevs <- deref (zset (cpu_prev s) cpu (tmp s));
        put (mk_schedstat prevs deltas (tmp s));;;
        mret' 0
    | _ => mret' (-1)
    end.

(** The loop over the lines; each step shortens the string. *)
Fixpoint parse_lines (fuel : nat) (b : list Z) : M schedstat Z :=
  match fuel with
  | O => fun _ => NoFuel
  | S fuel =>
      match next_line b with
      | None => mret' 0
      | Some b =>
          match b with
          | c :: _ =>
              if c =? 99 then
                do e <- parse_cpu_v15 b;
                if negb (e =? 0) then mret' (-1) else parse_lines fuel b
              else parse_lines fuel b
          | [] => parse_lines fuel b
          end
      end
  end.

Definition parse (b : list Z) : M schedstat Z :=
  match sscanf (length b) (chars "version " ++ [Uns 32; Space]) b with
  | [Num_ version] =>
      if version =? 15 then
        match next_line b with
        | None => mret' (-1)
        | Some b =>
            match sscanf (length b) (chars "timestamp " ++ [Uns 64; Space]) b with
            | [Num_ _] => parse_lines (S (length b)) b
            | _ => mret' (-1)
            end
        end
      else mret' (-1)
  | _ => mret' (-1)
  end.

(** [print]: the times are shown in milliseconds. *)
Definition print_row (d : cpu_stat) : cpu_stat :=
  mk_cpu_stat (yld_count d) (sched_switch d) (sched_count d) (sched_goidle d) (ttwu_count d) (ttwu_local d)
    (cpu_time d / 1000000) (run_delay d / 1000000) (pcount d).
Definition print : M schedstat (list cpu_stat) := do s <- get; mret' (print_row <$> cpu_delta s).

(** What a turn finds: the file cannot be opened, cannot be read, or has contents. *)
Inductive stat_file := No_file | Unreadable | Contents (text : list Z).

(** [main] over the turns: its result and the tables it printed. *)
Fixpoint schedstat_main (turns : list stat_file) (tables : list (list cpu_stat)) : M schedstat (option Z * list (list cpu_stat)) :=
  match turns with
  | [] => mret' (None, tables)
  | No_file :: _ => mret' (Some (-1), tables)
  | Unreadable :: _ => stuck
  | Contents text :: turns =>
      do e <- parse (c_string (take 4095 text));
      if negb (e =? 0) then mret' (Some (-1), tables)
      else do t <- print; schedstat_main turns (tables ++ [t])
  end.
