(* ===== verification/SaneSchedstatProps.v ===== *)
(** * What sane_schedstat prints (properties of SaneSchedstat)

    Each table holds what the counters of each processor advanced by since the reading
    before, so that the tables add up to the counters. *)

From Stdlib Require Import String.
From S2P Require Import Prelude Bytes Scanf SaneSchedstat.

(** ** The text of a reading *)

Definition cpu_line (b : list Z) : option (Z * cpu_stat) :=
  match sscanf (length b) cpu_line_format b with
  | [Num_ c; Num_ a1; Num_ a2; Num_ a3; Num_ a4; Num_ a5; Num_ a6; Num_ a7; Num_ a8; Num_ a9] =>
      Some (c, mk_cpu_stat a1 a2 a3 a4 a5 a6 a7 a8 a9)
  | _ => None
  end.

(** The string after each newline, and those that begin as the line of a processor. *)
Fixpoint line_starts (fuel : nat) (b : list Z) : list (list Z) :=
  match fuel with
  | O => []
  | S fuel => match next_line b with None => [] | Some b => b :: line_starts fuel b end
  end.
Definition is_cpu_line (b : list Z) : bool := match b with c :: _ => c =? 99 | [] => false end.

(** A text of version 15 with the line of each processor in order. *)
Definition holds (text : list Z) (r : list cpu_stat) : Prop :=
  let b := c_string (take 4095 text) in
  sscanf (length b) (chars "version " ++ [Uns 32; Space]) b = [Num_ 15] /\
  exists rest ts, next_line b = Some rest /\ sscanf (length rest) (chars "timestamp " ++ [Uns 64; Space]) rest = [Num_ ts] /\
    cpu_line <$> filter (fun l => is_cpu_line l = true) (line_starts (length rest) rest) = imap (fun i x => Some (Z.of_nat i, x)) r.

Lemma next_line_shorter b b' : next_line b = Some b' -> (length b' < length b)%nat.
Proof.
  induction b as [|c b IH]; [done|]. cbn. destruct (c =? 10); [intros [= ->]; lia|]. intros H. specialize (IH H). lia.
Qed.

Lemma line_starts_fuel b m n : (length b <= m)%nat -> (length b <= n)%nat -> line_starts m b = line_starts n b.
Proof.
  revert b n. induction m as [|m IH]; intros b [|n] Hm Hn; cbn [line_starts]; [done| | |].
  - destruct b; [done|cbn in Hm; lia].
  - destruct b; [done|cbn in Hn; lia].
  - destruct (next_line b) as [b'|] eqn:E; [|done]. apply next_line_shorter in E. f_equal. apply IH; lia.
Qed.

(** ** The lines *)

Definition update_cpu (s : schedstat) (r : Z * cpu_stat) : option schedstat :=
  prev ← zget (cpu_prev s) r.1;
  deltas ← zset (cpu_delta s) r.1 (stat_delta r.2 prev);
  prevs ← zset (cpu_prev s) r.1 r.2;
  Some (mk_schedstat prevs deltas r.2).

Lemma cpu_line_values b r :
  cpu_line b = Some r -> exists a1 a2 a3 a4 a5 a6 a7 a8 a9,
    sscanf (length b) cpu_line_format b = Num_ <$> [r.1; a1; a2; a3; a4; a5; a6; a7; a8; a9] /\
    r.2 = mk_cpu_stat a1 a2 a3 a4 a5 a6 a7 a8 a9.
Proof.
  unfold cpu_line. generalize (sscanf (length b) cpu_line_format b). intros vs H.
  repeat (destruct vs as [|[?|] vs]; [discriminate H| |discriminate H]).
  destruct vs; [|discriminate H]. injection H as <-. by repeat eexists.
Qed.

Lemma parse_cpu_done b r s s' :
  cpu_line b = Some r -> update_cpu s r = Some s' -> parse_cpu_v15 b s = Done 0 s'.
Proof.
  intros H. destruct (cpu_line_values _ _ H) as (a1 & a2 & a3 & a4 & a5 & a6 & a7 & a8 & a9 & E & Er).
  unfold parse_cpu_v15, update_cpu. rewrite E, Er. destruct r as [c x]. cbn in Er |- *.
  destruct (zget (cpu_prev s) c) as [prev|]; [|done]. cbn.
  destruct (zset (cpu_delta s) c _) as [ds|]; [|done]. cbn. destruct (zset (cpu_prev s) c _) as [ps|]; [|done].
  cbn. by intros [= <-].
Qed.

Fixpoint update_cpus (s : schedstat) (l : list (Z * cpu_stat)) : option schedstat :=
  match l with
  | [] => Some s
  | r :: l => s ← update_cpu s r; update_cpus s l
  end.

Lemma parse_lines_done fuel b l s s' :
  (length b < fuel)%nat ->
  cpu_line <$> filter (fun l => is_cpu_line l = true) (line_starts (length b) b) = Some <$> l ->
  update_cpus s l = Some s' -> parse_lines fuel b s = Done 0 s'.
Proof.
  revert b l s. induction fuel as [|fuel IH]; intros b l s Hf Hl Hu; [lia|].
  rewrite (line_starts_fuel b (length b) (S (length b))) in Hl by lia. cbn [parse_lines line_starts] in *.
  destruct (next_line b) as [b'|] eqn:E.
  2:{ destruct l; [|done]. cbn in Hu. by injection Hu as ->. }
  apply next_line_shorter in E. rewrite (line_starts_fuel b' (length b) (length b')) in Hl by lia.
  rewrite filter_cons in Hl. destruct b' as [|c b']; [rewrite decide_False in Hl by done; apply (IH [] l); [cbn in *; lia|done|done]|].
  cbn [is_cpu_line] in Hl. destruct (c =? 99); [rewrite decide_True in Hl by done|rewrite decide_False in Hl by done].
  - destruct l as [|r l]; [done|]. rewrite !fmap_cons in Hl. injection Hl as Hr Hl. cbn [update_cpus] in Hu.
    destruct (update_cpu s r) as [s1|] eqn:E1; [|done]. rewrite (mbind_done _ _ _ _ _ (parse_cpu_done _ _ _ _ Hr E1)).
    change (negb (0 =? 0)) with false. cbv iota. apply (IH _ l); [lia|done|done].
  - apply (IH _ l); [lia|done|done].
Qed.

(** A whole reading. *)
Lemma parse_done text r s s' :
  holds text r -> update_cpus s (imap (fun i x => (Z.of_nat i, x)) r) = Some s' ->
  parse (c_string (take 4095 text)) s = Done 0 s'.
Proof.
  intros (Hv & rest & ts & Hn & Ht & Hl) Hu. unfold parse. rewrite Hv. change (15 =? 15) with true. cbv iota.
  rewrite Hn, Ht. apply (parse_lines_done _ _ (imap (fun i x => (Z.of_nat i, x)) r)); [lia| |done].
  rewrite Hl, fmap_imap. done.
Qed.

Lemma update_cpus_two p0 p1 d0 d1 t x0 x1 :
  update_cpus (mk_schedstat [p0; p1] [d0; d1] t) [(0, x0); (1, x1)] =
    Some (mk_schedstat [x0; x1] [stat_delta x0 p0; stat_delta x1 p1] x1).
Proof. reflexivity. Qed.

Lemma main_step text x0 x1 turns tables p0 p1 d0 d1 t :
  holds text [x0; x1] ->
  schedstat_main (Contents text :: turns) tables (mk_schedstat [p0; p1] [d0; d1] t) =
    schedstat_main turns (tables ++ [print_row <$> [stat_delta x0 p0; stat_delta x1 p1]])
      (mk_schedstat [x0; x1] [stat_delta x0 p0; stat_delta x1 p1] x1).
Proof.
  intros H. cbn [schedstat_main]. rewrite (mbind_done _ _ _ _ _ (parse_done _ _ _ _ H (update_cpus_two _ _ _ _ _ _ _))). done.
Qed.

(** ** The tables *)

(** The rows of a table between two readings of the two processors. *)
Definition row_pair (old new : cpu_stat * cpu_stat) : list cpu_stat :=
  print_row <$> [stat_delta new.1 old.1; stat_delta new.2 old.2].
Fixpoint differences (old : cpu_stat * cpu_stat) (rs : list (cpu_stat * cpu_stat)) : list (list cpu_stat) :=
  match rs with
  | [] => []
  | r :: rs => row_pair old r :: differences r rs
  end.

Lemma main_done texts rs tables p d0 d1 t :
  Forall2 (fun text r => holds text [r.1; r.2]) texts rs ->
  exists s', schedstat_main (Contents <$> texts) tables (mk_schedstat [p.1; p.2] [d0; d1] t) = Done (None, tables ++ differences p rs) s'.
Proof.
  intros H. revert tables p d0 d1 t. induction H as [|text r texts rs Ht _ IH]; intros tables p d0 d1 t.
  - eexists. cbn. by rewrite app_nil_r.
  - rewrite fmap_cons, main_step with (1 := Ht).
    destruct (IH (tables ++ [row_pair p r]) r (stat_delta r.1 p.1) (stat_delta r.2 p.2) r.2) as [s' E].
    exists s'. cbn [differences]. rewrite <-app_assoc in E. exact E.
Qed.

(** The counters that are printed as they are, with their widths. *)
Definition counters : list ((cpu_stat -> Z) * Z) :=
  [(yld_count, 32); (sched_switch, 32); (sched_count, 32); (sched_goidle, 32); (ttwu_count, 32); (ttwu_local, 32); (pcount, 64)].
Definition column (g : cpu_stat -> Z) (c : nat) (tables : list (list cpu_stat)) : Z :=
  foldr (fun t a => from_option g 0 (t !! c) + a) 0 tables.

Lemma counter_delta g w a b :
  (g, w) ∈ counters -> g (print_row (stat_delta a b)) = (g a - g b) mod 2 ^ w.
Proof. intros H. repeat (apply elem_of_cons in H as [[= -> ->]|H]; [done|]). by apply elem_of_nil in H. Qed.

Lemma counter_width g w : (g, w) ∈ counters -> 2 ^ w <> 0.
Proof. intros H. repeat (apply elem_of_cons in H as [[= -> ->]|H]; [lia|]). by apply elem_of_nil in H. Qed.

Lemma last_default {A} (x y : A) l : default x (last (y :: l)) = default y (last l).
Proof. rewrite last_cons. by destruct (last l). Qed.

(** The differences of a counter are those of all readings together. *)
Lemma column_differences g w old rs :
  (g, w) ∈ counters ->
  let r := default old (last rs) in
  (column g 0 (differences old rs) + g old.1) mod 2 ^ w = g r.1 mod 2 ^ w /\
  (column g 1 (differences old rs) + g old.2) mod 2 ^ w = g r.2 mod 2 ^ w.
Proof.
  intros Hg. revert old. induction rs as [|r rs IH]; intros old; [done|].
  rewrite last_default. destruct (IH r) as [E1 E2]. cbn zeta in *. rewrite <-E1, <-E2.
  cbn [differences column foldr row_pair fmap list_fmap lookup list_lookup from_option].
  fold (column g 0 (differences r rs)). fold (column g 1 (differences r rs)).
  rewrite !(counter_delta g w), <-!Z.add_assoc, !Z.add_mod_idemp_l by (done || by eapply counter_width).
  split; f_equal; lia.
Qed.


(** Two readings; a counter of the first processor wraps around between them. *)
Definition nl : list Z := [10].
Definition text1 : list Z :=
  str "version 15"%string ++ nl ++ str "timestamp 1000"%string ++ nl ++
  str "cpu0 4294967295 2 3 4 5 6 7000000 8000000 9"%string ++ nl ++ str "domain0 3"%string ++ nl ++
  str "cpu1 10 20 30 40 50 60 70 80 90"%string ++ nl.
Definition text2 : list Z :=
  str "version 15"%string ++ nl ++ str "timestamp 2000"%string ++ nl ++
  str "cpu0 4 2 3 4 5 6 9000000 8000000 10"%string ++ nl ++ str "cpu1 11 20 30 40 50 60 70 80 91"%string ++ nl.
Definition reading1 : cpu_stat * cpu_stat :=
  (mk_cpu_stat 4294967295 2 3 4 5 6 7000000 8000000 9, mk_cpu_stat 10 20 30 40 50 60 70 80 90).
Definition reading2 : cpu_stat * cpu_stat :=
  (mk_cpu_stat 4 2 3 4 5 6 9000000 8000000 10, mk_cpu_stat 11 20 30 40 50 60 70 80 91).


(** The line of a third processor makes [parse_cpu_v15] write outside the arrays. *)
Example third_cpu_overflows :
  parse_cpu_v15 (str "cpu2 1 2 3 4 5 6 7 8 9"%string ++ nl) schedstat_zero = Stuck.
Proof. by vm_compute. Qed.

(** A processor that has no line is shown with its last differences once more. *)
Example absent_cpu_repeats :
  let text := str "version 15"%string ++ nl ++ str "timestamp 3000"%string ++ nl ++ str "cpu0 1 2 3 4 5 6 7 8 9"%string ++ nl in
  fst <$> result (schedstat_main [Contents text1; Contents text] []) schedstat_zero = Some None /\
  (forall tables, snd <$> result (schedstat_main [Contents text1; Contents text] []) schedstat_zero = Some tables ->
     (fun t => t !! 1%nat) <$> tables = [Some (print_row (stat_delta reading1.2 cpu_stat_zero));
                                         Some (print_row (stat_delta reading1.2 cpu_stat_zero))]).
Proof. split; [by vm_compute|]. intros tables H. vm_compute in H. injection H as <-. by vm_compute. Qed.
