(* ===== verification/CpustatsProps.v ===== *)
(** * What cpustats prints (properties of Cpustats)

    The two buffers are swapped before each reading; the rows are the differences of
    successive readings, whatever the buffers held before. *)

From Stdlib Require Import String.
From S2P Require Import Prelude Bytes Scanf Cpustats.

(** ** Readings *)

Record reading := mk_reading { rd_times : cpu_times; rd_cpus : list cpu_info }.

Definition times_of (vs : list value) : option cpu_times :=
  match vs with
  | [Num_ a; Num_ b; Num_ c; Num_ d; Num_ e; Num_ f; Num_ g] => Some (mk_cpu_times a b c d e f g)
  | _ => None
  end.

(** Complete files. *)
Fixpoint freq_lines (s : list Z) (fs : list freq_info) : Prop :=
  match fs with
  | [] => True
  | f :: fs => exists rest, fscanf freq_format s = ([Num_ (fi_freq f); Num_ (fi_time f)], rest) /\ freq_lines rest fs
  end.
Fixpoint cpu_lines (files : sys_files) (i : nat) (s : list Z) (cpus : list cpu_info) : Prop :=
  match cpus with
  | [] => True
  | c :: cpus => exists vs rest text,
      fscanf (cpu_format i) s = (vs, rest) /\ times_of vs = Some (c_times c) /\
      f_time_in_state files i = Some text /\ freq_lines text (c_freqs c) /\ cpu_lines files (S i) rest cpus
  end.
Definition holds (files : sys_files) (r : reading) : Prop :=
  exists s vs rest, f_stat files = Some s /\ fscanf total_format s = (vs, rest) /\
    times_of vs = Some (rd_times r) /\ cpu_lines files 0 rest (rd_cpus r).

(** The frequencies of all processors added up. *)
Definition add_freqs (total fs : list freq_info) : list freq_info :=
  zip_with (fun t f => mk_freq_info (fi_freq f) (u64 (fi_time t + fi_time f))) total fs.
Definition zero_freqs (fs : list freq_info) : list freq_info := (fun f => mk_freq_info (fi_freq f) 0) <$> fs.
Definition sum_freqs (r : reading) : list freq_info :=
  match rd_cpus r with
  | [] => []
  | c :: cs => foldl (fun t c => add_freqs t (c_freqs c)) (zero_freqs (c_freqs c)) (c :: cs)
  end.
Definition total_of (aggregate : bool) (r : reading) : cpu_info :=
  mk_cpu_info (rd_times r) (if aggregate then sum_freqs r else []).

(** ** Reading *)

Lemma store_times_of vs t u : times_of vs = Some t -> store_times vs u = t.
Proof.
  unfold times_of. intros H. repeat (destruct vs as [|[?|] vs]; [discriminate H| |discriminate H]).
  destruct vs; [|discriminate H]. injection H as <-. done.
Qed.

Lemma freq_loop_done (aggregate : bool) s fs freqs total :
  freq_lines s fs -> length freqs = length fs -> (aggregate = true -> length total = length fs) ->
  freq_loop aggregate s freqs total = Some (fs, if aggregate then add_freqs total fs else total).
Proof.
  revert s freqs total. induction fs as [|f fs IH]; intros s freqs total Hs Hl Ha.
  - destruct freqs; [|done]. cbn. destruct aggregate; [|done]. by destruct total; [|by specialize (Ha eq_refl)].
  - destruct freqs as [|g freqs]; [done|]. destruct Hs as (rest & E & Hs). cbn [freq_loop]. rewrite E. cbv beta iota.
    injection Hl as Hl. cbn [store_freq]. destruct total as [|t total].
    + destruct aggregate; [by specialize (Ha eq_refl)|]. rewrite (IH rest freqs []); [|done|done|done]. cbn. by destruct f.
    + rewrite (IH rest freqs total); [|done|done|intros H; specialize (Ha H); by injection Ha]. cbn.
      destruct f, aggregate; done.
Qed.

Definition same_shape (cs ds : list cpu_info) : Prop := Forall2 (fun c d => length (c_freqs c) = length (c_freqs d)) cs ds.

Lemma cpu_loop_done (aggregate : bool) files s i cs cpus total :
  cpu_lines files i s cs -> same_shape cpus cs ->
  (aggregate = true -> Forall (fun c => length (c_freqs c) = length (c_freqs total)) cs) ->
  cpu_loop files aggregate s i cpus total =
    Some (cs, mk_cpu_info (c_times total)
                (if aggregate then foldl (fun t c => add_freqs t (c_freqs c)) (c_freqs total) cs else c_freqs total)).
Proof.
  revert s i cpus total. induction cs as [|c cs IH]; intros s i cpus total Hs Hl Ha; inversion Hl as [|d ? ds ? Hd Hl']; subst.
  - cbn. by destruct total, aggregate.
  - destruct Hs as (vs & rest & text & E & Et & Ex & Hf & Hs). cbn [cpu_loop]. rewrite E. cbv beta iota.
    unfold read_freq_stats. rewrite Ex. cbn [mbind option_bind c_freqs c_times].
    rewrite (freq_loop_done aggregate text (c_freqs c)); [|done|done|intros H; specialize (Ha H); by apply Forall_cons in Ha as [<- _]].
    rewrite (store_times_of _ _ _ Et). cbn [mbind option_bind]. rewrite IH; [|done|done|].
    + cbn. destruct c, aggregate; done.
    + intros H. specialize (Ha H). apply Forall_cons in Ha as [Hc Ha]. eapply Forall_impl; [exact Ha|].
      intros x Hx. rewrite H. cbn. unfold add_freqs. rewrite length_zip_with, Hx, Hc. lia.
Qed.

Lemma add_freqs_zero t u fs : length t = length u -> fi_time <$> t = fi_time <$> u -> add_freqs t fs = add_freqs u fs.
Proof.
  revert u fs. induction t as [|x t IH]; intros [|y u] [|f fs] Hl Ht; try done. rewrite !fmap_cons in Ht.
  injection Ht as Hx Ht. injection Hl as Hl. unfold add_freqs in *. cbn. by rewrite Hx, (IH u fs).
Qed.

Lemma zero_freqs_times l : fi_time <$> zero_freqs l = replicate (length l) 0.
Proof. induction l as [|f l IH]; [done|]. unfold zero_freqs in *. cbn. by rewrite IH. Qed.

(** A reading sets everything it later reads of the buffers. *)
Lemma read_stats_done (aggregate : bool) files r total cpus :
  holds files r -> same_shape cpus (rd_cpus r) ->
  (if aggregate then rd_cpus r <> [] /\ Forall (fun c => length (c_freqs c) = length (c_freqs total)) (rd_cpus r)
   else c_freqs total = []) ->
  read_stats files aggregate total cpus = Some (total_of aggregate r, rd_cpus r).
Proof.
  intros (s & vs & rest & Es & E & Et & Hc) Hl Ha. unfold read_stats. rewrite Es. cbn [mbind option_bind]. rewrite E.
  rewrite (store_times_of _ _ _ Et). cbv beta iota zeta.
  rewrite (cpu_loop_done aggregate files rest 0 (rd_cpus r)); [|done|done|].
  - cbn [mbind option_bind c_times c_freqs]. unfold total_of. do 3 f_equal. destruct aggregate; [|done].
    destruct Ha as [Hn Ha]. unfold sum_freqs. destruct (rd_cpus r) as [|c cs]; [done|]. cbn [foldl]. f_equal.
    apply Forall_cons in Ha as [Hc0 _]. apply add_freqs_zero.
    + unfold zero_freqs. by rewrite !length_fmap.
    + fold (zero_freqs (c_freqs total)). by rewrite !zero_freqs_times, Hc0.
  - intros ->. cbn [c_freqs]. rewrite length_fmap. by destruct Ha.
Qed.

(** ** The turns *)

(** The processors of an aggregated reading have the same number of frequencies. *)
Definition uniform (aggregate : bool) (n : nat) (r : reading) : Prop :=
  aggregate = true -> rd_cpus r <> [] /\ Forall (fun c => length (c_freqs c) = n) (rd_cpus r).

(** The state after a reading; of the older buffers only the sizes matter. *)
Record shows (n : nat) (s : cpustats) (r : reading) : Prop := {
  sh_total : new_total_cpu s = total_of (aggregate_freq_stats s) r;
  sh_cpus : new_cpus s = rd_cpus r;
  sh_old : same_shape (old_cpus s) (rd_cpus r);
  sh_freqs : length (c_freqs (old_total_cpu s)) = if aggregate_freq_stats s then n else 0%nat
}.

Lemma length_sum_freqs n r : uniform true n r -> length (sum_freqs r) = n.
Proof.
  intros H. destruct (H eq_refl) as [Hne Hc]. unfold sum_freqs. destruct (rd_cpus r) as [|c cs]; [done|].
  assert (Hz : length (zero_freqs (c_freqs c)) = n)
    by (unfold zero_freqs; rewrite length_fmap; by apply Forall_cons in Hc as [-> _]).
  revert Hz. generalize (zero_freqs (c_freqs c)). clear H Hne. induction Hc as [|x l Hx _ IH]; intros z Hz; [done|].
  cbn [foldl]. apply IH. unfold add_freqs. rewrite length_zip_with. lia.
Qed.

Definition reading_rows (minimal aggregate : bool) (prev cur : reading) : option (list cpu_row) :=
  print_stats minimal (mk_cpustats (total_of aggregate prev) (total_of aggregate cur) (rd_cpus prev) (rd_cpus cur) aggregate).
Fixpoint successive_rows (minimal aggregate : bool) (prev : reading) (rs : list reading) : option (list (list cpu_row)) :=
  match rs with
  | [] => Some []
  | r :: rs => rows ← reading_rows minimal aggregate prev r; rest ← successive_rows minimal aggregate r rs; Some (rows :: rest)
  end.

Lemma same_shape_trans a b c : same_shape a b -> same_shape b c -> same_shape a c.
Proof.
  intros H. revert c. induction H as [|x y a b Hx _ IH]; intros [|z c] Hc; inversion Hc; subst; [constructor|].
  constructor; [congruence|by apply IH].
Qed.
Lemma same_shape_sym a b : same_shape a b -> same_shape b a.
Proof. intros H. apply Forall2_flip. eapply Forall2_impl; [exact H|]. intros x y. by symmetry. Qed.

Lemma turn_done minimal n files s prev cur :
  shows n s prev -> uniform (aggregate_freq_stats s) n prev -> uniform (aggregate_freq_stats s) n cur ->
  same_shape (rd_cpus prev) (rd_cpus cur) -> holds files cur ->
  exists s', aggregate_freq_stats s' = aggregate_freq_stats s /\ shows n s' cur /\
    turn minimal files s = (rows ← reading_rows minimal (aggregate_freq_stats s) prev cur; Some (s', rows)).
Proof.
  intros [Ht Hc Ho Hf] Hup Huc Hs Hh.
  exists (mk_cpustats (total_of (aggregate_freq_stats s) prev) (total_of (aggregate_freq_stats s) cur)
            (rd_cpus prev) (rd_cpus cur) (aggregate_freq_stats s)).
  split; [done|]. split; [split; [done|done|done|]|].
  - cbn. destruct (aggregate_freq_stats s); [by apply length_sum_freqs|done].
  - unfold turn. rewrite (read_stats_done _ _ cur); [|done|by eapply same_shape_trans|].
    + cbn [mbind option_bind]. rewrite Ht, Hc. done.
    + destruct (aggregate_freq_stats s) eqn:Ea; [|by apply nil_length_inv].
      rewrite Hf. exact (Huc eq_refl).
Qed.

Lemma turns_done minimal n filess rs s prev :
  shows n s prev -> Forall2 holds filess rs ->
  Forall (uniform (aggregate_freq_stats s) n) (prev :: rs) -> Forall (fun r => same_shape (rd_cpus prev) (rd_cpus r)) rs ->
  turns minimal filess s = successive_rows minimal (aggregate_freq_stats s) prev rs.
Proof.
  intros Hs H. revert s prev Hs. induction H as [|files r filess rs Hh _ IH]; intros s prev Hs Hu Hsh; [done|].
  apply Forall_cons in Hsh as [Hr Hsh]. pose proof Hu as Hu'. apply Forall_cons in Hu' as [Hup Hu'].
  pose proof Hu' as Hu''. apply Forall_cons in Hu'' as [Hur _].
  destruct (turn_done minimal n files s prev r Hs Hup Hur Hr Hh) as (s' & Ea & Hs' & E).
  cbn [turns successive_rows]. rewrite E. destruct (reading_rows _ _ _ _) as [rows|]; [|done].
  cbn [mbind option_bind]. rewrite (IH s' r); [by rewrite Ea|done|by rewrite Ea|].
  eapply Forall_impl; [exact Hsh|]. intros x Hx. eapply same_shape_trans; [apply same_shape_sym, Hr|exact Hx].
Qed.

(** ** The rows *)

Lemma s64_shift x k : s64 (x + k * 2 ^ 64) = s64 x.
Proof. unfold s64. replace (x + k * 2 ^ 64 + 2 ^ 63) with (x + 2 ^ 63 + k * 2 ^ 64) by lia. by rewrite Z_mod_plus_full. Qed.
Lemma s64_exists x : exists k, s64 x = x + k * 2 ^ 64.
Proof. unfold s64. exists (- ((x + 2 ^ 63) / 2 ^ 64)). pose proof (Z.div_mod (x + 2 ^ 63) (2 ^ 64)). lia. Qed.
Lemma u64_exists x : exists k, u64 x = x + k * 2 ^ 64.
Proof. unfold u64. exists (- (x / 2 ^ 64)). pose proof (Z.div_mod x (2 ^ 64)). lia. Qed.

(** The total time of a row is the sum of its differences. *)
Lemma total_delta new old :
  delta (get_cpu_total_time new) (get_cpu_total_time old) = s64 (foldr Z.add 0 (time_deltas new old)).
Proof.
  unfold delta, get_cpu_total_time, time_deltas, delta.
  destruct (c_times new) as [a1 a2 a3 a4 a5 a6 a7], (c_times old) as [b1 b2 b3 b4 b5 b6 b7].
  cbn [fmap list_fmap foldr utime ntime stime itime iowtime irqtime sirqtime].
  destruct (u64_exists (a1 + a2 + a3 + a4 + a5 + a6 + a7)) as [i ->], (u64_exists (b1 + b2 + b3 + b4 + b5 + b6 + b7)) as [j ->].
  destruct (s64_exists (a1 - b1)) as [k1 ->], (s64_exists (a2 - b2)) as [k2 ->], (s64_exists (a3 - b3)) as [k3 ->],
    (s64_exists (a4 - b4)) as [k4 ->], (s64_exists (a5 - b5)) as [k5 ->], (s64_exists (a6 - b6)) as [k6 ->],
    (s64_exists (a7 - b7)) as [k7 ->].
  rewrite <-(s64_shift _ (k1 + k2 + k3 + k4 + k5 + k6 + k7 - i + j)). f_equal. lia.
Qed.

Lemma foldl_s64 (l : list (Z * Z)) a :
  foldl (fun a r => s64 (a + r.2)) (s64 a) l = s64 (a + foldr (fun r b => r.2 + b) 0 l).
Proof.
  revert a. induction l as [|r l IH]; intros a; cbn [foldl foldr]; [f_equal; lia|].
  assert (E : s64 (s64 a + r.2) = s64 (a + r.2)).
  { destruct (s64_exists a) as [k ->]. rewrite <-(s64_shift (a + r.2) k). f_equal. lia. }
  rewrite E, IH. f_equal. lia.
Qed.

(** A row that adds up. *)
Definition row_adds_up (row : cpu_row) : Prop :=
  (forall t, row_total row = Some t -> t = s64 (foldr Z.add 0 (row_deltas row))) /\
  (forall l t, row_freqs row = Some (l, Some t) -> t = s64 (foldr (fun r b => r.2 + b) 0 l)).

Lemma print_cpu_stats_adds_up minimal new old print_freq : row_adds_up (print_cpu_stats minimal new old print_freq).
Proof.
  assert (Hf : forall l t, print_freq_stats minimal new old = Some (l, Some t) -> t = s64 (foldr (fun r b => r.2 + b) 0 l)).
  { intros l t. unfold print_freq_stats. destruct (c_freqs new); [done|]. destruct minimal; [done|]. intros [= <- <-].
    exact (foldl_s64 (freq_deltas new old) 0). }
  unfold print_cpu_stats. destruct minimal; (split; cbn [row_total row_freqs row_deltas negb]).
  - done.
  - exact Hf.
  - intros t [= <-]. apply total_delta.
  - destruct print_freq; [exact Hf|done].
Qed.

(** No processor has more frequencies than the first. *)
Definition first_has_most (r : reading) : Prop :=
  match rd_cpus r with c0 :: cs => Forall (fun c => length (c_freqs c) <= length (c_freqs c0))%nat cs | [] => True end.

Lemma freq_differs_some new old new0 old0 :
  length old = length new -> length old0 = length new0 -> (length new <= length new0)%nat ->
  is_Some (freq_differs new old new0 old0).
Proof.
  revert old new0 old0. induction new as [|a new IH]; intros [|b old] [|a0 new0] [|b0 old0] H1 H2 H3; cbn in *; try done; try lia.
  destruct (_ =? _); [|done]. apply IH; lia.
Qed.

Lemma reading_rows_some minimal aggregate prev cur :
  same_shape (rd_cpus prev) (rd_cpus cur) -> first_has_most cur ->
  exists rows, reading_rows minimal aggregate prev cur = Some rows /\ length rows = S (length (rd_cpus cur)) /\
  Forall row_adds_up rows.
Proof.
  unfold reading_rows, print_stats, first_has_most. cbn [new_cpus old_cpus new_total_cpu old_total_cpu]. intros Hs Hm.
  assert (Hd : is_Some (should_print_freq_stats (rd_cpus cur) (rd_cpus prev))).
  { destruct Hs as [|d0 c0 ds cs H0 Hs]; [done|]. cbn. revert Hm. induction Hs as [|d c ds cs Hdc _ IH]; intros Hm; [done|].
    apply Forall_cons in Hm as [Hc Hm]. cbn.
    destruct (freq_differs_some (c_freqs c) (c_freqs d) (c_freqs c0) (c_freqs d0)) as [b E]; [done|done|done|].
    rewrite E. cbn. destruct b; [done|by apply IH]. }
  destruct Hd as [b E]. rewrite E. eexists. split; [reflexivity|]. split.
  - cbn [length]. f_equal. rewrite length_zip_with, (Forall2_length _ _ _ Hs). lia.
  - constructor; [apply print_cpu_stats_adds_up|]. clear E Hm. generalize (rd_cpus cur), (rd_cpus prev). intros cs.
    induction cs as [|c cs IH]; intros [|d ds]; cbn; try constructor; [apply print_cpu_stats_adds_up|apply IH].
Qed.

Lemma successive_rows_some minimal aggregate prev rs :
  Forall (fun r => same_shape (rd_cpus prev) (rd_cpus r) /\ first_has_most r) rs ->
  exists rows, successive_rows minimal aggregate prev rs = Some rows /\ length rows = length rs /\
  Forall (fun t => length t = S (length (rd_cpus prev)) /\ Forall row_adds_up t) rows.
Proof.
  intros H. revert prev H. induction rs as [|r rs IH]; intros prev H; [by exists []|].
  apply Forall_cons in H as [[Hs Hm] H]. destruct (reading_rows_some minimal aggregate prev r Hs Hm) as (t & E & Hl & Ht).
  destruct (IH r) as (rows & E' & Hl' & Hr).
  { eapply Forall_impl; [exact H|]. intros x [Hx Hx']. split; [|done].
    eapply same_shape_trans; [apply same_shape_sym, Hs|exact Hx]. }
  exists (t :: rows). cbn [successive_rows]. rewrite E. cbn [mbind option_bind]. rewrite E'. split; [done|].
  split; [cbn; lia|]. pose proof (Forall2_length _ _ _ Hs) as Hlen. rewrite <-Hlen in Hl. constructor; [done|].
  eapply Forall_impl; [exact Hr|]. intros x [Hx Hx']. by rewrite Hlen.
Qed.

(** ** The program *)

Definition shape (r : reading) : list nat := (fun c => length (c_freqs c)) <$> rd_cpus r.

Lemma same_shape_fmap cs ds :
  (fun c => length (c_freqs c)) <$> cs = (fun c => length (c_freqs c)) <$> ds -> same_shape cs ds.
Proof.
  revert ds. induction cs as [|c cs IH]; intros [|d ds] H; try done; [constructor|]. rewrite !fmap_cons in H.
  injection H as Hc H. constructor; [done|by apply IH].
Qed.

Lemma init_cpus_done files u f ixs ns :
  get_freq_scales_count files <$> ixs = Some <$> ns ->
  exists cpus, init_cpus files u f ixs = Some cpus /\ (fun c => length (c_freqs c)) <$> cpus = ns.
Proof.
  revert ns. induction ixs as [|i ixs IH]; intros [|n ns] H; try done; [by exists []|]. rewrite !fmap_cons in H.
  injection H as Hn H. destruct (IH _ H) as (cpus & E & Es). cbn [init_cpus]. rewrite Hn. cbn [mbind option_bind].
  rewrite E. eexists. split; [reflexivity|]. rewrite fmap_cons. cbn [c_freqs]. by rewrite length_replicate, Es.
Qed.

Lemma aggregate_uniform r0 c0 cs :
  rd_cpus r0 = c0 :: cs -> should_aggregate_freq_stats (rd_cpus r0) = true ->
  Forall (fun n => n = length (c_freqs c0)) (shape r0).
Proof.
  intros E. unfold shape. rewrite E. cbn [should_aggregate_freq_stats]. intros H. rewrite fmap_cons. constructor; [done|].
  apply Forall_fmap. rewrite Forall_forall. intros c Hc.
  rewrite forallb_forall in H. specialize (H c). unfold same_freqs in H. rewrite andb_true_iff in H.
  destruct H as [H _]; [by apply list_elem_of_In|]. cbn. by apply Nat.eqb_eq.
Qed.

(** The base of the first differences: the second reading if frequencies are added up. *)
Definition base (r0 r1 : reading) : reading := if should_aggregate_freq_stats (rd_cpus r0) then r1 else r0.

Lemma start_done n files first second u f r0 r1 :
  get_freq_scales_count files <$> seq 0 n = Some <$> shape r0 -> rd_cpus r0 <> [] -> shape r1 = shape r0 ->
  holds first r0 -> holds second r1 ->
  exists s, start n u f files first second = Some s /\
    aggregate_freq_stats s = should_aggregate_freq_stats (rd_cpus r0) /\ shows (hd 0%nat (shape r0)) s (base r0 r1).
Proof.
  intros Hc Hne H01 H0 H1. destruct (init_cpus_done files u f _ _ Hc) as (cpus & E & Es). unfold start, base. rewrite E.
  cbn [mbind option_bind]. rewrite (read_stats_done false first r0); [|done|by apply same_shape_fmap|done].
  cbn [mbind option_bind]. destruct (should_aggregate_freq_stats (rd_cpus r0)) eqn:Ha.
  - destruct (rd_cpus r0) as [|c0 cs] eqn:Er; [done|]. rewrite <-Er in *.
    pose proof (aggregate_uniform r0 c0 cs Er Ha) as Hu.
    assert (Hc0 : rd_cpus r0 !! 0%nat = Some c0) by by rewrite Er. rewrite Hc0. cbn [mbind option_bind].
    assert (Hh : hd 0%nat (shape r0) = length (c_freqs c0)) by (unfold shape; by rewrite Er).
    rewrite (read_stats_done true second r1); [|done|by apply same_shape_fmap|].
    + eexists. split; [reflexivity|]. split; [done|]. split; [done|done| |].
      * apply same_shape_fmap. cbn [old_cpus]. rewrite Es. by symmetry.
      * cbn [old_total_cpu c_freqs aggregate_freq_stats]. by rewrite length_replicate.
    + split; [intros Hn; unfold shape in H01; rewrite Hn, Er in H01; done|]. cbn [c_freqs]. rewrite length_replicate.
      rewrite <-H01 in Hu. unfold shape in Hu. by apply Forall_fmap in Hu.
  - eexists. split; [reflexivity|]. split; [done|]. split; [done|done| |done].
    by apply same_shape_fmap.
Qed.

Lemma first_has_most_shape r s : shape s = shape r -> first_has_most r -> first_has_most s.
Proof.
  unfold shape, first_has_most. destruct (rd_cpus r) as [|c0 cs], (rd_cpus s) as [|d0 ds]; try done.
  rewrite !fmap_cons. intros [= E0 E] H. rewrite E0. clear E0. revert ds E.
  induction H as [|c cs Hc _ IH]; intros [|d ds] E; try done. rewrite !fmap_cons in E. injection E as Ed E.
  constructor; [lia|by apply IH].
Qed.

Lemma uniform_shape r0 r : 
  rd_cpus r0 <> [] -> shape r = shape r0 -> uniform (should_aggregate_freq_stats (rd_cpus r0)) (hd 0%nat (shape r0)) r.
Proof.
  intros Hne E Ha. destruct (rd_cpus r0) as [|c0 cs] eqn:Er; [done|]. rewrite <-Er in Ha.
  pose proof (aggregate_uniform r0 c0 cs Er Ha) as Hu. split.
  - intros Hn. unfold shape in E. by rewrite Hn, Er in E.
  - rewrite <-E in Hu. unfold shape in *. rewrite Er. cbn. by apply Forall_fmap in Hu.
Qed.


(** Two processors with two frequencies each, at three readings. *)
Definition nl : list Z := [10].
Definition stat_text (a b : string) : list Z :=
  str ("cpu  " ++ a ++ " 0 0 0")%string ++ nl ++ str ("cpu0 " ++ a ++ " 0 0 0")%string ++ nl ++
  str ("cpu1 " ++ b ++ " 0 0 0")%string ++ nl ++ str "intr 7"%string ++ nl.
Definition files_of (stat : list Z) (a b : string) : sys_files :=
  mk_sys_files (Some stat) (fun i => Some (str ("300 " ++ (if Nat.eqb i 0 then a else b))%string ++ nl ++ str "600 9"%string ++ nl)).
Definition reading_of (k a b : Z) : reading :=
  mk_reading (mk_cpu_times k 2 3 4 5 6 7)
    [mk_cpu_info (mk_cpu_times k 2 3 4 5 6 7) [mk_freq_info 300 a; mk_freq_info 600 9];
     mk_cpu_info (mk_cpu_times 1 1 1 1 1 1 8) [mk_freq_info 300 b; mk_freq_info 600 9]].
Definition files0 : sys_files := files_of (stat_text "10 2 3 4 5 6 7" "1 1 1 1 1 1 8") "5" "6".
Definition files1 : sys_files := files_of (stat_text "30 2 3 4 5 6 7" "1 1 1 1 1 1 8") "8" "7".


(** A second processor with more frequencies than the first is compared with memory
    after the end of the first one's. *)
Example more_freqs_overflows :
  should_print_freq_stats
    [mk_cpu_info no_times [mk_freq_info 300 5]; mk_cpu_info no_times [mk_freq_info 300 5; mk_freq_info 600 7]]
    [mk_cpu_info no_times [mk_freq_info 300 5]; mk_cpu_info no_times [mk_freq_info 300 5; mk_freq_info 600 7]] = None.
Proof. reflexivity. Qed.
