(* ===== verification/Procmem.v ===== *)
(** * The mappings of a process by memory usage (procmem/procmem.c)

    The program over the functions of libpagemap. [exit] with an error is a jump out; a
    structure that was not stored in the array of the mappings is [NULL]. *)

From stdpp Require Import sorting.
From Stdlib Require Import String.
From S2P Require Import Prelude Bytes Scanf Pagemap PagemapProps PagemapLib Procrank.

Definition PM_PAGE_DIRTY : Z := Z.shiftl 1 4.

Record page_counts := mk_page_counts { shared_clean : Z; shared_dirty : Z; private_clean : Z; private_dirty : Z }.
Record map_info := mk_map_info { mi_map : pm_map; mi_usage : pm_memusage; mi_counts : page_counts }.

Definition page_counts_zero : page_counts := mk_page_counts 0 0 0 0.
Definition page_counts_add (a b : page_counts) : page_counts :=
  mk_page_counts (u64 (shared_clean a + shared_clean b)) (u64 (shared_dirty a + shared_dirty b))
    (u64 (private_clean a + private_clean b)) (u64 (private_dirty a + private_dirty b)).

(** Where a page with this count and these flags is counted. *)
Definition count_page (count flags : Z) (c : page_counts) : page_counts :=
  page_counts_add c
    (if 1 <? count then
       if negb (Z.land flags PM_PAGE_DIRTY =? 0) then mk_page_counts 0 1 0 0 else mk_page_counts 1 0 0 0
     else if negb (Z.land flags PM_PAGE_DIRTY =? 0) then mk_page_counts 0 0 0 1 else mk_page_counts 0 0 1 0).

Record mem_options := mk_mem_options { mo_ws : ws_mode; mo_by_pss : bool; mo_hide_zeros : bool }.

(** The options before the process; anything else is refused. *)
Fixpoint parse_options (args : list (list Z)) (o : mem_options) : option mem_options :=
  match args with
  | [] => Some o
  | a :: args =>
      if bool_decide (a = str "-w"%string) then parse_options args (mk_mem_options WS_ONLY (mo_by_pss o) (mo_hide_zeros o))
      else if bool_decide (a = str "-W"%string) then parse_options args (mk_mem_options WS_RESET (mo_by_pss o) (mo_hide_zeros o))
      else if bool_decide (a = str "-m"%string) then parse_options args (mk_mem_options (mo_ws o) false (mo_hide_zeros o))
      else if bool_decide (a = str "-p"%string) then parse_options args (mk_mem_options (mo_ws o) true (mo_hide_zeros o))
      else if bool_decide (a = str "-h"%string) then parse_options args (mk_mem_options (mo_ws o) (mo_by_pss o) true)
      else None
  end.
(** The process: [strtol] and nothing after the number. *)
Definition parse_pid (s : list Z) : option Z :=
  match scan_dec s with
  | Some (n, []) => Some n
  | Some _ => None
  | None => if bool_decide (s = []) then Some 0 else None
  end.

Definition comp_pss (a b : map_info) : Z := numcmp (pss (mi_usage b)) (pss (mi_usage a)).

Section procmem.
Context (pagesize : Z) (kpagecount kpageflags : Z -> Z -> read_result) (pagemap : Z -> Z -> Z -> read_result).
Context (uninit_count uninit_flags : Z).

(** The loop over the pages. Errors are reported, and the old values used. *)
Fixpoint pages_loop (ws_only : bool) (entries : list Z) (count flags : Z) (c : page_counts) :
    M pm_state (Z * Z * page_counts) :=
  match entries with
  | [] => mret' (count, flags, c)
  | x :: entries =>
      if PM_PAGEMAP_PRESENT x && negb (PM_PAGEMAP_SWAPPED x) then
        do (_, count) <- pm_kernel_count kpagecount (PM_PAGEMAP_PFN x) count;
        do (_, flags) <- pm_kernel_flags kpageflags (PM_PAGEMAP_PFN x) flags;
        pages_loop ws_only entries count flags
          (if negb ws_only || negb (Z.land flags PM_PAGE_REFERENCED =? 0) then count_page count flags c else c)
      else pages_loop ws_only entries count flags c
  end.

(** The loop over the mappings: [mis] and the totals. A mapping that cannot be read
    leaves [NULL]. *)
Fixpoint mem_maps_loop (ws_only : bool) (pid : Z) (maps : list pm_map) (count flags : Z) (usage : pm_memusage) (c : page_counts) :
    M pm_state (list (option map_info) * pm_memusage * page_counts) :=
  match maps with
  | [] => mret' ([], usage, c)
  | m :: maps =>
      do ok <- alloc;
      if negb ok then exit_failure
      else
        do (error, u) <-
          (if ws_only then pm_map_workingset pagesize kpagecount kpageflags pagemap uninit_count uninit_flags pid m pm_memusage_zero
           else pm_map_usage pagesize kpagecount pagemap uninit_count pid m pm_memusage_zero);
        if negb (error =? 0) then
          do (mis, total, t) <- mem_maps_loop ws_only pid maps count flags usage c; mret' (None :: mis, total, t)
        else
          let usage := pm_memusage_add usage u in
          do (error, entries) <- pm_map_pagemap pagesize pagemap pid m;
          if negb (error =? 0) then
            do (mis, total, t) <- mem_maps_loop ws_only pid maps count flags usage c; mret' (None :: mis, total, t)
          else
            do (count, flags, mc) <- pages_loop ws_only entries count flags page_counts_zero;
            do (mis, total, t) <- mem_maps_loop ws_only pid maps count flags usage (page_counts_add c mc);
            mret' (Some (mk_map_info m u mc) :: mis, total, t)
  end.

(** A printed row, in K; the sizes are cast to [long] and the counts multiplied as
    [unsigned long]. *)
Record mem_row := mk_mem_row { r_vss : option Z; r_rss : Z; r_pss : Z; r_uss : Z; r_counts : page_counts; r_name : list Z }.
Definition kib (size : Z) : Z := Z.quot (s64 size) 1024.
Definition pages_kib (n : Z) : Z := u64 (n * pagesize) / 1024.
Definition mem_row_of (ws_only : bool) (u : pm_memusage) (c : page_counts) (name : list Z) : mem_row :=
  mk_mem_row (if ws_only then None else Some (kib (vss u))) (kib (rss u)) (kib (pss u)) (kib (uss u))
    (mk_page_counts (pages_kib (shared_clean c)) (pages_kib (shared_dirty c)) (pages_kib (private_clean c)) (pages_kib (private_dirty c)))
    name.

(** The rows in the order of printing; every element of the array is dereferenced. *)
Definition print_maps (o : mem_options) (ws_only : bool) (mis : list (option map_info)) : M pm_state (list mem_row) :=
  do mis <- deref (mapM (fun mi => mi) mis);
  let mis := if mo_by_pss o then qsort comp_pss mis else mis in
  let mis := if mo_hide_zeros o then filter (fun mi => rss (mi_usage mi) <> 0) mis else mis in
  mret' ((fun mi => mem_row_of ws_only (mi_usage mi) (mi_counts mi) (m_name (mi_map mi))) <$> mis).

(** [main]: [None] after a reset, else the rows and the totals. *)
Definition procmem (open_pagemap : Z -> Z) (file : Z -> Z + list Z) (uninit_perms uninit_name : list Z)
    (clear : Z -> Z + Z) (uninit_usage : pm_memusage) (args : list (list Z)) (process : list Z) : M pm_state (option (list mem_row * mem_row)) :=
  match parse_options args (mk_mem_options WS_OFF false false), parse_pid process with
  | Some o, Some n =>
      do (error, proc) <- pm_process_create (open_pagemap n) (file n) uninit_perms uninit_name n;
      if negb (error =? 0) then exit_failure
      else
        do p <- deref proc;
        match mo_ws o with
        | WS_RESET =>
            do (error, _) <- pm_process_workingset pagesize kpagecount kpageflags pagemap uninit_count uninit_flags
                               uninit_usage clear p None true;
            if negb (error =? 0) then exit_failure else mret' None
        | _ =>
            let ws_only := match mo_ws o with WS_ONLY => true | _ => false end in
            do (error, maps) <- pm_process_maps p;
            if negb (error =? 0) then exit_failure
            else
              do ok <- alloc;
              if negb ok then exit_failure
              else
                do (mis, usage, c) <- mem_maps_loop ws_only (pid p) maps uninit_count uninit_flags pm_memusage_zero page_counts_zero;
                do rows <- print_maps o ws_only mis;
                mret' (Some (rows, mem_row_of ws_only usage c (str "TOTAL"%string)))
        end
  | _, _ => exit_failure
  end.
End procmem.
