(* ===== verification/ProcmemProps.v ===== *)
(** * What procmem counts (properties of Procmem)

    Each page in memory is counted once, as shared or private and as clean or dirty. *)

From stdpp Require Import sorting.
From Stdlib Require Import String.
From S2P Require Import Prelude Bytes Scanf Pagemap PagemapProps PagemapLib Procrank Procmem.

(** The number of frames with a property. *)
Definition tally (p : Z -> bool) (l : list Z) : Z := sum_over (fun f => if p f then 1 else 0) l.

Lemma tally_cons p f l : tally p (f :: l) = (if p f then 1 else 0) + tally p l.
Proof. reflexivity. Qed.
Lemma tally_app p l1 l2 : tally p (l1 ++ l2) = tally p l1 + tally p l2.
Proof. induction l1 as [|f l1 IH]; [done|]. cbn [app]. rewrite !tally_cons. lia. Qed.
Lemma tally_range p l : 0 <= tally p l <= Z.of_nat (length l).
Proof. induction l as [|f l IH]; [done|]. rewrite tally_cons. cbn [length]. destruct (p f); lia. Qed.

Section spec.
Context (pagesize : Z) (counts flags : Z -> Z).

Definition is_shared (f : Z) : bool := 1 <? counts f.
Definition is_dirty (f : Z) : bool := negb (Z.land (flags f) PM_PAGE_DIRTY =? 0).

Definition page_counts_of (l : list Z) : page_counts :=
  mk_page_counts (tally (fun f => is_shared f && negb (is_dirty f)) l) (tally (fun f => is_shared f && is_dirty f) l)
    (tally (fun f => negb (is_shared f) && negb (is_dirty f)) l) (tally (fun f => negb (is_shared f) && is_dirty f) l).
Definition map_info_of (m : pm_map) (es : list Z) : map_info :=
  mk_map_info m (usage_of pagesize counts (frames es)) (page_counts_of (frames es)).

Lemma count_page_of l f :
  Z.of_nat (length l) < 2 ^ 63 -> count_page (counts f) (flags f) (page_counts_of l) = page_counts_of (l ++ [f]).
Proof.
  intros Hl. unfold count_page, page_counts_of, page_counts_add. fold (is_shared f). fold (is_dirty f).
  rewrite !tally_app.
  assert (E : forall p, tally p [f] = if p f then 1 else 0) by (intros p; rewrite tally_cons; cbn; lia). rewrite !E.
  pose proof (tally_range (fun f => is_shared f && negb (is_dirty f)) l).
  pose proof (tally_range (fun f => is_shared f && is_dirty f) l).
  pose proof (tally_range (fun f => negb (is_shared f) && negb (is_dirty f)) l).
  pose proof (tally_range (fun f => negb (is_shared f) && is_dirty f) l).
  destruct (is_shared f), (is_dirty f); cbn [shared_clean shared_dirty private_clean private_dirty andb negb];
    f_equal; apply u64_small; lia.
Qed.

Lemma page_counts_of_app l1 l2 :
  Z.of_nat (length l1) + Z.of_nat (length l2) < 2 ^ 63 ->
  page_counts_add (page_counts_of l1) (page_counts_of l2) = page_counts_of (l1 ++ l2).
Proof.
  intros Hl. unfold page_counts_add, page_counts_of. cbn [shared_clean shared_dirty private_clean private_dirty].
  rewrite !tally_app.
  f_equal; apply u64_small; match goal with |- context [tally ?p l1 + _] => pose proof (tally_range p l1); pose proof (tally_range p l2) end; lia.
Qed.

(** Every frame is counted once. *)
Lemma page_counts_cover l :
  let c := page_counts_of l in
  let u := usage_of pagesize counts l in
  Forall (fun f => 0 <= counts f) l ->
  pagesize * (shared_clean c + shared_dirty c + private_clean c + private_dirty c) = vss u /\
  pagesize * (shared_clean c + shared_dirty c) = rss u - uss u /\
  shared_dirty c + private_dirty c = tally is_dirty l.
Proof.
  cbn zeta. induction 1 as [|f l Hf _ IH]; [cbn; lia|].
  unfold page_counts_of in *. cbn [shared_clean shared_dirty private_clean private_dirty usage_of plus vss rss uss usage_of_frame] in *.
  rewrite !tally_cons. unfold is_shared, is_dirty in *.
  destruct (Z.ltb_spec 1 (counts f)), (Z.leb_spec 1 (counts f)), (Z.eqb_spec (counts f) 1), (negb (Z.land (flags f) PM_PAGE_DIRTY =? 0));
    cbn [andb negb] in *; lia.
Qed.
End spec.

(** ** The loops *)

Section loops.
Context (pagesize : Z) (kpagecount kpageflags : Z -> Z -> read_result) (pagemap : Z -> Z -> Z -> read_result).
Context (uninit_count uninit_flags : Z) (counts flags : Z -> Z).
Context (Hpage : 0 < pagesize < 2 ^ 31).
Context (Hcounts : counts_readable kpagecount counts) (Hflags : counts_readable kpageflags flags).

Lemma pages_loop_done es c f l s :
  Z.of_nat (length l) + Z.of_nat (length (frames es)) < 2 ^ 63 ->
  exists c' f', pages_loop kpagecount kpageflags false es c f (page_counts_of counts flags l) s =
    Done (c', f', page_counts_of counts flags (l ++ frames es)) s.
Proof.
  revert c f l. induction es as [|x es IH]; intros c f l Hl; [exists c, f; by rewrite app_nil_r|].
  cbn [pages_loop frames] in *. unfold in_memory in *. destruct (PM_PAGEMAP_PRESENT x && negb (PM_PAGEMAP_SWAPPED x)); [|by apply IH].
  rewrite (mbind_done _ _ _ _ _ (pm_kernel_count_done _ _ _ _ _ Hcounts (pfn_range x))).
  rewrite (mbind_done _ _ _ _ _ (pm_kernel_count_done _ _ _ _ _ Hflags (pfn_range x))). cbv beta iota.
  change (negb false || _) with true. cbv iota. cbn [length] in Hl. rewrite count_page_of by lia.
  destruct (IH (counts (PM_PAGEMAP_PFN x)) (flags (PM_PAGEMAP_PFN x)) (l ++ [PM_PAGEMAP_PFN x])) as (c' & f' & E).
  { rewrite length_app. cbn [length]. lia. }
  exists c', f'. rewrite E. by rewrite <-app_assoc.
Qed.

Lemma frames_length es : (length (frames es) <= length es)%nat.
Proof. induction es as [|x es IH]; [done|]. cbn [frames]. destruct (in_memory x); cbn [length]; lia. Qed.

Lemma mem_maps_loop_done pid ms ess c f l s :
  Forall2 (map_readable pagesize pagemap pid) ms ess -> roomy s ->
  pagesize * Z.of_nat (length (l ++ all_frames ess)) < 2 ^ 63 ->
  mem_maps_loop pagesize kpagecount kpageflags pagemap uninit_count uninit_flags false pid ms c f
      (usage_of pagesize counts l) (page_counts_of counts flags l) s =
    Done (Some <$> zip_with (map_info_of pagesize counts flags) ms ess,
          usage_of pagesize counts (l ++ all_frames ess), page_counts_of counts flags (l ++ all_frames ess)) s.
Proof.
  intros Hm Hs. revert c f l. induction Hm as [|m es ms ess Hme _ IH]; intros c f l Hl; [cbn; by rewrite app_nil_r|].
  rewrite all_frames_cons, !length_app in Hl.
  cbn [mem_maps_loop]. rewrite (mbind_done _ _ _ _ _ (alloc_roomy _ Hs)). cbn [negb].
  rewrite (mbind_done _ _ _ _ _ (pm_map_usage_done _ _ _ _ Hpage _ _ _ _ _ _ Hcounts Hme Hs)). cbv beta iota zeta.
  change (negb (0 =? 0)) with false. cbv iota.
  rewrite (mbind_done _ _ _ _ _ (pm_map_pagemap_done _ _ Hpage _ _ _ _ Hme Hs)). cbv beta iota.
  change (negb (0 =? 0)) with false. cbv iota.
  destruct (pages_loop_done es c f [] s) as (c' & f' & E); [cbn [length]; nia|].
  rewrite (mbind_done _ _ _ _ _ E). cbv beta iota. cbn [app].
  rewrite page_counts_of_app by nia.
  assert (Eu : pm_memusage_add (usage_of pagesize counts l) (usage_of pagesize counts (frames es)) =
               usage_of pagesize counts (l ++ frames es)).
  { rewrite usage_of_app. pose proof (ordered_usage pagesize counts l (proj1 Hpage)) as [Ho1 Ho2].
    pose proof (ordered_usage pagesize counts (frames es) (proj1 Hpage)) as [Hf1 Hf2]. rewrite vss_usage in *.
    unfold pm_memusage_add, plus. f_equal; apply u64_small; rewrite ?vss_usage; nia. }
  rewrite Eu. rewrite (mbind_done _ _ _ _ _ (IH c' f' (l ++ frames es) ltac:(rewrite !length_app; nia))).
  cbv beta iota. rewrite all_frames_cons, app_assoc. reflexivity.
Qed.
End loops.

(** ** The rows *)

Lemma mapM_Some_id {A} (l : list A) : mapM (fun x => x) (Some <$> l) = Some l.
Proof. apply mapM_Some, Forall2_fmap_l, Forall_Forall2_diag, Forall_forall. done. Qed.

Lemma comp_pss_le a b : cmp_le comp_pss a b <-> pss (mi_usage b) <= pss (mi_usage a).
Proof.
  unfold cmp_le, comp_pss, numcmp.
  destruct (Z.ltb_spec (pss (mi_usage b)) (pss (mi_usage a))), (Z.ltb_spec (pss (mi_usage a)) (pss (mi_usage b))); lia.
Qed.
Lemma comp_pss_sorted l : StronglySorted (fun a b => pss (mi_usage b) <= pss (mi_usage a)) (qsort comp_pss l).
Proof.
  assert (Ht : Total (cmp_le comp_pss)) by (intros a b; rewrite !comp_pss_le; lia).
  assert (Htr : Transitive (cmp_le comp_pss)) by (intros a b c; rewrite !comp_pss_le; lia).
  pose proof (StronglySorted_merge_sort (cmp_le comp_pss) l) as Hs. unfold qsort.
  induction Hs as [|a l' Hs IH Ha]; constructor; [done|]. eapply Forall_impl; [exact Ha|]. intros b. apply comp_pss_le.
Qed.

(** How the array is arranged before it is printed. *)
Definition arranged (o : mem_options) (infos l : list map_info) : Prop :=
  l ≡ₚ infos /\ (if mo_by_pss o then StronglySorted (fun a b => pss (mi_usage b) <= pss (mi_usage a)) l else l = infos).
Definition shown (o : mem_options) (l : list map_info) : list map_info :=
  if mo_hide_zeros o then filter (fun mi => rss (mi_usage mi) <> 0) l else l.

Lemma print_maps_done pagesize o infos s :
  exists l, arranged o infos l /\
    print_maps pagesize o false (Some <$> infos) s =
      Done ((fun mi => mem_row_of pagesize false (mi_usage mi) (mi_counts mi) (m_name (mi_map mi))) <$> shown o l) s.
Proof.
  exists (if mo_by_pss o then qsort comp_pss infos else infos). split.
  - unfold arranged. destruct (mo_by_pss o); [|by split]. split; [apply merge_sort_Permutation|apply comp_pss_sorted].
  - unfold print_maps. rewrite mapM_Some_id. done.
Qed.

(** C32: procmem counts every page of a process that is in memory exactly once. On a
    process whose files can be read it prints a row for each mapping (with -h only
    those with [rss]), in the order of the mappings or by descending [pss], and the
    totals over all mappings, also of those not shown. In every row and in the totals
    the four counts of pages make up [vss], the shared ones [rss - uss], and the dirty
    ones are the frames with the dirty flag. *)
Theorem procmem_correct (pagesize : Z) (kpagecount kpageflags : Z -> Z -> read_result) (pagemap : Z -> Z -> Z -> read_result)
    (uninit_count uninit_flags : Z) (counts flags : Z -> Z) (open_pagemap : Z -> Z) (file : Z -> Z + list Z)
    (uninit_perms uninit_name : list Z) (clear : Z -> Z + Z) (uninit_usage : pm_memusage) (args : list (list Z))
    (process : list Z) (o : mem_options) (n : Z) (p : pm_process) (entries : list (list Z)) (s : pm_state)
  (Hpage : 0 < pagesize < 2 ^ 31) (Hcounts : counts_readable kpagecount counts) (Hflags : counts_readable kpageflags flags)
  (Hargs : parse_options args (mk_mem_options WS_OFF false false) = Some o) (Hws : mo_ws o = WS_OFF)
  (Hpid : parse_pid process = Some n)
  (Hcreate : pm_process_create (open_pagemap n) (file n) uninit_perms uninit_name n s = Done (0, Some p) s)
  (Hmaps : Forall2 (map_readable pagesize pagemap (pid p)) (maps p) entries) (Hroom : roomy s)
  (Hsmall : pagesize * Z.of_nat (length (all_frames entries)) < 2 ^ 63) :
  let infos := zip_with (map_info_of pagesize counts flags) (maps p) entries in
  exists l,
    procmem pagesize kpagecount kpageflags pagemap uninit_count uninit_flags open_pagemap file uninit_perms uninit_name
        clear uninit_usage args process s =
      Done (Some ((fun mi => mem_row_of pagesize false (mi_usage mi) (mi_counts mi) (m_name (mi_map mi))) <$> shown o l,
                  mem_row_of pagesize false (usage_of pagesize counts (all_frames entries))
                    (page_counts_of counts flags (all_frames entries)) (str "TOTAL"%string))) s /\
    arranged o infos l /\
    forall fs, fs = all_frames entries \/ (exists es, es ∈ entries /\ fs = frames es) ->
      let c := page_counts_of counts flags fs in
      let u := usage_of pagesize counts fs in
      pagesize * (shared_clean c + shared_dirty c + private_clean c + private_dirty c) = vss u /\
      pagesize * (shared_clean c + shared_dirty c) = rss u - uss u /\
      shared_dirty c + private_dirty c = tally (is_dirty flags) fs.
Proof.
  cbn zeta. set (infos := zip_with _ _ _). destruct (print_maps_done pagesize o infos s) as (l & Ha & El). exists l.
  split_and!; [|done|].
  - unfold procmem. rewrite Hargs, Hpid, (mbind_done _ _ _ _ _ Hcreate). cbv beta iota.
    change (negb (0 =? 0)) with false. cbv iota. cbn [deref]. rewrite (mbind_done _ _ s p s) by done. rewrite Hws. cbv beta iota zeta.
    assert (Em : pm_process_maps p s = Done (0, maps p) s).
    { unfold pm_process_maps. destruct (maps p); [done|]. by rewrite (mbind_done _ _ _ _ _ (alloc_roomy _ Hroom)). }
    rewrite (mbind_done _ _ _ _ _ Em). cbv beta iota. change (negb (0 =? 0)) with false. cbv iota.
    rewrite (mbind_done _ _ _ _ _ (alloc_roomy _ Hroom)). cbn [negb].
    rewrite (mbind_done _ _ _ _ _ (mem_maps_loop_done pagesize kpagecount kpageflags pagemap uninit_count uninit_flags
      counts flags Hpage Hcounts Hflags (pid p) (maps p) entries uninit_count uninit_flags [] s Hmaps Hroom Hsmall)).
    cbv beta iota. by rewrite (mbind_done _ _ _ _ _ El).
  - intros fs Hfs. apply page_counts_cover.
    assert (Hr : forall es, Forall (fun f => 0 <= counts f) (frames es)).
    { induction es as [|x es IH]; [constructor|]. cbn [frames]. destruct (in_memory x); [|done]. constructor; [|done].
      apply (Hcounts _ (pfn_range x)). }
    destruct Hfs as [->|(es & _ & ->)]; [|apply Hr]. clear -Hr. induction entries as [|es entries IH]; [constructor|].
    rewrite all_frames_cons. apply Forall_app. by split.
Qed.

(** A process with one mapping of two pages, one of them shared and dirty. *)
Definition two_flags (f : Z) : Z := if f =? 5 then 16 else 0.
Definition two_kpageflags (off n : Z) : read_result := Read_bytes (le_bytes 8 (two_flags (off / 8))).
Definition maps_text : list Z := str "1000-3000 r"%string ++ [10].
Definition a_map : pm_map := mk_pm_map 4096 12288 0 1 [].
Definition run_procmem (pagemap : Z -> Z -> Z -> read_result) (args : list (list Z)) : outcome pm_state (option (list mem_row * mem_row)) :=
  procmem 4096 two_kpagecount two_kpageflags pagemap 0 0 (fun _ => 0) (fun _ => inr maps_text) [] [] (fun _ => inl 2)
    pm_memusage_zero args (str "1"%string) pm_start.

Lemma procmem_correct_witness :
  exists l, run_procmem two_pagemap [str "-p"%string] =
    Done (Some ((fun mi => mem_row_of 4096 false (mi_usage mi) (mi_counts mi) (m_name (mi_map mi))) <$> l,
                mk_mem_row (Some 8) 8 6 4 (mk_page_counts 0 4 4 0) (str "TOTAL"%string))) pm_start /\
    arranged (mk_mem_options WS_OFF true false) [mk_map_info a_map (mk_pm_memusage 8192 8192 6144 4096) (mk_page_counts 0 1 1 0)] l.
Proof.
  destruct (procmem_correct 4096 two_kpagecount two_kpageflags two_pagemap 0 0 two_counts two_flags (fun _ => 0)
    (fun _ => inr maps_text) [] [] (fun _ => inl 2) pm_memusage_zero [str "-p"%string] (str "1"%string)
    (mk_mem_options WS_OFF true false) 1 process1 [two_entries 1] pm_start) as (l & E & Ha & _).
  - lia.
  - exact two_counts_readable.
  - intros f Hf. split; [unfold two_flags; destruct (f =? 5); lia|]. unfold two_kpageflags. by rewrite Z.div_mul.
  - by vm_compute.
  - reflexivity.
  - by vm_compute.
  - by vm_compute.
  - exact process1_readable.
  - reflexivity.
  - by vm_compute.
  - exists l. split; [exact E|exact Ha].
Defined.

(** A mapping whose pages cannot be read leaves [NULL] in the array, which is
    dereferenced when the rows are printed. *)
Example unreadable_map_crashes : run_procmem (fun _ _ _ => Read_error 5) [] = Stuck.
Proof. by vm_compute. Qed.

(** When the counts cannot be read the usage of the mapping is refused; when only the
    flags cannot, the message is printed and the page counted by the flags of the page
    before. *)
Example old_flags_are_used :
  fst <$> result (pages_loop two_kpagecount (fun _ _ => Read_error 5) false [2 ^ 63 + 5] 0 16 page_counts_zero) pm_start =
    Some (2, 16) /\
  snd <$> result (pages_loop two_kpagecount (fun _ _ => Read_error 5) false [2 ^ 63 + 5] 0 16 page_counts_zero) pm_start =
    Some (mk_page_counts 0 1 0 0).
Proof. split; by vm_compute. Qed.
