(* ===== verification/Execution.v ===== *)
(** * Calls into native code and back (wrapper/ExecutionManager.cpp, BnWrapper.cpp)

    A native method runs in a thread of its own in the wrapper process. The thread of
    the binder that handles a message of the application starts it and waits; the
    native thread hands control back to ask for a call of the JNI, and the next message
    brings the answer. The threads share an [ExecutionManager]: a status, the data of
    the call, and two semaphores. Each access to it is a step; the steps of the threads
    interleave. A payload stands for what the messages carry. *)

From S2P Require Import Prelude.

Inductive status := INIT | WAIT4EXEC | WAIT4JNI | FINISHED | ERROR.
#[export] Instance status_eq_dec : EqDecision status.
Proof. solve_decision. Defined.

(** Where a native thread is: in the native method; in [reqJniCall] before it sets the
    status, before [sem_post], in [sem_wait], after it, and before it reads the answer;
    in [signalResult] before it sets the status and before [sem_post]; at its end. *)
Inductive native_pc :=
| N_running | N_req_status | N_req_post | N_req_wait | N_req_woken | N_req_answer
| N_fin_status | N_fin_post | N_stopped.

(** Where the thread of the binder is: between messages; in [startExec] before
    [pthread_create], in [sem_wait], and before the return; in the handler of CALLBACK
    before it stores the answer; in [setJniResult] before the test, before [sem_post],
    in [sem_wait], and before the return. *)
Inductive binder_pc :=
| B_idle | B_start_create | B_start_wait | B_start_return
| B_set_store (data : Z) | B_set_check | B_set_post | B_set_wait | B_set_return.

Record manager := mk_manager {
  mStatus : status;
  mReplyReady : nat;
  mJniReady : nat;
  call_id : Z;
  jni_function : Z;          (* jniCall.function *)
  jni_data : Z;              (* jniCall.param_data *)
  frame : bool;              (* the handler of TAINT_CALL has not returned *)
  result_ : option Z;        (* what pResult points to *)
  native : list native_pc;
  binder : binder_pc
}.
Definition manager_init : manager := mk_manager INIT 0 0 0 0 0 false None [] B_idle.

(** What the application and the native methods see. *)
Inductive event :=
| Ev_call                            (* TAINT_CALL *)
| Ev_callback (f d : Z)              (* CALLBACK for the function that waits *)
| Ev_mismatch (f : Z)                (* CALLBACK for another one, refused *)
| Ev_reply_jni (f d : Z)             (* the reply asks for a call of the JNI *)
| Ev_reply_result (r : option Z)     (* the reply has the result; [None]: of a dead frame *)
| Ev_reply_error                     (* the reply has another status *)
| Ev_request (f d : Z)               (* the native method calls the JNI *)
| Ev_answer (d : Z)                  (* and gets the answer *)
| Ev_finish (r : Z).                 (* the native method returns *)

Inductive action :=
| A_call
| A_callback (f d : Z)
| A_binder                           (* the next step of the thread of the binder *)
| A_create_fails
| A_request (i : nat) (f d : Z)
| A_finish (i : nat) (r : Z)
| A_native (i : nat).                (* the next step of a native thread *)

Section setters.
Context (s : manager).
Definition set_status (v : status) (b : binder_pc) : manager :=
  mk_manager v (mReplyReady s) (mJniReady s) (call_id s) (jni_function s) (jni_data s) (frame s) (result_ s) (native s) b.
Definition set_sems (reply jni : nat) (b : binder_pc) : manager :=
  mk_manager (mStatus s) reply jni (call_id s) (jni_function s) (jni_data s) (frame s) (result_ s) (native s) b.
Definition set_native (i : nat) (n : native_pc) : manager :=
  mk_manager (mStatus s) (mReplyReady s) (mJniReady s) (call_id s) (jni_function s) (jni_data s) (frame s) (result_ s)
    (<[i := n]> (native s)) (binder s).
Definition set_call (f d : Z) : manager :=
  mk_manager (mStatus s) (mReplyReady s) (mJniReady s) (call_id s) f d (frame s) (result_ s) (native s) (binder s).
End setters.

(** What the handlers write into the reply for a status: those of TAINT_CALL and of
    CALLBACK agree. *)
Definition reply_of (s : manager) : event :=
  match mStatus s with
  | WAIT4JNI => Ev_reply_jni (jni_function s) (jni_data s)
  | FINISHED => Ev_reply_result (result_ s)
  | _ => Ev_reply_error
  end.
(** The handler of TAINT_CALL has its [result] on the stack. *)
Definition start_return (s : manager) : manager :=
  mk_manager (mStatus s) (mReplyReady s) (mJniReady s) (call_id s) (jni_function s) (jni_data s) false None (native s) B_idle.

Definition sem_wait (n : nat) : option nat := match n with O => None | S n => Some n end.

(** The next step of the thread of the binder, if it can take one. *)
Definition binder_step (create : bool) (s : manager) : option (manager * option event) :=
  match binder s with
  | B_idle => None
  | B_start_create =>
      Some (mk_manager (mStatus s) (mReplyReady s) (mJniReady s) (call_id s) (jni_function s) (jni_data s) (frame s)
              (result_ s) (if create then native s ++ [N_running] else native s) B_start_wait, None)
  | B_start_wait => r ← sem_wait (mReplyReady s); Some (set_sems s r (mJniReady s) B_start_return, None)
  | B_start_return => Some (start_return s, Some (reply_of s))
  | B_set_store d =>
      Some (set_status (set_call s (jni_function s) d) (mStatus s) B_set_check, None)
  | B_set_check =>
      if decide (mStatus s = WAIT4JNI) then Some (set_status s (mStatus s) B_set_post, None)
      else Some (set_status s (mStatus s) B_idle, Some Ev_reply_error)
  | B_set_post => Some (set_sems s (mReplyReady s) (S (mJniReady s)) B_set_wait, None)
  | B_set_wait => r ← sem_wait (mReplyReady s); Some (set_sems s r (mJniReady s) B_set_return, None)
  | B_set_return => Some (set_status s (mStatus s) B_idle, Some (reply_of s))
  end.

(** A message of the application, which waits for the reply to the one before. *)
Definition on_call (s : manager) : option (manager * option event) :=
  match binder s with
  | B_idle =>
      Some (mk_manager WAIT4EXEC (mReplyReady s) (mJniReady s) (call_id s + 1) (jni_function s) (jni_data s) true None
              (native s) B_start_create, Some Ev_call)
  | _ => None
  end.
Definition on_callback (f d : Z) (s : manager) : option (manager * option event) :=
  match binder s with
  | B_idle =>
      if f =? jni_function s then Some (set_status s (mStatus s) (B_set_store d), Some (Ev_callback f d))
      else Some (s, Some (Ev_mismatch f))
  | _ => None
  end.

(** The native method calls a function of the JNI, or returns. The result is written to
    where the handler of TAINT_CALL had it. *)
Definition on_request (i : nat) (f d : Z) (s : manager) : option (manager * option event) :=
  match native s !! i with
  | Some N_running => Some (set_native (set_call s f d) i N_req_status, Some (Ev_request f d))
  | _ => None
  end.
Definition on_finish (i : nat) (r : Z) (s : manager) : option (manager * option event) :=
  match native s !! i with
  | Some N_running =>
      Some (set_native (mk_manager (mStatus s) (mReplyReady s) (mJniReady s) (call_id s) (jni_function s) (jni_data s)
              (frame s) (if frame s then Some r else None) (native s) (binder s)) i N_fin_status, Some (Ev_finish r))
  | _ => None
  end.
(** The next step of a native thread in [reqJniCall] or [signalResult]. *)
Definition native_step (i : nat) (s : manager) : option (manager * option event) :=
  n ← native s !! i;
  match n with
  | N_running | N_stopped => None
  | N_req_status => Some (set_native (set_status s WAIT4JNI (binder s)) i N_req_post, None)
  | N_req_post => Some (set_native (set_sems s (S (mReplyReady s)) (mJniReady s) (binder s)) i N_req_wait, None)
  | N_req_wait => j ← sem_wait (mJniReady s); Some (set_native (set_sems s (mReplyReady s) j (binder s)) i N_req_woken, None)
  | N_req_woken => Some (set_native (set_status s WAIT4EXEC (binder s)) i N_req_answer, None)
  | N_req_answer => Some (set_native s i N_running, Some (Ev_answer (jni_data s)))
  | N_fin_status => Some (set_native (set_status s FINISHED (binder s)) i N_fin_post, None)
  | N_fin_post => Some (set_native (set_sems s (S (mReplyReady s)) (mJniReady s) (binder s)) i N_stopped, None)
  end.

Definition step (a : action) (s : manager) : option (manager * option event) :=
  match a with
  | A_call => on_call s
  | A_callback f d => on_callback f d s
  | A_binder => binder_step true s
  | A_create_fails => match binder s with B_start_create => binder_step false s | _ => None end
  | A_request i f d => on_request i f d s
  | A_finish i r => on_finish i r s
  | A_native i => native_step i s
  end.

(** Runs, with the events that are seen. *)
Definition observe (e : option event) : list event := match e with Some e => [e] | None => [] end.
Inductive run (allowed : manager -> action -> Prop) : manager -> list event -> manager -> Prop :=
| run_nil s : run allowed s [] s
| run_step s tr s' a s'' e :
    run allowed s tr s' -> allowed s' a -> step a s' = Some (s'', e) -> run allowed s (tr ++ observe e) s''.

(** The same, executable. *)
Fixpoint run_actions (l : list action) (s : manager) : option (manager * list event) :=
  match l with
  | [] => Some (s, [])
  | a :: l => '(s, e) ← step a s; '(s, tr) ← run_actions l s; Some (s, observe e ++ tr)
  end.

(** No thread is created in vain, and a method is called only when none runs. *)
Definition unnested (s : manager) (a : action) : Prop :=
  match a with
  | A_call => Forall (fun n => n = N_stopped) (native s)
  | A_create_fails => False
  | _ => True
  end.
(** A native method may be called by the method of Java that another one called. *)
Definition nested (s : manager) (a : action) : Prop := match a with A_create_fails => False | _ => True end.
