(* ===== verification/ExecutionProps.v ===== *)
(** * Native calls as coroutines (properties of Execution)

    While methods are not called from the methods of Java they call, the application
    and the native method see a coroutine, whatever the order of the threads' steps. *)

From S2P Require Import Prelude Execution.

(** ** Specification: a coroutine *)

(** [Co_running first]: the native method runs; [first] before its first reply. *)
Inductive co :=
| Co_idle | Co_refused | Co_running (first : bool) | Co_requested (f d : Z) | Co_jni (f : Z) | Co_answered (d : Z)
| Co_finished (r : option Z).

Definition co_step (c : co) (e : event) : option co :=
  match c, e with
  | Co_idle, Ev_call => Some (Co_running true)
  | Co_idle, Ev_callback _ _ => Some Co_refused
  | Co_idle, Ev_mismatch _ => Some Co_idle
  | Co_refused, Ev_reply_error => Some Co_idle
  | Co_running _, Ev_request f d => Some (Co_requested f d)
  | Co_running first, Ev_finish r => Some (Co_finished (if first then Some r else None))
  | Co_requested f d, Ev_reply_jni f' d' => if (f' =? f) && (d' =? d) then Some (Co_jni f) else None
  | Co_jni f, Ev_callback f' d => if f' =? f then Some (Co_answered d) else None
  | Co_jni f, Ev_mismatch f' => if f' =? f then None else Some (Co_jni f)
  | Co_answered d, Ev_answer d' => if d' =? d then Some (Co_running false) else None
  | Co_finished r, Ev_reply_result r' => if decide (r' = r) then Some Co_idle else None
  | _, _ => None
  end.
Fixpoint co_run (c : co) (tr : list event) : option co :=
  match tr with
  | [] => Some c
  | e :: tr => c ← co_step c e; co_run c tr
  end.

Lemma co_run_app c tr1 tr2 : co_run c (tr1 ++ tr2) = (c' ← co_run c tr1; co_run c' tr2).
Proof. revert c. induction tr1 as [|e tr1 IH]; intros c; [done|]. cbn. destruct (co_step c e); [apply IH|done]. Qed.

(** ** The states of a manager *)

Definition stopped (l : list native_pc) : Prop := Forall (fun n => n = N_stopped) l.
Definition wait_pc (first : bool) : binder_pc := if first then B_start_wait else B_set_wait.
Definition return_pc (first : bool) : binder_pc := if first then B_start_return else B_set_return.

(** With no thread in a native method. *)
Inductive quiet : status -> nat -> nat -> bool -> option Z -> binder_pc -> co -> Prop :=
| q_idle st fr res : st <> WAIT4JNI -> quiet st 0 0 fr res B_idle Co_idle
| q_store st fr res d : st <> WAIT4JNI -> quiet st 0 0 fr res (B_set_store d) Co_refused
| q_check st fr res : st <> WAIT4JNI -> quiet st 0 0 fr res B_set_check Co_refused
| q_create res : quiet WAIT4EXEC 0 0 true res B_start_create (Co_running true)
| q_posted fr res : quiet FINISHED 1 0 fr res (wait_pc fr) (Co_finished res)
| q_return fr res : quiet FINISHED 0 0 fr res (return_pc fr) (Co_finished res).

(** With one thread in a native method. *)
Inductive active : status -> nat -> nat -> Z -> Z -> bool -> option Z -> native_pc -> binder_pc -> co -> Prop :=
| a_running f d fr res : active WAIT4EXEC 0 0 f d fr res N_running (wait_pc fr) (Co_running fr)
| a_req_status f d fr res : active WAIT4EXEC 0 0 f d fr res N_req_status (wait_pc fr) (Co_requested f d)
| a_req_post f d fr res : active WAIT4JNI 0 0 f d fr res N_req_post (wait_pc fr) (Co_requested f d)
| a_req_posted f d fr res : active WAIT4JNI 1 0 f d fr res N_req_wait (wait_pc fr) (Co_requested f d)
| a_return f d fr res : active WAIT4JNI 0 0 f d fr res N_req_wait (return_pc fr) (Co_requested f d)
| a_jni f d res : active WAIT4JNI 0 0 f d false res N_req_wait B_idle (Co_jni f)
| a_store f d res x : active WAIT4JNI 0 0 f d false res N_req_wait (B_set_store x) (Co_answered x)
| a_check f d res : active WAIT4JNI 0 0 f d false res N_req_wait B_set_check (Co_answered d)
| a_post f d res : active WAIT4JNI 0 0 f d false res N_req_wait B_set_post (Co_answered d)
| a_posted f d res : active WAIT4JNI 0 1 f d false res N_req_wait B_set_wait (Co_answered d)
| a_woken f d res : active WAIT4JNI 0 0 f d false res N_req_woken B_set_wait (Co_answered d)
| a_answer f d res : active WAIT4EXEC 0 0 f d false res N_req_answer B_set_wait (Co_answered d)
| a_fin_status f d fr res : active WAIT4EXEC 0 0 f d fr res N_fin_status (wait_pc fr) (Co_finished res)
| a_fin_post f d fr res : active FINISHED 0 0 f d fr res N_fin_post (wait_pc fr) (Co_finished res).

Inductive implements : manager -> co -> Prop :=
| impl_quiet st r j id f d fr res l b c :
    stopped l -> quiet st r j fr res b c -> implements (mk_manager st r j id f d fr res l b) c
| impl_active st r j id f d fr res l n b c :
    stopped l -> active st r j f d fr res n b c -> implements (mk_manager st r j id f d fr res (l ++ [n]) b) c.

Lemma stopped_snoc l : stopped l -> stopped (l ++ [N_stopped]).
Proof. intros H. apply Forall_app. split; [done|]. by constructor. Qed.
Lemma stopped_lookup l i n : stopped l -> l !! i = Some n -> n = N_stopped.
Proof. intros H E. by apply (Forall_lookup_1 _ _ _ _ H E). Qed.
Lemma snoc_lookup l i n m : stopped l -> (l ++ [n]) !! i = Some m -> m = N_stopped \/ i = length l /\ m = n.
Proof.
  intros H E. apply lookup_app_Some in E as [E|[Hi E]]; [left; by eapply stopped_lookup|].
  destruct (i - length l)%nat as [|k] eqn:Ek; [|done]. injection E as ->. right. split; [lia|done].
Qed.
Lemma snoc_insert (l : list native_pc) n m : <[length l := m]> (l ++ [n]) = l ++ [m].
Proof. rewrite insert_app_r_alt by done. by rewrite Nat.sub_diag. Qed.

(** ** Simulation *)

(** What a step does to the coroutine. *)
Definition simulated (c : co) (o : manager * option event) : Prop :=
  exists c', co_run c (observe o.2) = Some c' /\ implements o.1 c'.

Lemma silent c s : implements s c -> simulated c (s, None).
Proof. by exists c. Qed.
Lemma seen c e c' s : co_step c e = Some c' -> implements s c' -> simulated c (s, Some e).
Proof. intros E H. exists c'. split; [|done]. cbn. by rewrite E. Qed.

Ltac sim_quiet := apply impl_quiet; [assumption|].
Ltac sim_quiet_snoc := apply impl_quiet; [by apply stopped_snoc|apply q_posted].
Ltac sim_active := apply impl_active; [assumption|].

Lemma call_simulated s c o : implements s c -> stopped (native s) -> on_call s = Some o -> simulated c o.
Proof.
  intros [st r j id f d fr res l b c0 Hl Hq|st r j id f d fr res l n b c0 Hl Ha] Hs E; unfold on_call in E; cbn in *.
  - destruct Hq as [| | | |[] ?|[] ?]; try discriminate E. injection E as <-.
    eapply seen; [reflexivity|]. sim_quiet. constructor.
  - apply Forall_app in Hs as [_ Hn]. apply Forall_cons in Hn as [Hn _].
    destruct Ha; try discriminate Hn; try (destruct fr; discriminate E); discriminate E.
Qed.

Lemma callback_simulated x y s c o : implements s c -> on_callback x y s = Some o -> simulated c o.
Proof.
  intros [st r j id f d fr res l b c0 Hl Hq|st r j id f d fr res l n b c0 Hl Ha] E; unfold on_callback in E; cbn in *.
  - destruct Hq as [| | | |[] ?|[] ?]; try discriminate E.
    destruct (x =? f) eqn:Ex; injection E as <-; (eapply seen; [reflexivity|]); sim_quiet; by constructor.
  - destruct Ha as [??[] ?|??[] ?|??[] ?|??[] ?|??[] ?| | | | | | | |??[] ?|??[] ?]; try discriminate E.
    destruct (x =? f) eqn:Ex; injection E as <-; (eapply seen; [cbn; by rewrite Ex|]); sim_active; constructor.
Qed.

Lemma binder_simulated s c o : implements s c -> binder_step true s = Some o -> simulated c o.
Proof.
  intros [st r j id f d fr res l b c0 Hl Hq|st r j id f d fr res l n b c0 Hl Ha] E; unfold binder_step in E; cbn in E.
  - destruct Hq as [|st fr res y Hst|st fr res Hst| |[] ?|[] ?]; cbn in E; try discriminate E.
    + injection E as <-. apply silent. sim_quiet. by constructor.
    + rewrite decide_False in E by done. injection E as <-. eapply seen; [reflexivity|]. sim_quiet. by constructor.
    + injection E as <-. apply silent. sim_active. apply (a_running f d true).
    + injection E as <-. apply silent. sim_quiet. apply (q_return true).
    + injection E as <-. apply silent. sim_quiet. apply (q_return false).
    + injection E as <-. eapply seen; [cbn; by rewrite decide_True|]. sim_quiet. by constructor.
    + injection E as <-. eapply seen; [cbn; by rewrite decide_True|]. sim_quiet. by constructor.
  - destruct Ha as [??[] ?|??[] ?|??[] ?|??[] ?|??[] ?| | | | | | | |??[] ?|??[] ?]; cbn in E; try discriminate E.
    + injection E as <-. apply silent. sim_active. apply (a_return f d true).
    + injection E as <-. apply silent. sim_active. apply (a_return f d false).
    + injection E as <-. eapply seen; [cbn; by rewrite !Z.eqb_refl|]. sim_active. constructor.
    + injection E as <-. eapply seen; [cbn; by rewrite !Z.eqb_refl|]. sim_active. constructor.
    + injection E as <-. apply silent. sim_active. constructor.
    + injection E as <-. apply silent. sim_active. constructor.
    + injection E as <-. apply silent. sim_active. constructor.
Qed.

(** A native thread that takes a step is the one in a native method. *)
Lemma native_thread s c i n :
  implements s c -> native s !! i = Some n -> n <> N_stopped ->
  exists st r j id f d fr res l b, s = mk_manager st r j id f d fr res (l ++ [n]) b /\ i = length l /\ stopped l /\
    active st r j f d fr res n b c.
Proof.
  intros [st r j id f d fr res l b c0 Hl Hq|st r j id f d fr res l m b c0 Hl Ha] E Hn; cbn in E.
  - by apply (stopped_lookup _ _ _ Hl) in E.
  - destruct (snoc_lookup _ _ _ _ Hl E) as [?|[-> ->]]; [done|]. by exists st, r, j, id, f, d, fr, res, l, b.
Qed.

Lemma request_simulated i x y s c o : implements s c -> on_request i x y s = Some o -> simulated c o.
Proof.
  intros H E. unfold on_request in E. destruct (native s !! i) as [n|] eqn:En; [|done].
  destruct n; try discriminate E.
  destruct (native_thread s c i _ H En) as (st & r & j & id & f & d & fr & res & l & b & -> & -> & Hl & Ha); [done|].
  injection E as <-. inversion Ha; subst. eapply seen; [reflexivity|]. unfold set_native. cbn. rewrite snoc_insert.
  sim_active. constructor.
Qed.

Lemma finish_simulated i x s c o : implements s c -> on_finish i x s = Some o -> simulated c o.
Proof.
  intros H E. unfold on_finish in E. destruct (native s !! i) as [n|] eqn:En; [|done].
  destruct n; try discriminate E.
  destruct (native_thread s c i _ H En) as (st & r & j & id & f & d & fr & res & l & b & -> & -> & Hl & Ha); [done|].
  injection E as <-. inversion Ha; subst. eapply seen; [reflexivity|]. unfold set_native. cbn. rewrite snoc_insert.
  sim_active. constructor.
Qed.

Lemma native_simulated i s c o : implements s c -> native_step i s = Some o -> simulated c o.
Proof.
  intros H E. unfold native_step in E. destruct (native s !! i) as [n|] eqn:En; [|done]. cbn [mbind option_bind] in E.
  assert (Hn : n <> N_stopped) by (intros ->; discriminate E).
  destruct (native_thread s c i n H En Hn) as (st & r & j & id & f & d & fr & res & l & b & -> & -> & Hl & Ha).
  unfold set_native, set_status, set_sems in E. cbn in E. rewrite !snoc_insert in E.
  destruct Ha; cbn in E; try discriminate E; injection E as <-.
  - apply silent. sim_active. constructor.
  - apply silent. sim_active. constructor.
  - apply silent. sim_active. apply a_woken.
  - apply silent. sim_active. apply a_answer.
  - eapply seen; [cbn; by rewrite Z.eqb_refl|]. sim_active. apply (a_running f d false).
  - apply silent. sim_active. constructor.
  - apply silent. sim_quiet_snoc.
Qed.

Lemma step_simulated a s c o : implements s c -> unnested s a -> step a s = Some o -> simulated c o.
Proof.
  intros H Ha E. destruct a as [|f d| | |i f d|i r|i]; cbn in *.
  - by eapply call_simulated.
  - by eapply callback_simulated.
  - by eapply binder_simulated.
  - done.
  - by eapply request_simulated.
  - by eapply finish_simulated.
  - by eapply native_simulated.
Qed.

Lemma implements_init : implements manager_init Co_idle.
Proof. apply impl_quiet; constructor. done. Qed.

Lemma run_simulated tr s : run unnested manager_init tr s -> exists c, co_run Co_idle tr = Some c /\ implements s c.
Proof.
  intros H. remember manager_init as s0 eqn:E0. induction H as [|s0 tr s' a s'' e _ IH Ha Hs]; subst.
  - exists Co_idle. split; [done|apply implements_init].
  - destruct (IH eq_refl) as (c & E & Hc). destruct (step_simulated _ _ _ _ Hc Ha Hs) as (c' & E' & Hc').
    exists c'. split; [|done]. rewrite co_run_app, E. exact E'.
Qed.

(** Between two messages. *)
Lemma implements_idle s c :
  implements s c -> binder s = B_idle ->
  mReplyReady s = 0%nat /\ mJniReady s = 0%nat /\
  (c = Co_idle /\ stopped (native s) \/
   exists l, c = Co_jni (jni_function s) /\ stopped l /\ native s = l ++ [N_req_wait] /\ mStatus s = WAIT4JNI).
Proof.
  intros [st r j id f d fr res l b c0 Hl Hq|st r j id f d fr res l n b c0 Hl Ha] E; cbn in *; subst b.
  - inversion Hq; subst; try (by destruct fr). split_and!; [done|done|by left].
  - inversion Ha; subst; try (by destruct fr). split_and!; [done|done|]. right. by exists l.
Qed.

(** C28: what the application and a native method see of an execution manager is a
    coroutine. In every interleaving of the threads in which no method is called while
    another one runs, the events are those of the specification: a call starts the
    method; each request the application receives is the one the method made, for the
    function and with the data it wrote; the method continues with exactly the answer
    to that request, and an answer for another function, or when nothing waits, is
    refused without an effect; the result reaches the application once. Between two
    messages both semaphores are 0 and no thread is in a native method, or exactly
    one, which waits in [reqJniCall]: the threads never use the shared data at once.
    (A method that called the JNI has its result lost: it is written to the stack of
    a handler that has returned.) *)
Theorem execution_is_coroutine (tr : list event) (s : manager) (Hrun : run unnested manager_init tr s) :
  exists c, co_run Co_idle tr = Some c /\
    (binder s = B_idle ->
     mReplyReady s = 0%nat /\ mJniReady s = 0%nat /\
     (c = Co_idle /\ stopped (native s) \/
      exists l, c = Co_jni (jni_function s) /\ stopped l /\ native s = l ++ [N_req_wait] /\ mStatus s = WAIT4JNI)).
Proof. destruct (run_simulated tr s Hrun) as (c & E & Hc). exists c. split; [done|]. by apply implements_idle. Qed.

(** Runs from lists of actions. *)
Lemma run_app allowed s1 tr1 s2 tr2 s3 : run allowed s1 tr1 s2 -> run allowed s2 tr2 s3 -> run allowed s1 (tr1 ++ tr2) s3.
Proof.
  intros H1 H2. induction H2 as [|s2 tr s' a s'' e _ IH Ha Hs]; [by rewrite app_nil_r|].
  rewrite app_assoc. by eapply run_step; [apply IH| |].
Qed.
Fixpoint all_allowed (allowed : manager -> action -> Prop) (l : list action) (s : manager) : Prop :=
  match l with
  | [] => True
  | a :: l => allowed s a /\ match step a s with Some (s, _) => all_allowed allowed l s | None => True end
  end.
Lemma run_actions_run allowed l s s' tr :
  all_allowed allowed l s -> run_actions l s = Some (s', tr) -> run allowed s tr s'.
Proof.
  revert s tr. induction l as [|a l IH]; intros s tr Hl E; cbn in *; [injection E as <- <-; constructor|].
  destruct Hl as [Ha Hl]. destruct (step a s) as [[s1 e]|] eqn:Es; [|done]. cbn in E.
  destruct (run_actions l s1) as [[s2 tr2]|] eqn:E2; [|done]. injection E as <- <-.
  eapply run_app; [|by apply IH]. change (observe e) with ([] ++ observe e). eapply run_step; [constructor|done|done].
Qed.

(** A method that makes one call of the JNI. *)
Definition one_request : list action :=
  [A_call; A_binder; A_request 0 4 11; A_native 0; A_native 0; A_binder; A_binder;
   A_callback 3 0; A_callback 4 12; A_binder; A_binder; A_binder; A_native 0; A_native 0; A_native 0;
   A_finish 0 7; A_native 0; A_native 0; A_binder; A_binder; A_callback 4 0; A_binder; A_binder].
Definition one_request_events : list event :=
  [Ev_call; Ev_request 4 11; Ev_reply_jni 4 11; Ev_mismatch 3; Ev_callback 4 12; Ev_answer 12;
   Ev_finish 7; Ev_reply_result None; Ev_callback 4 0; Ev_reply_error].
Lemma one_request_run :
  run_actions one_request manager_init =
    Some (mk_manager FINISHED 0 0 1 4 0 false None [N_stopped] B_idle, one_request_events).
Proof. reflexivity. Qed.

Lemma execution_is_coroutine_witness :
  exists c, co_run Co_idle one_request_events = Some c /\
    (B_idle = B_idle -> 0%nat = 0%nat /\ 0%nat = 0%nat /\
     (c = Co_idle /\ stopped [N_stopped] \/ exists l, c = Co_jni 4 /\ stopped l /\ [N_stopped] = l ++ [N_req_wait] /\ FINISHED = WAIT4JNI)).
Proof.
  apply (execution_is_coroutine one_request_events (mk_manager FINISHED 0 0 1 4 0 false None [N_stopped] B_idle)).
  apply (run_actions_run unnested one_request); [|exact one_request_run].
  vm_compute. repeat split; constructor.
Defined.

(** ** Progress *)

(** The steps of the threads by themselves. *)
Definition internal (a : action) : Prop := match a with A_binder | A_native _ => True | _ => False end.

(** How many are left. *)
Definition native_left (n : native_pc) : nat :=
  match n with
  | N_running | N_stopped => 0 | N_req_answer | N_fin_post => 1 | N_req_woken | N_fin_status => 2
  | N_req_wait => 3 | N_req_post => 4 | N_req_status => 5
  end.
Definition binder_left (b : binder_pc) : nat :=
  match b with
  | B_idle => 0 | B_start_return | B_set_return => 1 | B_start_wait | B_set_wait => 2
  | B_start_create | B_set_post => 3 | B_set_check => 4 | B_set_store _ => 5
  end.
Definition steps_left (s : manager) : nat := binder_left (binder s) + sum_list_with native_left (native s).

Lemma sum_insert (l : list native_pc) i n m :
  l !! i = Some n -> (sum_list_with native_left (<[i:=m]> l) + native_left n = sum_list_with native_left l + native_left m)%nat.
Proof.
  revert i. induction l as [|x l IH]; intros [|i] E; try done; cbn in *; [injection E as ->; lia|].
  specialize (IH i E). rewrite <-!Nat.add_assoc. by f_equal.
Qed.

Lemma internal_decreases a s s' e : internal a -> step a s = Some (s', e) -> (steps_left s' < steps_left s)%nat.
Proof.
  unfold steps_left. destruct a; try done; intros _ E; cbn in E.
  - unfold binder_step in E. destruct (binder s) eqn:Eb; try discriminate E.
    + injection E as <- _. cbn. rewrite sum_list_with_app. cbn. lia.
    + destruct (sem_wait _); [|done]. injection E as <- _. cbn. lia.
    + injection E as <- _. cbn. lia.
    + injection E as <- _. cbn. lia.
    + destruct (decide _); injection E as <- _; cbn; lia.
    + injection E as <- _. cbn. lia.
    + destruct (sem_wait _); [|done]. injection E as <- _. cbn. lia.
    + injection E as <- _. cbn. lia.
  - unfold native_step in E. destruct (native s !! i) as [n|] eqn:En; [|done]. cbn in E.
    destruct n; try discriminate E; try (destruct (sem_wait _); [|done]); injection E as <- _; cbn;
      match goal with |- context [<[i:=?m]> _] => pose proof (sum_insert _ _ _ m En) as Hi end; cbn in Hi; lia.
Qed.

Lemma internal_bounded l s s' tr :
  Forall internal l -> run_actions l s = Some (s', tr) -> (length l + steps_left s' <= steps_left s)%nat.
Proof.
  intros Hl. revert s tr. induction Hl as [|a l Ha _ IH]; intros s tr E; cbn in E; [injection E as <- _; cbn; lia|].
  destruct (step a s) as [[s1 e]|] eqn:Es; [|done]. cbn in E.
  destruct (run_actions l s1) as [[s2 tr2]|] eqn:E2; [|done]. injection E as <- _.
  pose proof (internal_decreases _ _ _ _ Ha Es). specialize (IH _ _ E2). cbn [length]. lia.
Qed.

Lemma implements_left s c : implements s c -> (steps_left s <= 8)%nat.
Proof.
  assert (H0 : forall l, stopped l -> sum_list_with native_left l = 0%nat)
    by (intros l; induction 1 as [|n l -> _ IH]; [done|exact IH]).
  unfold steps_left. intros [st r j id f d fr res l b c0 Hl Hq|st r j id f d fr res l n b c0 Hl Ha]; cbn.
  - rewrite (H0 l Hl). destruct Hq as [| | | |[] ?|[] ?]; cbn; lia.
  - rewrite sum_list_with_app, (H0 l Hl).
    destruct Ha as [??[] ?|??[] ?|??[] ?|??[] ?|??[] ?| | | | | | | |??[] ?|??[] ?]; cbn; lia.
Qed.

Lemma last_lookup (l : list native_pc) n : (l ++ [n]) !! length l = Some n.
Proof. rewrite lookup_app_r by done. by rewrite Nat.sub_diag. Qed.

Lemma implements_progress s c :
  implements s c ->
  (exists a s' e, internal a /\ step a s = Some (s', e)) \/ binder s = B_idle \/
  exists i first, native s !! i = Some N_running /\ binder s = wait_pc first.
Proof.
  intros [st r j id f d fr res l b c0 Hl Hq|st r j id f d fr res l n b c0 Hl Ha].
  - destruct Hq as [|? ? ? ? Hst|? ? ? Hst| |[] ?|[] ?]; try (by right; left); left; exists A_binder;
      try (do 2 eexists; split; [exact I|reflexivity]).
    do 2 eexists. split; [exact I|]. cbn. unfold binder_step. cbn. by rewrite decide_False.
  - destruct Ha as [??[] ?|??[] ?|??[] ?|??[] ?|??[] ?| | | | | | | |??[] ?|??[] ?];
      try (by right; left);
      try (right; right; exists (length l); eexists; split; [apply last_lookup|]; done || (by instantiate (1 := false)) || (by instantiate (1 := true)));
      left;
      first [ exists A_binder; do 2 eexists; split; [exact I|reflexivity]
            | exists (A_native (length l)); do 2 eexists; split; [exact I|]; cbn; unfold native_step; cbn;
              rewrite last_lookup; reflexivity ].
Qed.

(** C29: an execution manager never deadlocks and never loses a wakeup. In every state
    that is reached without nested calls, some thread can take a step of its own, or
    the application is to send a message, or a native method is running while the
    binder waits for it; and whatever the scheduler does, the threads take at most
    eight steps by themselves before that. *)
Theorem execution_progress (tr : list event) (s : manager) (Hrun : run unnested manager_init tr s) :
  ((exists a s' e, internal a /\ step a s = Some (s', e)) \/ binder s = B_idle \/
   exists i first, native s !! i = Some N_running /\ binder s = wait_pc first) /\
  forall l s' tr', Forall internal l -> run_actions l s = Some (s', tr') -> (length l <= 8)%nat.
Proof.
  destruct (run_simulated tr s Hrun) as (c & _ & Hc). split; [by eapply implements_progress|].
  intros l s' tr' Hl E. pose proof (internal_bounded _ _ _ _ Hl E). pose proof (implements_left _ _ Hc). lia.
Qed.

(** The application has just answered: eight steps until the method runs again. *)
Definition answered : list action :=
  [A_call; A_binder; A_request 0 4 11; A_native 0; A_native 0; A_binder; A_binder; A_callback 4 12].
Lemma execution_progress_witness :
  ((exists a s' e, internal a /\
      step a (mk_manager WAIT4JNI 0 0 1 4 11 false None [N_req_wait] (B_set_store 12)) = Some (s', e)) \/
   B_set_store 12 = B_idle \/ exists i first, [N_req_wait] !! i = Some N_running /\ B_set_store 12 = wait_pc first) /\
  forall l s' tr', Forall internal l ->
    run_actions l (mk_manager WAIT4JNI 0 0 1 4 11 false None [N_req_wait] (B_set_store 12)) = Some (s', tr') -> (length l <= 8)%nat.
Proof.
  apply (execution_progress [Ev_call; Ev_request 4 11; Ev_reply_jni 4 11; Ev_callback 4 12]
    (mk_manager WAIT4JNI 0 0 1 4 11 false None [N_req_wait] (B_set_store 12))).
  apply (run_actions_run unnested answered); [|reflexivity]. vm_compute. repeat split; constructor.
Defined.

(** ** Nested calls *)

(** A first method waits for its answer while a second one has finished. *)
Inductive stranded : manager -> Prop :=
| stranded_at id f d fr res b :
    b = B_idle \/ (exists x, b = B_set_store x) \/ b = B_set_check ->
    stranded (mk_manager FINISHED 0 0 id f d fr res [N_req_wait; N_stopped] b).
Definition refusal (e : event) : Prop :=
  match e with Ev_callback _ _ | Ev_mismatch _ | Ev_reply_error => True | _ => False end.

Lemma stranded_step a s s' e :
  stranded s -> a <> A_call -> step a s = Some (s', e) -> stranded s' /\ Forall refusal (observe e).
Proof.
  intros [id f d fr res b Hb] Ha E.
  destruct a as [|x y| | |i x y|i x|i]; cbn in E; try done.
  - unfold on_callback in E. cbn in E. destruct Hb as [->|[[z ->] | ->]]; try discriminate E.
    destruct (x =? f); injection E as <- <-; (split; [constructor|by repeat constructor]); [right; left; by eexists|by left].
  - unfold binder_step in E. cbn in E. destruct Hb as [->|[[z ->] | ->]]; cbn in E; try discriminate E;
      injection E as <- <-; (split; [constructor|by repeat constructor]); [right; by right|by left].
  - destruct Hb as [->|[[z ->] | ->]]; discriminate E.
  - unfold on_request in E. cbn in E. destruct i as [|[|i]]; discriminate E.
  - unfold on_finish in E. cbn in E. destruct i as [|[|i]]; discriminate E.
  - unfold native_step in E. cbn in E. destruct i as [|[|i]]; discriminate E.
Qed.
Lemma stranded_run s tr s' : stranded s -> run (fun _ a => a <> A_call) s tr s' -> stranded s' /\ Forall refusal tr.
Proof.
  intros Hs H. induction H as [|s tr s' a s'' e _ IH Ha E]; [by split|]. destruct (IH Hs) as [Hs' Htr].
  destruct (stranded_step _ _ _ _ Hs' Ha E) as [H1 H2]. split; [done|]. by apply Forall_app.
Qed.

(** A method calls the JNI; the method of Java that is called calls a second native
    method, which finishes. *)
Definition nested_call : list action :=
  [A_call; A_binder; A_request 0 4 11; A_native 0; A_native 0; A_binder; A_binder;
   A_call; A_binder; A_finish 1 7; A_native 1; A_native 1; A_binder; A_binder].

