(* ===== verification/ExecutionLists.v ===== *)
(** * What an execution manager remembers (wrapper/ExecutionManager.cpp, ThreadManager.cpp)

    The lists of the signatures of methods, of the lengths of arrays and of the
    characters of strings. A node is never shared, so a list of nodes is a list of
    entries; [Stuck] is an access through [NULL] or after the end of a string. *)

From Stdlib Require Import String.
From S2P Require Import Prelude Bytes Scanf.

Record sigList_t := mk_sig { sg_methodID : Z; sg_sig : list Z }.
Record arrayList_t := mk_array { ar_jarr : Z; ar_length : Z; ar_dalvikP : Z }.
Record stringMap_t := mk_chars { ch_dalvikP : Z; ch_length : Z; ch_wrapperP : Z }.

Definition addSignatureForMethod (methodID : Z) (sig : list Z) (sigList : list sigList_t) : list sigList_t :=
  mk_sig methodID sig :: sigList.
Definition addArray (jarr length dalvikP : Z) (arrayList : list arrayList_t) : list arrayList_t :=
  mk_array jarr length dalvikP :: arrayList.
Definition addStringChars (dalvikP length wrapperP : Z) (charsList : list stringMap_t) : list stringMap_t :=
  mk_chars dalvikP length wrapperP :: charsList.

(** The walks stop at the first node with the key, or at the last one. *)
Fixpoint walk {A} (key : A -> Z) (k : Z) (s : A) (next : list A) : A :=
  match next with
  | [] => s
  | n :: next => if key s =? k then s else walk key k n next
  end.
Definition find_node {A} (key : A -> Z) (k : Z) (l : list A) : option A :=
  match l with
  | [] => None
  | s :: next => let s := walk key k s next in if key s =? k then Some s else None
  end.
Definition getSignatureForMethod (methodID : Z) (l : list sigList_t) : option (list Z) :=
  sg_sig <$> find_node sg_methodID methodID l.
Definition getArrayLength (jarr : Z) (l : list arrayList_t) : option arrayList_t := find_node ar_jarr jarr l.
Definition getDalvikChars (wrapperP : Z) (l : list stringMap_t) : option stringMap_t := find_node ch_wrapperP wrapperP l.

(** The parameters up to the parenthesis that closes them; a string that has none is
    read beyond its end. *)
Definition param_chars : list Z := str "LZBCSIDJ"%string.
Definition is_param (c : Z) : bool := bool_decide (c ∈ param_chars).
Fixpoint count_params (sig : list Z) (size : Z) : option Z :=
  match sig with
  | [] => None
  | c :: sig => if c =? 41 then Some size else count_params sig (if is_param c then s32 (size + 1) else size)
  end.
(** [getNumParams]: -1 for a method without a signature. *)
Definition getNumParams (methodID : Z) (l : list sigList_t) : option Z :=
  match find_node sg_methodID methodID l with
  | None => Some (-1)
  | Some s => count_params (sg_sig s) 0
  end.

(** The sizes of the parameters: [sizeof] of [jobject] and [jint] is 4, of [jdouble] 8. *)
Definition param_size (c : Z) : Z :=
  if bool_decide (c ∈ str "LZBCSI"%string) then 4 else if bool_decide (c ∈ str "DJ"%string) then 8 else 0.
Fixpoint sum_params (sig : list Z) (size : Z) : option Z :=
  match sig with
  | [] => None
  | c :: sig => if c =? 41 then Some size else sum_params sig (s32 (size + param_size c))
  end.
Definition getMethodParamSize (methodID : Z) (l : list sigList_t) : option Z :=
  match find_node sg_methodID methodID l with
  | None => Some (-1)
  | Some s => sum_params (sg_sig s) 0
  end.

(** The walk of [deleteCharsEntry] from a node to the one before the entry. *)
Fixpoint delete_after (k : Z) (s : stringMap_t) (next : list stringMap_t) : option (list stringMap_t) :=
  match next with
  | [] => None
  | n :: rest => if ch_wrapperP n =? k then Some (s :: rest) else cons s <$> delete_after k n rest
  end.
(** [deleteCharsEntry]: [None] is an access through [NULL]. *)
Definition deleteCharsEntry (k : Z) (l : list stringMap_t) : option (list stringMap_t) :=
  match l with
  | [] => Some []
  | [_] => Some []
  | s :: next => if ch_wrapperP s =? k then Some next else delete_after k s next
  end.

(** ** The environments of the threads (wrapper/ThreadManager.cpp) *)

(** An environment, with its [ExecutionManager] and its machine, is a number;
    [tm_freed] are those that were freed. *)
Record thread_manager := mk_tm { jniEnvs : gmap Z Z; tm_next : Z; tm_freed : list Z }.
Definition no_envs : thread_manager := mk_tm ∅ 0 [].
Definition addJniEnv (threadId : Z) (m : thread_manager) : Z * thread_manager :=
  match jniEnvs m !! threadId with
  | Some env => (env, m)
  | None => (tm_next m, mk_tm (<[threadId := tm_next m]> (jniEnvs m)) (tm_next m + 1) (tm_freed m))
  end.
Definition getJniEnv (threadId : Z) (m : thread_manager) : Z * thread_manager :=
  match jniEnvs m !! threadId with
  | None => addJniEnv threadId m
  | Some env => (env, m)
  end.
Definition delJniEnv (threadId : Z) (m : thread_manager) : thread_manager :=
  match jniEnvs m !! threadId with
  | Some env => mk_tm (delete threadId (jniEnvs m)) (tm_next m) (env :: tm_freed m)
  | None => m
  end.
(** The destructor, over the map in its order. *)
Definition free_envs (m : thread_manager) : list Z := (map_to_list (jniEnvs m)).*2 ++ tm_freed m.

(** ** Properties *)

(** Every environment belongs to one thread or was freed once. *)
Record tm_ok (m : thread_manager) : Prop := {
  tm_distinct : forall t t' env, jniEnvs m !! t = Some env -> jniEnvs m !! t' = Some env -> t = t';
  tm_made : forall t env, jniEnvs m !! t = Some env -> env < tm_next m /\ env ∉ tm_freed m;
  tm_gone : NoDup (tm_freed m) /\ forall env, env ∈ tm_freed m -> env < tm_next m
}.
Lemma no_envs_ok : tm_ok no_envs.
Proof. split; cbn; [intros ???; by rewrite lookup_empty|intros ??; by rewrite lookup_empty|]. split; [apply NoDup_nil_2|by intros ? ?%elem_of_nil]. Qed.

(** A thread has one environment of its own, the same at every call until it is deleted. *)
Theorem getJniEnv_correct t m :
  tm_ok m ->
  let '(env, m') := getJniEnv t m in
  tm_ok m' /\ jniEnvs m' !! t = Some env /\ (forall t', t' <> t -> jniEnvs m' !! t' = jniEnvs m !! t') /\
  tm_freed m' = tm_freed m /\ getJniEnv t m' = (env, m').
Proof.
  intros [Hd Hm [Hn Hg]]. unfold getJniEnv, addJniEnv. destruct (jniEnvs m !! t) as [env|] eqn:E.
  { rewrite E. by split_and!. }
  cbn. rewrite lookup_insert_eq. split_and!; try done.
  - split; cbn.
    + intros t1 t2 env. rewrite !lookup_insert_Some. intros [[<- <-]|[H1 H1']] [[<- H2]|[H2 H2']]; try done.
      * apply Hm in H2'. lia.
      * subst env. apply Hm in H1'. lia.
      * by eapply Hd.
    + intros t1 env. rewrite lookup_insert_Some. intros [[<- <-]|[_ H1]].
      * split; [lia|]. intros H. apply Hg in H. lia.
      * apply Hm in H1. split; [lia|apply H1].
    + split; [done|]. intros env H. apply Hg in H. lia.
  - intros t' H. by rewrite lookup_insert_ne.
Qed.
(** Deleting a thread frees its environment, once, and no other. *)
Theorem delJniEnv_correct t m :
  tm_ok m -> tm_ok (delJniEnv t m) /\ jniEnvs (delJniEnv t m) = delete t (jniEnvs m) /\
  tm_freed (delJniEnv t m) = (match jniEnvs m !! t with Some env => [env] | None => [] end) ++ tm_freed m.
Proof.
  intros Hok. pose proof Hok as [Hd Hm [Hn Hg]]. unfold delJniEnv. destruct (jniEnvs m !! t) as [env|] eqn:E; [|by rewrite delete_id].
  split_and!; [|done|done]. destruct (Hm t env E) as [He Hf]. split; cbn.
  - intros t1 t2 e. rewrite !lookup_delete_Some. intros [_ H1] [_ H2]. by eapply Hd.
  - intros t1 e. rewrite lookup_delete_Some. intros [Ht H1]. destruct (Hm _ _ H1) as [H2 H3]. split; [done|].
    intros [->|H]%elem_of_cons; [|done]. apply Ht. by eapply Hd.
  - split; [by apply NoDup_cons|]. intros e [->|H]%elem_of_cons; [done|by apply Hg].
Qed.
(** With the destructor everything is freed, and nothing twice. *)
Theorem free_envs_once m : tm_ok m -> NoDup (free_envs m).
Proof.
  intros [Hd Hm [Hn Hg]]. unfold free_envs. apply NoDup_app. split_and!; [|intros env|done].
  - apply NoDup_fmap_2_strong; [|apply NoDup_map_to_list]. intros [t e] [t' e'] H H' Ee. cbn in Ee. subst e'.
    apply elem_of_map_to_list in H, H'. by rewrite (Hd t t' e H H').
  - intros ([t e] & -> & H)%list_elem_of_fmap. apply elem_of_map_to_list in H. apply Hm in H as [_ H]. exact H.
Qed.

Lemma find_node_spec {A} (key : A -> Z) k (l : list A) : find_node key k l = list_find (fun n => key n = k) l ≫= (fun p => Some p.2).
Proof.
  destruct l as [|s l]; [done|]. cbn [find_node]. revert s. induction l as [|n l IH]; intros s; cbn [walk list_find].
  - destruct (Z.eqb_spec (key s) k); [by rewrite decide_True|by rewrite decide_False].
  - destruct (Z.eqb_spec (key s) k) as [E|E]; [rewrite decide_True by done; by rewrite (proj2 (Z.eqb_eq _ _) E)|].
    rewrite decide_False by done. rewrite IH. cbn [list_find]. destruct (decide (key n = k)); [done|].
    by destruct (list_find _ l) as [[]|].
Qed.

(** The last entry that was added for a key is found. *)
Lemma find_added {A} (key : A -> Z) k n (l : list A) :
  find_node key k (n :: l) = if key n =? k then Some n else find_node key k l.
Proof.
  rewrite !find_node_spec. cbn [list_find]. destruct (Z.eqb_spec (key n) k); [by rewrite decide_True|].
  rewrite decide_False by done. by destruct (list_find _ l) as [[]|].
Qed.

(** [deleteCharsEntry] takes the entry of a key that is in the list, and no other. *)
Theorem deleteCharsEntry_correct k l :
  k ∈ ch_wrapperP <$> l ->
  exists l1 n l2, l = l1 ++ n :: l2 /\ ch_wrapperP n = k /\ k ∉ ch_wrapperP <$> l1 /\ deleteCharsEntry k l = Some (l1 ++ l2).
Proof.
  destruct l as [|s l]; [by intros ?%elem_of_nil|]. destruct l as [|n l].
  { intros [->|H]%elem_of_cons; [|by apply elem_of_nil in H]. exists [], s, []. split_and!; try done. apply not_elem_of_nil. }
  cbn [deleteCharsEntry]. destruct (Z.eqb_spec (ch_wrapperP s) k) as [E|E].
  { intros _. exists [], s, (n :: l). split_and!; try done. apply not_elem_of_nil. }
  intros [->|H]%elem_of_cons; [done|]. change (k ∈ ch_wrapperP <$> (n :: l)) in H. revert s n E H.
  induction l as [|m l IH]; intros s n E H.
  - apply elem_of_cons in H as [->|H]; [|by apply elem_of_nil in H]. cbn. rewrite Z.eqb_refl.
    exists [s], n, []. split_and!; try done. rewrite fmap_cons. by apply not_elem_of_cons; split; [|apply not_elem_of_nil].
  - cbn [delete_after]. destruct (Z.eqb_spec (ch_wrapperP n) k) as [En|En].
    + exists [s], n, (m :: l). split_and!; try done. rewrite fmap_cons. by apply not_elem_of_cons; split; [|apply not_elem_of_nil].
    + apply elem_of_cons in H as [->|H]; [done|]. destruct (IH n m En H) as (l1 & x & l2 & Hl & Hx & Hn & Hd).
      exists (s :: l1), x, l2. cbn [delete_after] in Hd. rewrite Hd. split_and!; [by rewrite Hl|done| |done].
      rewrite fmap_cons. by apply not_elem_of_cons.
Qed.

(** An entry that is not there: the only entry of the list is dropped, a longer list is
    walked over its end. *)
Example delete_other_entry : deleteCharsEntry 7 [mk_chars 1 2 3] = Some [].
Proof. reflexivity. Qed.
Example delete_missing_crashes : deleteCharsEntry 7 [mk_chars 1 2 3; mk_chars 4 5 6] = None.
Proof. reflexivity. Qed.

(** The letters of the names of classes are counted, parameters of type float are not. *)
Example string_param_counts_twice :
  getNumParams 1 (addSignatureForMethod 1 (str "(Ljava/lang/String;)V"%string) []) = Some 2.
Proof. by vm_compute. Qed.
Example float_param_not_counted : getNumParams 1 (addSignatureForMethod 1 (str "(FF)V"%string) []) = Some 0.
Proof. by vm_compute. Qed.
