(* ===== verification/Su.v ===== *)
(** * Running a command as another user (su/su.c)

    The database of the users, the numbers of the two privileged users and the answers
    of the kernel are parameters. *)

From Stdlib Require Import String.
From S2P Require Import Prelude Bytes Scanf.

Definition comma : Z := 44.

(** [strsep] with a comma: the token and what is left. *)
Fixpoint token (s : list Z) : list Z * option (list Z) :=
  match s with
  | [] => ([], None)
  | c :: s => if c =? comma then ([], Some s) else let '(t, r) := token s in (c :: t, r)
  end.
Definition strsep (nexttok : option (list Z)) : option (list Z) * option (list Z) :=
  match nexttok with
  | None => (None, None)
  | Some s => let '(t, r) := token s in (Some t, r)
  end.

Definition atoi (s : list Z) : Z := default 0 (fst <$> scan_dec s).

Record creds := mk_creds { c_uid : Z; c_gid : Z; c_groups : list Z }.

(** How [main] ends: as another program, or with a status. *)
Inductive su_end :=
| Runs (c : creds) (file : list Z) (args : list (list Z))
| Exits (status : Z).

(** What the kernel answers: whether a call of the process with these credentials
    succeeds; [exec]: 0 or [errno]. *)
Record kernel := mk_kernel {
  k_setgroups : creds -> list Z -> bool;
  k_setgid : creds -> Z -> bool;
  k_setuid : creds -> Z -> bool;
  k_exec : creds -> list Z -> list (list Z) -> Z
}.

Section su.
Context (getpwnam : list Z -> option (Z * Z)) (AID_ROOT AID_SHELL : Z) (k : kernel).

(** [pwtoid]: the user and the group of a name. *)
Definition pwtoid (tok : list Z) : Z * Z :=
  match getpwnam tok with
  | Some ids => ids
  | None => let tmpid := u32 (atoi tok) in (tmpid, tmpid)
  end.

(** The loop over the groups, [count] at most: the groups and what is left. *)
Fixpoint groups_loop (count : nat) (nexttok : option (list Z)) : list Z * option (list Z) :=
  match count with
  | O => ([], nexttok)
  | S count =>
      match strsep nexttok with
      | (None, nexttok) => ([], nexttok)
      | (Some tok, nexttok) => let '(gids, rest) := groups_loop count nexttok in ((pwtoid tok).2 :: gids, rest)
      end
  end.

(** [extract_uidgids]: the user, the group and the other groups. *)
Definition extract_uidgids (uidgids : option (list Z)) (gids_count : nat) : Z * Z * list Z :=
  match uidgids with
  | None => (0, 0, [])
  | Some s =>
      if bool_decide (s = []) then (0, 0, [])
      else
        match strsep (Some s) with
        | (Some tok, nexttok) =>
            let '(uid, gid) := pwtoid tok in
            match strsep nexttok with
            | (None, _) => (uid, gid, [])
            | (Some tok, nexttok) => (uid, (pwtoid tok).2, (groups_loop gids_count nexttok).1)
            end
        | (None, _) => (0, 0, [])
        end
  end.

Definition MAX_GIDS : nat := 10.

(** A command with its arguments, or the shell. *)
Definition exec_command (c : creds) (argv : list (list Z)) : su_end :=
  match drop 2 argv with
  | [] =>
      if k_exec k c (str "/system/bin/sh"%string) [str "sh"%string] =? 0
      then Runs c (str "/system/bin/sh"%string) [str "sh"%string] else Exits 1
  | cmd :: args =>
      let errno := k_exec k c cmd (cmd :: args) in
      if errno =? 0 then Runs c cmd (cmd :: args) else Exits (- errno)
  end.

(** [main] of a process with credentials [c]. *)
Definition su_main (c : creds) (argv : list (list Z)) : su_end :=
  if negb (c_uid c =? AID_ROOT) && negb (c_uid c =? AID_SHELL) then Exits 1
  else
    let '(uid, gid, gids) := match argv !! 1%nat with None => (0, 0, []) | Some s => extract_uidgids (Some s) MAX_GIDS end in
    if negb (bool_decide (gids = [])) && negb (k_setgroups k c gids) then Exits 1
    else
      let c := mk_creds (c_uid c) (c_gid c) (if bool_decide (gids = []) then c_groups c else gids) in
      if negb (k_setgid k c gid) then Exits 1
      else
        let c := mk_creds (c_uid c) gid (c_groups c) in
        if negb (k_setuid k c uid) then Exits 1
        else exec_command (mk_creds uid gid (c_groups c)) argv.
End su.

(** ** Properties *)

(** The names between the commas. *)
Fixpoint split_commas (s : list Z) : list (list Z) :=
  match s with
  | [] => [[]]
  | c :: s => if c =? comma then [] :: split_commas s
              else match split_commas s with t :: ts => (c :: t) :: ts | [] => [[c]] end
  end.

Lemma token_split s : split_commas s = (token s).1 :: match (token s).2 with None => [] | Some r => split_commas r end.
Proof.
  induction s as [|c s IH]; [done|]. cbn [split_commas token]. destruct (c =? comma); [done|].
  rewrite IH. by destruct (token s) as [t r].
Qed.

Section asked.
Context (getpwnam : list Z -> option (Z * Z)).

Definition user_of (tok : list Z) : Z := (pwtoid getpwnam tok).1.
Definition group_of (tok : list Z) : Z := (pwtoid getpwnam tok).2.

Lemma groups_loop_spec n r :
  (groups_loop getpwnam n r).1 = take n (group_of <$> match r with None => [] | Some s => split_commas s end).
Proof.
  revert r. induction n as [|n IH]; intros r; [by destruct r|]. cbn [groups_loop]. destruct r as [s|]; [|done]. unfold strsep.
  rewrite (token_split s). destruct (token s) as [t r']. cbn [fst snd]. specialize (IH r').
  destruct (groups_loop getpwnam n r') as [gs rest]. cbn [fst] in *. by rewrite IH.
Qed.

(** What an argument asks for: user, group, and up to ten other groups. *)
Definition asked (arg : option (list Z)) : Z * Z * list Z :=
  match arg with
  | None | Some [] => (0, 0, [])
  | Some s =>
      match split_commas s with
      | u :: g :: gs => (user_of u, group_of g, take MAX_GIDS (group_of <$> gs))
      | [u] => (user_of u, group_of u, [])
      | [] => (0, 0, [])
      end
  end.

Lemma extract_asked arg : extract_uidgids getpwnam arg MAX_GIDS = asked arg.
Proof.
  destruct arg as [[|c s]|]; [done| |done]. unfold extract_uidgids, asked. rewrite bool_decide_eq_false_2 by done.
  generalize (c :: s). clear c s. intros s. unfold strsep. rewrite (token_split s).
  destruct (token s) as [u r]. cbn [fst snd].
  assert (Eu : pwtoid getpwnam u = (user_of u, group_of u)) by apply surjective_pairing. rewrite Eu.
  destruct r as [r|]; [|done]. rewrite (token_split r). destruct (token r) as [g r']. cbn [fst snd]. f_equal.
  apply groups_loop_spec.
Qed.

(** The credentials a caller gets. *)
Definition granted (c : creds) (argv : list (list Z)) : creds :=
  let '(uid, gid, gids) := asked (argv !! 1%nat) in
  mk_creds uid gid (if bool_decide (gids = []) then c_groups c else gids).
(** The program that is run: the command, or the shell. *)
Definition program (argv : list (list Z)) : list Z * list (list Z) :=
  match drop 2 argv with
  | [] => (str "/system/bin/sh"%string, [str "sh"%string])
  | cmd :: args => (cmd, cmd :: args)
  end.
End asked.

Lemma exec_command_spec k c argv :
  exec_command k c argv = Runs c (program argv).1 (program argv).2 \/ exists n, exec_command k c argv = Exits n.
Proof. unfold exec_command, program. destruct (drop 2 argv); destruct (_ =? 0); eauto. Qed.

Lemma su_main_spec getpwnam root shell k c argv :
  su_main getpwnam root shell k c argv =
    if negb (c_uid c =? root) && negb (c_uid c =? shell) then Exits 1
    else
      let gids := (asked getpwnam (argv !! 1%nat)).2 in
      let c' := granted getpwnam c argv in
      if negb (bool_decide (gids = [])) && negb (k_setgroups k c gids) then Exits 1
      else if negb (k_setgid k (mk_creds (c_uid c) (c_gid c) (c_groups c')) (c_gid c')) then Exits 1
      else if negb (k_setuid k (mk_creds (c_uid c) (c_gid c') (c_groups c')) (c_uid c')) then Exits 1
      else exec_command k c' argv.
Proof.
  unfold su_main, granted. destruct (_ && _); [done|].
  assert (E : match argv !! 1%nat with None => (0, 0, []) | Some s => extract_uidgids getpwnam (Some s) MAX_GIDS end
              = asked getpwnam (argv !! 1%nat)) by (destruct (argv !! 1%nat); [apply extract_asked|done]).
  rewrite E. destruct (asked getpwnam (argv !! 1%nat)) as [[uid gid] gids]. done.
Qed.


(** The example of the comment before [main]. *)
Definition some_users (name : list Z) : option (Z * Z) :=
  if bool_decide (name = str "shell"%string) then Some (2000, 2000)
  else if bool_decide (name = str "net_bw_acct"%string) then Some (3007, 3007)
  else if bool_decide (name = str "net_bw_stats"%string) then Some (3006, 3006) else None.
Definition willing : kernel := mk_kernel (fun _ _ => true) (fun _ _ => true) (fun _ _ => true) (fun _ _ _ => 0).
Example su_usage :
  su_main some_users 0 2000 willing (mk_creds 2000 2000 [3003])
    [str "su"%string; str "1000,shell,net_bw_acct,net_bw_stats"%string; str "id"%string] =
  Runs (mk_creds 1000 2000 [3007; 3006]) (str "id"%string) [str "id"%string].
Proof. by vm_compute. Qed.

(** A name that is not known is the number 0: the command runs as root. *)
Example unknown_user_is_root :
  su_main some_users 0 2000 willing (mk_creds 2000 2000 [3003]) [str "su"%string; str "nobody"%string; str "id"%string] =
  Runs (mk_creds 0 0 [3003]) (str "id"%string) [str "id"%string].
Proof. by vm_compute. Qed.

