(* ===== verification/Ext2simg.v ===== *)
(** * A sparse image of an existing file system (ext4_utils/ext2simg.c)

    The blocks that the bitmaps of the groups mark are queued in runs for the sparse
    file, each to be read from the input at its own place. The input is the device of
    Fixup, which has the same file operations; errors leave by [exit]. *)

From S2P Require Import Prelude Bytes Layout Ext4Info Inode Bitmap BlockGroup Regions Alloc Super Fixup.

Section ext2simg.
Context (force : bool) (filename : list Z).

(** [static int read_ext(int fd)]: the globals it sets. *)
Definition simg_read_ext (info : fs_info) : M fixup (fs_info * fs_aux_info * nat) :=
  do sb <- read_sb;
  do src <- in_world (calloc sizeof_super_block);
  in_world (copy_to_buf src 0 sb);;;
  do r <- in_world (ext4_parse_sb force info src);
  let '(info, aux, _, bg_desc) := r in
  do ret <- lseek64 (fs_len info);
  check (0 <=? ret);;;
  do ret <- lseek64 (u32 (block_size info * u32 (first_data_block aux + 1)));
  check (0 <=? ret);;;
  do desc <- read_dev (u32 (block_size info * bg_desc_blocks aux));
  check (length_is desc (s32 (block_size info) * s32 (bg_desc_blocks aux)));;;
  in_world (copy_to_buf bg_desc 0 desc);;;
  mret' (info, aux, bg_desc).

Section build.
Context (info : fs_info) (aux : fs_aux_info) (bg_desc : nat).

Definition sparse_file_add_file (file_offset len block : Z) : M fixup unit :=
  in_world (sparse_file_add_data (SrcFile filename file_offset) len block).

(** A run of blocks of a group. *)
Definition add_run (first_block start block : Z) : M fixup unit :=
  let start_block := u32 (first_block + start) in
  let len_blocks := u32 (block - start) in
  sparse_file_add_file (u64 (block_size info * start_block)) (u32 (block_size info * len_blocks)) start_block.

(** The loop over the blocks of a group; the result is [start_contiguous_block]. *)
Fixpoint scan_blocks (bitmap : list Z) (first_block : Z) (blocks : list Z) (start : Z) : M fixup Z :=
  match blocks with
  | [] => mret' start
  | block :: blocks =>
      do bit <- deref (bitmap_get_bit bitmap block);
      if 0 <=? start then
        if negb bit then add_run first_block start block;;; scan_blocks bitmap first_block blocks (-1)
        else scan_blocks bitmap first_block blocks start
      else scan_blocks bitmap first_block blocks (if bit : bool then s32 block else start)
  end.

(** The bitmap of a group, from its block. *)
Definition read_bitmap (bitmap_block : Z) : M fixup (list Z) :=
  do ret <- lseek64 (s64 (u64 (block_size info * bitmap_block)));
  check (0 <=? ret);;;
  do bitmap <- read_dev (block_size info);
  check (length_is bitmap (s32 (block_size info)));;;
  mret' bitmap.

Definition scan_group (i : Z) : M fixup unit :=
  let first_block := u32 (first_data_block aux + u32 (i * blocks_per_group info)) in
  let last_block := u32 (Z.min (blocks_per_group info) (u64 (len_blocks aux - first_block))) in
  do bitmap_block <- in_world (member bg_desc (i * sizeof_group_desc) bg_block_bitmap);
  do bitmap <- read_bitmap bitmap_block;
  do start <- scan_blocks bitmap first_block (seqZ 0 last_block) (-1);
  if 0 <=? start then add_run first_block start last_block else mret' tt.

Fixpoint scan_groups (l : list Z) : M fixup unit :=
  match l with
  | [] => mret' tt
  | i :: l => scan_group i;;; scan_groups l
  end.

(** [static int build_sparse_ext(int fd, const char *filename)]. *)
Definition build_sparse_ext : M fixup Z :=
  (if 0 <? first_data_block aux then sparse_file_add_file 0 (u32 (block_size info * first_data_block aux)) 0 else mret' tt);;;
  scan_groups (seqZ 0 (groups aux));;;
  mret' 0.
End build.

(** [main] up to the output by libsparse: the parameters, and the queued runs are left
    in the state. *)
Definition ext2simg (info : fs_info) : M fixup (fs_info * fs_aux_info) :=
  do r <- simg_read_ext info;
  let '(info, aux, bg_desc) := r in
  do _ <- build_sparse_ext info aux bg_desc;
  mret' (info, aux).
End ext2simg.
