(* ===== verification/Ext2simgProps.v ===== *)
(** * What ext2simg queues (properties of Ext2simg)

    The runs are the marked blocks of the groups, in order, each once and from its own
    place in the input. *)

From S2P Require Import Prelude Bytes Layout Ext4Info Inode Bitmap BlockGroup Regions Alloc Buffers Super SuperSpec MakeExt4fs Fixup Ext2simg.

(** ** The state *)

(** More queued runs, and another position in the input. *)
Definition queued (ops : list sparse_op) (s s' : fixup) : Prop :=
  fx_dev s' = fx_dev s /\ w_bufs (fx_world s') = w_bufs (fx_world s) /\
  w_sparse (fx_world s') = rev ops ++ w_sparse (fx_world s).

Lemma queued_nil s : queued [] s s.
Proof. done. Qed.
Lemma queued_app ops1 ops2 s1 s2 s3 : queued ops1 s1 s2 -> queued ops2 s2 s3 -> queued (ops1 ++ ops2) s1 s3.
Proof.
  intros (Hd1 & Hb1 & Hs1) (Hd2 & Hb2 & Hs2). split_and!; [congruence|congruence|].
  by rewrite Hs2, Hs1, rev_app_distr, <-app_assoc.
Qed.

Lemma bitmap_get_bit_done bm b : 0 <= b < 8 * Z.of_nat (length bm) -> bitmap_get_bit bm b = Some (bit bm b).
Proof.
  intros Hb. unfold bitmap_get_bit, bit. destruct (zget_some bm (b / 8)) as [x E]; [dlia|]. rewrite E. cbn. f_equal.
  pose proof (land_mask_zero x b) as H. unfold bit_mask in H.
  destruct (Z.eqb_spec (Z.land x (Z.shiftl 1 (b mod 8))) 0) as [E0|E0]; cbn.
  - symmetry. by apply H.
  - destruct (Z.testbit x (b mod 8)); [done|]. by destruct E0; apply H.
Qed.

Section runs.
Context (filename : list Z) (info : fs_info).
Context (Hbs : 0 < block_size info < 2 ^ 31).

Definition op_blocks (op : sparse_op) : list Z := seqZ (so_block op) (so_len op / block_size info).
Definition blocks_of (ops : list sparse_op) : list Z := mjoin (op_blocks <$> ops).
(** A run of whole blocks that is read from its own place. *)
Definition in_place (op : sparse_op) : Prop :=
  so_src op = SrcFile filename (block_size info * so_block op) /\ exists n, 1 <= n /\ so_len op = block_size info * n.

Lemma blocks_of_app ops1 ops2 : blocks_of (ops1 ++ ops2) = blocks_of ops1 ++ blocks_of ops2.
Proof. unfold blocks_of. by rewrite fmap_app, join_app. Qed.

Lemma add_run_done f start b s :
  0 <= f -> 0 <= start < b -> f + b <= 2 ^ 32 -> block_size info * b < 2 ^ 32 ->
  exists op s', add_run filename info f start b s = Done tt s' /\ queued [op] s s' /\ in_place op /\
    op_blocks op = seqZ (f + start) (b - start).
Proof.
  intros Hf Hs Hb Hl. assert (Hb' : b < 2 ^ 32) by nia. unfold add_run.
  rewrite !(u32_small (f + start)), (u32_small (b - start)) by lia.
  assert (H1 : 0 <= block_size info * (b - start) < 2 ^ 32) by nia.
  assert (H2 : 0 <= block_size info * (f + start) < 2 ^ 64) by nia.
  rewrite (u32_small (block_size info * (b - start))), u64_small by done.
  eexists (mk_sparse _ _ _), _. split; [reflexivity|]. split; [done|]. unfold in_place, op_blocks. cbn. split_and!.
  - done.
  - exists (b - start). split; [lia|done].
  - f_equal. rewrite Z.mul_comm. apply Z.div_mul. lia.
Qed.

(** The blocks of a group that its bitmap marks, and those of a run that is not yet
    queued. *)
Definition marked (bm : list Z) (f : Z) (l : list Z) : list Z := (fun k => f + k) <$> filter (fun k => bit bm k = true) l.
Definition pending (f start b : Z) : list Z := if 0 <=? start then seqZ (f + start) (b - start) else [].

Lemma pending_extend f start b : 0 <= start <= b -> pending f start (b + 1) = pending f start b ++ [f + b].
Proof.
  intros H. unfold pending. rewrite (proj2 (Z.leb_le 0 start)) by lia.
  replace (b + 1 - start) with (b - start + 1) by lia. rewrite seqZ_app by lia. f_equal.
  rewrite seqZ_cons by lia. rewrite seqZ_nil by lia. f_equal. lia.
Qed.

Lemma scan_blocks_done bm f n b start s :
  0 <= f -> 0 <= b -> b + Z.of_nat n <= 8 * Z.of_nat (length bm) -> f + (b + Z.of_nat n) <= 2 ^ 32 ->
  block_size info * (b + Z.of_nat n) < 2 ^ 32 -> b + Z.of_nat n <= 2 ^ 31 -> start = -1 \/ 0 <= start < b ->
  exists ops start' s', scan_blocks filename info bm f (seqZ b (Z.of_nat n)) start s = Done start' s' /\ queued ops s s' /\
    Forall in_place ops /\ (start' = -1 \/ 0 <= start' < b + Z.of_nat n) /\
    blocks_of ops ++ pending f start' (b + Z.of_nat n) = pending f start b ++ marked bm f (seqZ b (Z.of_nat n)).
Proof.
  intros Hf. revert b start s. induction n as [|n IH]; intros b start s Hb Hbm H32 Hl H31 Hst.
  - exists [], start, s. rewrite seqZ_nil by lia. rewrite Z.add_0_r. split_and!; try done. by rewrite app_nil_r.
  - rewrite Nat2Z.inj_succ in *. rewrite seqZ_cons by lia. replace (Z.pred (Z.succ (Z.of_nat n))) with (Z.of_nat n) by lia.
    cbn [scan_blocks]. rewrite bitmap_get_bit_done by lia. cbn [deref]. erewrite mbind_done by done.
    replace (b + Z.succ (Z.of_nat n)) with (Z.succ b + Z.of_nat n) in * by lia.
    assert (Em : marked bm f (b :: seqZ (Z.succ b) (Z.of_nat n)) =
                 (if bit bm b then [f + b] else []) ++ marked bm f (seqZ (Z.succ b) (Z.of_nat n))).
    { unfold marked. rewrite filter_cons. destruct (bit bm b); [by rewrite decide_True|by rewrite decide_False]. }
    rewrite Em. destruct Hst as [->|Hst].
    + rewrite (proj2 (Z.leb_gt 0 (-1))) by lia. destruct (bit bm b).
      * rewrite s32_small by lia.
        destruct (IH (Z.succ b) b s) as (ops & st & s' & E & Hq & Hp & Hr & Eb); [lia..|].
        exists ops, st, s'. split_and!; [done|done|done|lia|]. rewrite Eb.
        change (Z.succ b) with (b + 1). rewrite pending_extend by lia.
        unfold pending at 1. rewrite (proj2 (Z.leb_le 0 b)), Z.sub_diag, seqZ_nil by lia. done.
      * destruct (IH (Z.succ b) (-1) s) as (ops & st & s' & E & Hq & Hp & Hr & Eb); [lia..|].
        exists ops, st, s'. split_and!; [done|done|done|lia|]. by rewrite Eb.
    + rewrite (proj2 (Z.leb_le 0 start)) by lia. destruct (bit bm b); cbn [negb].
      * destruct (IH (Z.succ b) start s) as (ops & st & s' & E & Hq & Hp & Hr & Eb); [lia..|].
        exists ops, st, s'. split_and!; [done|done|done|lia|]. rewrite Eb.
        change (Z.succ b) with (b + 1). rewrite pending_extend by lia. by rewrite <-app_assoc.
      * destruct (add_run_done f start b s) as (op & s1 & E1 & Hq1 & Hp1 & Eo); [lia|lia|lia|nia|].
        rewrite (mbind_done _ _ _ _ _ E1).
        destruct (IH (Z.succ b) (-1) s1) as (ops & st & s' & E & Hq & Hp & Hr & Eb); [lia..|].
        exists (op :: ops), st, s'. split_and!; [done|by apply (queued_app [op] ops _ s1)|by constructor|lia|].
        change (op :: ops) with ([op] ++ ops). rewrite blocks_of_app, <-app_assoc, Eb.
        unfold blocks_of, pending at 2. cbn [fmap list_fmap mjoin list_join]. rewrite Eo, app_nil_r.
        rewrite (proj2 (Z.leb_le 0 start)) by lia. done.
Qed.

(** ** A group *)

Context (aux : fs_aux_info) (bg_desc : nat).
Context (Hbpg : 0 < blocks_per_group info <= 8 * block_size info) (Hlen : block_size info * blocks_per_group info < 2 ^ 32).
Context (Hblocks : 0 <= first_data_block aux < len_blocks aux) (Hmax : len_blocks aux <= 2 ^ 32).

Definition group_first (i : Z) : Z := first_data_block aux + i * blocks_per_group info.
Definition group_len (i : Z) : Z := Z.min (blocks_per_group info) (len_blocks aux - group_first i).
(** The block of the device that the descriptor of a group names as its bitmap. *)
Definition group_bitmap (dev desc : list Z) (i : Z) : list Z :=
  match load 4 desc (i * sizeof_group_desc) with
  | Some bb => take (Z.to_nat (block_size info)) (drop (Z.to_nat (block_size info * bb)) dev)
  | None => []
  end.
(** Each group starts within the file system, and its bitmap is on the device. *)
Definition group_ok (dev desc : list Z) (i : Z) : Prop :=
  0 <= i /\ group_first i < len_blocks aux /\
  exists bb, load 4 desc (i * sizeof_group_desc) = Some bb /\ 0 <= bb /\
    block_size info * (bb + 1) <= Z.of_nat (length dev) < 2 ^ 63.
Definition group_marked (dev desc : list Z) (i : Z) : list Z :=
  marked (group_bitmap dev desc i) (group_first i) (seqZ 0 (group_len i)).

Lemma read_bitmap_done bb s :
  0 <= bb -> block_size info * (bb + 1) <= Z.of_nat (length (fx_dev s)) < 2 ^ 63 ->
  exists s', read_bitmap info bb s
  = Done (take (Z.to_nat (block_size info)) (drop (Z.to_nat (block_size info * bb)) (fx_dev s))) s' /\ queued [] s s'.
Proof.
  intros Hb Hd. unfold read_bitmap. rewrite u64_small, s64_small, s32_small by nia.
  assert (0 <= block_size info * bb) by nia.
  exists (set_fx_dev (fx_dev s) (block_size info * bb + block_size info) s). split; [|done].
  unfold lseek64, read_dev, mbind', check, length_is. rewrite (proj2 (Z.ltb_ge (block_size info * bb) 0)) by lia.
  rewrite (proj2 (Z.leb_le 0 (block_size info * bb))) by lia. cbn [mret'] . cbn [fx_pos fx_dev set_fx_dev].
  rewrite length_take, length_drop, Nat.min_l by lia. rewrite Z2Nat.id, Z.eqb_refl by lia. done.
Qed.

Lemma in_world_done {A} (m : M world A) v (s : fixup) :
  m (fx_world s) = Done v (fx_world s) -> in_world m s = Done v s.
Proof. intros E. unfold in_world, zoom. rewrite E. by destruct s. Qed.

Lemma scan_group_done desc i s :
  w_bufs (fx_world s) !! bg_desc = Some desc -> group_ok (fx_dev s) desc i ->
  exists ops s', scan_group filename info aux bg_desc i s = Done tt s' /\ queued ops s s' /\ Forall in_place ops /\
    blocks_of ops = group_marked (fx_dev s) desc i.
Proof.
  intros Ed (Hi & Hf & bb & El & Hb & Hd). unfold scan_group, group_marked, group_bitmap. rewrite El.
  unfold group_first, group_len in *. unfold group_first.
  assert (Hib : 0 <= i * blocks_per_group info) by nia.
  rewrite (u32_small (i * _)), (u32_small (first_data_block aux + _)), u64_small by lia.
  set (f := first_data_block aux + i * blocks_per_group info) in *.
  set (n := Z.min (blocks_per_group info) (len_blocks aux - f)) in *.
  rewrite (u32_small n) by nia.
  erewrite mbind_done by (apply in_world_done; eapply member_done; [exact Ed|cbn; rewrite Z.add_0_r; exact El]).
  destruct (read_bitmap_done bb s Hb Hd) as (s1 & E1 & Hq1). rewrite (mbind_done _ _ _ _ _ E1).
  set (bm := take _ _) in *.
  assert (Hbm : Z.of_nat (length bm) = block_size info) by (unfold bm; rewrite length_take, length_drop; nia).
  assert (Hn : 0 < n <= blocks_per_group info) by lia.
  destruct (scan_blocks_done bm f (Z.to_nat n) 0 (-1) s1) as (ops & st & s2 & E2 & Hq2 & Hp2 & Hr & Eb); [lia|lia|lia|lia|nia|nia|lia|].
  rewrite Z2Nat.id in E2, Hr, Eb by lia. rewrite Z.add_0_l in Hr, Eb. rewrite (mbind_done _ _ _ _ _ E2). unfold pending in Eb at 2. cbn [Z.leb Z.compare app] in Eb.
  destruct Hr as [->|Hr].
  - exists ops, s2. split; [done|]. split; [by apply (queued_app [] ops s s1)|]. split; [done|]. by rewrite <-Eb, app_nil_r.
  - rewrite (proj2 (Z.leb_le 0 st)) by lia.
    destruct (add_run_done f st n s2) as (op & s3 & E3 & Hq3 & Hp3 & Eo); [lia|lia|lia|nia|]. rewrite E3.
    exists (ops ++ [op]), s3. split; [done|]. split.
    { apply (queued_app [] _ s s1 s3); [done|]. by apply (queued_app _ _ s1 s2). }
    split; [apply Forall_app; split; [done|by constructor]|].
    rewrite blocks_of_app, <-Eb. unfold pending. rewrite (proj2 (Z.leb_le 0 st)) by lia. f_equal.
    unfold blocks_of. cbn. by rewrite Eo, app_nil_r.
Qed.

Lemma scan_groups_done desc l s :
  w_bufs (fx_world s) !! bg_desc = Some desc -> Forall (group_ok (fx_dev s) desc) l ->
  exists ops s', scan_groups filename info aux bg_desc l s = Done tt s' /\ queued ops s s' /\ Forall in_place ops /\
    blocks_of ops = mjoin (group_marked (fx_dev s) desc <$> l).
Proof.
  revert s. induction l as [|i l IH]; intros s Ed Hl; [by exists [], s|]. apply Forall_cons in Hl as [Hi Hl].
  destruct (scan_group_done desc i s Ed Hi) as (ops1 & s1 & E1 & Hq1 & Hp1 & Eb1). cbn [scan_groups].
  rewrite (mbind_done _ _ _ _ _ E1). destruct Hq1 as (Hd & Hb & Hs).
  destruct (IH s1) as (ops2 & s2 & E2 & Hq2 & Hp2 & Eb2); [by rewrite Hb|by rewrite Hd|]. rewrite Hd in Eb2.
  exists (ops1 ++ ops2), s2. split; [done|]. split; [apply (queued_app _ _ s s1); [done|exact Hq2]|]. split; [by apply Forall_app|].
  by rewrite blocks_of_app, Eb1, Eb2.
Qed.
End runs.

(** ** Properties *)

(** C39: what ext2simg copies is what the file system uses. When the groups start within
    the file system and their bitmaps are on the device, the loop over the groups
    succeeds, changes nothing but the queue and the position, and every queued run is
    read from the place in the input that it has in the image. The blocks of the runs
    are, in order and each once, the ones before the first data block and then, group
    by group, exactly those whose bit the group's bitmap sets. *)
Theorem ext2simg_queues_used (filename : list Z) (info : fs_info) (aux : fs_aux_info) (bg_desc : nat) (desc : list Z) (s : fixup)
  (Hbs : 0 < block_size info < 2 ^ 31) (Hbpg : 0 < blocks_per_group info <= 8 * block_size info)
  (Hlen : block_size info * blocks_per_group info < 2 ^ 32)
  (Hblocks : 0 <= first_data_block aux < len_blocks aux) (Hfirst : block_size info * first_data_block aux < 2 ^ 32)
  (Hmax : len_blocks aux <= 2 ^ 32) (Hdesc : w_bufs (fx_world s) !! bg_desc = Some desc)
  (Hgroups : Forall (group_ok info aux (fx_dev s) desc) (seqZ 0 (groups aux))) :
  exists ops s', build_sparse_ext filename info aux bg_desc s = Done 0 s' /\ queued ops s s' /\
    Forall (in_place filename info) ops /\
    blocks_of info ops = seqZ 0 (first_data_block aux) ++ mjoin (group_marked info aux (fx_dev s) desc <$> seqZ 0 (groups aux)).
Proof.
  assert (E1 : exists ops s1, (if 0 <? first_data_block aux
      then sparse_file_add_file filename 0 (u32 (block_size info * first_data_block aux)) 0 else mret' tt) s = Done tt s1 /\
      queued ops s s1 /\ Forall (in_place filename info) ops /\ blocks_of info ops = seqZ 0 (first_data_block aux)).
  { destruct (Z.ltb_spec 0 (first_data_block aux)) as [Hp|Hp].
    - rewrite u32_small by nia. eexists [mk_sparse _ _ _], _. split; [reflexivity|]. split; [done|].
      unfold blocks_of, op_blocks, in_place. cbn. rewrite app_nil_r. split.
      + constructor; [|done]. cbn. rewrite Z.mul_0_r. split; [done|]. exists (first_data_block aux). split; [lia|done].
      + f_equal. rewrite Z.mul_comm. apply Z.div_mul. lia.
    - exists [], s. split_and!; try done. by rewrite seqZ_nil by lia. }
  destruct E1 as (ops1 & s1 & E1 & (Hd1 & Hb1 & Hs1) & Hp1 & Eb1).
  destruct (scan_groups_done filename info Hbs aux bg_desc Hbpg Hlen Hblocks Hmax desc (seqZ 0 (groups aux)) s1)
    as (ops2 & s2 & E2 & Hq2 & Hp2 & Eb2); [by rewrite Hb1|by rewrite Hd1|].
  exists (ops1 ++ ops2), s2. split_and!.
  - unfold build_sparse_ext. rewrite (mbind_done _ _ _ _ _ E1). by rewrite (mbind_done _ _ _ _ _ E2).
  - by apply (queued_app _ _ s s1).
  - by apply Forall_app.
  - by rewrite blocks_of_app, Eb1, Eb2, Hd1.
Qed.

(** Two groups of eight blocks of 16 bytes, the last cut to five, with block 0 before
    them: the bitmaps are in blocks 3 and 4. *)
Definition two_groups_info : fs_info := mk_fs_info 224 16 8 8 128 16 0 0 0 0 0 [] 0.
Definition two_groups_aux : fs_aux_info := mk_fs_aux_info 1 14 1 2 4 0 0 0 0.
Definition two_groups_desc : list Z := 3 :: replicate 31 0 ++ 4 :: replicate 31 0.
Definition two_groups_dev : list Z := replicate 48 0 ++ 0xcf :: replicate 15 0 ++ 0x12 :: replicate 15 0.
Definition two_groups : fixup := mk_fixup (set_bufs [two_groups_desc] empty_world) two_groups_dev 0 false 0 0.

Lemma ext2simg_queues_used_witness : exists ops s',
  build_sparse_ext [105] two_groups_info two_groups_aux 0 two_groups = Done 0 s' /\ queued ops two_groups s' /\
  blocks_of two_groups_info ops = [0; 1; 2; 3; 4; 7; 8; 10; 13].
Proof.
  destruct (ext2simg_queues_used [105] two_groups_info two_groups_aux 0 two_groups_desc two_groups) as (ops & s' & E & Hq & Hp & Eb).
  - done.
  - done.
  - done.
  - done.
  - done.
  - done.
  - done.
  - change (seqZ 0 (groups two_groups_aux)) with [0; 1]. apply Forall_cons; split; [|apply Forall_cons; split; [|apply Forall_nil_2]].
    + split; [done|]. split; [done|]. exists 3. split; [vm_compute; reflexivity|]. done.
    + split; [done|]. split; [done|]. exists 4. split; [vm_compute; reflexivity|]. done.
  - exists ops, s'. split; [exact E|]. split; [exact Hq|]. rewrite Eb. vm_compute. reflexivity.
Defined.
