(* ===== verification/Jni.v ===== *)
(** * The JNI on two sides of a connection (memory, values and state)

    A native method in the wrapper process calls the JNI through JniRemote; the calls
    are carried out by BpWrapper in the application. Both sides are 32-bit and
    little-endian; a block of memory is the list of its bytes. What is read behind the
    end of a block, what [malloc] leaves in one, the conversions of floating point
    numbers and the virtual machine itself are the class [platform]. Values are the bit
    patterns of their types. *)

From Stdlib Require Import String.
From S2P Require Import Prelude Bytes ExecutionLists.

(** The types of the JNI; the handles ([jclass], [jmethodID], ...) are [JObject], [jsize]
    is [JInt]. *)
Inductive jtype := JObject | JBoolean | JByte | JChar | JShort | JInt | JLong | JFloat | JDouble.
Definition size_of (t : jtype) : nat :=
  match t with
  | JBoolean | JByte => 1
  | JChar | JShort => 2
  | JObject | JInt | JFloat => 4
  | JLong | JDouble => 8
  end.
Definition bits (t : jtype) (v : Z) : Z := v mod 256 ^ Z.of_nat (size_of t).

(** A call of a function of the virtual machine: numbers and the contents of what
    pointers point to; its result, the taint it sets and the bytes it writes or that its
    result points to. *)
Record request := Req { rq_name : string; rq_args : list Z; rq_data : list (list Z) }.
Record answer := Ans { an_val : Z; an_taint : Z; an_data : list Z }.

Class platform (E : Type) := {
  slack : Z -> option Z;               (* the byte behind a block; [None]: the access fails *)
  fresh : Z -> Z;
  jni : request -> E -> answer * E;
  poke : Z -> list Z -> E -> E;        (* writing to an address of the application *)
  int_of_float : Z -> Z;
  int_of_double : Z -> Z;
  long_of_double : Z -> Z;
  float_of_int : Z -> Z;
  double_of_long : Z -> Z
}.

(** ** Memory *)

Section memory.
Context {E : Type} `{platform E} {S : Type}.

Definition peek_byte (buf : list Z) (i : Z) : option Z :=
  if i <? 0 then None
  else match buf !! Z.to_nat i with Some b => Some b | None => slack (i - Z.of_nat (length buf)) end.
Definition peek (buf : list Z) (off n : Z) : option (list Z) := mapM (peek_byte buf) (seqZ off n).
Definition peek_value (n : nat) (buf : list Z) (off : Z) : option Z := le_value <$> peek buf off (Z.of_nat n).

(** The string at an offset, without the terminator. *)
Fixpoint until_zero (bs : list Z) : option (list Z) :=
  match bs with
  | [] => None
  | b :: bs => if b =? 0 then Some [] else cons b <$> until_zero bs
  end.
Definition c_string (buf : list Z) (off : Z) : option (list Z) :=
  if off <? 0 then None else until_zero (drop (Z.to_nat off) buf).

Definition malloc (n : Z) : M S (list Z) := if n <? 0 then stuck else mret' (fresh <$> seqZ 0 n).
(** [memcpy] and assignments through a pointer into a block; [memset]. *)
Definition put_bytes (buf : list Z) (off : Z) (bs : list Z) : M S (list Z) := deref (write_bytes buf off bs).
Definition put_int (buf : list Z) (off v : Z) : M S (list Z) := put_bytes buf off (le_bytes 4 v).
Definition put_long (buf : list Z) (off v : Z) : M S (list Z) := put_bytes buf off (le_bytes 8 v).
Definition fill (buf : list Z) (off byte n : Z) : M S (list Z) :=
  if n <? 0 then stuck else put_bytes buf off (replicate (Z.to_nat n) (u8 byte)).

(** The conversions [(int) v], [(jlong) v], and from an [int] and a [jlong]. *)
Definition to_int (t : jtype) (v : Z) : Z :=
  match t with
  | JByte => u32 (if v <? 128 then v else v - 256)
  | JShort => u32 (if v <? 32768 then v else v - 65536)
  | JFloat => int_of_float v
  | JDouble => int_of_double v
  | _ => u32 v
  end.
Definition to_long (t : jtype) (v : Z) : Z := match t with JDouble => long_of_double v | _ => v end.
Definition of_int (t : jtype) (w : Z) : Z := match t with JFloat => float_of_int w | _ => bits t w end.
Definition of_long (t : jtype) (w : Z) : Z := match t with JDouble => double_of_long w | _ => w end.
End memory.

(** ** State *)

(** The members of [BpWrapper], and the virtual machine. *)
Record proxy (E : Type) := mk_proxy {
  replydata : list Z;
  replytaint : list Z;
  replylength : Z;
  p_size : Z;
  p_taintsize : Z;
  callbackdata : list Z;
  vm : E
}.
Arguments mk_proxy {E}.
Arguments replydata {E}.
Arguments replytaint {E}.
Arguments replylength {E}.
Arguments p_size {E}.
Arguments p_taintsize {E}.
Arguments callbackdata {E}.
Arguments vm {E}.

(** The [ExecutionManager] of the native method: the member of [jniCall] that some
    functions do not set, and the lists; [next_block] is the address of the next block
    whose address is kept. *)
Record native := mk_native {
  jc_taintsize : Z;
  sigList : list sigList_t;
  arrayList : list arrayList_t;
  charsList : list stringMap_t;
  next_block : Z
}.
Record session (E : Type) := mk_session { s_native : native; s_proxy : proxy E }.
Arguments mk_session {E}.
Arguments s_native {E}.
Arguments s_proxy {E}.
