(* ===== verification/BpWrapper.v ===== *)
(** * The calls of the JNI in the application (wrapper/BpWrapper.cpp)

    [handleJNIRequest] reads a request of the native side from the reply to a
    transaction, and the function of its number takes the parameters from [replydata],
    calls the virtual machine and leaves the result in [callbackdata]. The macros of the
    file are definitions with the type they are used at; a pointer into [replydata] is
    the rest of the block. *)

From Stdlib Require Import String.
From S2P Require Import Prelude Bytes Jni.

Section handlers.
Context {E : Type} `{platform E}.

(** ** Parameters and results *)

Definition call (name : string) (args : list Z) (data : list (list Z)) : M (proxy E) answer := fun p =>
  let '(a, e) := jni (Req name args data) (vm p) in
  Done a (mk_proxy (replydata p) (replytaint p) (replylength p) (p_size p) (p_taintsize p) (callbackdata p) e).
(** A number of [n] bytes at an offset of [replydata]; an element of it as an array of [int]. *)
Definition reply_value (n : nat) (off : Z) : M (proxy E) Z := do p <- get; deref (peek_value n (replydata p) off).
Definition idata (i : Z) : M (proxy E) Z := reply_value 4 (4 * i).
Definition reply_bytes (off n : Z) : M (proxy E) (list Z) := do p <- get; deref (peek (replydata p) off n).
Definition reply_string (off : Z) : M (proxy E) (list Z) := do p <- get; deref (c_string (replydata p) off).
(** A pointer to an offset. *)
Definition reply_from (off : Z) : M (proxy E) (list Z) := do p <- get; mret' (drop (Z.to_nat off) (replydata p)).
Definition poke_vm (address : Z) (bs : list Z) : M (proxy E) unit :=
  modify (fun p => mk_proxy (replydata p) (replytaint p) (replylength p) (p_size p) (p_taintsize p) (callbackdata p) (poke address bs (vm p))).

Definition set_callback (data : list Z) : M (proxy E) unit :=
  modify (fun p => mk_proxy (replydata p) (replytaint p) (replylength p) (p_size p) (p_taintsize p) data (vm p)).
Definition answer_with (size taintsize : Z) (data : list Z) : M (proxy E) unit :=
  modify (fun p => mk_proxy (replydata p) (replytaint p) (replylength p) size taintsize data (vm p)).
(** [size = sizeof(result); taintsize = 0; callbackdata = malloc(size);] and the copy. *)
Definition respond (t : jtype) (result : Z) : M (proxy E) unit :=
  let size := Z.of_nat (size_of t) in
  do data <- malloc size;
  do data <- put_bytes data 0 (le_bytes (size_of t) result);
  answer_with size 0 data.
Definition respond_nothing : M (proxy E) unit := answer_with 0 0 [].

(** The words of a block from one on, or-ed. *)
Definition or_words (buf : list Z) (from n : Z) : M (proxy E) Z :=
  do ws <- deref (mapM (fun j => peek_value 4 buf (4 * (from + j))) (seqZ 0 n));
  mret' (foldl Z.lor 0 ws).
Fixpoint put_words (data : list Z) (from : Z) (n : nat) (v : Z) : M (proxy E) (list Z) :=
  match n with
  | O => mret' data
  | S n => do data <- put_int data (4 * from) v; put_words data (from + 1) n v
  end.
(** A block of [n] bytes with a result and its taint as its first two words. *)
Definition result_words (n result taint : Z) : M (proxy E) (list Z) :=
  do data <- malloc n;
  do data <- put_int data 0 result;
  put_int data 4 taint.
(** [memcpy] from a pointer that the virtual machine returned. *)
Definition copy_from (a : answer) (n : Z) : M (proxy E) (list Z) := deref (if n <? 0 then None else peek (an_data a) 0 n).

(** ** Functions without taint *)

Definition callGetVersion : M (proxy E) unit :=
  do r <- call "GetVersion" [] [];
  respond JObject (an_val r).
(** The terminator is written at the end of the parameters. *)
Definition terminate : M (proxy E) unit :=
  do p <- get;
  do data <- put_bytes (replydata p) (replylength p - 1) [0];
  modify (fun p => mk_proxy data (replytaint p) (replylength p) (p_size p) (p_taintsize p) (callbackdata p) (vm p)).
Definition callFindClass : M (proxy E) unit :=
  terminate;;;
  do chars <- reply_string 0;
  do r <- call "FindClass" [] [chars];
  respond JObject (an_val r).
(** The functions of one word. *)
Definition call1 (name : string) (t : jtype) : M (proxy E) unit :=
  do w <- idata 0;
  do r <- call name [w] [];
  respond t (an_val r).
Definition call2 (name : string) (t : jtype) : M (proxy E) unit :=
  do w0 <- idata 0;
  do w1 <- idata 1;
  do r <- call name [w0; w1] [];
  respond t (an_val r).
Definition call1_void (name : string) : M (proxy E) unit :=
  do w <- idata 0;
  do _ <- call name [w] [];
  respond_nothing.
Definition callGetSuperclass : M (proxy E) unit := call1 "GetSuperclass" JObject.
Definition callIsAssignableFrom : M (proxy E) unit := call2 "IsAssignableFrom" JBoolean.
Definition callAllocObject : M (proxy E) unit := call1 "AllocObject" JObject.
Definition callThrow : M (proxy E) unit := call1 "Throw" JInt.
Definition callThrowNew : M (proxy E) unit :=
  do jclazz <- idata 0;
  do message <- reply_string 4;
  do r <- call "ThrowNew" [jclazz] [message];
  respond JInt (an_val r).
Definition callExceptionOccurred : M (proxy E) unit :=
  do r <- call "ExceptionOccurred" [] [];
  respond JObject (an_val r).
Definition callExceptionDescribe : M (proxy E) unit := do _ <- call "ExceptionDescribe" [] []; respond_nothing.
Definition callExceptionClear : M (proxy E) unit := do _ <- call "ExceptionClear" [] []; respond_nothing.
(** [malloc(result)]. *)
Definition callExceptionCheck : M (proxy E) unit :=
  do r <- call "ExceptionCheck" [] [];
  do data <- malloc (bits JBoolean (an_val r));
  do data <- put_bytes data 0 (le_bytes (size_of JBoolean) (an_val r));
  answer_with 1 0 data.
(** A class, a name and a signature. *)
Definition get_id (name : string) : M (proxy E) unit :=
  do jclazz <- idata 0;
  do n <- reply_string 4;
  do sig <- reply_string (4 + (Z.of_nat (length n) + 1));
  do r <- call name [jclazz] [n; sig];
  respond JObject (an_val r).
Definition callGetMethodID : M (proxy E) unit := get_id "GetMethodID".
Definition callGetFieldID : M (proxy E) unit := get_id "GetFieldID".
Definition callGetStaticMethodID : M (proxy E) unit := get_id "GetStaticMethodID".
Definition callGetStaticFieldID : M (proxy E) unit := get_id "GetStaticFieldID".
Definition callGetObjectClass : M (proxy E) unit := call1 "GetObjectClass" JObject.
Definition callIsInstanceOf : M (proxy E) unit := call2 "IsInstanceOf" JBoolean.
Definition callNewLocalRef : M (proxy E) unit := call1 "NewLocalRef" JObject.
Definition callNewGlobalRef : M (proxy E) unit := call1 "NewGlobalRef" JObject.
Definition callDeleteGlobalRef : M (proxy E) unit := call1_void "DeleteGlobalRef".
Definition callDeleteLocalRef : M (proxy E) unit := call1_void "DeleteLocalRef".
Definition callIsSameObject : M (proxy E) unit := call2 "IsSameObject" JBoolean.
Definition callFromReflectedMethod : M (proxy E) unit := call1 "FromReflectedMethod" JObject.
Definition callFromReflectedField : M (proxy E) unit := call1 "FromReflectedField" JObject.
(** [isStatic] is always 0. *)
Definition to_reflected (name : string) : M (proxy E) unit :=
  do jc <- idata 0;
  do id <- idata 1;
  do r <- call name [jc; id; 0] [];
  respond JObject (an_val r).
Definition callToReflectedMethod : M (proxy E) unit := to_reflected "ToReflectedMethod".
Definition callToReflectedField : M (proxy E) unit := to_reflected "ToReflectedField".
Definition callNewObjectA : M (proxy E) unit :=
  do jc <- idata 0;
  do methodID <- idata 1;
  do args <- reply_from 8;
  do r <- call "NewObjectA" [jc; methodID] [args];
  respond JObject (an_val r).
Definition callNewWeakGlobalRef : M (proxy E) unit := call1 "NewWeakGlobalRef" JObject.
Definition callDeleteWeakGlobalRef : M (proxy E) unit := call1_void "DeleteWeakGlobalRef".
Definition new_array (name : string) : M (proxy E) unit := call1 name JObject.
Definition callNewBooleanArray : M (proxy E) unit := new_array "NewBooleanArray".
Definition callNewByteArray : M (proxy E) unit := new_array "NewByteArray".
Definition callNewCharArray : M (proxy E) unit := new_array "NewCharArray".
Definition callNewShortArray : M (proxy E) unit := new_array "NewShortArray".
Definition callNewIntArray : M (proxy E) unit := new_array "NewIntArray".
Definition callNewLongArray : M (proxy E) unit := new_array "NewLongArray".
Definition callNewFloatArray : M (proxy E) unit := new_array "NewFloatArray".
Definition callNewDoubleArray : M (proxy E) unit := new_array "NewDoubleArray".
Definition callGetObjectRefType : M (proxy E) unit := call1 "GetObjectRefType" JInt.
Definition callGetStringLength : M (proxy E) unit := call1 "GetStringLength" JInt.
Definition callGetStringUTFLength : M (proxy E) unit := call1 "GetStringUTFLength" JInt.
Definition callEnsureLocalCapacity : M (proxy E) unit := call1 "EnsureLocalCapacity" JInt.
Definition callUnregisterNatives : M (proxy E) unit := call1 "UnregisterNatives" JInt.
Definition callPushLocalFrame : M (proxy E) unit := call1 "PushLocalFrame" JInt.
Definition callPopLocalFrame : M (proxy E) unit := call1 "PopLocalFrame" JObject.
Definition callGetArrayLength : M (proxy E) unit := call1 "GetArrayLength" JInt.
Definition callMonitorEnter : M (proxy E) unit := call1 "MonitorEnter" JInt.
Definition callMonitorExit : M (proxy E) unit := call1 "MonitorExit" JInt.
Definition callNewString : M (proxy E) unit :=
  do len <- idata 0;
  do chars <- reply_bytes 4 (2 * s32 len);
  do r <- call "NewString" [len] [chars];
  respond JObject (an_val r).

(** The loop over the methods from [r2] on; the result so far. *)
Fixpoint register_loop (jclazz : Z) (n : nat) (r2 result : Z) : M (proxy E) Z :=
  match n with
  | O => mret' result
  | S n =>
      do j <- reply_value 4 r2;
      let r2 := r2 + 4 in
      do name <- reply_string r2;
      let r2 := r2 + s32 j in
      do j <- reply_value 4 r2;
      let r2 := r2 + 4 in
      do signature <- reply_string r2;
      let r2 := r2 + s32 j in
      do code <- reply_value 4 r2;
      let r2 := r2 + 4 in
      do r <- call "RegisterTaintedNatives" [jclazz; code; 1] [name; signature];
      register_loop jclazz n r2 (if bits JInt (an_val r) =? 2 ^ 32 - 1 then 2 ^ 32 - 1 else result)
  end.
Definition callRegisterNatives : M (proxy E) unit :=
  do jclazz <- idata 0;
  do nMethods <- idata 1;
  do result <- register_loop jclazz (Z.to_nat (s32 nMethods)) 8 0;
  respond JInt result.

Definition callNewDirectByteBuffer : M (proxy E) unit :=
  do capacity <- reply_value 8 0;
  let n := u32 (capacity * 4) in
  do address <- malloc n;
  do bs <- reply_bytes 8 n;
  do address <- put_bytes address 0 bs;
  do r <- call "NewDirectByteBuffer" [capacity] [address];
  respond JObject (an_val r).
Definition callGetDirectBufferAddress : M (proxy E) unit :=
  do jbuf <- idata 0;
  do r <- call "GetDirectBufferAddress" [jbuf] [];
  do c <- call "GetDirectBufferCapacity" [jbuf] [];
  let resultsize := s64 (an_val c) in
  let size := s32 (8 + resultsize) in
  do data <- malloc size;
  do data <- put_long data 0 resultsize;
  do bs <- copy_from r resultsize;
  do data <- put_bytes data 8 bs;
  answer_with size 0 data.
Definition callGetDirectBufferCapacity : M (proxy E) unit := call1 "GetDirectBufferCapacity" JLong.

(** ** Fields *)

(** [UNPACK_GETFIELD] and [WRITEOUT_GETFIELD]; the last two are written out for the long
    types. *)
Definition get_field (name : string) (t : jtype) : M (proxy E) unit :=
  do jobj <- idata 0;
  do fieldID <- idata 1;
  do r <- call name [jobj; fieldID] [];
  let size := Z.of_nat (size_of t) + 4 in
  do data <- result_words size (to_int t (bits t (an_val r))) (an_taint r);
  answer_with size 4 data.
Definition get_field_long (name : string) : M (proxy E) unit :=
  do jobj <- idata 0;
  do fieldID <- idata 1;
  do r <- call name [jobj; fieldID] [];
  do data <- malloc 12;
  do data <- put_long data 0 (an_val r);
  do data <- put_int data 8 (an_taint r);
  answer_with 12 4 data.
Definition callGetObjectField : M (proxy E) unit := get_field "GetObjectTaintedField" JObject.
Definition callGetBooleanField : M (proxy E) unit := get_field "GetBooleanTaintedField" JBoolean.
Definition callGetByteField : M (proxy E) unit := get_field "GetByteTaintedField" JByte.
Definition callGetCharField : M (proxy E) unit := get_field "GetCharTaintedField" JChar.
Definition callGetShortField : M (proxy E) unit := get_field "GetShortTaintedField" JShort.
Definition callGetIntField : M (proxy E) unit := get_field "GetIntTaintedField" JInt.
Definition callGetLongField : M (proxy E) unit := get_field_long "GetLongTaintedField".
Definition callGetFloatField : M (proxy E) unit := get_field "GetFloatTaintedField" JFloat.
Definition callGetDoubleField : M (proxy E) unit := get_field_long "GetDoubleTaintedField".

(** [UNPACK_SETFIELD] and [UNPACK_SETFIELDL]. *)
Definition set_field (name : string) (t : jtype) : M (proxy E) unit :=
  do fieldID <- idata 1;
  do jobj <- idata 2;
  do taint <- idata 3;
  do value <- idata 0;
  do _ <- call name [jobj; fieldID; of_int t value; taint] [];
  respond_nothing.
Definition set_field_long (name : string) (t : jtype) : M (proxy E) unit :=
  do fieldID <- idata 2;
  do jobj <- idata 3;
  do taint <- idata 4;
  do value <- reply_value 8 0;
  do _ <- call name [jobj; fieldID; of_long t value; taint] [];
  respond_nothing.
Definition callSetObjectField : M (proxy E) unit := set_field "SetObjectTaintedField" JObject.
Definition callSetBooleanField : M (proxy E) unit := set_field "SetBooleanTaintedField" JBoolean.
Definition callSetByteField : M (proxy E) unit := set_field "SetByteTaintedField" JByte.
Definition callSetCharField : M (proxy E) unit := set_field "SetCharTaintedField" JChar.
Definition callSetShortField : M (proxy E) unit := set_field "SetShortTaintedField" JShort.
Definition callSetIntField : M (proxy E) unit := set_field "SetIntTaintedField" JInt.
Definition callSetFloatField : M (proxy E) unit := set_field "SetFloatTaintedField" JFloat.
Definition callSetLongField : M (proxy E) unit := set_field_long "SetLongTaintedField" JLong.
Definition callSetDoubleField : M (proxy E) unit := set_field_long "SetDoubleTaintedField" JDouble.

(** [UNPACK_GETSTATICFIELD] and [WRITEOUT_GETSTATICFIELD]. *)
Definition get_static_field (name : string) (t : jtype) : M (proxy E) unit :=
  do jclazz <- idata 0;
  do fieldID <- idata 1;
  do r <- call name [jclazz; fieldID] [];
  let size := Z.of_nat (size_of t) + 4 in
  do data <- malloc size;
  do data <- put_bytes data 0 (le_bytes (size_of t) (an_val r));
  do data <- put_int data (Z.of_nat (size_of t)) (an_taint r);
  answer_with size 4 data.
Definition callGetStaticBooleanField : M (proxy E) unit := get_static_field "GetStaticBooleanTaintedField" JBoolean.
Definition callGetStaticByteField : M (proxy E) unit := get_static_field "GetStaticByteTaintedField" JByte.
Definition callGetStaticCharField : M (proxy E) unit := get_static_field "GetStaticCharTaintedField" JChar.
Definition callGetStaticShortField : M (proxy E) unit := get_static_field "GetStaticShortTaintedField" JShort.
Definition callGetStaticIntField : M (proxy E) unit := get_static_field "GetStaticIntTaintedField" JInt.
Definition callGetStaticLongField : M (proxy E) unit := get_static_field "GetStaticLongTaintedField" JLong.
Definition callGetStaticFloatField : M (proxy E) unit := get_static_field "GetStaticFloatTaintedField" JFloat.
Definition callGetStaticDoubleField : M (proxy E) unit := get_static_field "GetStaticDoubleTaintedField" JDouble.
Definition callGetStaticObjectField : M (proxy E) unit := get_static_field "GetStaticObjectTaintedField" JObject.

(** [SETSTATIC_GETDATA]: the class is read where the value is. *)
Definition set_static_field (name : string) (t : jtype) : M (proxy E) unit :=
  let sz := Z.of_nat (size_of t) in
  do val <- reply_value (size_of t) 0;
  do jc <- reply_value 4 0;
  do fieldID <- reply_value 4 (sz + 4);
  do taint <- reply_value 4 (sz + 4 + 4);
  do _ <- call name [jc; fieldID; val; taint] [];
  respond_nothing.
Definition callSetStaticObjectField : M (proxy E) unit := set_static_field "SetStaticObjectTaintedField" JObject.
Definition callSetStaticBooleanField : M (proxy E) unit := set_static_field "SetStaticBooleanTaintedField" JBoolean.
Definition callSetStaticByteField : M (proxy E) unit := set_static_field "SetStaticByteTaintedField" JByte.
Definition callSetStaticCharField : M (proxy E) unit := set_static_field "SetStaticCharTaintedField" JChar.
Definition callSetStaticShortField : M (proxy E) unit := set_static_field "SetStaticShortTaintedField" JShort.
Definition callSetStaticIntField : M (proxy E) unit := set_static_field "SetStaticIntTaintedField" JInt.
Definition callSetStaticLongField : M (proxy E) unit := set_static_field "SetStaticLongTaintedField" JLong.
Definition callSetStaticFloatField : M (proxy E) unit := set_static_field "SetStaticFloatTaintedField" JFloat.
Definition callSetStaticDoubleField : M (proxy E) unit := set_static_field "SetStaticDoubleTaintedField" JDouble.

(** ** Methods *)

(** [WRITE_CALLRESULT]. *)
Definition write_callresult (t : jtype) (r : answer) : M (proxy E) unit :=
  let size := Z.of_nat (size_of t) in
  do data <- result_words (size + 4) (to_int t (bits t (an_val r))) (an_taint r);
  answer_with size 4 data.

(** [UNPACK_CALLMETHOD] and the call. *)
Definition unpack_callmethod (name : string) : M (proxy E) answer :=
  do jobj <- idata 0;
  do methodID <- idata 1;
  do paramSize <- idata 2;
  let paramSize := s32 paramSize in
  do args <- reply_from 12;
  do objTaint <- reply_value 4 (12 + paramSize);
  do paramTaints <- reply_from (12 + paramSize + 12);
  call name [jobj; objTaint; methodID] [args; paramTaints].
Definition call_method (name : string) (t : jtype) : M (proxy E) unit :=
  do r <- unpack_callmethod name; write_callresult t r.
Definition callCallBooleanMethodA : M (proxy E) unit := call_method "CallBooleanTaintedMethodA" JBoolean.
Definition callCallByteMethodA : M (proxy E) unit := call_method "CallByteTaintedMethodA" JByte.
Definition callCallCharMethodA : M (proxy E) unit := call_method "CallCharTaintedMethodA" JChar.
Definition callCallShortMethodA : M (proxy E) unit := call_method "CallShortTaintedMethodA" JShort.
Definition callCallIntMethodA : M (proxy E) unit := call_method "CallIntTaintedMethodA" JInt.
Definition callCallLongMethodA : M (proxy E) unit := call_method "CallLongTaintedMethodA" JLong.
Definition callCallFloatMethodA : M (proxy E) unit := call_method "CallFloatTaintedMethodA" JFloat.
Definition callCallDoubleMethodA : M (proxy E) unit := call_method "CallDoubleTaintedMethodA" JDouble.
Definition callCallObjectMethod : M (proxy E) unit := call_method "CallObjectTaintedMethodA" JObject.
Definition callCallVoidMethod : M (proxy E) unit := do _ <- unpack_callmethod "CallVoidTaintedMethodA"; respond_nothing.
(** The ones that do not know of the size of the parameters. *)
Definition call_method_untainted (name : string) (t : jtype) : M (proxy E) unit :=
  do jobj <- idata 0;
  do methodID <- idata 1;
  do args <- reply_from 8;
  do r <- call name [jobj; methodID] [args];
  respond t (an_val r).
Definition callCallBooleanMethod : M (proxy E) unit := call_method_untainted "CallBooleanMethodA" JBoolean.
Definition callCallBooleanMethodV : M (proxy E) unit := call_method_untainted "CallBooleanMethodA" JBoolean.
Definition callCallIntMethod : M (proxy E) unit := call_method_untainted "CallIntMethodA" JInt.
Definition callCallIntMethodV : M (proxy E) unit := call_method_untainted "CallIntMethodA" JInt.

(** [UNPACK_CALLVIRTUALMETHOD]: [args] has elements of 8 bytes. *)
Definition unpack_callvirtualmethod (name : string) : M (proxy E) answer :=
  do jobj <- idata 0;
  do jc <- idata 1;
  do methodID <- idata 2;
  do paramSize <- idata 3;
  let paramSize := s32 paramSize in
  do args <- reply_from 16;
  do objTaint <- reply_value 4 (16 + paramSize);
  do paramTaints <- reply_from (16 + 8 * (paramSize + 16));
  call name [jobj; objTaint; jc; methodID] [args; paramTaints].
Definition call_nonvirtual_method (name : string) (t : jtype) : M (proxy E) unit :=
  do r <- unpack_callvirtualmethod name; write_callresult t r.
Definition callCallNonvirtualObjectMethodA : M (proxy E) unit := call_nonvirtual_method "CallNonvirtualObjectTaintedMethodA" JObject.
Definition callCallNonvirtualBooleanMethodA : M (proxy E) unit := call_nonvirtual_method "CallNonvirtualBooleanTaintedMethodA" JBoolean.
Definition callCallNonvirtualByteMethodA : M (proxy E) unit := call_nonvirtual_method "CallNonvirtualByteTaintedMethodA" JByte.
Definition callCallNonvirtualCharMethodA : M (proxy E) unit := call_nonvirtual_method "CallNonvirtualCharTaintedMethodA" JChar.
Definition callCallNonvirtualShortMethodA : M (proxy E) unit := call_nonvirtual_method "CallNonvirtualShortTaintedMethodA" JShort.
Definition callCallNonvirtualIntMethodA : M (proxy E) unit := call_nonvirtual_method "CallNonvirtualIntTaintedMethodA" JInt.
Definition callCallNonvirtualLongMethodA : M (proxy E) unit := call_nonvirtual_method "CallNonvirtualLongTaintedMethodA" JLong.
Definition callCallNonvirtualFloatMethodA : M (proxy E) unit := call_nonvirtual_method "CallNonvirtualFloatTaintedMethodA" JFloat.
Definition callCallNonvirtualDoubleMethodA : M (proxy E) unit := call_nonvirtual_method "CallNonvirtualDoubleTaintedMethodA" JDouble.
Definition callCallNonvirtualVoidMethodA : M (proxy E) unit :=
  do _ <- unpack_callvirtualmethod "CallNonvirtualVoidTaintedMethodA"; respond_nothing.

(** [UNPACK_CALLSTATICMETHOD]. *)
Definition unpack_callstaticmethod (name : string) : M (proxy E) answer :=
  do jc <- idata 0;
  do methodID <- idata 1;
  do paramSize <- idata 2;
  let paramSize := s32 paramSize in
  do args <- reply_from 12;
  do paramTaints <- reply_from (12 + paramSize + 12);
  call name [jc; methodID] [args; paramTaints].
Definition call_static_method (name : string) (t : jtype) : M (proxy E) unit :=
  do r <- unpack_callstaticmethod name; write_callresult t r.
Definition callCallStaticObjectMethodA : M (proxy E) unit := call_static_method "CallStaticObjectTaintedMethodA" JObject.
Definition callCallStaticBooleanMethodA : M (proxy E) unit := call_static_method "CallStaticBooleanTaintedMethodA" JBoolean.
Definition callCallStaticByteMethodA : M (proxy E) unit := call_static_method "CallStaticByteTaintedMethodA" JByte.
Definition callCallStaticCharMethodA : M (proxy E) unit := call_static_method "CallStaticCharTaintedMethodA" JChar.
Definition callCallStaticShortMethodA : M (proxy E) unit := call_static_method "CallStaticShortTaintedMethodA" JShort.
Definition callCallStaticIntMethodA : M (proxy E) unit := call_static_method "CallStaticIntTaintedMethodA" JInt.
Definition callCallStaticLongMethodA : M (proxy E) unit := call_static_method "CallStaticLongTaintedMethodA" JLong.
Definition callCallStaticFloatMethodA : M (proxy E) unit := call_static_method "CallStaticFloatTaintedMethodA" JFloat.
Definition callCallStaticDoubleMethodA : M (proxy E) unit := call_static_method "CallStaticDoubleTaintedMethodA" JDouble.
Definition callCallStaticVoidMethodA : M (proxy E) unit :=
  do _ <- unpack_callstaticmethod "CallStaticVoidTaintedMethodA"; respond_nothing.

(** ** Arrays *)

(** The bytes of the elements, the array and the start, and the taint of the words. *)
Definition set_region (name : string) (t : jtype) : M (proxy E) unit :=
  do len <- idata 0;
  let words := u32 (s32 len * Z.of_nat (size_of t)) / 4 in
  do jarr <- idata (words + 1);
  do start <- idata (words + 2);
  do p <- get;
  do taint <- or_words (replydata p) (words + 4) words;
  do buf <- reply_bytes 4 (s32 len * Z.of_nat (size_of t));
  do _ <- call name [jarr; start; len; taint] [buf];
  respond_nothing.
Definition callSetBooleanArrayRegion : M (proxy E) unit := set_region "SetTaintedBooleanArrayRegion" JBoolean.
Definition callSetByteArrayRegion : M (proxy E) unit := set_region "SetTaintedByteArrayRegion" JByte.
Definition callSetCharArrayRegion : M (proxy E) unit := set_region "SetTaintedCharArrayRegion" JChar.
Definition callSetShortArrayRegion : M (proxy E) unit := set_region "SetTaintedShortArrayRegion" JShort.
Definition callSetIntArrayRegion : M (proxy E) unit := set_region "SetTaintedIntArrayRegion" JInt.
Definition callSetLongArrayRegion : M (proxy E) unit := set_region "SetTaintedLongArrayRegion" JLong.
Definition callSetFloatArrayRegion : M (proxy E) unit := set_region "SetTaintedFloatArrayRegion" JFloat.
Definition callSetDoubleArrayRegion : M (proxy E) unit := set_region "SetTaintedDoubleArrayRegion" JDouble.

(** With [COPYOUT_GETARRAYREGION]. *)
Definition get_region (name : string) (t : jtype) : M (proxy E) unit :=
  do jarr <- idata 0;
  do start <- idata 1;
  do len <- idata 2;
  let size := s32 len * Z.of_nat (size_of t) in
  do buf <- malloc (2 * size);
  do r <- call name [jarr; start; len] [];
  do buf <- put_bytes buf 0 (an_data r);
  do buf <- put_words buf (size / 4) (Z.to_nat (size / 4)) (an_taint r);
  answer_with size size buf.
Definition callGetBooleanArrayRegion : M (proxy E) unit := get_region "GetTaintedBooleanArrayRegion" JBoolean.
Definition callGetByteArrayRegion : M (proxy E) unit := get_region "GetTaintedByteArrayRegion" JByte.
Definition callGetCharArrayRegion : M (proxy E) unit := get_region "GetTaintedCharArrayRegion" JChar.
Definition callGetShortArrayRegion : M (proxy E) unit := get_region "GetTaintedShortArrayRegion" JShort.
Definition callGetIntArrayRegion : M (proxy E) unit := get_region "GetTaintedIntArrayRegion" JInt.
Definition callGetLongArrayRegion : M (proxy E) unit := get_region "GetTaintedLongArrayRegion" JLong.
Definition callGetFloatArrayRegion : M (proxy E) unit := get_region "GetTaintedFloatArrayRegion" JFloat.
Definition callGetDoubleArrayRegion : M (proxy E) unit := get_region "GetTaintedDoubleArrayRegion" JDouble.

(** [GENERIC_GETARRAYELEMENTS]: a comment of the macro ends in a backslash, so it goes on
    to the end of the macro. What is left sets the size, the address and nothing else. *)
Definition get_elements (name : string) (t : jtype) : M (proxy E) unit :=
  do jarr <- idata 0;
  do r <- call name [jarr] [];
  do len <- call "GetArrayLength" [jarr] [];
  let size := s32 (an_val len) * Z.of_nat (size_of t) in
  do data <- malloc (2 * (size + 8));
  do data <- put_int data 0 size;
  do data <- put_int data 4 (an_val r);
  answer_with size (size + 8) data.
Definition callGetBooleanArrayElements : M (proxy E) unit := get_elements "GetTaintedBooleanArrayElements" JBoolean.
Definition callGetByteArrayElements : M (proxy E) unit := get_elements "GetTaintedByteArrayElements" JByte.
Definition callGetCharArrayElements : M (proxy E) unit := get_elements "GetTaintedCharArrayElements" JChar.
Definition callGetShortArrayElements : M (proxy E) unit := get_elements "GetTaintedShortArrayElements" JShort.
Definition callGetIntArrayElements : M (proxy E) unit := get_elements "GetTaintedIntArrayElements" JInt.
Definition callGetLongArrayElements : M (proxy E) unit := get_elements "GetTaintedLongArrayElements" JLong.
Definition callGetFloatArrayElements : M (proxy E) unit := get_elements "GetTaintedFloatArrayElements" JFloat.
Definition callGetDoubleArrayElements : M (proxy E) unit := get_elements "GetTaintedDoubleArrayElements" JDouble.
(** The elements are the parameters themselves. *)
Definition release_elements (name : string) : M (proxy E) unit :=
  do jarr <- idata 0;
  do elems <- reply_from 0;
  do _ <- call name [jarr; 0] [elems];
  respond_nothing.
Definition callReleaseBooleanArrayElements : M (proxy E) unit := release_elements "ReleaseBooleanArrayElements".
Definition callReleaseByteArrayElements : M (proxy E) unit := release_elements "ReleaseByteArrayElements".
Definition callReleaseCharArrayElements : M (proxy E) unit := release_elements "ReleaseCharArrayElements".
Definition callReleaseShortArrayElements : M (proxy E) unit := release_elements "ReleaseShortArrayElements".
Definition callReleaseLongArrayElements : M (proxy E) unit := release_elements "ReleaseLongArrayElements".
Definition callReleaseFloatArrayElements : M (proxy E) unit := release_elements "ReleaseFloatArrayElements".
Definition callReleaseDoubleArrayElements : M (proxy E) unit := release_elements "ReleaseDoubleArrayElements".
Definition callReleaseIntArrayElements : M (proxy E) unit :=
  do jarr <- idata 0;
  do _ <- call "ReleaseIntArrayElements" [jarr; 0; 0] [];
  respond_nothing.

Definition element_size (sig : list Z) : option Z :=
  match sig !! 1%nat with
  | None => None
  | Some c =>
      if bool_decide (c ∈ str "BCSIJF"%string) then Some 4 else if bool_decide (c ∈ str "LD"%string) then Some 8 else Some 0
  end.
Definition callGetPrimitiveArrayCritical : M (proxy E) unit :=
  do jarr <- idata 0;
  do sig <- call "GetArrayType" [jarr] [];
  do elementSize <- deref (element_size (an_data sig));
  do r <- call "GetPrimitiveArrayCritical" [jarr; 0] [];
  do len <- call "GetArrayLength" [jarr] [];
  let arraysize := s32 (s32 (an_val len) * elementSize) in
  let size := s32 (arraysize + 8) in
  do data <- malloc size;
  do data <- put_int data 0 arraysize;
  do data <- put_int data 4 (an_val r);
  do bs <- copy_from r arraysize;
  do data <- put_bytes data 8 bs;
  answer_with size 0 data.
Definition callReleasePrimitiveArrayCritical : M (proxy E) unit :=
  do jarr <- idata 0;
  do arraysize <- idata 1;
  do dalvikP <- idata 2;
  do bs <- reply_bytes 12 (s32 arraysize);
  poke_vm dalvikP bs;;;
  do _ <- call "ReleasePrimitiveArrayCritical" [jarr; dalvikP; 2] [];
  respond_nothing.

Definition callNewObjectArray : M (proxy E) unit :=
  do jinitialElement <- idata 0;
  do length <- idata 1;
  do jelementClass <- idata 2;
  do taint <- idata 3;
  do r <- call "NewTaintedObjectArray" [length; jelementClass; jinitialElement; taint] [];
  respond JObject (an_val r).
Definition callGetObjectArrayElement : M (proxy E) unit :=
  do jarr <- idata 0;
  do index <- idata 1;
  do r <- call "GetTaintedObjectArrayElement" [jarr; index] [];
  do data <- result_words 8 (an_val r) (an_taint r);
  answer_with 4 4 data.
Definition callSetObjectArrayElement : M (proxy E) unit :=
  do jobj <- idata 0;
  do index <- idata 1;
  do jarr <- idata 2;
  do taint <- idata 3;
  do _ <- call "SetTaintedObjectArrayElement" [jarr; index; jobj; taint] [];
  respond_nothing.

(** ** Strings *)

Definition callGetStringUTFChars : M (proxy E) unit :=
  do jstr <- idata 0;
  do r <- call "GetTaintedStringUTFChars" [jstr; 0] [];
  do l <- call "GetUTFCharsByteLength" [jstr] [];
  let strsize := s32 (an_val l) in
  let size := s32 (2 * strsize + 8) in
  do data <- malloc (size + size);
  do data <- put_int data 0 (an_val r);
  do data <- put_int data 4 strsize;
  do chars <- copy_from r strsize;
  do data <- put_bytes data 8 chars;
  let words := Z.quot (strsize + 3) 4 in
  do data <-
    (if negb (bits JInt (an_taint r) =? 0) then
       do data <- fill data (4 * (4 + words)) (an_taint r) (Z.quot strsize 4);
       fill data (4 * (2 + words)) 0 4
     else fill data (4 * (2 + words)) 0 (2 + Z.quot strsize 4));
  answer_with size size data.
Definition callNewStringUTF : M (proxy E) unit :=
  terminate;;;
  do chars <- reply_string 0;
  do p <- get;
  do taint <- or_words (replytaint p) 0 (Z.quot (replylength p) 4);
  do r <- call "NewTaintedStringUTF" [taint] [chars];
  respond JObject (an_val r).
Definition callGetStringChars : M (proxy E) unit :=
  do jstr <- idata 0;
  do r <- call "GetStringChars" [jstr; 0] [];
  do l <- call "GetStringLength" [jstr] [];
  let strlen := s32 (an_val l) in
  let size := s32 (8 + strlen * 2) in
  do data <- malloc size;
  do data <- put_int data 0 (an_val r);
  do data <- put_int data 4 strlen;
  do chars <- copy_from r (strlen * 2);
  do data <- put_bytes data 8 chars;
  answer_with size 0 data.
Definition callReleaseStringChars : M (proxy E) unit :=
  do jstr <- idata 0;
  do dalvikP <- idata 1;
  do strlen <- idata 2;
  do p <- get;
  let charlength := Z.quot (replylength p - 12) 4 in
  do taint <- or_words (replytaint p) 3 (Z.quot (charlength + 1) 2);
  do chars <- reply_bytes 12 (s32 strlen * 2);
  poke_vm dalvikP chars;;;
  do _ <- call "ReleaseTaintedStringChars" [jstr; taint; dalvikP] [];
  respond_nothing.
Definition callReleaseStringCritical : M (proxy E) unit :=
  do strlen <- idata 0;
  let strlen := s32 strlen in
  let words := Z.quot (strlen + 1) 2 in
  do jstr <- idata (1 + words);
  do dalvikP <- idata (2 + words);
  do chars <- reply_bytes 4 (strlen * 2);
  poke_vm dalvikP chars;;;
  do p <- get;
  do taint <- or_words (replydata p) (3 + words) words;
  do _ <- call "ReleaseTaintedStringCritical" [jstr; taint; dalvikP] [];
  respond_nothing.
Definition callReleaseStringUTFChars : M (proxy E) unit :=
  do dalvikP <- idata 0;
  do length <- idata 1;
  let length := s32 length in
  do jstr <- idata 2;
  do utf <- reply_bytes 12 length;
  poke_vm dalvikP utf;;;
  do p <- get;
  do taint <- or_words (replydata p) (Z.quot length 4 + 6) (Z.quot length 4);
  do _ <- call "ReleaseTaintedStringUTFChars" [jstr; taint; dalvikP] [];
  respond_nothing.
Definition callGetStringCritical : M (proxy E) unit :=
  do jstr <- idata 0;
  do r <- call "GetTaintedStringCritical" [jstr; 0] [];
  do l <- call "GetStringLength" [jstr] [];
  let strlen := s32 (an_val l) in
  let size := s32 (8 + strlen * 2) in
  do data <- malloc (size + size);
  do data <- put_int data 0 (an_val r);
  do data <- put_int data 4 strlen;
  do chars <- copy_from r (strlen * 2);
  do data <- put_bytes data 8 chars;
  do data <- put_words data (4 + Z.quot strlen 2) (Z.to_nat (Z.quot strlen 2)) (an_taint r);
  answer_with size size data.
(** [size] and [taintsize] are not set. *)
Definition callGetStringRegion : M (proxy E) unit :=
  do jstr <- idata 0;
  do start <- idata 1;
  do len <- idata 2;
  do data <- malloc (s32 len * 2);
  do r <- call "GetStringRegion" [jstr; start; len] [];
  do data <- put_bytes data 0 (an_data r);
  set_callback data.
Definition callGetStringUTFRegion : M (proxy E) unit :=
  do jstr <- idata 0;
  do start <- idata 1;
  do len <- idata 2;
  do data <- malloc (s32 len * 8);
  do r <- call "GetStringUTFRegion" [jstr; start; len] [];
  do data <- put_bytes data 0 (an_data r);
  set_callback data.

(** ** Dispatch *)

(** The switch of [handleJNIRequest]; 25 falls through. The parameters of an unknown
    function are freed twice. *)
Definition dispatch (function : Z) : M (proxy E) unit :=
  match function with
  | 1 => callGetStringUTFChars
  | 2 => callNewStringUTF
  | 3 => callGetVersion
  | 4 => callFindClass
  | 5 => callGetSuperclass
  | 6 => callIsAssignableFrom
  | 7 => callAllocObject
  | 8 => callThrow
  | 9 => callThrowNew
  | 10 => callExceptionOccurred
  | 11 => callExceptionDescribe
  | 12 => callExceptionClear
  | 13 => callExceptionCheck
  | 14 => callGetMethodID
  | 15 => callGetFieldID
  | 16 => callGetStaticMethodID
  | 17 => callGetLongField
  | 18 => callGetObjectClass
  | 19 => callIsInstanceOf
  | 20 => callNewLocalRef
  | 21 => callNewGlobalRef
  | 22 => callDeleteGlobalRef
  | 23 => callIsSameObject
  | 24 => callCallBooleanMethod
  | 25 => callCallBooleanMethodA
  | 26 => callCallBooleanMethodA
  | 27 => callCallIntMethod
  | 28 => callCallIntMethodV
  | 29 => callCallIntMethodA
  | 30 => callGetIntField
  | 31 => callCallNonvirtualObjectMethodA
  | 32 => callDeleteLocalRef
  | 33 => callCallObjectMethod
  | 34 => callCallVoidMethod
  | 35 => callSetIntField
  | 36 => callSetLongField
  | 37 => callSetDoubleField
  | 38 => callSetFloatField
  | 39 => callSetShortField
  | 40 => callSetCharField
  | 41 => callSetByteField
  | 42 => callSetBooleanField
  | 43 => callSetObjectField
  | 44 => callGetObjectField
  | 45 => callGetBooleanField
  | 46 => callGetByteField
  | 47 => callGetCharField
  | 48 => callGetShortField
  | 49 => callGetFloatField
  | 50 => callGetDoubleField
  | 51 => callCallStaticShortMethodA
  | 52 => callCallStaticVoidMethodA
  | 53 => callSetShortArrayRegion
  | 54 => callGetByteArrayRegion
  | 55 => callGetStringChars
  | 56 => callReleaseStringChars
  | 57 => callReleaseStringCritical
  | 58 => callFromReflectedField
  | 59 => callNewObjectA
  | 60 => callSetStaticLongField
  | 61 => callToReflectedMethod
  | 62 => callCallFloatMethodA
  | 63 => callToReflectedField
  | 64 => callFromReflectedMethod
  | 65 => callGetPrimitiveArrayCritical
  | 66 => callReleasePrimitiveArrayCritical
  | 67 => callReleaseStringUTFChars
  | 68 => callGetStringCritical
  | 69 => callDeleteWeakGlobalRef
  | 70 => callGetByteArrayElements
  | 71 => callCallByteMethodA
  | 72 => callCallCharMethodA
  | 73 => callCallLongMethodA
  | 74 => callCallDoubleMethodA
  | 75 => callCallNonvirtualBooleanMethodA
  | 76 => callCallNonvirtualByteMethodA
  | 77 => callCallNonvirtualCharMethodA
  | 78 => callCallNonvirtualShortMethodA
  | 79 => callCallNonvirtualIntMethodA
  | 80 => callCallNonvirtualLongMethodA
  | 81 => callCallNonvirtualFloatMethodA
  | 82 => callCallNonvirtualDoubleMethodA
  | 83 => callCallNonvirtualVoidMethodA
  | 84 => callCallShortMethodA
  | 85 => callCallStaticCharMethodA
  | 86 => callCallStaticByteMethodA
  | 87 => callCallStaticBooleanMethodA
  | 88 => callCallStaticObjectMethodA
  | 89 => callCallStaticIntMethodA
  | 90 => callCallStaticLongMethodA
  | 91 => callCallStaticFloatMethodA
  | 92 => callCallStaticDoubleMethodA
  | 93 => callSetFloatArrayRegion
  | 94 => callSetByteArrayRegion
  | 95 => callSetCharArrayRegion
  | 96 => callSetIntArrayRegion
  | 97 => callGetLongArrayElements
  | 98 => callGetDoubleArrayElements
  | 99 => callGetShortArrayElements
  | 100 => callGetDoubleArrayRegion
  | 101 => callReleaseByteArrayElements
  | 102 => callReleaseBooleanArrayElements
  | 103 => callReleaseCharArrayElements
  | 104 => callReleaseShortArrayElements
  | 105 => callReleaseIntArrayElements
  | 106 => callReleaseLongArrayElements
  | 107 => callReleaseFloatArrayElements
  | 108 => callReleaseDoubleArrayElements
  | 109 => callNewWeakGlobalRef
  | 110 => callNewBooleanArray
  | 111 => callNewByteArray
  | 112 => callNewCharArray
  | 113 => callNewShortArray
  | 114 => callNewIntArray
  | 115 => callNewLongArray
  | 116 => callNewFloatArray
  | 117 => callNewDoubleArray
  | 118 => callGetObjectRefType
  | 119 => callGetStringLength
  | 120 => callGetStringRegion
  | 121 => callGetStringUTFRegion
  | 122 => callNewObjectArray
  | 123 => callEnsureLocalCapacity
  | 124 => callUnregisterNatives
  | 125 => callPushLocalFrame
  | 126 => callPopLocalFrame
  | 127 => callSetStaticDoubleField
  | 128 => callSetStaticFloatField
  | 129 => callSetStaticIntField
  | 130 => callSetStaticShortField
  | 131 => callSetStaticCharField
  | 132 => callSetStaticByteField
  | 133 => callSetStaticBooleanField
  | 134 => callGetStaticFieldID
  | 135 => callGetStaticIntField
  | 136 => callGetStaticShortField
  | 137 => callGetStaticCharField
  | 138 => callGetStaticByteField
  | 139 => callGetStaticBooleanField
  | 140 => callGetStaticObjectField
  | 141 => callGetStaticLongField
  | 142 => callGetStaticFloatField
  | 143 => callGetStaticDoubleField
  | 144 => callGetStringUTFLength
  | 145 => callRegisterNatives
  | 146 => callSetStaticObjectField
  | 147 => callNewString
  | 148 => callGetArrayLength
  | 149 => callGetObjectArrayElement
  | 150 => callSetObjectArrayElement
  | 151 => callGetBooleanArrayElements
  | 152 => callGetCharArrayElements
  | 153 => callGetIntArrayElements
  | 154 => callGetFloatArrayElements
  | 155 => callGetBooleanArrayRegion
  | 156 => callGetCharArrayRegion
  | 157 => callGetShortArrayRegion
  | 158 => callGetIntArrayRegion
  | 159 => callGetLongArrayRegion
  | 160 => callGetFloatArrayRegion
  | 161 => callSetBooleanArrayRegion
  | 162 => callSetLongArrayRegion
  | 163 => callSetDoubleArrayRegion
  | 164 => callMonitorEnter
  | 165 => callMonitorExit
  | 166 => callNewDirectByteBuffer
  | 167 => callGetDirectBufferAddress
  | _ => stuck
  end.

(** The words of the taint are placeholders, of which as many bytes are read. *)
Definition handleJNIRequest (function length taintsize : Z) (data : list Z) : M (proxy E) unit :=
  modify (fun p => mk_proxy data (if taintsize =? 0 then [] else replicate (Z.to_nat taintsize) 0) length
                     (p_size p) taintsize (callbackdata p) (vm p));;;
  dispatch function.

(** What [doCallbackTransaction] writes: the data and behind it the taint. *)
Definition callback_parcel : M (proxy E) (list Z) :=
  do p <- get;
  if 0 <? p_size p then
    do data <- deref (peek (callbackdata p) 0 (p_size p));
    do _ <- (if 0 <? p_taintsize p then deref (peek (callbackdata p) (p_size p) (p_taintsize p)) else mret' []);
    mret' data
  else mret' [].
End handlers.
