(* ===== verification/JniRemote.v ===== *)
(** * The calls of the JNI in the wrapper (wrapper/JniRemote.cpp)

    Each function of the JNI that a native method can call packs its parameters, sets
    the member [jniCall] of the [ExecutionManager] and waits in [reqJniCall] for the
    answer, which [BpWrapper] gives; the coroutine of Execution is what makes that one
    call. The macros of the file are definitions with the type they are used at. A
    string is its characters, an argument that points to memory is its contents, and a
    pointer that is kept in the lists has an address. *)

From Stdlib Require Import String.
From S2P Require Import Prelude Bytes ExecutionLists Jni BpWrapper.

Section remote.
Context {E : Type} `{platform E}.

(** ** Requests *)

Definition in_proxy {A} (m : M (proxy E) A) : M (session E) A :=
  zoom (fun s => Some (s_proxy s)) (fun p s => mk_session (s_native s) p) m.
Definition update_native (f : native -> native) : M (session E) unit :=
  modify (fun s => mk_session (f (s_native s)) (s_proxy s)).
Definition get_native {A} (f : native -> A) : M (session E) A := do s <- get; mret' (f (s_native s)).
Definition set_taintsize (n : Z) : M (session E) unit :=
  update_native (fun t => mk_native n (sigList t) (arrayList t) (charsList t) (next_block t)).
Definition set_sigs (l : list sigList_t) : M (session E) unit :=
  update_native (fun t => mk_native (jc_taintsize t) l (arrayList t) (charsList t) (next_block t)).
Definition set_arrays (l : list arrayList_t) : M (session E) unit :=
  update_native (fun t => mk_native (jc_taintsize t) (sigList t) l (charsList t) (next_block t)).
Definition set_chars (l : list stringMap_t) : M (session E) unit :=
  update_native (fun t => mk_native (jc_taintsize t) (sigList t) (arrayList t) l (next_block t)).
(** The address of a block that is kept. *)
Definition new_address : M (session E) Z :=
  do a <- get_native next_block;
  update_native (fun t => mk_native (jc_taintsize t) (sigList t) (arrayList t) (charsList t) (a + 1));;;
  mret' a.

(** [reqJniCall] with the function, the length and the parameters: the parameters are
    written to the reply, [handleJNIRequest] answers, and [param_data] becomes what the
    callback brings. *)
Definition reqJniCall (function length : Z) (param_data : list Z) : M (session E) (list Z) :=
  do taintsize <- get_native jc_taintsize;
  do sent <- deref (peek param_data 0 length);
  in_proxy (handleJNIRequest function length taintsize sent);;;
  in_proxy callback_parcel.
Definition request_data (function taintsize length : Z) (param_data : list Z) : M (session E) (list Z) :=
  set_taintsize taintsize;;;
  reqJniCall function length param_data.
(** The result, from the first bytes of [param_data]. *)
Definition result_of (t : jtype) (param_data : list Z) : M (session E) Z := deref (peek_value (size_of t) param_data 0).

(** The functions that send one word, which is on the stack. *)
Definition request_word (function w : Z) (t : jtype) : M (session E) Z :=
  do r <- request_data function 0 4 (le_bytes 4 w);
  result_of t r.
Definition request_word_void (function w : Z) : M (session E) unit :=
  do _ <- request_data function 0 4 (le_bytes 4 w);
  mret' tt.
(** And two, in a block. *)
Definition two_words (w0 w1 : Z) : M (session E) (list Z) :=
  do data <- malloc 8;
  do data <- put_int data 0 w0;
  put_int data 4 w1.
Definition request_two (function w0 w1 : Z) (t : jtype) : M (session E) Z :=
  do data <- two_words w0 w1;
  do r <- request_data function 0 8 data;
  result_of t r.
Definition three_words (w0 w1 w2 : Z) : M (session E) (list Z) :=
  do data <- malloc 12;
  do data <- put_int data 0 w0;
  do data <- put_int data 4 w1;
  put_int data 8 w2.

(** ** Functions without taint *)

Definition GetVersion : M (session E) Z :=
  do r <- request_data 3 0 0 [];
  result_of JInt r.
Definition FindClass (name : option (list Z)) : M (session E) Z :=
  match name with
  | None => mret' 0
  | Some name =>
      do r <- request_data 4 0 (s32 (Z.of_nat (length name) + 1)) (name ++ [0]);
      result_of JObject r
  end.
Definition FromReflectedMethod (jmethod : Z) : M (session E) Z := request_word 64 jmethod JObject.
Definition FromReflectedField (jfield : Z) : M (session E) Z := request_word 58 jfield JObject.
Definition ToReflectedMethod (jcls methodID isStatic : Z) : M (session E) Z := request_two 61 jcls methodID JObject.
Definition ToReflectedField (jcls fieldID isStatic : Z) : M (session E) Z := request_two 63 jcls fieldID JObject.
Definition GetSuperclass (jclazz : Z) : M (session E) Z := request_word 5 jclazz JObject.
Definition IsAssignableFrom (jclazz1 jclazz2 : Z) : M (session E) Z := request_two 6 jclazz1 jclazz2 JBoolean.
Definition Throw (jt : Z) : M (session E) Z := request_word 8 jt JInt.
Definition ThrowNew (jclazz : Z) (message : list Z) : M (session E) Z :=
  let size := s32 (4 + (Z.of_nat (length message) + 1)) in
  do data <- malloc size;
  do data <- put_int data 0 jclazz;
  do data <- put_bytes data 4 (message ++ [0]);
  do r <- request_data 9 0 size data;
  result_of JInt r.
Definition ExceptionOccurred : M (session E) Z :=
  do r <- request_data 10 0 0 [];
  result_of JObject r.
Definition ExceptionDescribe : M (session E) unit := do _ <- request_data 11 0 0 []; mret' tt.
Definition ExceptionClear : M (session E) unit := do _ <- request_data 12 0 0 []; mret' tt.
Definition ExceptionCheck : M (session E) Z :=
  do r <- request_data 13 0 0 [];
  result_of JBoolean r.
Definition PushLocalFrame (capacity : Z) : M (session E) Z := request_word 125 capacity JInt.
Definition PopLocalFrame (jresult : Z) : M (session E) Z := request_word 126 jresult JObject.
Definition NewGlobalRef (jobj : Z) : M (session E) Z := request_word 21 jobj JObject.
Definition DeleteGlobalRef (jobj : Z) : M (session E) unit := request_word_void 22 jobj.
Definition DeleteLocalRef (jobj : Z) : M (session E) unit := request_word_void 32 jobj.
Definition IsSameObject (jobj1 jobj2 : Z) : M (session E) Z := request_two 23 jobj1 jobj2 JBoolean.
Definition NewLocalRef (jobj : Z) : M (session E) Z := request_word 20 jobj JObject.
Definition EnsureLocalCapacity (capacity : Z) : M (session E) Z := request_word 123 capacity JInt.
Definition AllocObject (jclazz : Z) : M (session E) Z := request_word 7 jclazz JObject.
Definition GetObjectClass (jobj : Z) : M (session E) Z := request_word 18 jobj JObject.
Definition IsInstanceOf (jobj jclazz : Z) : M (session E) Z := request_two 19 jobj jclazz JBoolean.
(** A class, a name and a signature. *)
Definition request_id (function jclazz : Z) (name sig : list Z) : M (session E) Z :=
  let size := s32 (4 + (Z.of_nat (length name) + 1) + (Z.of_nat (length sig) + 1)) in
  do data <- malloc size;
  do data <- put_int data 0 jclazz;
  do data <- put_bytes data 4 (name ++ [0]);
  do data <- put_bytes data (4 + (Z.of_nat (length name) + 1)) (sig ++ [0]);
  do r <- request_data function 0 size data;
  result_of JObject r.
(** The signature of a method that was found is remembered. *)
Definition request_method_id (function jclazz : Z) (name sig : list Z) : M (session E) Z :=
  do result <- request_id function jclazz name sig;
  (if negb (result =? 0) then
     do l <- get_native sigList;
     set_sigs (addSignatureForMethod result sig l)
   else mret' tt);;;
  mret' result.
Definition GetMethodID (jclazz : Z) (name sig : list Z) : M (session E) Z := request_method_id 14 jclazz name sig.
Definition GetFieldID (jclazz : Z) (name sig : list Z) : M (session E) Z := request_id 15 jclazz name sig.
Definition GetStaticMethodID (jclazz : Z) (name sig : list Z) : M (session E) Z := request_method_id 16 jclazz name sig.
Definition GetStaticFieldID (jclazz : Z) (name sig : list Z) : M (session E) Z := request_id 134 jclazz name sig.
Definition NewString (unicodeChars : list Z) (len : Z) : M (session E) Z :=
  let size := s32 (2 * len + 4) in
  do data <- malloc size;
  do data <- put_int data 0 len;
  do chars <- deref (if len <? 0 then None else peek unicodeChars 0 (2 * len));
  do data <- put_bytes data 4 chars;
  do r <- request_data 147 0 size data;
  result_of JObject r.
(** [taintsize] is not set. *)
Definition GetStringLength (jstr : Z) : M (session E) Z :=
  do r <- reqJniCall 119 4 (le_bytes 4 jstr);
  result_of JInt r.
Definition GetStringUTFLength (jstr : Z) : M (session E) Z := request_word 144 jstr JInt.
Definition NewStringUTF (bytes : list Z) : M (session E) Z :=
  let size := s32 (Z.of_nat (length bytes) + 1) in
  do r <- request_data 2 size size (bytes ++ [0]);
  result_of JObject r.
Definition GetArrayLength (jarr : Z) : M (session E) Z := request_word 148 jarr JInt.
Definition NewBooleanArray (length : Z) : M (session E) Z := request_word 110 length JObject.
Definition NewByteArray (length : Z) : M (session E) Z := request_word 111 length JObject.
Definition NewCharArray (length : Z) : M (session E) Z := request_word 112 length JObject.
Definition NewShortArray (length : Z) : M (session E) Z := request_word 113 length JObject.
Definition NewIntArray (length : Z) : M (session E) Z := request_word 114 length JObject.
Definition NewLongArray (length : Z) : M (session E) Z := request_word 115 length JObject.
Definition NewFloatArray (length : Z) : M (session E) Z := request_word 116 length JObject.
Definition NewDoubleArray (length : Z) : M (session E) Z := request_word 117 length JObject.
Definition UnregisterNatives (jclazz : Z) : M (session E) Z := request_word 124 jclazz JInt.
Definition MonitorEnter (jobj : Z) : M (session E) Z := request_word 164 jobj JInt.
Definition MonitorExit (jobj : Z) : M (session E) Z := request_word 165 jobj JInt.
Definition NewWeakGlobalRef (jobj : Z) : M (session E) Z := request_word 109 jobj JObject.
Definition DeleteWeakGlobalRef (jw : Z) : M (session E) unit := request_word_void 69 jw.
Definition GetObjectRefType (jobj : Z) : M (session E) Z := request_word 118 jobj JInt.

(** The methods with their names, signatures and addresses. *)
Record JNINativeMethod := mk_method { m_name : list Z; m_signature : list Z; m_fnPtr : Z }.
Fixpoint put_methods (methods : list JNINativeMethod) (data : list Z) (d2 : Z) : M (session E) (list Z) :=
  match methods with
  | [] => mret' data
  | m :: methods =>
      let j := Z.of_nat (length (m_name m)) + 1 in
      do data <- put_int data d2 j;
      let d2 := d2 + 4 in
      do data <- put_bytes data d2 (m_name m ++ [0]);
      let d2 := d2 + j in
      let j := Z.of_nat (length (m_signature m)) + 1 in
      do data <- put_int data d2 j;
      let d2 := d2 + 4 in
      do data <- put_bytes data d2 (m_signature m ++ [0]);
      let d2 := d2 + j in
      do data <- put_int data d2 (m_fnPtr m);
      put_methods methods data (d2 + 4)
  end.
Definition methods_size (methods : list JNINativeMethod) : Z :=
  foldl (fun size m => size + (Z.of_nat (length (m_name m)) + Z.of_nat (length (m_signature m)) + 2))
    (8 + Z.of_nat (length methods) * 12) methods.
Definition RegisterNatives (jclazz : Z) (methods : list JNINativeMethod) : M (session E) Z :=
  let size := s32 (methods_size methods) in
  do data <- malloc size;
  do data <- put_int data 0 jclazz;
  do data <- put_int data 4 (Z.of_nat (length methods));
  do data <- put_methods methods data 8;
  do r <- request_data 145 0 size data;
  result_of JInt r.

Definition NewDirectByteBuffer (address : list Z) (capacity : Z) : M (session E) Z :=
  let n := u32 (capacity * 4) in
  let size := s32 (8 + n) in
  do data <- malloc size;
  do data <- put_long data 0 capacity;
  do bs <- deref (peek address 0 n);
  do data <- put_bytes data 8 bs;
  do r <- request_data 166 0 size data;
  result_of JObject r.
Definition GetDirectBufferAddress (jbuf : Z) : M (session E) (list Z) :=
  do r <- request_data 167 0 4 (le_bytes 4 jbuf);
  do resultsize <- deref (peek_value 8 r 0);
  let resultsize := s64 resultsize in
  do result <- malloc resultsize;
  do bs <- deref (peek r 8 resultsize);
  put_bytes result 0 bs.
Definition GetDirectBufferCapacity (jbuf : Z) : M (session E) Z := request_word 168 jbuf JLong.

(** ** Fields *)

(** [GETFIELD_COPYDATA] and the rest of the functions. *)
Definition get_field (jobj fieldID function : Z) (t : jtype) : M (session E) Z := request_two function jobj fieldID t.
Definition GetObjectField (jobj fieldID : Z) : M (session E) Z := get_field jobj fieldID 44 JObject.
Definition GetBooleanField (jobj fieldID : Z) : M (session E) Z := get_field jobj fieldID 45 JBoolean.
Definition GetByteField (jobj fieldID : Z) : M (session E) Z := get_field jobj fieldID 46 JByte.
Definition GetCharField (jobj fieldID : Z) : M (session E) Z := get_field jobj fieldID 47 JChar.
Definition GetShortField (jobj fieldID : Z) : M (session E) Z := get_field jobj fieldID 48 JShort.
Definition GetIntField (jobj fieldID : Z) : M (session E) Z := get_field jobj fieldID 30 JInt.
Definition GetLongField (jobj fieldID : Z) : M (session E) Z := get_field jobj fieldID 17 JLong.
Definition GetFloatField (jobj fieldID : Z) : M (session E) Z := get_field jobj fieldID 49 JFloat.
Definition GetDoubleField (jobj fieldID : Z) : M (session E) Z := get_field jobj fieldID 50 JDouble.

(** [SETFIELD_COPYDATA] and [SETFIELD_COPYDATAL]. *)
Definition set_field (jobj fieldID : Z) (t : jtype) (val function : Z) : M (session E) unit :=
  do data <- three_words (to_int t val) fieldID jobj;
  do _ <- request_data function 4 12 data;
  mret' tt.
Definition set_field_long (jobj fieldID : Z) (t : jtype) (val function : Z) : M (session E) unit :=
  do data <- malloc 16;
  do data <- put_long data 0 (to_long t val);
  do data <- put_int data 8 fieldID;
  do data <- put_int data 12 jobj;
  do _ <- request_data function 4 16 data;
  mret' tt.
Definition SetObjectField (jobj fieldID val : Z) : M (session E) unit := set_field jobj fieldID JObject val 43.
Definition SetBooleanField (jobj fieldID val : Z) : M (session E) unit := set_field jobj fieldID JBoolean val 42.
Definition SetByteField (jobj fieldID val : Z) : M (session E) unit := set_field jobj fieldID JByte val 41.
Definition SetCharField (jobj fieldID val : Z) : M (session E) unit := set_field jobj fieldID JChar val 40.
Definition SetShortField (jobj fieldID val : Z) : M (session E) unit := set_field jobj fieldID JShort val 39.
Definition SetIntField (jobj fieldID val : Z) : M (session E) unit := set_field jobj fieldID JInt val 35.
Definition SetLongField (jobj fieldID val : Z) : M (session E) unit := set_field_long jobj fieldID JLong val 36.
Definition SetFloatField (jobj fieldID val : Z) : M (session E) unit := set_field jobj fieldID JFloat val 38.
Definition SetDoubleField (jobj fieldID val : Z) : M (session E) unit := set_field_long jobj fieldID JDouble val 37.

(** [GETSTATIC_COPYDATA]: [taintsize] is not set. *)
Definition get_static_field (jclazz fieldID function : Z) (t : jtype) : M (session E) Z :=
  do data <- two_words jclazz fieldID;
  do r <- reqJniCall function 8 data;
  result_of t r.
Definition GetStaticIntField (jclazz fieldID : Z) : M (session E) Z := get_static_field jclazz fieldID 135 JInt.
Definition GetStaticShortField (jclazz fieldID : Z) : M (session E) Z := get_static_field jclazz fieldID 136 JShort.
Definition GetStaticCharField (jclazz fieldID : Z) : M (session E) Z := get_static_field jclazz fieldID 137 JChar.
Definition GetStaticByteField (jclazz fieldID : Z) : M (session E) Z := get_static_field jclazz fieldID 138 JByte.
Definition GetStaticBooleanField (jclazz fieldID : Z) : M (session E) Z := get_static_field jclazz fieldID 139 JBoolean.
Definition GetStaticObjectField (jclazz fieldID : Z) : M (session E) Z := get_static_field jclazz fieldID 140 JObject.
Definition GetStaticLongField (jclazz fieldID : Z) : M (session E) Z := get_static_field jclazz fieldID 141 JLong.
Definition GetStaticFloatField (jclazz fieldID : Z) : M (session E) Z := get_static_field jclazz fieldID 142 JFloat.
Definition GetStaticDoubleField (jclazz fieldID : Z) : M (session E) Z := get_static_field jclazz fieldID 143 JDouble.

(** [SETSTATIC_COPYDATA]. *)
Definition set_static_field (jc fieldID : Z) (t : jtype) (val taintsize function : Z) : M (session E) unit :=
  let sz := Z.of_nat (size_of t) in
  let size := 4 + 4 + sz in
  do data <- malloc size;
  do data <- put_bytes data 0 (le_bytes (size_of t) val);
  do data <- put_int data sz jc;
  do data <- put_int data (sz + 4) fieldID;
  do _ <- request_data function taintsize size data;
  mret' tt.
Definition SetStaticObjectField (jc fieldID val : Z) : M (session E) unit := set_static_field jc fieldID JObject val 8 133.
Definition SetStaticBooleanField (jc fieldID val : Z) : M (session E) unit := set_static_field jc fieldID JBoolean val 8 133.
Definition SetStaticByteField (jc fieldID val : Z) : M (session E) unit := set_static_field jc fieldID JByte val 8 132.
Definition SetStaticCharField (jc fieldID val : Z) : M (session E) unit := set_static_field jc fieldID JChar val 8 131.
Definition SetStaticShortField (jc fieldID val : Z) : M (session E) unit := set_static_field jc fieldID JShort val 8 130.
Definition SetStaticIntField (jc fieldID val : Z) : M (session E) unit := set_static_field jc fieldID JInt val 8 129.
Definition SetStaticLongField (jc fieldID val : Z) : M (session E) unit := set_static_field jc fieldID JLong val 8 60.
Definition SetStaticFloatField (jc fieldID val : Z) : M (session E) unit := set_static_field jc fieldID JFloat val 0 128.
Definition SetStaticDoubleField (jc fieldID val : Z) : M (session E) unit := set_static_field jc fieldID JDouble val 0 127.

(** ** Methods *)

(** The arguments of a function with "...", by the size [va_arg] takes. *)
Inductive va := Va4 (v : Z) | Va8 (v : Z).
(** [PARAMS_FROM_ARGS]: the loop over the signature, which writes to [d2]. *)
Fixpoint params_from_args (sig : list Z) (args : list va) (data : list Z) (d2 : Z) : option (list Z) :=
  match sig with
  | [] => None
  | c :: sig =>
      if c =? 41 then Some data
      else if bool_decide (c ∈ str "LZBCSI"%string) then
        match args with
        | Va4 v :: args =>
            data ← write_bytes data d2 (le_bytes 4 v);
            data ← write_bytes data (d2 + 4) (replicate 4 0);
            params_from_args sig args data (d2 + 8)
        | _ => None
        end
      else if bool_decide (c ∈ str "DJ"%string) then
        match args with
        | Va8 v :: args => data ← write_bytes data d2 (le_bytes 8 v); params_from_args sig args data (d2 + 8)
        | _ => None
        end
      else params_from_args sig args data d2
  end.
(** The parameters from a list of arguments, or from an array of [jvalue]s. *)
Definition params : Type := option (list Z) -> Z -> list Z -> Z -> option (list Z).
Definition from_va (args : list va) : params := fun sig _ data d2 => sig ← sig; params_from_args sig args data d2.
Definition from_jvalues (args : list Z) : params := fun _ paramSize data d2 =>
  bs ← (if paramSize <? 0 then None else peek args 0 paramSize); write_bytes data d2 bs.
(** The size of the parameters and the signature. *)
Definition method_params (methodID : Z) : M (session E) (Z * option (list Z)) :=
  do l <- get_native sigList;
  do n <- deref (getNumParams methodID l);
  mret' (s32 (8 * n), getSignatureForMethod methodID l).

(** [CALL_COPY] and the request: the new [param_data]. *)
Definition call_copy (jobj methodID : Z) (ps : params) (function : Z) : M (session E) (list Z) :=
  do m <- method_params methodID;
  let '(paramSize, sig) := m in
  let size := s32 (4 + 4 + 4 + paramSize) in
  do data <- malloc (s32 (size + size));
  do data <- put_int data 0 jobj;
  do data <- put_int data 4 methodID;
  do data <- put_int data 8 paramSize;
  do data <- deref (ps sig paramSize data 12);
  request_data function size size data.
(** [CALL_COPY_NONVIRTUAL]. *)
Definition call_copy_nonvirtual (jobj jc methodID : Z) (ps : params) (function : Z) : M (session E) (list Z) :=
  do m <- method_params methodID;
  let '(paramSize, sig) := m in
  let size := s32 (4 + 4 + 4 + 4 + paramSize) in
  do data <- malloc size;
  do data <- put_int data 0 jobj;
  do data <- put_int data 4 jc;
  do data <- put_int data 8 methodID;
  do data <- put_int data 12 paramSize;
  do data <- deref (ps sig paramSize data 16);
  request_data function size size data.
(** [CALL_COPY_STATIC]: the size leaves out the word of the size. *)
Definition call_copy_static (jc methodID : Z) (ps : params) (function : Z) : M (session E) (list Z) :=
  do m <- method_params methodID;
  let '(paramSize, sig) := m in
  let size := s32 (4 + 4 + paramSize) in
  do data <- malloc size;
  do data <- put_int data 0 jc;
  do data <- put_int data 4 methodID;
  do data <- put_int data 8 paramSize;
  do data <- deref (ps sig paramSize data 12);
  request_data function size size data.
(** [NEW_COPY]. *)
Definition new_object (jclazz methodID : Z) (ps : params) : M (session E) Z :=
  do m <- method_params methodID;
  let '(paramSize, sig) := m in
  let size := s32 (4 + 4 + paramSize) in
  do data <- malloc size;
  do data <- put_int data 0 jclazz;
  do data <- put_int data 4 methodID;
  do data <- deref (ps sig paramSize data 8);
  do r <- request_data 59 (s32 (paramSize + 4 + 4)) size data;
  result_of JObject r.
Definition NewObject (jclazz methodID : Z) (args : list va) : M (session E) Z := new_object jclazz methodID (from_va args).
Definition NewObjectV (jclazz methodID : Z) (args : list va) : M (session E) Z := new_object jclazz methodID (from_va args).
Definition NewObjectA (jclazz methodID : Z) (args : list Z) : M (session E) Z := new_object jclazz methodID (from_jvalues args).

Definition call_virtual (jobj methodID : Z) (ps : params) (function : Z) (t : jtype) : M (session E) Z :=
  do r <- call_copy jobj methodID ps function; result_of t r.
Definition call_virtual_void (jobj methodID : Z) (ps : params) (function : Z) : M (session E) unit :=
  do _ <- call_copy jobj methodID ps function; mret' tt.
Definition CallObjectMethod (jobj methodID : Z) (args : list va) : M (session E) Z := call_virtual jobj methodID (from_va args) 33 JObject.
Definition CallObjectMethodV (jobj methodID : Z) (args : list va) : M (session E) Z := call_virtual jobj methodID (from_va args) 33 JObject.
Definition CallObjectMethodA (jobj methodID : Z) (args : list Z) : M (session E) Z := call_virtual jobj methodID (from_jvalues args) 33 JObject.
Definition CallBooleanMethod (jobj methodID : Z) (args : list va) : M (session E) Z := call_virtual jobj methodID (from_va args) 24 JBoolean.
Definition CallBooleanMethodV (jobj methodID : Z) (args : list va) : M (session E) Z := call_virtual jobj methodID (from_va args) 25 JBoolean.
Definition CallBooleanMethodA (jobj methodID : Z) (args : list Z) : M (session E) Z := call_virtual jobj methodID (from_jvalues args) 26 JBoolean.
Definition CallByteMethod (jobj methodID : Z) (args : list va) : M (session E) Z := call_virtual jobj methodID (from_va args) 71 JByte.
Definition CallByteMethodV (jobj methodID : Z) (args : list va) : M (session E) Z := call_virtual jobj methodID (from_va args) 71 JByte.
Definition CallByteMethodA (jobj methodID : Z) (args : list Z) : M (session E) Z := call_virtual jobj methodID (from_jvalues args) 71 JByte.
Definition CallCharMethod (jobj methodID : Z) (args : list va) : M (session E) Z := call_virtual jobj methodID (from_va args) 72 JChar.
Definition CallCharMethodV (jobj methodID : Z) (args : list va) : M (session E) Z := call_virtual jobj methodID (from_va args) 72 JChar.
Definition CallCharMethodA (jobj methodID : Z) (args : list Z) : M (session E) Z := call_virtual jobj methodID (from_jvalues args) 72 JChar.
Definition CallShortMethod (jobj methodID : Z) (args : list va) : M (session E) Z := call_virtual jobj methodID (from_va args) 84 JShort.
Definition CallShortMethodV (jobj methodID : Z) (args : list va) : M (session E) Z := call_virtual jobj methodID (from_va args) 84 JShort.
Definition CallShortMethodA (jobj methodID : Z) (args : list Z) : M (session E) Z := call_virtual jobj methodID (from_jvalues args) 84 JShort.
Definition CallIntMethod (jobj methodID : Z) (args : list va) : M (session E) Z := call_virtual jobj methodID (from_va args) 27 JInt.
Definition CallIntMethodV (jobj methodID : Z) (args : list va) : M (session E) Z := call_virtual jobj methodID (from_va args) 28 JInt.
Definition CallIntMethodA (jobj methodID : Z) (args : list Z) : M (session E) Z := call_virtual jobj methodID (from_jvalues args) 29 JInt.
Definition CallLongMethod (jobj methodID : Z) (args : list va) : M (session E) Z := call_virtual jobj methodID (from_va args) 73 JLong.
Definition CallLongMethodV (jobj methodID : Z) (args : list va) : M (session E) Z := call_virtual jobj methodID (from_va args) 73 JLong.
Definition CallLongMethodA (jobj methodID : Z) (args : list Z) : M (session E) Z := call_virtual jobj methodID (from_jvalues args) 73 JLong.
Definition CallFloatMethod (jobj methodID : Z) (args : list va) : M (session E) Z := call_virtual jobj methodID (from_va args) 62 JFloat.
Definition CallFloatMethodV (jobj methodID : Z) (args : list va) : M (session E) Z := call_virtual jobj methodID (from_va args) 62 JFloat.
Definition CallFloatMethodA (jobj methodID : Z) (args : list Z) : M (session E) Z := call_virtual jobj methodID (from_jvalues args) 62 JFloat.
Definition CallDoubleMethod (jobj methodID : Z) (args : list va) : M (session E) Z := call_virtual jobj methodID (from_va args) 74 JDouble.
Definition CallDoubleMethodV (jobj methodID : Z) (args : list va) : M (session E) Z := call_virtual jobj methodID (from_va args) 74 JDouble.
Definition CallDoubleMethodA (jobj methodID : Z) (args : list Z) : M (session E) Z := call_virtual jobj methodID (from_jvalues args) 74 JDouble.
Definition CallVoidMethod (jobj methodID : Z) (args : list va) : M (session E) unit := call_virtual_void jobj methodID (from_va args) 34.
Definition CallVoidMethodV (jobj methodID : Z) (args : list va) : M (session E) unit := call_virtual_void jobj methodID (from_va args) 34.
Definition CallVoidMethodA (jobj methodID : Z) (args : list Z) : M (session E) unit := call_virtual_void jobj methodID (from_jvalues args) 34.
Definition call_nonvirtual (jobj jc methodID : Z) (ps : params) (function : Z) (t : jtype) : M (session E) Z :=
  do r <- call_copy_nonvirtual jobj jc methodID ps function; result_of t r.
Definition call_nonvirtual_void (jobj jc methodID : Z) (ps : params) (function : Z) : M (session E) unit :=
  do _ <- call_copy_nonvirtual jobj jc methodID ps function; mret' tt.
Definition CallNonvirtualObjectMethod (jobj jc methodID : Z) (args : list va) : M (session E) Z := call_nonvirtual jobj jc methodID (from_va args) 31 JObject.
Definition CallNonvirtualObjectMethodV (jobj jc methodID : Z) (args : list va) : M (session E) Z := call_nonvirtual jobj jc methodID (from_va args) 31 JObject.
Definition CallNonvirtualObjectMethodA (jobj jc methodID : Z) (args : list Z) : M (session E) Z := call_nonvirtual jobj jc methodID (from_jvalues args) 31 JObject.
Definition CallNonvirtualBooleanMethod (jobj jc methodID : Z) (args : list va) : M (session E) Z := call_nonvirtual jobj jc methodID (from_va args) 75 JBoolean.
Definition CallNonvirtualBooleanMethodV (jobj jc methodID : Z) (args : list va) : M (session E) Z := call_nonvirtual jobj jc methodID (from_va args) 75 JBoolean.
Definition CallNonvirtualBooleanMethodA (jobj jc methodID : Z) (args : list Z) : M (session E) Z := call_nonvirtual jobj jc methodID (from_jvalues args) 75 JBoolean.
Definition CallNonvirtualByteMethod (jobj jc methodID : Z) (args : list va) : M (session E) Z := call_nonvirtual jobj jc methodID (from_va args) 76 JByte.
Definition CallNonvirtualByteMethodV (jobj jc methodID : Z) (args : list va) : M (session E) Z := call_nonvirtual jobj jc methodID (from_va args) 76 JByte.
Definition CallNonvirtualByteMethodA (jobj jc methodID : Z) (args : list Z) : M (session E) Z := call_nonvirtual jobj jc methodID (from_jvalues args) 76 JByte.
Definition CallNonvirtualCharMethod (jobj jc methodID : Z) (args : list va) : M (session E) Z := call_nonvirtual jobj jc methodID (from_va args) 77 JChar.
Definition CallNonvirtualCharMethodV (jobj jc methodID : Z) (args : list va) : M (session E) Z := call_nonvirtual jobj jc methodID (from_va args) 77 JChar.
Definition CallNonvirtualCharMethodA (jobj jc methodID : Z) (args : list Z) : M (session E) Z := call_nonvirtual jobj jc methodID (from_jvalues args) 77 JChar.
Definition CallNonvirtualShortMethod (jobj jc methodID : Z) (args : list va) : M (session E) Z := call_nonvirtual jobj jc methodID (from_va args) 78 JShort.
Definition CallNonvirtualShortMethodV (jobj jc methodID : Z) (args : list va) : M (session E) Z := call_nonvirtual jobj jc methodID (from_va args) 78 JShort.
Definition CallNonvirtualShortMethodA (jobj jc methodID : Z) (args : list Z) : M (session E) Z := call_nonvirtual jobj jc methodID (from_jvalues args) 78 JShort.
Definition CallNonvirtualIntMethod (jobj jc methodID : Z) (args : list va) : M (session E) Z := call_nonvirtual jobj jc methodID (from_va args) 79 JInt.
Definition CallNonvirtualIntMethodV (jobj jc methodID : Z) (args : list va) : M (session E) Z := call_nonvirtual jobj jc methodID (from_va args) 79 JInt.
Definition CallNonvirtualIntMethodA (jobj jc methodID : Z) (args : list Z) : M (session E) Z := call_nonvirtual jobj jc methodID (from_jvalues args) 79 JInt.
Definition CallNonvirtualLongMethod (jobj jc methodID : Z) (args : list va) : M (session E) Z := call_nonvirtual jobj jc methodID (from_va args) 80 JLong.
Definition CallNonvirtualLongMethodV (jobj jc methodID : Z) (args : list va) : M (session E) Z := call_nonvirtual jobj jc methodID (from_va args) 80 JLong.
Definition CallNonvirtualLongMethodA (jobj jc methodID : Z) (args : list Z) : M (session E) Z := call_nonvirtual jobj jc methodID (from_jvalues args) 80 JLong.
Definition CallNonvirtualFloatMethod (jobj jc methodID : Z) (args : list va) : M (session E) Z := call_nonvirtual jobj jc methodID (from_va args) 81 JFloat.
Definition CallNonvirtualFloatMethodV (jobj jc methodID : Z) (args : list va) : M (session E) Z := call_nonvirtual jobj jc methodID (from_va args) 81 JFloat.
Definition CallNonvirtualFloatMethodA (jobj jc methodID : Z) (args : list Z) : M (session E) Z := call_nonvirtual jobj jc methodID (from_jvalues args) 81 JFloat.
Definition CallNonvirtualDoubleMethod (jobj jc methodID : Z) (args : list va) : M (session E) Z := call_nonvirtual jobj jc methodID (from_va args) 82 JDouble.
Definition CallNonvirtualDoubleMethodV (jobj jc methodID : Z) (args : list va) : M (session E) Z := call_nonvirtual jobj jc methodID (from_va args) 82 JDouble.
Definition CallNonvirtualDoubleMethodA (jobj jc methodID : Z) (args : list Z) : M (session E) Z := call_nonvirtual jobj jc methodID (from_jvalues args) 82 JDouble.
Definition CallNonvirtualVoidMethod (jobj jc methodID : Z) (args : list va) : M (session E) unit := call_nonvirtual_void jobj jc methodID (from_va args) 83.
Definition CallNonvirtualVoidMethodV (jobj jc methodID : Z) (args : list va) : M (session E) unit := call_nonvirtual_void jobj jc methodID (from_va args) 83.
Definition CallNonvirtualVoidMethodA (jobj jc methodID : Z) (args : list Z) : M (session E) unit := call_nonvirtual_void jobj jc methodID (from_jvalues args) 83.
Definition call_static (jc methodID : Z) (ps : params) (function : Z) (t : jtype) : M (session E) Z :=
  do r <- call_copy_static jc methodID ps function; result_of t r.
Definition call_static_void (jc methodID : Z) (ps : params) (function : Z) : M (session E) unit :=
  do _ <- call_copy_static jc methodID ps function; mret' tt.
Definition CallStaticVoidMethod (jc methodID : Z) (args : list va) : M (session E) unit := call_static_void jc methodID (from_va args) 52.
Definition CallStaticVoidMethodV (jc methodID : Z) (args : list va) : M (session E) unit := call_static_void jc methodID (from_va args) 52.
Definition CallStaticVoidMethodA (jc methodID : Z) (args : list Z) : M (session E) unit := call_static_void jc methodID (from_jvalues args) 52.
Definition CallStaticObjectMethod (jc methodID : Z) (args : list va) : M (session E) Z := call_static jc methodID (from_va args) 88 JObject.
Definition CallStaticObjectMethodV (jc methodID : Z) (args : list va) : M (session E) Z := call_static jc methodID (from_va args) 88 JObject.
Definition CallStaticObjectMethodA (jc methodID : Z) (args : list Z) : M (session E) Z := call_static jc methodID (from_jvalues args) 88 JObject.
Definition CallStaticBooleanMethod (jc methodID : Z) (args : list va) : M (session E) Z := call_static jc methodID (from_va args) 87 JBoolean.
Definition CallStaticBooleanMethodV (jc methodID : Z) (args : list va) : M (session E) Z := call_static jc methodID (from_va args) 87 JBoolean.
Definition CallStaticBooleanMethodA (jc methodID : Z) (args : list Z) : M (session E) Z := call_static jc methodID (from_jvalues args) 87 JBoolean.
Definition CallStaticByteMethod (jc methodID : Z) (args : list va) : M (session E) Z := call_static jc methodID (from_va args) 86 JByte.
Definition CallStaticByteMethodV (jc methodID : Z) (args : list va) : M (session E) Z := call_static jc methodID (from_va args) 86 JByte.
Definition CallStaticByteMethodA (jc methodID : Z) (args : list Z) : M (session E) Z := call_static jc methodID (from_jvalues args) 86 JByte.
Definition CallStaticCharMethod (jc methodID : Z) (args : list va) : M (session E) Z := call_static jc methodID (from_va args) 85 JChar.
Definition CallStaticCharMethodV (jc methodID : Z) (args : list va) : M (session E) Z := call_static jc methodID (from_va args) 85 JChar.
Definition CallStaticCharMethodA (jc methodID : Z) (args : list Z) : M (session E) Z := call_static jc methodID (from_jvalues args) 85 JChar.
Definition CallStaticShortMethod (jc methodID : Z) (args : list va) : M (session E) Z := call_static jc methodID (from_va args) 51 JShort.
Definition CallStaticShortMethodV (jc methodID : Z) (args : list va) : M (session E) Z := call_static jc methodID (from_va args) 51 JShort.
Definition CallStaticShortMethodA (jc methodID : Z) (args : list Z) : M (session E) Z := call_static jc methodID (from_jvalues args) 51 JShort.
Definition CallStaticIntMethod (jc methodID : Z) (args : list va) : M (session E) Z := call_static jc methodID (from_va args) 89 JInt.
Definition CallStaticIntMethodV (jc methodID : Z) (args : list va) : M (session E) Z := call_static jc methodID (from_va args) 89 JInt.
Definition CallStaticIntMethodA (jc methodID : Z) (args : list Z) : M (session E) Z := call_static jc methodID (from_jvalues args) 89 JInt.
Definition CallStaticLongMethod (jc methodID : Z) (args : list va) : M (session E) Z := call_static jc methodID (from_va args) 90 JLong.
Definition CallStaticLongMethodV (jc methodID : Z) (args : list va) : M (session E) Z := call_static jc methodID (from_va args) 90 JLong.
Definition CallStaticLongMethodA (jc methodID : Z) (args : list Z) : M (session E) Z := call_static jc methodID (from_jvalues args) 90 JLong.
Definition CallStaticFloatMethod (jc methodID : Z) (args : list va) : M (session E) Z := call_static jc methodID (from_va args) 91 JFloat.
Definition CallStaticFloatMethodV (jc methodID : Z) (args : list va) : M (session E) Z := call_static jc methodID (from_va args) 91 JFloat.
Definition CallStaticFloatMethodA (jc methodID : Z) (args : list Z) : M (session E) Z := call_static jc methodID (from_jvalues args) 91 JFloat.
Definition CallStaticDoubleMethod (jc methodID : Z) (args : list va) : M (session E) Z := call_static jc methodID (from_va args) 91 JDouble.
Definition CallStaticDoubleMethodV (jc methodID : Z) (args : list va) : M (session E) Z := call_static jc methodID (from_va args) 91 JDouble.
Definition CallStaticDoubleMethodA (jc methodID : Z) (args : list Z) : M (session E) Z := call_static jc methodID (from_jvalues args) 91 JDouble.

(** ** Arrays *)

Definition NewObjectArray (length jelementClass jinitialElement : Z) : M (session E) Z :=
  do data <- three_words jinitialElement length jelementClass;
  do r <- request_data 122 4 12 data;
  result_of JObject r.
Definition GetObjectArrayElement (jarr index : Z) : M (session E) Z := request_two 149 jarr index JObject.
Definition SetObjectArrayElement (jarr index jobj : Z) : M (session E) unit :=
  do data <- three_words jobj index jarr;
  do _ <- request_data 150 4 12 data;
  mret' tt.
(** [GET_GENERIC_ARRAYELEMENTS]: the block with the elements. *)
Definition array_from (jarr : Z) (param_data : list Z) : M (session E) (list Z) :=
  do size <- deref (peek_value 4 param_data 0);
  let size := s32 size in
  do dalvikP <- deref (peek_value 4 param_data 4);
  do l <- get_native arrayList;
  set_arrays (addArray jarr size dalvikP l);;;
  do result <- malloc size;
  do bs <- deref (peek param_data 8 size);
  put_bytes result 0 bs.
Definition get_elements (jarr function : Z) : M (session E) (list Z) :=
  do r <- request_data function 0 4 (le_bytes 4 jarr);
  array_from jarr r.
Definition GetBooleanArrayElements (jarr : Z) : M (session E) (list Z) := get_elements jarr 151.
Definition GetByteArrayElements (jarr : Z) : M (session E) (list Z) := get_elements jarr 70.
Definition GetCharArrayElements (jarr : Z) : M (session E) (list Z) := get_elements jarr 152.
Definition GetShortArrayElements (jarr : Z) : M (session E) (list Z) := get_elements jarr 99.
Definition GetIntArrayElements (jarr : Z) : M (session E) (list Z) := get_elements jarr 153.
Definition GetLongArrayElements (jarr : Z) : M (session E) (list Z) := get_elements jarr 97.
Definition GetFloatArrayElements (jarr : Z) : M (session E) (list Z) := get_elements jarr 154.
Definition GetDoubleArrayElements (jarr : Z) : M (session E) (list Z) := get_elements jarr 98.
(** With [JNI_COMMIT] nothing is done. *)
Definition release_elements (jarr mode function : Z) : M (session E) unit :=
  if mode =? 1 then mret' tt else request_word_void function jarr.
Definition ReleaseBooleanArrayElements (jarr mode : Z) : M (session E) unit := release_elements jarr mode 102.
Definition ReleaseByteArrayElements (jarr mode : Z) : M (session E) unit := release_elements jarr mode 101.
Definition ReleaseCharArrayElements (jarr mode : Z) : M (session E) unit := release_elements jarr mode 103.
Definition ReleaseShortArrayElements (jarr mode : Z) : M (session E) unit := release_elements jarr mode 104.
Definition ReleaseIntArrayElements (jarr mode : Z) : M (session E) unit := release_elements jarr mode 105.
Definition ReleaseLongArrayElements (jarr mode : Z) : M (session E) unit := release_elements jarr mode 106.
Definition ReleaseFloatArrayElements (jarr mode : Z) : M (session E) unit := release_elements jarr mode 107.
Definition ReleaseDoubleArrayElements (jarr mode : Z) : M (session E) unit := release_elements jarr mode 108.
(** [GENERIC_GETARRAYREGION]: what is copied to the buffer. *)
Definition get_region (t : jtype) (jarr start len function : Z) : M (session E) (list Z) :=
  do data <- three_words jarr start len;
  do r <- request_data function 0 12 data;
  deref (if len <? 0 then None else peek r 0 (Z.of_nat (size_of t) * len)).
Definition GetBooleanArrayRegion (jarr start len : Z) : M (session E) (list Z) := get_region JBoolean jarr start len 155.
Definition GetByteArrayRegion (jarr start len : Z) : M (session E) (list Z) := get_region JByte jarr start len 54.
Definition GetCharArrayRegion (jarr start len : Z) : M (session E) (list Z) := get_region JChar jarr start len 156.
Definition GetShortArrayRegion (jarr start len : Z) : M (session E) (list Z) := get_region JShort jarr start len 157.
Definition GetIntArrayRegion (jarr start len : Z) : M (session E) (list Z) := get_region JInt jarr start len 158.
Definition GetLongArrayRegion (jarr start len : Z) : M (session E) (list Z) := get_region JLong jarr start len 159.
Definition GetFloatArrayRegion (jarr start len : Z) : M (session E) (list Z) := get_region JFloat jarr start len 160.
Definition GetDoubleArrayRegion (jarr start len : Z) : M (session E) (list Z) := get_region JDouble jarr start len 100.
(** [ARRAYREGION_COPYOUT]. *)
Definition set_region (t : jtype) (jarr start len : Z) (buf : list Z) (function : Z) : M (session E) unit :=
  let n := len * Z.of_nat (size_of t) in
  let size := s32 (4 + 8 + n) in
  do data <- malloc size;
  do data <- put_int data 0 len;
  do bs <- deref (if len <? 0 then None else peek buf 0 n);
  do data <- put_bytes data 4 bs;
  do data <- put_int data (4 * (n / 4 + 1)) jarr;
  do data <- put_int data (4 * (n / 4 + 2)) start;
  do _ <- request_data function (n + 4) size data;
  mret' tt.
Definition SetBooleanArrayRegion (jarr start len : Z) (buf : list Z) : M (session E) unit := set_region JBoolean jarr start len buf 161.
Definition SetByteArrayRegion (jarr start len : Z) (buf : list Z) : M (session E) unit := set_region JByte jarr start len buf 94.
Definition SetCharArrayRegion (jarr start len : Z) (buf : list Z) : M (session E) unit := set_region JChar jarr start len buf 95.
Definition SetShortArrayRegion (jarr start len : Z) (buf : list Z) : M (session E) unit := set_region JShort jarr start len buf 53.
Definition SetIntArrayRegion (jarr start len : Z) (buf : list Z) : M (session E) unit := set_region JInt jarr start len buf 96.
Definition SetLongArrayRegion (jarr start len : Z) (buf : list Z) : M (session E) unit := set_region JLong jarr start len buf 162.
Definition SetFloatArrayRegion (jarr start len : Z) (buf : list Z) : M (session E) unit := set_region JFloat jarr start len buf 93.
Definition SetDoubleArrayRegion (jarr start len : Z) (buf : list Z) : M (session E) unit := set_region JDouble jarr start len buf 163.
Definition GetPrimitiveArrayCritical (jarr : Z) : M (session E) (list Z) :=
  do r <- request_data 65 0 4 (le_bytes 4 jarr);
  array_from jarr r.
(** The size leaves out one of the three words. *)
Definition ReleasePrimitiveArrayCritical (jarr : Z) (array : list Z) (mode : Z) : M (session E) unit :=
  if mode =? 1 then mret' tt
  else
    do l <- get_native arrayList;
    do at_ <- deref (getArrayLength jarr l);
    let size := s32 (4 + 4 + ar_length at_) in
    if size <? 0 then mret' tt
    else
      do data <- malloc size;
      do data <- put_int data 0 jarr;
      do data <- put_int data 4 (ar_length at_);
      do data <- put_int data 8 (ar_dalvikP at_);
      do bs <- deref (if ar_length at_ <? 0 then None else peek array 0 (ar_length at_));
      do data <- put_bytes data 12 bs;
      do _ <- request_data 66 0 size data;
      mret' tt.

(** ** Strings *)

(** The characters in a block of their own, entered in the list under its address. *)
Definition chars_from (param_data : list Z) : M (session E) (Z * list Z) :=
  do dalvikP <- deref (peek_value 4 param_data 0);
  do strlen <- deref (peek_value 4 param_data 4);
  let strlen := s32 strlen in
  do result <- malloc (strlen * 2 + 1);
  do bs <- deref (if strlen <? 0 then None else peek param_data 8 (strlen * 2));
  do result <- put_bytes result 0 bs;
  do a <- new_address;
  do l <- get_native charsList;
  set_chars (addStringChars dalvikP strlen a l);;;
  mret' (a, result).
Definition GetStringChars (jstr : Z) : M (session E) (Z * list Z) :=
  do r <- request_data 55 0 4 (le_bytes 4 jstr);
  chars_from r.
Definition GetStringCritical (jstr : Z) : M (session E) (Z * list Z) :=
  do r <- request_data 68 0 4 (le_bytes 4 jstr);
  chars_from r.
(** The address and the contents of the characters that are released. *)
Definition ReleaseStringChars (jstr chars : Z) (block : list Z) : M (session E) unit :=
  do l <- get_native charsList;
  match getDalvikChars chars l with
  | None => mret' tt
  | Some s =>
      if ch_length s <? 0 then mret' tt
      else
        let size := s32 (3 * 4 + 2 * ch_length s) in
        do data <- malloc size;
        do data <- put_int data 0 jstr;
        do data <- put_int data 4 (ch_dalvikP s);
        do data <- put_int data 8 (ch_length s);
        do bs <- deref (peek block 0 (2 * ch_length s));
        do data <- put_bytes data 12 bs;
        do _ <- request_data 56 size size data;
        do l <- get_native charsList;
        do l <- deref (deleteCharsEntry chars l);
        set_chars l
  end.
(** Half of the length is copied, a quarter of the characters. *)
Definition ReleaseStringCritical (jstr chars : Z) (block : list Z) : M (session E) unit :=
  do l <- get_native charsList;
  match getDalvikChars chars l with
  | None => mret' tt
  | Some s =>
      if ch_length s <? 0 then mret' tt
      else
        let strlen := if Z.rem (ch_length s) 2 =? 1 then ch_length s + 1 else ch_length s in
        let size := s32 (4 + 4 + 4 + 2 * strlen) in
        do data <- malloc size;
        do data <- put_int data 0 (ch_length s);
        do bs <- deref (peek block 0 (strlen / 2));
        do data <- put_bytes data 4 bs;
        do data <- put_int data (4 * (1 + strlen / 2)) jstr;
        do data <- put_int data (4 * (2 + strlen / 2)) (ch_dalvikP s);
        do l <- deref (deleteCharsEntry chars l);
        set_chars l;;;
        do _ <- request_data 57 (4 + 2 * ch_length s) size data;
        mret' tt
  end.
(** The characters are left in the block of the callback. *)
Definition GetStringUTFChars (jstr : Z) : M (session E) (Z * list Z) :=
  do r <- request_data 1 0 4 (le_bytes 4 jstr);
  do dalvikP <- deref (peek_value 4 r 0);
  do length <- deref (peek_value 4 r 4);
  do d <- new_address;
  do l <- get_native charsList;
  set_chars (addStringChars dalvikP (s32 length) d l);;;
  mret' (d, drop 8 r).
Definition ReleaseStringUTFChars (jstr utf : Z) (block : list Z) : M (session E) unit :=
  do l <- get_native charsList;
  do chars <- deref (c_string block 0);
  let size := s32 (4 + 4 + Z.of_nat (length chars) * 8) in
  do data <- malloc size;
  do s <- deref (getDalvikChars utf l);
  do data <- put_int data 0 (ch_dalvikP s);
  do data <- put_int data 4 (ch_length s);
  do data <- put_int data 8 jstr;
  do bs <- deref (if ch_length s <? 0 then None else peek block 0 (ch_length s));
  do data <- put_bytes data 12 bs;
  do _ <- request_data 67 size size data;
  mret' tt.
Definition string_region (function jstr start len n : Z) : M (session E) (list Z) :=
  do data <- three_words jstr start len;
  do r <- request_data function 0 12 data;
  deref (if n <? 0 then None else peek r 0 n).
Definition GetStringRegion (jstr start len : Z) : M (session E) (list Z) := string_region 120 jstr start len (2 * len).
(** The number of the function is that of [GetStringRegion]. *)
Definition GetStringUTFRegion (jstr start len : Z) : M (session E) (list Z) := string_region 120 jstr start len len.
End remote.
