(* ===== verification/JniSpec.v ===== *)
(** * What one call of the JNI costs and brings (lemmas on Jni, BpWrapper, JniRemote)

    [served] is the contract between the two sides: a call in the wrapper is one call of
    the virtual machine with the same parameters, and returns its result. [handles] is
    the part of the application, on the bytes of a request. *)

From Stdlib Require Import String.
From S2P Require Import Prelude Bytes ExecutionLists Jni BpWrapper JniRemote.

Section spec.
Context {E : Type} `{platform E}.

(** ** Memory *)

Lemma peek_in buf off n :
  0 <= off -> 0 <= n -> off + n <= Z.of_nat (length buf) -> peek buf off n = Some (take (Z.to_nat n) (drop (Z.to_nat off) buf)).
Proof.
  intros Ho Hn Hl. unfold peek. apply mapM_Some. apply Forall2_same_length_lookup_2.
  - rewrite length_seqZ, length_take, length_drop. lia.
  - intros k i b Hi Hb. apply lookup_seqZ in Hi as [-> Hk]. rewrite lookup_take_lt, lookup_drop in Hb by lia.
    unfold peek_byte. rewrite (proj2 (Z.ltb_ge _ _)) by lia.
    replace (Z.to_nat (off + Z.of_nat k)) with (Z.to_nat off + k)%nat by lia. by rewrite Hb.
Qed.
Lemma peek_all buf : peek buf 0 (Z.of_nat (length buf)) = Some buf.
Proof. rewrite peek_in by lia. change (Z.to_nat 0) with 0%nat. by rewrite Nat2Z.id, drop_0, take_ge. Qed.
Lemma peek_mid pre bs rest off n :
  off = Z.of_nat (length pre) -> n = Z.of_nat (length bs) -> peek (pre ++ bs ++ rest) off n = Some bs.
Proof.
  intros -> ->. rewrite peek_in by (rewrite ?length_app; lia). rewrite !Nat2Z.id, drop_app_length. by rewrite take_app_length.
Qed.
Lemma peek_value_mid pre n v rest off :
  off = Z.of_nat (length pre) -> 0 <= v < 256 ^ Z.of_nat n -> peek_value n (pre ++ le_bytes n v ++ rest) off = Some v.
Proof.
  intros -> Hv. unfold peek_value. rewrite peek_mid by (rewrite ?length_le_bytes; done). cbn.
  by rewrite le_value_bytes, Z.mod_small.
Qed.
Lemma peek_result t v : peek_value (size_of t) (le_bytes (size_of t) v) 0 = Some (bits t v).
Proof.
  unfold peek_value. pose proof (peek_all (le_bytes (size_of t) v)) as P. rewrite length_le_bytes in P. rewrite P. cbn.
  by rewrite le_value_bytes.
Qed.

Lemma c_string_mid pre s rest off :
  off = Z.of_nat (length pre) -> 0 ∉ s -> c_string (pre ++ s ++ 0 :: rest) off = Some s.
Proof.
  intros -> Hs. unfold c_string. rewrite (proj2 (Z.ltb_ge _ _)), Nat2Z.id, drop_app_length by lia.
  induction s as [|b s IH]; [done|]. apply not_elem_of_cons in Hs as [Hb Hs]. cbn.
  destruct (Z.eqb_spec b 0); [done|]. by rewrite IH.
Qed.

(** A block that is written from its beginning on. *)
Definition filled (n : Z) (pre : list Z) : list Z := pre ++ drop (length pre) (fresh <$> seqZ 0 n).

Lemma malloc_filled {S} n (s : S) : 0 <= n -> malloc n s = Done (filled n []) s.
Proof. intros Hn. unfold malloc. by rewrite (proj2 (Z.ltb_ge _ _)) by lia. Qed.
Lemma length_filled n pre : Z.of_nat (length pre) <= n -> Z.of_nat (length (filled n pre)) = n.
Proof. intros Hn. unfold filled. rewrite length_app, length_drop, length_fmap, length_seqZ. lia. Qed.
Lemma put_filled {S} n pre off bs (s : S) :
  off = Z.of_nat (length pre) -> Z.of_nat (length pre + length bs) <= n ->
  put_bytes (filled n pre) off bs s = Done (filled n (pre ++ bs)) s.
Proof.
  intros -> Hn. unfold put_bytes. rewrite write_bytes_some by (rewrite ?length_filled; lia). cbn. f_equal.
  unfold filled. rewrite Nat2Z.id, take_app_length, length_app. rewrite <-app_assoc. f_equal. f_equal.
  rewrite drop_app, drop_drop. rewrite (drop_ge pre) by lia. cbn. f_equal. lia.
Qed.
Lemma put_int_filled {S} n pre off v (s : S) :
  off = Z.of_nat (length pre) -> Z.of_nat (length pre + 4) <= n ->
  put_int (filled n pre) off v s = Done (filled n (pre ++ le_bytes 4 v)) s.
Proof. intros. by apply put_filled; rewrite ?length_le_bytes. Qed.
Lemma filled_full n pre : Z.of_nat (length pre) = n -> filled n pre = pre.
Proof. intros <-. unfold filled. rewrite drop_ge; [apply app_nil_r|]. rewrite length_fmap, length_seqZ. lia. Qed.

(** ** The handlers *)

Definition word (w : Z) : Prop := 0 <= w < 2 ^ 32.

Lemma reply_value_mid n pre v rest off (p : proxy E) :
  replydata p = pre ++ le_bytes n v ++ rest -> off = Z.of_nat (length pre) -> 0 <= v < 256 ^ Z.of_nat n ->
  reply_value n off p = Done v p.
Proof. intros Er Ho Hv. unfold reply_value. cbn. by rewrite Er, (peek_value_mid pre). Qed.
Lemma idata_mid i pre w rest (p : proxy E) :
  replydata p = pre ++ le_bytes 4 w ++ rest -> 4 * i = Z.of_nat (length pre) -> word w -> idata i p = Done w p.
Proof. intros Er Hi Hw. by apply (reply_value_mid 4 pre w rest). Qed.

(** After a call, with its result in the callback. *)
Definition called (rq : request) (size : Z) (data : list Z) (p : proxy E) : proxy E :=
  mk_proxy (replydata p) (replytaint p) (replylength p) size 0 data (jni rq (vm p)).2.

(** The taint that comes with a request is a placeholder. *)
Definition handles_tainted (taintsize function length : Z) (sent : list Z) (rq : request) (out : answer -> list Z) : Prop :=
  forall p, replydata p = sent -> replylength p = length ->
  replytaint p = (if taintsize =? 0 then [] else replicate (Z.to_nat taintsize) 0) ->
  exists p', dispatch function p = Done tt p' /\ vm p' = (jni rq (vm p)).2 /\
    callback_parcel p' = Done (out (jni rq (vm p)).1) p'.
Definition handles (function length : Z) (sent : list Z) (rq : request) (out : answer -> list Z) : Prop :=
  forall taintsize, handles_tainted taintsize function length sent rq out.

Lemma call_done name args data (p : proxy E) :
  call name args data p = Done (jni (Req name args data) (vm p)).1
    (mk_proxy (replydata p) (replytaint p) (replylength p) (p_size p) (p_taintsize p) (callbackdata p) (jni (Req name args data) (vm p)).2).
Proof. unfold call. by destruct (jni _ _). Qed.

Lemma respond_done t v (p : proxy E) :
  respond t v p = Done tt (mk_proxy (replydata p) (replytaint p) (replylength p) (Z.of_nat (size_of t)) 0 (le_bytes (size_of t) v) (vm p)).
Proof.
  unfold respond. rewrite (mbind_done _ _ _ _ _ (malloc_filled (Z.of_nat (size_of t)) p ltac:(lia))).
  rewrite (mbind_done _ _ _ _ _ (put_filled (Z.of_nat (size_of t)) [] 0 (le_bytes (size_of t) v) p eq_refl ltac:(rewrite length_le_bytes; cbn; lia))).
  by rewrite filled_full by (rewrite app_nil_l, length_le_bytes; done).
Qed.
(** What is sent back: [size] bytes, without taint. *)
Lemma callback_sent (p : proxy E) data rest :
  callbackdata p = data ++ rest -> p_size p = Z.of_nat (length data) -> p_taintsize p = 0 -> callback_parcel p = Done data p.
Proof.
  intros Ed Es Et. unfold callback_parcel. cbn. rewrite Ed, Es, Et. destruct (Z.ltb_spec 0 (Z.of_nat (length data))).
  - pose proof (peek_mid [] data rest 0 _ eq_refl eq_refl) as P. cbn [app] in P. by rewrite P.
  - by destruct data.
Qed.
Lemma call_respond name args data t (p : proxy E) :
  exists p', (do r <- call name args data; respond t (an_val r)) p = Done tt p' /\ vm p' = (jni (Req name args data) (vm p)).2 /\
    callback_parcel p' = Done (le_bytes (size_of t) (an_val (jni (Req name args data) (vm p)).1)) p'.
Proof.
  rewrite (mbind_done _ _ _ _ _ (call_done name args data p)). rewrite respond_done. eexists. split; [done|]. split; [done|].
  apply (callback_sent _ _ []); cbn; rewrite ?app_nil_r, ?length_le_bytes; done.
Qed.
Lemma call_nothing name args data (p : proxy E) :
  exists p', (do _ <- call name args data; respond_nothing) p = Done tt p' /\ vm p' = (jni (Req name args data) (vm p)).2 /\
    callback_parcel p' = Done [] p'.
Proof. rewrite (mbind_done _ _ _ _ _ (call_done name args data p)). by eexists. Qed.

Lemma call1_handles function name t w :
  word w -> dispatch function = call1 name t -> handles function 4 (le_bytes 4 w) (Req name [w] []) (fun a => le_bytes (size_of t) (an_val a)).
Proof.
  intros Hw Ef taintsize p Er _ _. rewrite Ef. unfold call1. rewrite <-(app_nil_r (le_bytes 4 w)) in Er.
  rewrite (mbind_done _ _ _ _ _ (idata_mid 0 [] w [] p Er eq_refl Hw)). apply call_respond.
Qed.
Lemma call1_void_handles function name w :
  word w -> dispatch function = call1_void name -> handles function 4 (le_bytes 4 w) (Req name [w] []) (fun _ => []).
Proof.
  intros Hw Ef taintsize p Er _ _. rewrite Ef. unfold call1_void. rewrite <-(app_nil_r (le_bytes 4 w)) in Er.
  rewrite (mbind_done _ _ _ _ _ (idata_mid 0 [] w [] p Er eq_refl Hw)). apply call_nothing.
Qed.
Lemma call2_handles function name t w0 w1 :
  word w0 -> word w1 -> dispatch function = call2 name t ->
  handles function 8 (le_bytes 4 w0 ++ le_bytes 4 w1) (Req name [w0; w1] []) (fun a => le_bytes (size_of t) (an_val a)).
Proof.
  intros H0 H1 Ef taintsize p Er _ _. rewrite Ef. unfold call2.
  rewrite (mbind_done _ _ _ _ _ (idata_mid 0 [] w0 (le_bytes 4 w1) p Er eq_refl H0)).
  assert (Er1 : replydata p = le_bytes 4 w0 ++ le_bytes 4 w1 ++ []) by (by rewrite app_nil_r).
  rewrite (mbind_done _ _ _ _ _ (idata_mid 1 (le_bytes 4 w0) w1 [] p Er1 eq_refl H1)). apply call_respond.
Qed.

(** ** Both sides *)

Definition vm_of (s : session E) : E := vm (s_proxy s).
(** The lists of the native side are as they were. *)
Definition same_lists (s s' : session E) : Prop :=
  sigList (s_native s') = sigList (s_native s) /\ arrayList (s_native s') = arrayList (s_native s) /\
  charsList (s_native s') = charsList (s_native s) /\ next_block (s_native s') = next_block (s_native s).
Definition served {A} (m : M (session E) A) (rq : request) (res : answer -> A) : Prop :=
  forall s, exists s', m s = Done (res (jni rq (vm_of s)).1) s' /\ vm_of s' = (jni rq (vm_of s)).2 /\ same_lists s s'.

Lemma in_proxy_done {A} (m : M (proxy E) A) a p' (s : session E) :
  m (s_proxy s) = Done a p' -> in_proxy m s = Done a (mk_session (s_native s) p').
Proof. intros Em. unfold in_proxy, zoom. by rewrite Em. Qed.
(** The members of the proxy when the request has been read. *)
Definition arrived (taintsize length : Z) (sent : list Z) (p : proxy E) : proxy E :=
  mk_proxy sent (if taintsize =? 0 then [] else replicate (Z.to_nat taintsize) 0) length (p_size p) taintsize (callbackdata p) (vm p).
Lemma reqJniCall_run function length sent rest data p' (s : session E) :
  length = Z.of_nat (List.length sent) ->
  dispatch function (arrived (jc_taintsize (s_native s)) length sent (s_proxy s)) = Done tt p' -> callback_parcel p' = Done data p' ->
  reqJniCall function length (sent ++ rest) s = Done data (mk_session (s_native s) p').
Proof.
  intros -> Ed Ec. pose proof (peek_mid [] sent rest 0 _ eq_refl eq_refl) as P. cbn [app] in P.
  unfold reqJniCall, get_native, deref. rewrite P. erewrite mbind_done by done.
  assert (Eh : handleJNIRequest function (Z.of_nat (List.length sent)) (jc_taintsize (s_native s)) sent (s_proxy s) = Done tt p') by exact Ed.
  erewrite mbind_done by done. rewrite (mbind_done _ _ _ _ _ (in_proxy_done _ _ _ _ Eh)).
  exact (in_proxy_done callback_parcel _ p' (mk_session (s_native s) p') Ec).
Qed.
Lemma request_data_run function taintsize length sent rest data p' (s : session E) :
  length = Z.of_nat (List.length sent) ->
  dispatch function (arrived taintsize length sent (s_proxy s)) = Done tt p' -> callback_parcel p' = Done data p' ->
  exists t, request_data function taintsize length (sent ++ rest) s = Done data (mk_session t p') /\ same_lists s (mk_session t p').
Proof.
  intros Hl Ed Ec. unfold request_data, set_taintsize, update_native, modify.
  pose (s0 := mk_session (mk_native taintsize (sigList (s_native s)) (arrayList (s_native s)) (charsList (s_native s)) (next_block (s_native s))) (s_proxy s)).
  exists (s_native s0). split; [exact (reqJniCall_run function length sent rest data p' s0 Hl Ed Ec)|done].
Qed.

Lemma request_data_stuck function taintsize length sent rest (s : session E) :
  length = Z.of_nat (List.length sent) -> dispatch function (arrived taintsize length sent (s_proxy s)) = Stuck ->
  request_data function taintsize length (sent ++ rest) s = Stuck.
Proof.
  intros -> Ed. pose proof (peek_mid [] sent rest 0 _ eq_refl eq_refl) as P. cbn [app] in P.
  unfold request_data, set_taintsize, update_native, modify, reqJniCall, get_native, deref. rewrite P. do 3 (erewrite mbind_done by done).
  unfold mbind', in_proxy, zoom, handleJNIRequest, modify. cbn. unfold arrived in Ed. by rewrite Ed.
Qed.

(** The handler ends, and its answer cannot be sent. *)
Lemma request_data_lost function taintsize length sent rest p' (s : session E) :
  length = Z.of_nat (List.length sent) ->
  dispatch function (arrived taintsize length sent (s_proxy s)) = Done tt p' -> callback_parcel p' = Stuck ->
  request_data function taintsize length (sent ++ rest) s = Stuck.
Proof.
  intros -> Ed Ec. pose proof (peek_mid [] sent rest 0 _ eq_refl eq_refl) as P. cbn [app] in P.
  unfold request_data, set_taintsize, update_native, modify, reqJniCall, get_native, deref. rewrite P. do 3 (erewrite mbind_done by done).
  erewrite mbind_done.
  2: { apply in_proxy_done. exact Ed. }
  unfold in_proxy, zoom. cbn. unfold callback_parcel in Ec. cbn in Ec. by rewrite Ec.
Qed.

Lemma reqJniCall_served function length sent rq out :
  handles function length sent rq out -> length = Z.of_nat (List.length sent) -> served (reqJniCall function length sent) rq out.
Proof.
  intros Hh Hl s. destruct (Hh _ (arrived (jc_taintsize (s_native s)) length sent (s_proxy s)) eq_refl eq_refl eq_refl) as (p' & Ed & Ev & Ec).
  exists (mk_session (s_native s) p'). rewrite <-(app_nil_r sent). split; [exact (reqJniCall_run _ _ _ [] _ p' s Hl Ed Ec)|by split].
Qed.
Lemma request_data_served function taintsize length sent rest rq out :
  handles_tainted taintsize function length sent rq out -> length = Z.of_nat (List.length sent) ->
  served (request_data function taintsize length (sent ++ rest)) rq out.
Proof.
  intros Hh Hl s. destruct (Hh (arrived taintsize length sent (s_proxy s)) eq_refl eq_refl eq_refl) as (p' & Ed & Ev & Ec).
  destruct (request_data_run function taintsize length sent rest _ p' s Hl Ed Ec) as (t & Er & Hs).
  exists (mk_session t p'). by split.
Qed.
Lemma request_sent function taintsize length sent rq out :
  handles_tainted taintsize function length sent rq out -> length = Z.of_nat (List.length sent) ->
  served (request_data function taintsize length sent) rq out.
Proof. intros Hh Hl. rewrite <-(app_nil_r sent). by apply request_data_served. Qed.

Lemma served_bind {A B} (m : M (session E) A) rq res (k : A -> M (session E) B) res' :
  served m rq res -> (forall a s, k (res a) s = Done (res' a) s) -> served (do r <- m; k r) rq res'.
Proof.
  intros Hm Hk s. destruct (Hm s) as (s' & Es & Hs). exists s'. by rewrite (mbind_done _ _ _ _ _ Es), Hk.
Qed.
(** What the native side does before the request is not seen. *)
Lemma served_after {A B} (m : M (session E) A) a (k : A -> M (session E) B) rq res :
  (forall s, m s = Done a s) -> served (k a) rq res -> served (do x <- m; k x) rq res.
Proof. intros Hm Hk s. rewrite (mbind_done _ _ _ _ _ (Hm s)). apply Hk. Qed.

Lemma result_served {m : M (session E) (list Z)} {rq} (t : jtype) :
  served m rq (fun a => le_bytes (size_of t) (an_val a)) ->
  served (do r <- m; result_of t r) rq (fun a => bits t (an_val a)).
Proof. intros Hm. apply (served_bind _ _ _ _ _ Hm). intros a s. unfold result_of. by rewrite peek_result. Qed.
Lemma nothing_served {A} {m : M (session E) A} {rq res} : served m rq res -> served (do _ <- m; mret' tt) rq (fun _ => tt).
Proof. intros Hm. by apply (served_bind _ _ _ _ _ Hm). Qed.

Lemma request_word_served function name t w :
  dispatch function = call1 name t -> word w ->
  served (request_word function w t) (Req name [w] []) (fun a => bits t (an_val a)).
Proof. intros Ef Hw. apply result_served, request_sent; [by apply call1_handles|done]. Qed.
Lemma request_word_void_served function name w :
  dispatch function = call1_void name -> word w -> served (request_word_void function w) (Req name [w] []) (fun _ => tt).
Proof. intros Ef Hw. eapply nothing_served, request_sent; [by apply call1_void_handles|done]. Qed.

Lemma two_words_done w0 w1 (s : session E) : two_words w0 w1 s = Done (le_bytes 4 w0 ++ le_bytes 4 w1) s.
Proof.
  unfold two_words. rewrite (mbind_done _ _ _ _ _ (malloc_filled 8 s ltac:(lia))).
  rewrite (mbind_done _ _ _ _ _ (put_int_filled 8 [] 0 w0 s eq_refl ltac:(done))).
  by rewrite (put_int_filled 8 ([] ++ le_bytes 4 w0) 4 w1 s eq_refl ltac:(done)), filled_full.
Qed.
Lemma three_words_done w0 w1 w2 (s : session E) :
  three_words w0 w1 w2 s = Done (le_bytes 4 w0 ++ le_bytes 4 w1 ++ le_bytes 4 w2) s.
Proof.
  unfold three_words. rewrite (mbind_done _ _ _ _ _ (malloc_filled 12 s ltac:(lia))).
  rewrite (mbind_done _ _ _ _ _ (put_int_filled 12 [] 0 w0 s eq_refl ltac:(done))).
  rewrite (mbind_done _ _ _ _ _ (put_int_filled 12 ([] ++ le_bytes 4 w0) 4 w1 s eq_refl ltac:(done))).
  rewrite (put_int_filled 12 (([] ++ le_bytes 4 w0) ++ le_bytes 4 w1) 8 w2 s eq_refl ltac:(done)), filled_full by done. by rewrite <-app_assoc.
Qed.
Lemma request_two_served function name t w0 w1 :
  dispatch function = call2 name t -> word w0 -> word w1 ->
  served (request_two function w0 w1 t) (Req name [w0; w1] []) (fun a => bits t (an_val a)).
Proof.
  intros Ef H0 H1. unfold request_two. eapply served_after; [apply two_words_done|].
  apply result_served, request_sent; [by apply call2_handles|done].
Qed.
End spec.

(** ** A virtual machine that records what it is asked *)

(** It answers 7 with the taint 5 and four bytes; [behind] is what is found behind a block. *)
Definition recording (behind : option Z) : platform (list request) := {|
  slack _ := behind;
  fresh _ := 165;
  jni rq e := (Ans 7 5 [1; 2; 3; 4], e ++ [rq]);
  poke _ _ e := e;
  int_of_float v := v;
  int_of_double v := v;
  long_of_double v := v;
  float_of_int v := v;
  double_of_long v := v
|}.
(** The native side knows the methods 64, without parameters, and 65, with a [long]. *)
Definition fresh_session : session (list request) :=
  mk_session (mk_native 0 [mk_sig 65 (str "(J)V"%string); mk_sig 64 (str "()I"%string)] [] [] 4096) (mk_proxy [] [] 0 0 0 [] []).
