(* ===== verification/JniProps.v ===== *)
(** * Which calls of the JNI arrive (properties of JniRemote and BpWrapper) *)

From Stdlib Require Import String.
From S2P Require Import Prelude Bytes ExecutionLists Jni BpWrapper JniRemote JniSpec.

Section calls.
Context {E : Type} `{platform E}.

(** ** Strings *)

(** The characters of a string whose length leaves the sizes of a request in an [int]. *)
Definition c_chars (s : list Z) : Prop := 0 ∉ s /\ Z.of_nat (length s) < 2 ^ 29.

Lemma reply_string_mid pre s rest off (p : proxy E) :
  replydata p = pre ++ s ++ 0 :: rest -> off = Z.of_nat (length pre) -> 0 ∉ s -> reply_string off p = Done s p.
Proof. intros Er Ho Hs. unfold reply_string. cbn. by rewrite Er, (c_string_mid pre s rest off Ho Hs). Qed.

(** The terminator is already there. *)
Lemma terminate_done s (p : proxy E) :
  replydata p = s ++ [0] -> replylength p = Z.of_nat (length s) + 1 -> terminate p = Done tt p.
Proof.
  intros Er El. unfold terminate. cbn. unfold put_bytes. rewrite Er, El. replace (Z.of_nat (length s) + 1 - 1) with (Z.of_nat (length s)) by lia.
  rewrite write_bytes_some by (rewrite ?length_app; cbn; lia). cbn. rewrite Nat2Z.id, take_app_length.
  rewrite (drop_ge (s ++ [0])) by (rewrite length_app; cbn; lia). cbn [app]. rewrite <-Er. by destruct p.
Qed.

Lemma findclass_handles s :
  0 ∉ s -> handles 4 (Z.of_nat (length s) + 1) (s ++ [0]) (Req "FindClass" [] [s]) (fun a => le_bytes 4 (an_val a)).
Proof.
  intros Hs taintsize p Er El _. change (dispatch 4) with callFindClass. unfold callFindClass.
  rewrite (mbind_done _ _ _ _ _ (terminate_done s p Er El)).
  rewrite (mbind_done _ _ _ _ _ (reply_string_mid [] s [] 0 p Er eq_refl Hs)). apply (call_respond _ _ _ JObject).
Qed.

(** The taint of the bytes is that of the placeholders. *)
Lemma zeros_or n m : 0 <= n -> 4 * n <= Z.of_nat m -> forall p : proxy E, or_words (replicate m 0) 0 n p = Done 0 p.
Proof.
  intros Hn Hm p. unfold or_words.
  assert (E1 : mapM (fun j => peek_value 4 (replicate m 0) (4 * (0 + j))) (seqZ 0 n) = Some (replicate (Z.to_nat n) 0)).
  { apply mapM_Some. apply Forall2_same_length_lookup_2; [rewrite length_seqZ, length_replicate; done|].
    intros k j w Hj Hw. apply lookup_seqZ in Hj as [-> Hk]. apply lookup_replicate in Hw as [-> _].
    unfold peek_value. rewrite peek_in by (rewrite ?length_replicate; lia). rewrite drop_replicate, take_replicate.
    replace (Z.to_nat (Z.of_nat 4) `min` (m - Z.to_nat (4 * (0 + (0 + Z.of_nat k)))))%nat with 4%nat by lia. done. }
  rewrite E1. cbn. f_equal. clear E1. induction (Z.to_nat n) as [|k IH]; [done|]. exact IH.
Qed.
Lemma newstringutf_handles s :
  0 ∉ s -> handles_tainted (Z.of_nat (length s) + 1) 2 (Z.of_nat (length s) + 1) (s ++ [0]) (Req "NewTaintedStringUTF" [0] [s])
    (fun a => le_bytes 4 (an_val a)).
Proof.
  intros Hs p Er El Et. rewrite (proj2 (Z.eqb_neq _ _)), <-El in Et by lia.
  change (dispatch 2) with callNewStringUTF. unfold callNewStringUTF.
  rewrite (mbind_done _ _ _ _ _ (terminate_done s p Er El)).
  rewrite (mbind_done _ _ _ _ _ (reply_string_mid [] s [] 0 p Er eq_refl Hs)).
  assert (Eg : get p = Done p p) by done. rewrite (mbind_done _ _ _ _ _ Eg). rewrite Et.
  assert (Ho : or_words (replicate (Z.to_nat (replylength p)) 0) 0 (Z.quot (replylength p) 4) p = Done 0 p).
  { apply zeros_or; rewrite Z.quot_div_nonneg by lia; dlia. }
  rewrite (mbind_done _ _ _ _ _ Ho). apply (call_respond _ _ _ JObject).
Qed.

Lemma thrownew_handles w msg :
  word w -> 0 ∉ msg ->
  handles 9 (4 + (Z.of_nat (length msg) + 1)) (le_bytes 4 w ++ msg ++ [0]) (Req "ThrowNew" [w] [msg]) (fun a => le_bytes 4 (an_val a)).
Proof.
  intros Hw Hm taintsize p Er _ _. change (dispatch 9) with callThrowNew. unfold callThrowNew.
  rewrite (mbind_done _ _ _ _ _ (idata_mid 0 [] w _ p Er eq_refl Hw)).
  rewrite (mbind_done _ _ _ _ _ (reply_string_mid (le_bytes 4 w) msg [] 4 p Er eq_refl Hm)). apply (call_respond _ _ _ JInt).
Qed.
Lemma throwNew_served w msg :
  word w -> c_chars msg -> served (ThrowNew w msg) (Req "ThrowNew" [w] [msg]) (fun a => bits JInt (an_val a)).
Proof.
  intros Hw [Hm Hl]. unfold ThrowNew. rewrite s32_small by lia. set (n := 4 + (Z.of_nat (length msg) + 1)).
  eapply served_after; [intros s; apply malloc_filled; lia|].
  eapply served_after; [intros s; apply (put_int_filled n [] 0 w s eq_refl); cbn; lia|].
  eapply served_after; [intros s; apply (put_filled n ([] ++ le_bytes 4 w) 4 (msg ++ [0]) s eq_refl); rewrite !length_app, length_le_bytes; cbn; lia|].
  rewrite filled_full by (rewrite !length_app, length_le_bytes; cbn; lia). cbn [app].
  apply (result_served JInt), request_sent; [by apply thrownew_handles|]. rewrite !length_app, length_le_bytes. cbn. lia.
Qed.

Lemma get_id_handles function vmname w name sig :
  dispatch function = get_id vmname -> word w -> 0 ∉ name -> 0 ∉ sig ->
  handles function (4 + (Z.of_nat (length name) + 1) + (Z.of_nat (length sig) + 1)) (le_bytes 4 w ++ (name ++ [0]) ++ sig ++ [0])
    (Req vmname [w] [name; sig]) (fun a => le_bytes 4 (an_val a)).
Proof.
  intros Ef Hw Hn Hs taintsize p Er _ _. rewrite Ef. unfold get_id.
  rewrite (mbind_done _ _ _ _ _ (idata_mid 0 [] w _ p Er eq_refl Hw)).
  assert (E1 : replydata p = le_bytes 4 w ++ name ++ 0 :: sig ++ [0]) by (rewrite Er; by rewrite <-(app_assoc name)).
  rewrite (mbind_done _ _ _ _ _ (reply_string_mid (le_bytes 4 w) name _ 4 p E1 eq_refl Hn)).
  assert (E2 : replydata p = (le_bytes 4 w ++ name ++ [0]) ++ sig ++ [0]) by (rewrite Er; by rewrite <-!app_assoc).
  rewrite (mbind_done _ _ _ _ _ (reply_string_mid (le_bytes 4 w ++ name ++ [0]) sig [] (4 + (Z.of_nat (length name) + 1)) p E2 ltac:(rewrite !length_app, length_le_bytes; cbn; lia) Hs)).
  apply (call_respond _ _ _ JObject).
Qed.
Lemma request_id_served function vmname w name sig :
  dispatch function = get_id vmname -> word w -> c_chars name -> c_chars sig ->
  served (request_id function w name sig) (Req vmname [w] [name; sig]) (fun a => bits JObject (an_val a)).
Proof.
  intros Ef Hw [Hn Ln] [Hs Ls]. unfold request_id. rewrite s32_small by lia. set (n := 4 + (Z.of_nat (length name) + 1) + (Z.of_nat (length sig) + 1)).
  eapply served_after; [intros s; apply malloc_filled; lia|].
  eapply served_after; [intros s; apply (put_int_filled n [] 0 w s eq_refl); cbn; lia|].
  eapply served_after; [intros s; apply (put_filled n ([] ++ le_bytes 4 w) 4 (name ++ [0]) s eq_refl); rewrite !length_app, length_le_bytes; cbn; lia|].
  eapply served_after; [intros s; apply (put_filled n (([] ++ le_bytes 4 w) ++ name ++ [0]) (4 + (Z.of_nat (length name) + 1)) (sig ++ [0]) s);
    rewrite !length_app, length_le_bytes; cbn; lia|].
  rewrite filled_full by (rewrite !length_app, length_le_bytes; cbn; lia). cbn [app]. rewrite <-app_assoc.
  apply (result_served JObject), request_sent; [by apply get_id_handles|]. rewrite !length_app, length_le_bytes. cbn. lia.
Qed.

Lemma newstring_handles len chars :
  0 <= len < 2 ^ 30 -> Z.of_nat (length chars) = 2 * len ->
  handles 147 (2 * len + 4) (le_bytes 4 len ++ chars) (Req "NewString" [len] [chars]) (fun a => le_bytes 4 (an_val a)).
Proof.
  intros Hl Hc taintsize p Er _ _. change (dispatch 147) with callNewString. unfold callNewString.
  assert (Hw : word len) by (unfold word; lia). rewrite (mbind_done _ _ _ _ _ (idata_mid 0 [] len _ p Er eq_refl Hw)).
  assert (Eb : reply_bytes 4 (2 * s32 len) p = Done chars p).
  { unfold reply_bytes. cbn. rewrite s32_small by lia. rewrite Er. rewrite <-(app_nil_r chars) at 1. by rewrite (peek_mid (le_bytes 4 len)). }
  rewrite (mbind_done _ _ _ _ _ Eb). apply (call_respond _ _ _ JObject).
Qed.
Lemma newString_served len chars :
  0 <= len < 2 ^ 29 -> Z.of_nat (length chars) = 2 * len ->
  served (NewString chars len) (Req "NewString" [len] [chars]) (fun a => bits JObject (an_val a)).
Proof.
  intros Hl Hc. unfold NewString. rewrite s32_small by lia. set (n := 2 * len + 4).
  eapply served_after; [intros s; apply malloc_filled; lia|].
  eapply served_after; [intros s; apply (put_int_filled n [] 0 len s eq_refl); cbn; lia|].
  rewrite (proj2 (Z.ltb_ge len 0)) by lia. rewrite <-Hc, peek_all.
  eapply served_after; [done|].
  eapply served_after; [intros s; apply (put_filled n ([] ++ le_bytes 4 len) 4 chars s eq_refl); rewrite ?length_app, length_le_bytes; cbn; lia|].
  rewrite filled_full by (rewrite !length_app, length_le_bytes; cbn; lia). cbn [app].
  apply (result_served JObject), request_sent; [apply newstring_handles; [lia|done]|]. rewrite length_app, length_le_bytes. lia.
Qed.

Lemma no_parameters_handles function name t :
  dispatch function = (do r <- call name [] []; respond t (an_val r)) ->
  handles function 0 [] (Req name [] []) (fun a => le_bytes (size_of t) (an_val a)).
Proof. intros Ef taintsize p _ _ _. rewrite Ef. apply call_respond. Qed.
Lemma no_parameters_void_handles function name :
  dispatch function = (do _ <- call name [] []; respond_nothing) -> handles function 0 [] (Req name [] []) (fun _ => []).
Proof. intros Ef taintsize p _ _ _. rewrite Ef. apply call_nothing. Qed.

(** ** The functions without taint *)

Definition handle (a : answer) : Z := bits JObject (an_val a).
(** Each with the name of the function of the virtual machine and the type of the result. *)
Definition word_calls : list ((Z -> M (session E) Z) * string * jtype) :=
  [(FromReflectedMethod, "FromReflectedMethod"%string, JObject); (FromReflectedField, "FromReflectedField"%string, JObject);
   (GetSuperclass, "GetSuperclass"%string, JObject); (Throw, "Throw"%string, JInt); (PushLocalFrame, "PushLocalFrame"%string, JInt);
   (PopLocalFrame, "PopLocalFrame"%string, JObject); (NewGlobalRef, "NewGlobalRef"%string, JObject);
   (NewLocalRef, "NewLocalRef"%string, JObject); (EnsureLocalCapacity, "EnsureLocalCapacity"%string, JInt);
   (AllocObject, "AllocObject"%string, JObject); (GetObjectClass, "GetObjectClass"%string, JObject);
   (GetStringLength, "GetStringLength"%string, JInt); (GetStringUTFLength, "GetStringUTFLength"%string, JInt);
   (GetArrayLength, "GetArrayLength"%string, JInt); (NewBooleanArray, "NewBooleanArray"%string, JObject);
   (NewByteArray, "NewByteArray"%string, JObject); (NewCharArray, "NewCharArray"%string, JObject);
   (NewShortArray, "NewShortArray"%string, JObject); (NewIntArray, "NewIntArray"%string, JObject);
   (NewLongArray, "NewLongArray"%string, JObject); (NewFloatArray, "NewFloatArray"%string, JObject);
   (NewDoubleArray, "NewDoubleArray"%string, JObject); (UnregisterNatives, "UnregisterNatives"%string, JInt);
   (MonitorEnter, "MonitorEnter"%string, JInt); (MonitorExit, "MonitorExit"%string, JInt);
   (NewWeakGlobalRef, "NewWeakGlobalRef"%string, JObject); (GetObjectRefType, "GetObjectRefType"%string, JInt)].
Definition void_calls : list ((Z -> M (session E) unit) * string) :=
  [(DeleteGlobalRef, "DeleteGlobalRef"%string); (DeleteLocalRef, "DeleteLocalRef"%string); (DeleteWeakGlobalRef, "DeleteWeakGlobalRef"%string)].
Definition pair_calls : list ((Z -> Z -> M (session E) Z) * string) :=
  [(IsAssignableFrom, "IsAssignableFrom"%string); (IsSameObject, "IsSameObject"%string); (IsInstanceOf, "IsInstanceOf"%string)].
Definition field_id_calls : list ((Z -> list Z -> list Z -> M (session E) Z) * string) :=
  [(GetFieldID, "GetFieldID"%string); (GetStaticFieldID, "GetStaticFieldID"%string)].
Definition method_id_calls : list ((Z -> list Z -> list Z -> M (session E) Z) * string) :=
  [(GetMethodID, "GetMethodID"%string); (GetStaticMethodID, "GetStaticMethodID"%string)].

Definition word_served (c : (Z -> M (session E) Z) * string * jtype) : Prop :=
  forall w, word w -> served (c.1.1 w) (Req c.1.2 [w] []) (fun a => bits c.2 (an_val a)).
Definition void_served (c : (Z -> M (session E) unit) * string) : Prop :=
  forall w, word w -> served (c.1 w) (Req c.2 [w] []) (fun _ => tt).
Definition pair_served (c : (Z -> Z -> M (session E) Z) * string) : Prop :=
  forall w0 w1, word w0 -> word w1 -> served (c.1 w0 w1) (Req c.2 [w0; w1] []) (fun a => bits JBoolean (an_val a)).
Definition field_id_served (c : (Z -> list Z -> list Z -> M (session E) Z) * string) : Prop :=
  forall w name sig, word w -> c_chars name -> c_chars sig -> served (c.1 w name sig) (Req c.2 [w] [name; sig]) handle.
(** The signature of a method that was found is remembered. *)
Definition method_id_served (c : (Z -> list Z -> list Z -> M (session E) Z) * string) : Prop :=
  forall w name sig s, word w -> c_chars name -> c_chars sig ->
  let r := jni (Req c.2 [w] [name; sig]) (vm_of s) in
  exists s', c.1 w name sig s = Done (handle r.1) s' /\ vm_of s' = r.2 /\
    sigList (s_native s') = (if handle r.1 =? 0 then sigList (s_native s) else addSignatureForMethod (handle r.1) sig (sigList (s_native s))).

Lemma request_method_id_served (c : (Z -> list Z -> list Z -> M (session E) Z) * string) function :
  c.1 = request_method_id function -> dispatch function = get_id c.2 -> method_id_served c.
Proof.
  intros Ec Ef w name sig s Hw Hn Hs. rewrite Ec. cbv zeta.
  destruct (request_id_served function c.2 w name sig Ef Hw Hn Hs s) as (s1 & E1 & Ev & Hl & _).
  unfold request_method_id. rewrite (mbind_done _ _ _ _ _ E1). unfold handle. destruct (_ =? 0); cbn [negb].
  - exists s1. by split_and!.
  - eexists. split; [reflexivity|]. split; [done|]. cbn. by rewrite Hl.
Qed.

Ltac serve_word f := apply Forall_cons; split; [intros w Hw; exact (request_word_served f _ _ w eq_refl Hw)|].
Ltac serve_void f := apply Forall_cons; split; [intros w Hw; exact (request_word_void_served f _ w eq_refl Hw)|].

(** C36: the calls of the JNI without taint are transparent. For every function of the
    tables, every parameter and every state, the call in the wrapper ends, the virtual
    machine gets exactly one call, of the function of that name with the same
    parameters, and its result is what the native method sees; nothing else of the
    native side changes, except that the signature of a method that was found is
    remembered. *)
Theorem jni_calls_transparent :
  Forall word_served word_calls /\ Forall void_served void_calls /\ Forall pair_served pair_calls /\
  Forall field_id_served field_id_calls /\ Forall method_id_served method_id_calls /\
  served GetVersion (Req "GetVersion" [] []) (fun a => bits JInt (an_val a)) /\
  served ExceptionOccurred (Req "ExceptionOccurred" [] []) handle /\
  served ExceptionDescribe (Req "ExceptionDescribe" [] []) (fun _ => tt) /\
  served ExceptionClear (Req "ExceptionClear" [] []) (fun _ => tt) /\
  (forall name, c_chars name -> served (FindClass (Some name)) (Req "FindClass" [] [name]) handle) /\
  (forall w msg, word w -> c_chars msg -> served (ThrowNew w msg) (Req "ThrowNew" [w] [msg]) (fun a => bits JInt (an_val a))) /\
  (forall len chars, 0 <= len < 2 ^ 29 -> Z.of_nat (length chars) = 2 * len ->
    served (NewString chars len) (Req "NewString" [len] [chars]) handle) /\
  (forall bytes, c_chars bytes -> served (NewStringUTF bytes) (Req "NewTaintedStringUTF" [0] [bytes]) handle).
Proof.
  split_and!.
  - serve_word 64. serve_word 58. serve_word 5. serve_word 8. serve_word 125. serve_word 126. serve_word 21. serve_word 20.
    serve_word 123. serve_word 7. serve_word 18.
    apply Forall_cons; split; [intros w Hw; exact (result_served JInt (reqJniCall_served 119 4 _ _ _ (call1_handles 119 "GetStringLength" JInt w Hw eq_refl) eq_refl))|].
    serve_word 144. serve_word 148. serve_word 110. serve_word 111. serve_word 112. serve_word 113. serve_word 114. serve_word 115.
    serve_word 116. serve_word 117. serve_word 124. serve_word 164. serve_word 165. serve_word 109. serve_word 118. apply Forall_nil_2.
  - serve_void 22. serve_void 32. serve_void 69. apply Forall_nil_2.
  - repeat (apply Forall_cons; split; [intros w0 w1 H0 H1; by apply request_two_served|]). by apply Forall_nil_2.
  - repeat (apply Forall_cons; split; [intros w name sig Hw Hn Hs; by apply request_id_served|]). by apply Forall_nil_2.
  - apply Forall_cons; split; [by apply (request_method_id_served _ 14)|].
    apply Forall_cons; split; [by apply (request_method_id_served _ 16)|]. by apply Forall_nil_2.
  - apply (result_served JInt), request_sent; [by apply (no_parameters_handles 3 "GetVersion" JObject)|done].
  - apply (result_served JObject), request_sent; [by apply (no_parameters_handles 10 "ExceptionOccurred" JObject)|done].
  - eapply nothing_served, request_sent; [by apply (no_parameters_void_handles 11 "ExceptionDescribe")|done].
  - eapply nothing_served, request_sent; [by apply (no_parameters_void_handles 12 "ExceptionClear")|done].
  - intros name [Hn Ln]. unfold FindClass. rewrite s32_small by lia.
    apply (result_served JObject), request_sent; [by apply findclass_handles|]. rewrite length_app. cbn. lia.
  - apply throwNew_served.
  - apply newString_served.
  - intros bytes [Hb Lb]. unfold NewStringUTF. rewrite s32_small by lia.
    apply (result_served JObject), request_sent; [by apply newstringutf_handles|]. rewrite length_app. cbn. lia.
Qed.

(** ** Registering methods *)

Definition method_ok (m : JNINativeMethod) : Prop :=
  c_chars (m_name m) /\ c_chars (m_signature m) /\ word (m_fnPtr m).
(** A method in the request. *)
Definition text (s : list Z) : list Z := le_bytes 4 (Z.of_nat (length s) + 1) ++ s ++ [0].
Definition method_bytes (m : JNINativeMethod) : list Z := text (m_name m) ++ text (m_signature m) ++ le_bytes 4 (m_fnPtr m).
Definition methods_bytes (ms : list JNINativeMethod) : list Z := mjoin (method_bytes <$> ms).

Lemma methods_bytes_cons m ms : methods_bytes (m :: ms) = method_bytes m ++ methods_bytes ms.
Proof. done. Qed.
Lemma length_text s : Z.of_nat (length (text s)) = Z.of_nat (length s) + 5.
Proof. unfold text. rewrite !length_app, length_le_bytes. cbn. lia. Qed.
Lemma length_method_bytes m :
  Z.of_nat (length (method_bytes m)) = Z.of_nat (length (m_name m)) + Z.of_nat (length (m_signature m)) + 14.
Proof. unfold method_bytes. rewrite !length_app, length_le_bytes, !Nat2Z.inj_add, !length_text. lia. Qed.
Lemma methods_size_spec ms : methods_size ms = 8 + Z.of_nat (length (methods_bytes ms)).
Proof.
  unfold methods_size. assert (G : forall z, foldl (fun size m => size + (Z.of_nat (length (m_name m)) + Z.of_nat (length (m_signature m)) + 2)) (z + Z.of_nat (length ms) * 12) ms
    = z + Z.of_nat (length (methods_bytes ms))); [|apply G].
  induction ms as [|m ms IH]; intros z; [cbn; lia|]. cbn [foldl length].
  rewrite methods_bytes_cons, length_app, Nat2Z.inj_add, length_method_bytes.
  replace (z + Z.of_nat (S (length ms)) * 12 + (Z.of_nat (length (m_name m)) + Z.of_nat (length (m_signature m)) + 2))
    with (z + (Z.of_nat (length (m_name m)) + Z.of_nat (length (m_signature m)) + 14) + Z.of_nat (length ms) * 12) by lia.
  rewrite IH. lia.
Qed.

Lemma length_methods ms : Z.of_nat (length ms) <= Z.of_nat (length (methods_bytes ms)).
Proof.
  induction ms as [|m ms IH]; [done|]. rewrite methods_bytes_cons, length_app. cbn [length]. pose proof (length_method_bytes m). lia.
Qed.

Lemma put_methods_done n ms pre (s : session E) :
  Z.of_nat (length pre + length (methods_bytes ms)) <= n ->
  put_methods ms (filled n pre) (Z.of_nat (length pre)) s = Done (filled n (pre ++ methods_bytes ms)) s.
Proof.
  revert pre. induction ms as [|m ms IH]; intros pre Hn; [by rewrite app_nil_r|].
  rewrite methods_bytes_cons in *. rewrite length_app in Hn.
  pose proof (length_method_bytes m) as Lm. cbn [put_methods]. set (d := Z.of_nat (length pre)).
  set (l1 := Z.of_nat (length (m_name m)) + 1). set (l2 := Z.of_nat (length (m_signature m)) + 1).
  rewrite (mbind_done _ _ _ _ _ (put_int_filled n pre d l1 s eq_refl ltac:(lia))).
  rewrite (mbind_done _ _ _ _ _ (put_filled n (pre ++ le_bytes 4 l1) (d + 4) (m_name m ++ [0]) s
    ltac:(rewrite length_app, length_le_bytes; unfold d; lia) ltac:(rewrite !length_app, length_le_bytes; cbn; lia))).
  rewrite (mbind_done _ _ _ _ _ (put_int_filled n ((pre ++ le_bytes 4 l1) ++ m_name m ++ [0]) (d + 4 + l1) l2 s
    ltac:(rewrite !length_app, length_le_bytes; unfold d, l1; cbn; lia) ltac:(rewrite !length_app, length_le_bytes; cbn; lia))).
  rewrite (mbind_done _ _ _ _ _ (put_filled n (((pre ++ le_bytes 4 l1) ++ m_name m ++ [0]) ++ le_bytes 4 l2) (d + 4 + l1 + 4) (m_signature m ++ [0]) s
    ltac:(rewrite !length_app, !length_le_bytes; unfold d, l1; cbn; lia) ltac:(rewrite !length_app, !length_le_bytes; cbn; lia))).
  rewrite (mbind_done _ _ _ _ _ (put_int_filled n ((((pre ++ le_bytes 4 l1) ++ m_name m ++ [0]) ++ le_bytes 4 l2) ++ m_signature m ++ [0]) (d + 4 + l1 + 4 + l2) (m_fnPtr m) s
    ltac:(rewrite !length_app, !length_le_bytes; unfold d, l1, l2; cbn; lia) ltac:(rewrite !length_app, !length_le_bytes; cbn; lia))).
  assert (Ep : ((((pre ++ le_bytes 4 l1) ++ m_name m ++ [0]) ++ le_bytes 4 l2) ++ m_signature m ++ [0]) ++ le_bytes 4 (m_fnPtr m) = pre ++ method_bytes m)
    by (unfold method_bytes, text; by rewrite <-!app_assoc).
  rewrite Ep. replace (d + 4 + l1 + 4 + l2 + 4) with (Z.of_nat (length (pre ++ method_bytes m))) by (rewrite length_app, Nat2Z.inj_add, Lm; unfold d, l1, l2; lia).
  rewrite IH by (rewrite !length_app; lia). by rewrite <-app_assoc.
Qed.

(** What the virtual machine is asked, one method after the other, and the result. *)
Fixpoint register_all (jclazz : Z) (ms : list JNINativeMethod) (result : Z) (e : E) : Z * E :=
  match ms with
  | [] => (result, e)
  | m :: ms =>
      let r := jni (Req "RegisterTaintedNatives" [jclazz; m_fnPtr m; 1] [m_name m; m_signature m]) e in
      register_all jclazz ms (if bits JInt (an_val r.1) =? 2 ^ 32 - 1 then 2 ^ 32 - 1 else result) r.2
  end.

Definition with_vm (e : E) (p : proxy E) : proxy E :=
  mk_proxy (replydata p) (replytaint p) (replylength p) (p_size p) (p_taintsize p) (callbackdata p) e.

Lemma register_loop_done jclazz ms pre rest result (p : proxy E) :
  Forall method_ok ms -> replydata p = pre ++ methods_bytes ms ++ rest ->
  register_loop jclazz (length ms) (Z.of_nat (length pre)) result p =
    Done (register_all jclazz ms result (vm p)).1 (with_vm (register_all jclazz ms result (vm p)).2 p).
Proof.
  intros Hms. revert pre result p. induction ms as [|m ms IH]; intros pre result p Er; [by destruct p|].
  apply Forall_cons in Hms as [([Hn L1] & [Hs L2] & Hf) Hms]. specialize (IH Hms).
  rewrite methods_bytes_cons in Er.
  cbn [length register_loop]. set (d := Z.of_nat (length pre)).
  set (l1 := Z.of_nat (length (m_name m)) + 1) in *. set (l2 := Z.of_nat (length (m_signature m)) + 1) in *.
  set (tail := methods_bytes ms ++ rest) in *.
  assert (E1 : replydata p = pre ++ le_bytes 4 l1 ++ (m_name m ++ [0]) ++ le_bytes 4 l2 ++ (m_signature m ++ [0]) ++ le_bytes 4 (m_fnPtr m) ++ tail)
    by (rewrite Er; unfold method_bytes, text, tail; by rewrite <-!app_assoc).
  rewrite (mbind_done _ _ _ _ _ (reply_value_mid 4 pre l1 _ d p E1 eq_refl ltac:(change (256 ^ Z.of_nat 4) with (2 ^ 32); lia))). cbv zeta.
  rewrite (mbind_done _ _ _ _ _ (reply_string_mid (pre ++ le_bytes 4 l1) (m_name m) (le_bytes 4 l2 ++ (m_signature m ++ [0]) ++ le_bytes 4 (m_fnPtr m) ++ tail) (d + 4) p
    ltac:(rewrite E1, <-!app_assoc; done) ltac:(rewrite length_app, length_le_bytes; unfold d; lia) Hn)).
  rewrite (s32_small l1) by lia.
  rewrite (mbind_done _ _ _ _ _ (reply_value_mid 4 (pre ++ le_bytes 4 l1 ++ m_name m ++ [0]) l2 ((m_signature m ++ [0]) ++ le_bytes 4 (m_fnPtr m) ++ tail) (d + 4 + l1) p
    ltac:(rewrite E1, <-!app_assoc; done) ltac:(rewrite !length_app, length_le_bytes; unfold d, l1; cbn; lia) ltac:(change (256 ^ Z.of_nat 4) with (2 ^ 32); lia))).
  rewrite (mbind_done _ _ _ _ _ (reply_string_mid (pre ++ le_bytes 4 l1 ++ (m_name m ++ [0]) ++ le_bytes 4 l2) (m_signature m) (le_bytes 4 (m_fnPtr m) ++ tail) (d + 4 + l1 + 4) p
    ltac:(rewrite E1, <-!app_assoc; done) ltac:(rewrite !length_app, !length_le_bytes; unfold d, l1; cbn; lia) Hs)).
  rewrite (s32_small l2) by lia.
  set (pre' := pre ++ le_bytes 4 l1 ++ (m_name m ++ [0]) ++ le_bytes 4 l2 ++ m_signature m ++ [0]).
  assert (Ld : d + 4 + l1 + 4 + l2 = Z.of_nat (length pre')) by (unfold pre'; rewrite !length_app, !length_le_bytes; unfold d, l1, l2; cbn; lia).
  rewrite (mbind_done _ _ _ _ _ (reply_value_mid 4 pre' (m_fnPtr m) tail (d + 4 + l1 + 4 + l2) p ltac:(unfold pre'; rewrite E1, <-!app_assoc; done) Ld Hf)).
  rewrite (mbind_done _ _ _ _ _ (call_done _ _ _ p)). cbn [register_all].
  replace (d + 4 + l1 + 4 + l2 + 4) with (Z.of_nat (length (pre' ++ le_bytes 4 (m_fnPtr m)))) by (rewrite length_app, length_le_bytes; lia).
  rewrite IH by (cbn; rewrite E1; unfold pre', tail; by rewrite <-!app_assoc). done.
Qed.

Lemma register_all_result jclazz ms result e :
  result = 0 \/ result = 2 ^ 32 - 1 -> (register_all jclazz ms result e).1 = 0 \/ (register_all jclazz ms result e).1 = 2 ^ 32 - 1.
Proof.
  revert result e. induction ms as [|m ms IH]; intros result e Hr; [done|]. cbn [register_all]. apply IH.
  destruct (_ =? _); [by right|done].
Qed.

Lemma registernatives_handled jclazz ms (p : proxy E) :
  word jclazz -> Forall method_ok ms -> Z.of_nat (length ms) < 2 ^ 31 ->
  replydata p = le_bytes 4 jclazz ++ le_bytes 4 (Z.of_nat (length ms)) ++ methods_bytes ms ->
  exists p', dispatch 145 p = Done tt p' /\ vm p' = (register_all jclazz ms 0 (vm p)).2 /\
    callback_parcel p' = Done (le_bytes 4 (register_all jclazz ms 0 (vm p)).1) p'.
Proof.
  intros Hj Hms Hl Er. change (dispatch 145) with callRegisterNatives. unfold callRegisterNatives.
  rewrite (mbind_done _ _ _ _ _ (idata_mid 0 [] jclazz _ p Er eq_refl Hj)).
  rewrite (mbind_done _ _ _ _ _ (idata_mid 1 (le_bytes 4 jclazz) (Z.of_nat (length ms)) _ p Er eq_refl ltac:(unfold word; lia))).
  rewrite s32_small by lia. rewrite Nat2Z.id.
  assert (Er' : replydata p = (le_bytes 4 jclazz ++ le_bytes 4 (Z.of_nat (length ms))) ++ methods_bytes ms ++ [])
    by (by rewrite app_nil_r, <-app_assoc).
  pose proof (register_loop_done jclazz ms _ [] 0 p Hms Er') as EL.
  change (Z.of_nat (length (le_bytes 4 jclazz ++ le_bytes 4 (Z.of_nat (length ms))))) with 8 in EL.
  rewrite (mbind_done _ _ _ _ _ EL), respond_done. eexists. split; [reflexivity|]. split; [done|].
  apply (callback_sent _ _ []); cbn; done.
Qed.

(** C37: the table of methods survives the way. [RegisterNatives] writes the names, the
    signatures and the addresses one after the other, and what is read from it are the
    same methods in the same order: the virtual machine is asked once for each, in every
    state, and the result is -1 when one of them was refused and 0 otherwise. *)
Theorem register_natives_roundtrip (jclazz : Z) (ms : list JNINativeMethod) (s : session E)
  (Hj : word jclazz) (Hms : Forall method_ok ms) (Hl : methods_size ms < 2 ^ 31) :
  exists s', RegisterNatives jclazz ms s = Done (register_all jclazz ms 0 (vm_of s)).1 s' /\
    vm_of s' = (register_all jclazz ms 0 (vm_of s)).2 /\ same_lists s s'.
Proof.
  assert (Hn : Z.of_nat (length ms) < 2 ^ 31).
  { rewrite methods_size_spec in Hl. pose proof (length_methods ms). lia. }
  unfold RegisterNatives. rewrite methods_size_spec in *. rewrite s32_small by lia. set (n := 8 + Z.of_nat (length (methods_bytes ms))).
  rewrite (mbind_done _ _ _ _ _ (malloc_filled n s ltac:(lia))).
  rewrite (mbind_done _ _ _ _ _ (put_int_filled n [] 0 jclazz s eq_refl ltac:(cbn; lia))).
  rewrite (mbind_done _ _ _ _ _ (put_int_filled n ([] ++ le_bytes 4 jclazz) 4 (Z.of_nat (length ms)) s eq_refl ltac:(cbn; lia))).
  pose proof (put_methods_done n ms (([] ++ le_bytes 4 jclazz) ++ le_bytes 4 (Z.of_nat (length ms))) s ltac:(rewrite !length_app, !length_le_bytes; cbn; lia)) as EP.
  change (Z.of_nat (length (([] ++ le_bytes 4 jclazz) ++ le_bytes 4 (Z.of_nat (length ms))))) with 8 in EP.
  rewrite (mbind_done _ _ _ _ _ EP), filled_full by (rewrite !length_app, !length_le_bytes; cbn; lia). cbn [app]. rewrite <-app_assoc.
  set (sent := le_bytes 4 jclazz ++ le_bytes 4 (Z.of_nat (length ms)) ++ methods_bytes ms).
  assert (Ln : n = Z.of_nat (length sent)) by (unfold sent; rewrite !length_app, !length_le_bytes; lia).
  destruct (registernatives_handled jclazz ms (arrived 0 n sent (s_proxy s)) Hj Hms Hn eq_refl) as (p' & Ed & Ev & Ec).
  destruct (request_data_run 145 0 n sent [] _ p' s Ln Ed Ec) as (t & Et & Hs). rewrite app_nil_r in Et.
  exists (mk_session t p'). rewrite (mbind_done _ _ _ _ _ Et). split; [|by split].
  unfold result_of. pose proof (peek_result JInt (register_all jclazz ms 0 (vm_of s)).1) as P. cbn [size_of] in *.
  change (vm (arrived 0 n sent (s_proxy s))) with (vm_of s). rewrite P. cbn. f_equal. unfold bits.
  destruct (register_all_result jclazz ms 0 (vm_of s) ltac:(by left)) as [R|R]; by rewrite R.
Qed.
End calls.

Lemma register_natives_roundtrip_witness :
  exists s', @RegisterNatives _ (recording None) 9 [mk_method (str "f"%string) (str "(I)V"%string) 4096; mk_method (str "g"%string) (str "()I"%string) 8192] fresh_session = Done 0 s' /\
    vm_of s' = [Req "RegisterTaintedNatives" [9; 4096; 1] [str "f"%string; str "(I)V"%string];
                Req "RegisterTaintedNatives" [9; 8192; 1] [str "g"%string; str "()I"%string]].
Proof.
  destruct (@register_natives_roundtrip _ (recording None) 9
    [mk_method (str "f"%string) (str "(I)V"%string) 4096; mk_method (str "g"%string) (str "()I"%string) 8192] fresh_session) as (s' & E1 & E2 & _).
  - by unfold word.
  - unfold method_ok, c_chars, word. apply (bool_decide_unpack _). by vm_compute.
  - by vm_compute.
  - exists s'. split; [exact E1|exact E2].
Defined.
