(* ===== verification/JniTaint.v ===== *)
(** * Calls of the JNI with taint (properties of JniRemote and BpWrapper)

    The taint of the parameters is expected behind the data of a request, where nothing
    was received; the results of methods pass through an [int]. *)

From Stdlib Require Import String.
From S2P Require Import Prelude Bytes ExecutionLists Jni BpWrapper JniRemote JniSpec.

Section taint.
Context {E : Type} `{platform E}.

(** ** Behind the end of a block *)

(** The word that is found there. *)
Definition slack_word : option Z := le_value <$> mapM slack (seqZ 0 4).

Lemma peek_behind buf : peek buf (Z.of_nat (length buf)) 4 = mapM slack (seqZ 0 4).
Proof.
  unfold peek. change (seqZ 0 4) with [0; 1; 2; 3].
  change (seqZ (Z.of_nat (length buf)) 4) with ((fun i => Z.of_nat i + Z.of_nat (length buf)) <$> [0; 1; 2; 3]%nat).
  assert (G : forall i, peek_byte buf (Z.of_nat i + Z.of_nat (length buf)) = slack (Z.of_nat i)).
  { intros i. unfold peek_byte. rewrite (proj2 (Z.ltb_ge _ _)) by lia. rewrite lookup_ge_None_2 by lia. f_equal. lia. }
  cbn [fmap list_fmap mapM]. by rewrite !G.
Qed.
Lemma reply_value_behind off (p : proxy E) :
  off = Z.of_nat (length (replydata p)) ->
  reply_value 4 off p = match slack_word with Some w => Done w p | None => Stuck end.
Proof.
  intros ->. unfold reply_value, peek_value, slack_word. cbn. rewrite peek_behind. by destruct (mapM slack (seqZ 0 4)).
Qed.
Lemma reply_from_done off (p : proxy E) : reply_from off p = Done (drop (Z.to_nat off) (replydata p)) p.
Proof. done. Qed.

(** ** Methods *)

(** The result that the native method sees; [None]: the block of the result is overrun. *)
Definition call_result (t : jtype) (a : answer) : option Z :=
  let v := bits t (an_val a) in
  match t with
  | JObject | JInt => Some v
  | JBoolean | JByte | JChar | JShort => None
  | JFloat => Some (u32 (int_of_float v))
  | JLong => Some (u32 v + 2 ^ 32 * u32 (an_taint a))
  | JDouble => Some (u32 (int_of_double v) + 2 ^ 32 * u32 (an_taint a))
  end.

Lemma le_value_two a b : le_value (le_bytes 4 a ++ le_bytes 4 b) = u32 a + 2 ^ 32 * u32 b.
Proof.
  assert (G : forall xs ys, le_value (xs ++ ys) = le_value xs + 256 ^ Z.of_nat (length xs) * le_value ys).
  { induction xs as [|x xs IH]; intros ys; [cbn; lia|]. cbn [app le_value length]. rewrite IH, Nat2Z.inj_succ, Z.pow_succ_r by lia. lia. }
  rewrite G, !le_value_bytes, length_le_bytes. done.
Qed.
(** What is sent back with its taint. *)
Lemma callback_with_taint (p : proxy E) data t rest :
  callbackdata p = data ++ t ++ rest -> p_size p = Z.of_nat (length data) -> p_taintsize p = Z.of_nat (length t) -> callback_parcel p = Done data p.
Proof.
  intros Ed Es Et. unfold callback_parcel. cbn. rewrite Ed, Es, Et. destruct (Z.ltb_spec 0 (Z.of_nat (length data))) as [Hp|Hp].
  - pose proof (peek_mid [] data (t ++ rest) 0 _ eq_refl eq_refl) as P. cbn [app] in P. rewrite P. cbn.
    destruct (Z.ltb_spec 0 (Z.of_nat (length t))) as [Ht|Ht]; [|done]. by rewrite (peek_mid data t rest).
  - by destruct data.
Qed.

(** The two words of a result in its block. *)
Lemma result_block n v taint (p : proxy E) :
  4 <= n -> result_words n v taint p =
    if 8 <=? n then Done (filled n (le_bytes 4 v ++ le_bytes 4 taint)) p else Stuck.
Proof.
  intros Hn. unfold result_words. rewrite (mbind_done _ _ _ _ _ (malloc_filled n p ltac:(lia))).
  rewrite (mbind_done _ _ _ _ _ (put_int_filled n [] 0 v p eq_refl ltac:(cbn; lia))). cbn [app]. destruct (Z.leb_spec 8 n).
  - by rewrite (put_int_filled n (le_bytes 4 v) 4 taint p eq_refl ltac:(rewrite length_le_bytes; lia)).
  - unfold put_int, put_bytes, write_bytes. rewrite decide_False; [done|]. rewrite length_le_bytes, length_filled by (rewrite length_le_bytes; lia). lia.
Qed.

Lemma write_callresult_spec t a (p : proxy E) :
  match call_result t a with
  | None => write_callresult t a p = Stuck
  | Some v => exists p' data, write_callresult t a p = Done tt p' /\ vm p' = vm p /\ callback_parcel p' = Done data p' /\
                peek_value (size_of t) data 0 = Some v
  end.
Proof.
  unfold write_callresult. set (w := to_int t (bits t (an_val a))). set (n := Z.of_nat (size_of t)).
  pose proof (result_block (n + 4) w (an_taint a) p ltac:(lia)) as B.
  destruct (Z.leb_spec 8 (n + 4)) as [Hn|Hn].
  2: { assert (Ec : call_result t a = None) by (destruct t; try done; subst n; cbn in Hn; lia). rewrite Ec. unfold mbind'. by rewrite B. }
  rewrite (mbind_done _ _ _ _ _ B). set (block := filled (n + 4) (le_bytes 4 w ++ le_bytes 4 (an_taint a))).
  assert (G : forall data tail v, block = data ++ tail -> Z.of_nat (length data) = n -> length tail = 4%nat -> le_value data = v ->
    exists p' data, answer_with n 4 block p = Done tt p' /\ vm p' = vm p /\ callback_parcel p' = Done data p' /\
      peek_value (size_of t) data 0 = Some v).
  { intros data tail v Eb Ld Lt <-. eexists _, data. split; [reflexivity|]. split; [done|]. split.
    - apply (callback_with_taint _ data tail []); cbn; [by rewrite app_nil_r|by rewrite Ld|by rewrite Lt].
    - unfold peek_value. fold n. rewrite <-Ld, peek_all. done. }
  assert (L8 : length (le_bytes 4 w ++ le_bytes 4 (an_taint a)) = 8%nat) by (by rewrite length_app, !length_le_bytes).
  destruct (decide (n = 4)) as [E4|E4].
  - assert (Eb : block = le_bytes 4 w ++ le_bytes 4 (an_taint a)) by (unfold block; rewrite filled_full; [done|rewrite L8; lia]).
    assert (Ev : call_result t a = Some (le_value (le_bytes 4 w))).
    { rewrite le_value_bytes. unfold w. destruct t; try (subst n; done); cbn; f_equal; unfold bits, u32; cbn; by rewrite ?Zmod_mod. }
    rewrite Ev. apply (G _ _ _ Eb); rewrite ?length_le_bytes; try done; lia.
  - assert (Ev : call_result t a = Some (le_value (le_bytes 4 w ++ le_bytes 4 (an_taint a)))).
    { rewrite le_value_two. unfold w. destruct t; try (subst n; cbn in *; lia); cbn; do 2 f_equal; unfold bits, u32; cbn; try done.
      rewrite Zmod_mod. done. }
    rewrite Ev. apply (G (le_bytes 4 w ++ le_bytes 4 (an_taint a)) (drop 8 (fresh <$> seqZ 0 (n + 4))) _).
    + unfold block, filled. by rewrite L8.
    + rewrite L8. destruct t; subst n; cbn in *; lia.
    + rewrite length_drop, length_fmap, length_seqZ. destruct t; subst n; cbn in *; lia.
    + done.
Qed.

(** The parameters of a method that has [k]: their bytes. *)
Definition gives (ps : params) (sig : option (list Z)) (k : Z) (bs : list Z) : Prop :=
  Z.of_nat (length bs) = 8 * k /\
  forall n pre, Z.of_nat (length pre) + 8 * k <= n ->
  ps sig (8 * k) (filled n pre) (Z.of_nat (length pre)) = Some (filled n (pre ++ bs)).

Lemma write_filled n pre off bs :
  off = Z.of_nat (length pre) -> Z.of_nat (length pre + length bs) <= n -> write_bytes (filled n pre) off bs = Some (filled n (pre ++ bs)).
Proof.
  intros Ho Hn. pose proof (put_filled n pre off bs tt Ho Hn) as P. unfold put_bytes in P.
  destruct (write_bytes _ _ _); [|done]. by injection P as ->.
Qed.
(** An array of as many [jvalue]s. *)
Lemma jvalues_give args sig k : 0 <= k -> 8 * k <= Z.of_nat (length args) -> gives (from_jvalues args) sig k (take (Z.to_nat (8 * k)) args).
Proof.
  intros Hk Ha. split; [rewrite length_take; lia|]. intros n pre Hn. unfold from_jvalues.
  rewrite (proj2 (Z.ltb_ge _ _)), peek_in by lia. cbn. rewrite drop_0. apply write_filled; [done|]. rewrite length_take. lia.
Qed.

(** Arguments of the types of a signature without classes and floating point numbers of
    single precision. *)
Inductive args_of : list Z -> list va -> Prop :=
| args_end sig : args_of (41 :: sig) []
| args_4 c v sig args : c ∈ str "ZBCSI"%string -> args_of sig args -> args_of (c :: sig) (Va4 v :: args)
| args_8 c v sig args : c ∈ str "DJ"%string -> args_of sig args -> args_of (c :: sig) (Va8 v :: args).
Definition va_bytes (a : va) : list Z := match a with Va4 v => le_bytes 4 v ++ replicate 4 0 | Va8 v => le_bytes 8 v end.
Definition vas_bytes (args : list va) : list Z := mjoin (va_bytes <$> args).
Lemma vas_bytes_cons a args : vas_bytes (a :: args) = va_bytes a ++ vas_bytes args.
Proof. done. Qed.
Lemma length_va a : length (va_bytes a) = 8%nat.
Proof. by destruct a. Qed.

Lemma int_chars c : c ∈ str "ZBCSI"%string -> c = 90 \/ c = 66 \/ c = 67 \/ c = 83 \/ c = 73.
Proof. intros Hc. change (c ∈ [90; 66; 67; 83; 73]) in Hc. rewrite !elem_of_cons, elem_of_nil in Hc. naive_solver. Qed.
Lemma long_chars c : c ∈ str "DJ"%string -> c = 68 \/ c = 74.
Proof. intros Hc. change (c ∈ [68; 74]) in Hc. rewrite !elem_of_cons, elem_of_nil in Hc. naive_solver. Qed.

Lemma params_from_args_done sig args n pre :
  args_of sig args -> Z.of_nat (length pre) + 8 * Z.of_nat (length args) <= n ->
  params_from_args sig args (filled n pre) (Z.of_nat (length pre)) = Some (filled n (pre ++ vas_bytes args)).
Proof.
  intros Ha. revert pre. induction Ha as [sig|c v sig args Hc Ha IH|c v sig args Hc Ha IH]; intros pre Hn; [by rewrite app_nil_r| |];
    rewrite ?vas_bytes_cons; cbn [params_from_args length] in *.
  - assert (Ep : pre ++ va_bytes (Va4 v) ++ vas_bytes args = (pre ++ va_bytes (Va4 v)) ++ vas_bytes args) by apply app_assoc.
    rewrite Ep, <-(IH (pre ++ va_bytes (Va4 v))) by (rewrite length_app, length_va; lia).
    rewrite length_app, length_va, Nat2Z.inj_add. rewrite bool_decide_eq_true_2.
    2: { unfold str in *. apply list_elem_of_fmap in Hc as (y & -> & Hy). apply list_elem_of_fmap. exists y. split; [done|]. by right. }
    assert (E1 : (c =? 41) = false) by (by apply int_chars in Hc as [->|[->|[->|[->| ->]]]]). rewrite E1.
    rewrite (write_filled n pre) by (rewrite ?length_le_bytes; done || lia). cbn [mbind option_bind].
    rewrite (write_filled n (pre ++ le_bytes 4 v)) by (rewrite ?length_app, ?length_le_bytes, ?length_replicate; lia). cbn [mbind option_bind].
    by rewrite <-app_assoc.
  - assert (Ep : pre ++ va_bytes (Va8 v) ++ vas_bytes args = (pre ++ va_bytes (Va8 v)) ++ vas_bytes args) by apply app_assoc.
    rewrite Ep, <-(IH (pre ++ va_bytes (Va8 v))) by (rewrite length_app, length_va; lia).
    rewrite length_app, length_va, Nat2Z.inj_add. rewrite (bool_decide_eq_true_2 _ Hc).
    pose proof (long_chars c Hc) as Ec.
    assert (E1 : (c =? 41) = false) by (destruct Ec as [->| ->]; done). rewrite E1.
    assert (E2 : bool_decide (c ∈ str "LZBCSI"%string) = false) by (destruct Ec as [->| ->]; done). rewrite E2.
    by rewrite (write_filled n pre) by (rewrite ?length_le_bytes; done || lia).
Qed.
Lemma count_args sig args size : args_of sig args -> 0 <= size -> size + Z.of_nat (length args) < 2 ^ 31 -> count_params sig size = Some (size + Z.of_nat (length args)).
Proof.
  intros Ha. revert size. induction Ha as [sig|c v sig args Hc Ha IH|c v sig args Hc Ha IH]; intros size H0 Hs; cbn [count_params length] in *; [f_equal; lia| |].
  - assert (Ec : (c =? 41) = false /\ is_param c = true) by (by apply int_chars in Hc as [->|[->|[->|[->| ->]]]]).
    destruct Ec as [-> ->]. rewrite s32_small, IH by lia. f_equal. lia.
  - assert (Ec : (c =? 41) = false /\ is_param c = true) by (by apply long_chars in Hc as [->| ->]).
    destruct Ec as [-> ->]. rewrite s32_small, IH by lia. f_equal. lia.
Qed.
Lemma va_give sig args : args_of sig args -> gives (from_va args) (Some (40 :: sig)) (Z.of_nat (length args)) (vas_bytes args).
Proof.
  intros Ha. split.
  - clear Ha. induction args as [|a args IH]; [done|]. rewrite vas_bytes_cons, length_app, length_va. cbn [length]. lia.
  - intros n pre Hn. unfold from_va. cbn [mbind option_bind]. rewrite <-(params_from_args_done sig args n pre Ha Hn). done.
Qed.

(** What the native side knows of a method. *)
Definition knows (s : session E) (methodID : Z) (sig : option (list Z)) (k : Z) : Prop :=
  getNumParams methodID (sigList (s_native s)) = Some k /\ getSignatureForMethod methodID (sigList (s_native s)) = sig.

Lemma method_params_done s methodID sig k :
  knows s methodID sig k -> 0 <= k < 2 ^ 26 -> method_params methodID s = Done (8 * k, sig) s.
Proof.
  intros [Ek Es] Hk. unfold method_params, get_native. do 1 (erewrite mbind_done by done). rewrite Ek, Es.
  cbn. by rewrite s32_small by lia.
Qed.

(** The request of a method: object, method, size and parameters. *)
Definition method_request (jobj methodID k : Z) (bs : list Z) : list Z :=
  le_bytes 4 jobj ++ le_bytes 4 methodID ++ le_bytes 4 (8 * k) ++ bs.

Lemma call_copy_done s jobj methodID ps sig k bs function :
  knows s methodID sig k -> 0 <= k < 2 ^ 26 -> gives ps sig k bs ->
  exists rest, call_copy jobj methodID ps function s =
    request_data function (12 + 8 * k) (12 + 8 * k) (method_request jobj methodID k bs ++ rest) s.
Proof.
  intros Hs Hk [Lb Hg]. unfold call_copy. rewrite (mbind_done _ _ _ _ _ (method_params_done s methodID sig k Hs Hk)).
  rewrite !(s32_small (4 + 4 + 4 + 8 * k)) by lia. replace (4 + 4 + 4 + 8 * k) with (12 + 8 * k) by lia. rewrite s32_small by lia.
  set (n := 12 + 8 * k + (12 + 8 * k)).
  rewrite (mbind_done _ _ _ _ _ (malloc_filled n s ltac:(lia))).
  rewrite (mbind_done _ _ _ _ _ (put_int_filled n [] 0 jobj s eq_refl ltac:(cbn; lia))). cbn [app].
  rewrite (mbind_done _ _ _ _ _ (put_int_filled n (le_bytes 4 jobj) 4 methodID s eq_refl ltac:(rewrite length_le_bytes; lia))).
  rewrite (mbind_done _ _ _ _ _ (put_int_filled n (le_bytes 4 jobj ++ le_bytes 4 methodID) 8 (8 * k) s eq_refl ltac:(rewrite length_app, !length_le_bytes; lia))).
  pose proof (Hg n ((le_bytes 4 jobj ++ le_bytes 4 methodID) ++ le_bytes 4 (8 * k)) ltac:(rewrite !length_app, !length_le_bytes; lia)) as G.
  change (Z.of_nat (length ((le_bytes 4 jobj ++ le_bytes 4 methodID) ++ le_bytes 4 (8 * k)))) with 12 in G. rewrite G. cbn [deref].
  erewrite mbind_done by done. unfold filled, method_request. eexists. by rewrite <-!app_assoc.
Qed.

Lemma unpack_callmethod_done name jobj methodID k bs (p : proxy E) :
  word jobj -> word methodID -> 0 <= k < 2 ^ 26 -> Z.of_nat (length bs) = 8 * k -> replydata p = method_request jobj methodID k bs ->
  unpack_callmethod name p =
    match slack_word with Some taint => call name [jobj; taint; methodID] [bs; []] p | None => Stuck end.
Proof.
  intros Hj Hm Hk Lb Er. unfold unpack_callmethod, method_request in *.
  rewrite (mbind_done _ _ _ _ _ (idata_mid 0 [] jobj _ p Er eq_refl Hj)).
  rewrite (mbind_done _ _ _ _ _ (idata_mid 1 (le_bytes 4 jobj) methodID _ p Er eq_refl Hm)).
  assert (Er2 : replydata p = (le_bytes 4 jobj ++ le_bytes 4 methodID) ++ le_bytes 4 (8 * k) ++ bs) by (by rewrite Er, <-app_assoc).
  rewrite (mbind_done _ _ _ _ _ (idata_mid 2 _ (8 * k) _ p Er2 eq_refl ltac:(unfold word; lia))). rewrite s32_small by lia.
  rewrite (mbind_done _ _ _ _ _ (reply_from_done 12 p)).
  assert (Ll : Z.of_nat (length (replydata p)) = 12 + 8 * k) by (rewrite Er, !length_app, !length_le_bytes; lia).
  pose proof (reply_value_behind (12 + 8 * k) p (eq_sym Ll)) as R. destruct slack_word as [taint|]; [|unfold mbind'; by rewrite R].
  rewrite (mbind_done _ _ _ _ _ R), (mbind_done _ _ _ _ _ (reply_from_done _ p)). f_equal. f_equal.
  - by rewrite Er.
  - f_equal. apply drop_ge. lia.
Qed.

(** What the call of a method gives. *)
Definition method_result (m : M (session E) Z) (name : string) (t : jtype) (jobj methodID : Z) (bs : list Z) (s : session E) : Prop :=
  match slack_word with
  | None => m s = Stuck
  | Some taint =>
      let r := jni (Req name [jobj; taint; methodID] [bs; []]) (vm_of s) in
      match call_result t r.1 with
      | None => m s = Stuck
      | Some v => exists s', m s = Done v s' /\ vm_of s' = r.2 /\ same_lists s s'
      end
  end.

Lemma call_virtual_result function name t s jobj methodID ps sig k bs :
  dispatch function = call_method name t -> word jobj -> word methodID -> knows s methodID sig k -> 0 <= k < 2 ^ 26 -> gives ps sig k bs ->
  method_result (call_virtual jobj methodID ps function t) name t jobj methodID bs s.
Proof.
  intros Ef Hj Hm Hs Hk Hg. unfold method_result, call_virtual.
  destruct (call_copy_done s jobj methodID ps sig k bs function Hs Hk Hg) as [rest Ec]. destruct Hg as [Lb _].
  set (size := 12 + 8 * k) in *. set (sent := method_request jobj methodID k bs) in *.
  assert (Ls : size = Z.of_nat (length sent)) by (unfold size, sent, method_request; rewrite !length_app, !length_le_bytes; lia).
  set (p := arrived size size sent (s_proxy s)).
  pose proof (unpack_callmethod_done name jobj methodID k bs p Hj Hm Hk Lb eq_refl) as U.
  assert (Stuck_is : dispatch function p = Stuck -> (do r <- call_copy jobj methodID ps function; result_of t r) s = Stuck).
  { intros Ed. unfold mbind'. by rewrite Ec, (request_data_stuck function size size sent rest s Ls Ed). }
  rewrite Ef in Stuck_is. unfold call_method in Stuck_is. destruct slack_word as [taint|]; [|apply Stuck_is; unfold mbind'; by rewrite U].
  cbv zeta. rewrite call_done in U. pose proof (mbind_done _ (fun r => write_callresult t r) _ _ _ U) as B. cbv beta in B.
  set (rq := Req name [jobj; taint; methodID] [bs; []]) in *. change (vm p) with (vm_of s) in *.
  match type of B with _ = write_callresult _ _ ?q => pose proof (write_callresult_spec t (jni rq (vm_of s)).1 q) as W end.
  destruct (call_result t (jni rq (vm_of s)).1) as [v|]; [|apply Stuck_is; exact (eq_trans B W)].
  destruct W as (p' & data & Ew & Ev & Ecb & Epk). rewrite Ew in B.
  destruct (request_data_run function size size sent rest data p' s Ls ltac:(rewrite Ef; exact B) Ecb) as (n & En & Hl).
  exists (mk_session n p'). rewrite <-Ec in En. rewrite (mbind_done _ _ _ _ _ En). split; [|by split].
  unfold result_of. by rewrite Epk.
Qed.

(** ** Regions of arrays *)

Lemma put_words_done data from n v (p : proxy E) :
  0 <= from -> 4 * (from + Z.of_nat n) <= Z.of_nat (length data) ->
  exists data', put_words data from n v p = Done data' p /\ length data' = length data /\
    take (Z.to_nat (4 * from)) data' = take (Z.to_nat (4 * from)) data.
Proof.
  revert data from. induction n as [|n IH]; intros data from Hf Hn; [by exists data|]. cbn [put_words].
  destruct (store_some 4 data (4 * from) v ltac:(lia) ltac:(lia)) as [d1 E1]. unfold store in E1.
  assert (P : put_int data (4 * from) v p = Done d1 p) by (unfold put_int, put_bytes; by rewrite E1). rewrite (mbind_done _ _ _ _ _ P).
  pose proof (write_bytes_length _ _ _ _ E1) as L1.
  destruct (IH d1 (from + 1) ltac:(lia) ltac:(lia)) as (d2 & E2 & L2 & T2). exists d2. split; [done|]. split; [congruence|].
  assert (T1 : take (Z.to_nat (4 * from)) d1 = take (Z.to_nat (4 * from)) data).
  { rewrite write_bytes_some in E1 by (rewrite ?length_le_bytes; lia). injection E1 as <-.
    rewrite take_app_le by (rewrite length_take; lia). by rewrite take_take, Nat.min_id. }
  rewrite <-T1. apply (f_equal (take (Z.to_nat (4 * from)))) in T2. rewrite !take_take in T2.
  by replace (Z.to_nat (4 * from) `min` Z.to_nat (4 * (from + 1)))%nat with (Z.to_nat (4 * from)) in T2 by lia.
Qed.

(** The elements of a region are whole words, or do not fill one. *)
Definition whole_words (n : Z) : Prop := n mod 4 = 0 \/ n < 4.

Lemma get_region_handles function name t jarr start len (p : proxy E) :
  let n := len * Z.of_nat (size_of t) in
  let r := jni (Req name [jarr; start; len] []) (vm p) in
  dispatch function = BpWrapper.get_region name t -> word jarr -> word start -> 0 <= len < 2 ^ 26 -> whole_words n ->
  Z.of_nat (length (an_data r.1)) = n -> replydata p = le_bytes 4 jarr ++ le_bytes 4 start ++ le_bytes 4 len ->
  exists p', dispatch function p = Done tt p' /\ vm p' = r.2 /\ callback_parcel p' = Done (an_data r.1) p'.
Proof.
  intros n r Ef Hj Hs Hl Hw Ld Er. rewrite Ef. unfold BpWrapper.get_region.
  rewrite (mbind_done _ _ _ _ _ (idata_mid 0 [] jarr _ p Er eq_refl Hj)).
  rewrite (mbind_done _ _ _ _ _ (idata_mid 1 (le_bytes 4 jarr) start _ p Er eq_refl Hs)).
  assert (Er2 : replydata p = (le_bytes 4 jarr ++ le_bytes 4 start) ++ le_bytes 4 len ++ []) by (by rewrite Er, app_nil_r, <-app_assoc).
  rewrite (mbind_done _ _ _ _ _ (idata_mid 2 _ len _ p Er2 eq_refl ltac:(unfold word; lia))). rewrite s32_small by lia. fold n.
  assert (Hn : 0 <= n) by (subst n; lia).
  rewrite (mbind_done _ _ _ _ _ (malloc_filled (2 * n) p ltac:(lia))), (mbind_done _ _ _ _ _ (call_done _ _ _ p)). fold r.
  set (p1 := mk_proxy _ _ _ _ _ _ _).
  rewrite (mbind_done _ _ _ _ _ (put_filled (2 * n) [] 0 (an_data r.1) p1 eq_refl ltac:(cbn; lia))). cbn [app].
  set (data := filled (2 * n) (an_data r.1)). assert (Lt : Z.of_nat (length data) = 2 * n) by (apply length_filled; lia).
  destruct (put_words_done data (n / 4) (Z.to_nat (n / 4)) (an_taint r.1) p1 ltac:(dlia) ltac:(rewrite Lt; dlia)) as (d2 & E2 & L2 & T2).
  rewrite (mbind_done _ _ _ _ _ E2).
  assert (Td : take (Z.to_nat n) d2 = an_data r.1).
  { assert (Tn : take (Z.to_nat n) data = an_data r.1) by (unfold data, filled; rewrite take_app_length' by lia; done).
    destruct Hw as [Hw|Hw].
    - replace (4 * (n / 4)) with n in T2 by dlia. congruence.
    - rewrite Z.div_small in E2 by lia. cbn in E2. by injection E2 as <-. }
  eexists. split; [reflexivity|]. split; [done|].
  apply (callback_with_taint _ _ (drop (Z.to_nat n) d2) []); cbn.
  - rewrite app_nil_r, <-Td. by rewrite take_drop.
  - done.
  - rewrite length_drop. lia.
Qed.

Definition region_served (c : (Z -> Z -> Z -> M (session E) (list Z)) * string * jtype) : Prop :=
  forall s jarr start len, word jarr -> word start -> 0 <= len < 2 ^ 26 ->
  let n := len * Z.of_nat (size_of c.2) in
  let r := jni (Req c.1.2 [jarr; start; len] []) (vm_of s) in
  whole_words n -> Z.of_nat (length (an_data r.1)) = n ->
  exists s', c.1.1 jarr start len s = Done (an_data r.1) s' /\ vm_of s' = r.2 /\ same_lists s s'.

Lemma get_region_served function (c : (Z -> Z -> Z -> M (session E) (list Z)) * string * jtype) :
  c.1.1 = (fun jarr start len => get_region c.2 jarr start len function) -> dispatch function = BpWrapper.get_region c.1.2 c.2 -> region_served c.
Proof.
  intros Ec Ef s jarr start len Hj Hs Hl n r Hw Ld. rewrite Ec. unfold get_region.
  rewrite (mbind_done _ _ _ _ _ (three_words_done jarr start len s)).
  set (sent := le_bytes 4 jarr ++ le_bytes 4 start ++ le_bytes 4 len).
  destruct (get_region_handles function c.1.2 c.2 jarr start len (arrived 0 12 sent (s_proxy s)) Ef Hj Hs Hl Hw Ld eq_refl) as (p' & Ed & Ev & Ecb).
  destruct (request_data_run function 0 12 sent [] _ p' s eq_refl Ed Ecb) as (t & Et & Hls). rewrite app_nil_r in Et.
  exists (mk_session t p'). rewrite (mbind_done _ _ _ _ _ Et). split; [|by split].
  rewrite (proj2 (Z.ltb_ge len 0)) by lia. replace (Z.of_nat (size_of c.2) * len) with n by (subst n; lia).
  change (vm (arrived 0 12 sent (s_proxy s))) with (vm_of s). fold r. rewrite <-Ld, peek_all. done.
Qed.

(** ** Fields *)

Lemma callback_behind (p : proxy E) data :
  callbackdata p = data -> p_size p = Z.of_nat (length data) -> (0 < length data)%nat -> p_taintsize p = 4 ->
  callback_parcel p = match slack_word with Some _ => Done data p | None => Stuck end.
Proof.
  intros Ed Es Hl Et. unfold callback_parcel, slack_word. cbn. rewrite Ed, Es, Et, (proj2 (Z.ltb_lt _ _)) by lia.
  rewrite peek_all. cbn. rewrite peek_behind. by destruct (mapM slack (seqZ 0 4)).
Qed.

(** The value of a field that the native method sees. *)
Definition field_result (t : jtype) (a : answer) : option Z :=
  let v := bits t (an_val a) in
  match t with
  | JBoolean | JByte | JChar | JShort => None
  | JFloat => Some (u32 (int_of_float v))
  | _ => Some v
  end.
(** The handler that belongs to the type. *)
Definition field_handler (name : string) (t : jtype) : M (proxy E) unit :=
  match t with JLong | JDouble => get_field_long name | _ => BpWrapper.get_field name t end.

(** What the end of a handler leaves: a block with the value, and the placeholder of the
    taint behind it. *)
Definition sends (m : M (proxy E) unit) (p : proxy E) (t : jtype) (res : option Z) : Prop :=
  match res with
  | None => m p = Stuck
  | Some v => exists p' data, m p = Done tt p' /\ vm p' = vm p /\
      callback_parcel p' = match slack_word with Some _ => Done data p' | None => Stuck end /\
      peek_value (size_of t) data 0 = Some v
  end.

Lemma answer_sends data v t size m (p : proxy E) :
  m p = answer_with size 4 data p -> size = Z.of_nat (length data) -> (0 < length data)%nat ->
  peek_value (size_of t) data 0 = Some v -> sends m p t (Some v).
Proof. intros Em -> Hl Hv. eexists _, data. rewrite Em. split; [reflexivity|]. split; [done|]. split; [by apply callback_behind|done]. Qed.

Lemma word_sends t (r : answer) (p : proxy E) :
  size_of t <> 8%nat ->
  let size := Z.of_nat (size_of t) + 4 in
  sends (do data <- result_words size (to_int t (bits t (an_val r))) (an_taint r); answer_with size 4 data) p t (field_result t r).
Proof.
  intros Hs size. set (w := to_int t (bits t (an_val r))).
  pose proof (result_block size w (an_taint r) p ltac:(lia)) as B. destruct (Z.leb_spec 8 size) as [Hn|Hn].
  - assert (E4 : size_of t = 4%nat) by (destruct t; subst size; cbn in *; lia).
    assert (L : Z.of_nat (length (le_bytes 4 w ++ le_bytes 4 (an_taint r))) = size) by (rewrite length_app, !length_le_bytes; lia).
    rewrite filled_full in B by done.
    assert (Ef : field_result t r = Some (le_value (le_bytes 4 w))).
    { rewrite le_value_bytes. unfold w. destruct t; try done; cbn; f_equal; unfold bits, u32; cbn; by rewrite ?Zmod_mod. }
    rewrite Ef. eapply answer_sends; [apply (mbind_done _ _ _ _ _ B)|done|cbn; lia|].
    unfold peek_value. rewrite E4. pose proof (peek_mid [] (le_bytes 4 w) (le_bytes 4 (an_taint r)) 0 (Z.of_nat 4) eq_refl eq_refl) as P.
    cbn [app] in P. by rewrite P.
  - assert (Ef : field_result t r = None) by (destruct t; subst size; cbn in *; try done; lia). rewrite Ef. cbn. unfold mbind'. by rewrite B.
Qed.
Lemma long_sends t (r : answer) (p : proxy E) :
  size_of t = 8%nat ->
  sends (do data <- malloc 12; do data <- put_long data 0 (an_val r); do data <- put_int data 8 (an_taint r); answer_with 12 4 data) p t
    (field_result t r).
Proof.
  intros E8. assert (Ef : field_result t r = Some (bits t (an_val r))) by (by destruct t). rewrite Ef.
  pose proof (put_filled 12 [] 0 (le_bytes 8 (an_val r)) p eq_refl ltac:(rewrite length_le_bytes; cbn; lia)) as P1. cbn [app] in P1.
  assert (L : Z.of_nat (length (le_bytes 8 (an_val r) ++ le_bytes 4 (an_taint r))) = 12) by (by rewrite length_app, !length_le_bytes).
  apply (answer_sends (le_bytes 8 (an_val r) ++ le_bytes 4 (an_taint r)) _ _ 12); [|done|lia|].
  - rewrite (mbind_done _ _ _ _ _ (malloc_filled 12 p ltac:(lia))). unfold put_long. rewrite (mbind_done _ _ _ _ _ P1).
    rewrite (mbind_done _ _ _ _ _ (put_int_filled 12 (le_bytes 8 (an_val r)) 8 (an_taint r) p eq_refl ltac:(rewrite length_le_bytes; lia))).
    by rewrite filled_full by done.
  - unfold peek_value. rewrite E8. pose proof (peek_mid [] (le_bytes 8 (an_val r)) (le_bytes 4 (an_taint r)) 0 (Z.of_nat 8) eq_refl eq_refl) as P.
    cbn [app] in P. rewrite P. change (Some (le_value (le_bytes 8 (an_val r))) = Some (bits t (an_val r))). rewrite le_value_bytes. unfold bits. by rewrite E8.
Qed.

Lemma field_handler_sends name t jobj fieldID (p : proxy E) :
  word jobj -> word fieldID -> replydata p = le_bytes 4 jobj ++ le_bytes 4 fieldID ->
  let r := jni (Req name [jobj; fieldID] []) (vm p) in
  match field_result t r.1 with
  | None => field_handler name t p = Stuck
  | Some v => exists p' data, field_handler name t p = Done tt p' /\ vm p' = r.2 /\
      callback_parcel p' = match slack_word with Some _ => Done data p' | None => Stuck end /\
      peek_value (size_of t) data 0 = Some v
  end.
Proof.
  intros Hj Hf Er r.
  pose proof (idata_mid 0 [] jobj _ p Er eq_refl Hj) as I0.
  assert (Er1 : replydata p = le_bytes 4 jobj ++ le_bytes 4 fieldID ++ []) by (by rewrite app_nil_r).
  pose proof (idata_mid 1 (le_bytes 4 jobj) fieldID [] p Er1 eq_refl Hf) as I1.
  pose proof (call_done name [jobj; fieldID] [] p) as C. fold r in C. set (p1 := mk_proxy _ _ _ _ _ _ _) in C.
  destruct (decide (size_of t = 8%nat)) as [E8|E8].
  - pose proof (long_sends t r.1 p1 E8) as L. unfold sends in L.
    assert (Eh : field_handler name t p = (do data <- malloc 12; do data <- put_long data 0 (an_val r.1); do data <- put_int data 8 (an_taint r.1); answer_with 12 4 data) p1).
    { destruct t; try done; unfold field_handler, get_field_long;
      rewrite (mbind_done _ _ _ _ _ I0), (mbind_done _ _ _ _ _ I1), (mbind_done _ _ _ _ _ C); done. }
    rewrite Eh. exact L.
  - pose proof (word_sends t r.1 p1 E8) as L. unfold sends in L. cbv zeta in L.
    assert (Eh : field_handler name t p = BpWrapper.get_field name t p) by (by destruct t). rewrite Eh. unfold BpWrapper.get_field.
    rewrite (mbind_done _ _ _ _ _ I0), (mbind_done _ _ _ _ _ I1), (mbind_done _ _ _ _ _ C). exact L.
Qed.

(** What the read of a field gives. *)
Definition field_read (c : (Z -> Z -> M (session E) Z) * string * jtype) : Prop :=
  forall s jobj fieldID, word jobj -> word fieldID ->
  let r := jni (Req c.1.2 [jobj; fieldID] []) (vm_of s) in
  match slack_word, field_result c.2 r.1 with
  | Some _, Some v => exists s', c.1.1 jobj fieldID s = Done v s' /\ vm_of s' = r.2 /\ same_lists s s'
  | _, _ => c.1.1 jobj fieldID s = Stuck
  end.

Lemma field_reads function (c : (Z -> Z -> M (session E) Z) * string * jtype) :
  c.1.1 = (fun jobj fieldID => request_two function jobj fieldID c.2) -> dispatch function = field_handler c.1.2 c.2 -> field_read c.
Proof.
  intros Ec Ef s jobj fieldID Hj Hf r. rewrite Ec. unfold request_two.
  set (sent := le_bytes 4 jobj ++ le_bytes 4 fieldID).
  pose proof (field_handler_sends c.1.2 c.2 jobj fieldID (arrived 0 8 sent (s_proxy s)) Hj Hf eq_refl) as Hh.
  change (vm (arrived 0 8 sent (s_proxy s))) with (vm_of s) in Hh. cbv zeta in Hh. fold r in Hh. rewrite <-Ef in Hh.
  rewrite (mbind_done _ _ _ _ _ (two_words_done jobj fieldID s)). fold sent.
  destruct (field_result c.2 r.1) as [v|].
  - destruct Hh as (p' & data & Ed & Ev & Ecb & Epk). destruct slack_word as [x|].
    + destruct (request_data_run function 0 8 sent [] data p' s eq_refl Ed Ecb) as (t & Et & Hls). rewrite app_nil_r in Et.
      exists (mk_session t p'). rewrite (mbind_done _ _ _ _ _ Et). split; [|by split]. unfold result_of. by rewrite Epk.
    + pose proof (request_data_lost function 0 8 sent [] p' s eq_refl Ed Ecb) as Et. rewrite app_nil_r in Et. unfold mbind' at 1. rewrite Et. reflexivity.
  - pose proof (request_data_stuck function 0 8 sent [] s eq_refl Hh) as Et. rewrite app_nil_r in Et. destruct slack_word; unfold mbind' at 1; by rewrite Et.
Qed.

(** ** Writing fields *)

(** The value that is stored. *)
Definition stored (t : jtype) (val : Z) : Z :=
  match t with
  | JLong | JDouble => of_long t (to_long t val mod 2 ^ 64)
  | _ => of_int t (u32 (to_int t val))
  end.
Definition set_handler (name : string) (t : jtype) : M (proxy E) unit :=
  match t with JLong | JDouble => BpWrapper.set_field_long name t | _ => BpWrapper.set_field name t end.
Definition set_request (t : jtype) (jobj fieldID val : Z) : list Z :=
  (match t with JLong | JDouble => le_bytes 8 (to_long t val) | _ => le_bytes 4 (to_int t val) end) ++ le_bytes 4 fieldID ++ le_bytes 4 jobj.
Definition set_call (t : jtype) (jobj fieldID val function : Z) : M (session E) unit :=
  match t with
  | JLong | JDouble => JniRemote.set_field_long jobj fieldID t val function
  | _ => JniRemote.set_field jobj fieldID t val function
  end.

Lemma reply_value_mod n pre v rest off (p : proxy E) :
  replydata p = pre ++ le_bytes n v ++ rest -> off = Z.of_nat (length pre) -> reply_value n off p = Done (v mod 256 ^ Z.of_nat n) p.
Proof.
  intros Er ->. unfold reply_value, peek_value. cbn. rewrite Er, peek_mid by (rewrite ?length_le_bytes; done). cbn. by rewrite le_value_bytes.
Qed.
(** The words behind the value, of [4 * i] bytes, and the taint behind the end. *)
Lemma set_words name jobj fieldID value i (head : list Z) (k : M (proxy E) Z) (f : Z -> Z) (p : proxy E) :
  word jobj -> word fieldID -> 4 * i = Z.of_nat (length head) -> replydata p = head ++ le_bytes 4 fieldID ++ le_bytes 4 jobj ->
  k p = Done value p ->
  let m := do fieldID <- idata i; do jobj <- idata (i + 1); do taint <- idata (i + 2); do value <- k;
           do _ <- call name [jobj; fieldID; f value; taint] []; respond_nothing in
  match slack_word with
  | None => m p = Stuck
  | Some taint => exists p', m p = Done tt p' /\ vm p' = (jni (Req name [jobj; fieldID; f value; taint] []) (vm p)).2 /\ callback_parcel p' = Done [] p'
  end.
Proof.
  intros Hj Hf Hi Er Ek m. unfold m. clear m.
  rewrite !(mbind_done _ _ _ _ _ (idata_mid i head fieldID _ p Er Hi Hf)).
  assert (Er2 : replydata p = (head ++ le_bytes 4 fieldID) ++ le_bytes 4 jobj ++ []) by (by rewrite app_nil_r, <-app_assoc).
  rewrite !(mbind_done _ _ _ _ _ (idata_mid (i + 1) _ jobj [] p Er2 ltac:(rewrite length_app, length_le_bytes; lia) Hj)).
  assert (Ll : 4 * (i + 2) = Z.of_nat (length (replydata p))) by (rewrite Er, !length_app, !length_le_bytes; lia).
  pose proof (reply_value_behind _ p Ll) as R. change (reply_value 4 (4 * (i + 2))) with (idata (E := E) (i + 2)) in R.
  destruct slack_word as [taint|]; [|unfold mbind'; by rewrite R].
  rewrite (mbind_done _ _ _ _ _ R), (mbind_done _ _ _ _ _ Ek). apply call_nothing.
Qed.
Lemma set_handler_handles name t jobj fieldID val (p : proxy E) :
  word jobj -> word fieldID -> replydata p = set_request t jobj fieldID val ->
  match slack_word with
  | None => set_handler name t p = Stuck
  | Some taint => exists p', set_handler name t p = Done tt p' /\ vm p' = (jni (Req name [jobj; fieldID; stored t val; taint] []) (vm p)).2 /\
      callback_parcel p' = Done [] p'
  end.
Proof.
  intros Hj Hf Er. destruct (decide (size_of t = 8%nat)) as [E8|E8].
  - assert (Er8 : replydata p = [] ++ le_bytes 8 (to_long t val) ++ le_bytes 4 fieldID ++ le_bytes 4 jobj) by (by destruct t).
    pose proof (set_words name jobj fieldID _ 2 (le_bytes 8 (to_long t val)) (reply_value 8 0) (of_long t) p Hj Hf eq_refl Er8 (reply_value_mod 8 [] _ _ 0 p Er8 eq_refl)) as B.
    by destruct t.
  - assert (Er4 : replydata p = [] ++ le_bytes 4 (to_int t val) ++ le_bytes 4 fieldID ++ le_bytes 4 jobj) by (by destruct t).
    pose proof (set_words name jobj fieldID _ 1 (le_bytes 4 (to_int t val)) (idata 0) (of_int t) p Hj Hf eq_refl Er4 (reply_value_mod 4 [] _ _ 0 p Er4 eq_refl)) as B.
    by destruct t.
Qed.

Definition field_write (c : (Z -> Z -> Z -> M (session E) unit) * string * jtype) : Prop :=
  forall s jobj fieldID val, word jobj -> word fieldID ->
  match slack_word with
  | None => c.1.1 jobj fieldID val s = Stuck
  | Some taint => exists s', c.1.1 jobj fieldID val s = Done tt s' /\
      vm_of s' = (jni (Req c.1.2 [jobj; fieldID; stored c.2 val; taint] []) (vm_of s)).2 /\ same_lists s s'
  end.
(** The block of a request. *)
Lemma set_call_done t jobj fieldID val function s :
  let sent := set_request t jobj fieldID val in
  set_call t jobj fieldID val function s =
    (do _ <- request_data function 4 (Z.of_nat (length sent)) sent; mret' tt) s.
Proof.
  intros sent. assert (G4 : sent = le_bytes 4 (to_int t val) ++ le_bytes 4 fieldID ++ le_bytes 4 jobj ->
    JniRemote.set_field jobj fieldID t val function s = (do _ <- request_data function 4 (Z.of_nat (length sent)) sent; mret' tt) s).
  { intros Es. unfold JniRemote.set_field. rewrite (mbind_done _ _ _ _ _ (three_words_done _ _ _ s)), <-Es.
    by rewrite Es, !length_app, !length_le_bytes. }
  assert (G8 : sent = le_bytes 8 (to_long t val) ++ le_bytes 4 fieldID ++ le_bytes 4 jobj ->
    JniRemote.set_field_long jobj fieldID t val function s = (do _ <- request_data function 4 (Z.of_nat (length sent)) sent; mret' tt) s).
  { intros Es. unfold JniRemote.set_field_long, put_long. rewrite (mbind_done _ _ _ _ _ (malloc_filled 16 s ltac:(lia))).
    pose proof (put_filled 16 [] 0 (le_bytes 8 (to_long t val)) s eq_refl ltac:(rewrite length_le_bytes; cbn; lia)) as P. cbn [app] in P.
    rewrite (mbind_done _ _ _ _ _ P). set (b := le_bytes 8 (to_long t val)) in *.
    rewrite (mbind_done _ _ _ _ _ (put_int_filled 16 b 8 fieldID s eq_refl ltac:(unfold b; rewrite length_le_bytes; lia))).
    rewrite (mbind_done _ _ _ _ _ (put_int_filled 16 (b ++ le_bytes 4 fieldID) 12 jobj s ltac:(unfold b; by rewrite length_app, !length_le_bytes) ltac:(unfold b; rewrite length_app, !length_le_bytes; lia))).
    rewrite filled_full, <-app_assoc, <-Es by (unfold b; by rewrite !length_app, !length_le_bytes). rewrite Es at 2. unfold b. by rewrite !length_app, !length_le_bytes. }
  destruct t; by (apply G4 || apply G8).
Qed.
Lemma field_writes function (c : (Z -> Z -> Z -> M (session E) unit) * string * jtype) :
  c.1.1 = (fun jobj fieldID val => set_call c.2 jobj fieldID val function) -> dispatch function = set_handler c.1.2 c.2 -> field_write c.
Proof.
  intros Ec Ef s jobj fieldID val Hj Hf. rewrite Ec. cbv beta.
  pose proof (set_call_done c.2 jobj fieldID val function s) as Es. cbv zeta in Es. set (sent := set_request c.2 jobj fieldID val) in Es.
  pose proof (set_handler_handles c.1.2 c.2 jobj fieldID val (arrived 4 (Z.of_nat (length sent)) sent (s_proxy s)) Hj Hf eq_refl) as B.
  rewrite <-Ef in B. change (vm (arrived 4 (Z.of_nat (length sent)) sent (s_proxy s))) with (vm_of s) in B. destruct slack_word as [taint|].
  - destruct B as (p' & Ed & Ev & Ecb). destruct (request_data_run function 4 _ sent [] [] p' s eq_refl Ed Ecb) as (n & En & Hl).
    rewrite app_nil_r in En. exists (mk_session n p'). by rewrite Es, (mbind_done _ _ _ _ _ En).
  - pose proof (request_data_stuck function 4 _ sent [] s eq_refl B) as En. rewrite app_nil_r in En. rewrite Es. unfold mbind'. by rewrite En.
Qed.

(** ** The functions *)

(** Each with the name of the function of the virtual machine and the type of the result. *)
Definition jvalue_calls : list ((Z -> Z -> list Z -> M (session E) Z) * string * jtype) :=
  [(CallObjectMethodA, "CallObjectTaintedMethodA"%string, JObject);
   (CallBooleanMethodA, "CallBooleanTaintedMethodA"%string, JBoolean); (CallByteMethodA, "CallByteTaintedMethodA"%string, JByte);
   (CallCharMethodA, "CallCharTaintedMethodA"%string, JChar); (CallShortMethodA, "CallShortTaintedMethodA"%string, JShort);
   (CallIntMethodA, "CallIntTaintedMethodA"%string, JInt); (CallLongMethodA, "CallLongTaintedMethodA"%string, JLong);
   (CallFloatMethodA, "CallFloatTaintedMethodA"%string, JFloat); (CallDoubleMethodA, "CallDoubleTaintedMethodA"%string, JDouble)].
Definition va_calls : list ((Z -> Z -> list va -> M (session E) Z) * string * jtype) :=
  [(CallObjectMethod, "CallObjectTaintedMethodA"%string, JObject); (CallObjectMethodV, "CallObjectTaintedMethodA"%string, JObject);
   (CallByteMethod, "CallByteTaintedMethodA"%string, JByte); (CallByteMethodV, "CallByteTaintedMethodA"%string, JByte);
   (CallCharMethod, "CallCharTaintedMethodA"%string, JChar); (CallCharMethodV, "CallCharTaintedMethodA"%string, JChar);
   (CallShortMethod, "CallShortTaintedMethodA"%string, JShort); (CallShortMethodV, "CallShortTaintedMethodA"%string, JShort);
   (CallLongMethod, "CallLongTaintedMethodA"%string, JLong); (CallLongMethodV, "CallLongTaintedMethodA"%string, JLong);
   (CallFloatMethod, "CallFloatTaintedMethodA"%string, JFloat); (CallFloatMethodV, "CallFloatTaintedMethodA"%string, JFloat);
   (CallDoubleMethod, "CallDoubleTaintedMethodA"%string, JDouble); (CallDoubleMethodV, "CallDoubleTaintedMethodA"%string, JDouble);
   (CallBooleanMethodV, "CallBooleanTaintedMethodA"%string, JBoolean)].
Definition field_calls : list ((Z -> Z -> M (session E) Z) * string * jtype) :=
  [(GetObjectField, "GetObjectTaintedField"%string, JObject); (GetBooleanField, "GetBooleanTaintedField"%string, JBoolean);
   (GetByteField, "GetByteTaintedField"%string, JByte); (GetCharField, "GetCharTaintedField"%string, JChar);
   (GetShortField, "GetShortTaintedField"%string, JShort); (GetIntField, "GetIntTaintedField"%string, JInt);
   (GetLongField, "GetLongTaintedField"%string, JLong); (GetFloatField, "GetFloatTaintedField"%string, JFloat);
   (GetDoubleField, "GetDoubleTaintedField"%string, JDouble)].
Definition set_field_calls : list ((Z -> Z -> Z -> M (session E) unit) * string * jtype) :=
  [(SetObjectField, "SetObjectTaintedField"%string, JObject); (SetBooleanField, "SetBooleanTaintedField"%string, JBoolean); (SetByteField, "SetByteTaintedField"%string, JByte);
   (SetCharField, "SetCharTaintedField"%string, JChar); (SetShortField, "SetShortTaintedField"%string, JShort); (SetIntField, "SetIntTaintedField"%string, JInt);
   (SetLongField, "SetLongTaintedField"%string, JLong); (SetFloatField, "SetFloatTaintedField"%string, JFloat); (SetDoubleField, "SetDoubleTaintedField"%string, JDouble)].
Definition region_calls : list ((Z -> Z -> Z -> M (session E) (list Z)) * string * jtype) :=
  [(GetBooleanArrayRegion, "GetTaintedBooleanArrayRegion"%string, JBoolean);
   (GetByteArrayRegion, "GetTaintedByteArrayRegion"%string, JByte); (GetCharArrayRegion, "GetTaintedCharArrayRegion"%string, JChar);
   (GetShortArrayRegion, "GetTaintedShortArrayRegion"%string, JShort); (GetIntArrayRegion, "GetTaintedIntArrayRegion"%string, JInt);
   (GetLongArrayRegion, "GetTaintedLongArrayRegion"%string, JLong);
   (GetFloatArrayRegion, "GetTaintedFloatArrayRegion"%string, JFloat);
   (GetDoubleArrayRegion, "GetTaintedDoubleArrayRegion"%string, JDouble)].

Definition jvalue_call (c : (Z -> Z -> list Z -> M (session E) Z) * string * jtype) : Prop :=
  forall s jobj methodID sig k args, word jobj -> word methodID -> knows s methodID sig k -> 0 <= k < 2 ^ 26 ->
  8 * k <= Z.of_nat (length args) ->
  method_result (c.1.1 jobj methodID args) c.1.2 c.2 jobj methodID (take (Z.to_nat (8 * k)) args) s.
Definition va_call (c : (Z -> Z -> list va -> M (session E) Z) * string * jtype) : Prop :=
  forall s jobj methodID sig args, word jobj -> word methodID -> args_of sig args -> Z.of_nat (length args) < 2 ^ 26 ->
  getSignatureForMethod methodID (sigList (s_native s)) = Some (40 :: sig) ->
  method_result (c.1.1 jobj methodID args) c.1.2 c.2 jobj methodID (vas_bytes args) s.

Lemma num_params_known methodID l sig args :
  getSignatureForMethod methodID l = Some (40 :: sig) -> args_of sig args -> Z.of_nat (length args) < 2 ^ 31 ->
  getNumParams methodID l = Some (Z.of_nat (length args)).
Proof.
  unfold getSignatureForMethod, getNumParams. intros Es Ha Hl. destruct (find_node _ _ _) as [n|]; [|done]. injection Es as ->.
  exact (count_args sig args 0 Ha ltac:(lia) Hl).
Qed.
Lemma jvalue_called function (c : (Z -> Z -> list Z -> M (session E) Z) * string * jtype) :
  c.1.1 = (fun jobj methodID args => call_virtual jobj methodID (from_jvalues args) function c.2) ->
  dispatch function = call_method c.1.2 c.2 -> jvalue_call c.
Proof.
  intros Ec Ef s jobj methodID sig k args Hj Hm Hs Hk Ha. rewrite Ec.
  apply (call_virtual_result function _ _ _ _ _ _ sig k); [done..|]. apply jvalues_give; lia.
Qed.
Lemma va_called function (c : (Z -> Z -> list va -> M (session E) Z) * string * jtype) :
  c.1.1 = (fun jobj methodID args => call_virtual jobj methodID (from_va args) function c.2) ->
  dispatch function = call_method c.1.2 c.2 -> va_call c.
Proof.
  intros Ec Ef s jobj methodID sig args Hj Hm Ha Hl Es. rewrite Ec.
  apply (call_virtual_result function _ _ _ _ _ _ (Some (40 :: sig)) (Z.of_nat (length args))); [done..| |lia|by apply va_give].
  split; [|done]. apply (num_params_known _ _ sig args Es Ha). lia.
Qed.

Ltac call_row lemma function := apply Forall_cons; split; [apply (lemma function); reflexivity|].
Ltac call_rows lemma codes :=
  lazymatch codes with
  | [] => by apply Forall_nil_2
  | ?function :: ?codes => call_row lemma function; call_rows lemma codes
  end.

(** C38: what the calls with taint give. The object, the method and its parameters reach
    the virtual machine, from an array of values and from a list of arguments alike, with
    an object taint that is the word found behind the request: without one the call
    fails. The result arrives for objects and 32-bit integers; that of a float passes
    through an [int], the upper half of a long and a double is replaced by the taint, and
    a boolean, byte, char or short result overruns its block. The value of a field arrives
    unless it is a float, which passes through an [int], or smaller than a word, when the
    block is overrun, and unless nothing lies behind the answer, where its taint is looked
    for. A value that is written is stored as it was, a float or double through an integer
    ([stored]), with the word behind the request as its taint, and without one the call
    fails. The elements of a region that are whole words, or less than one, arrive as the
    virtual machine wrote them, for all eight types. *)
Theorem jni_tainted_results :
  Forall jvalue_call jvalue_calls /\ Forall va_call va_calls /\ Forall field_read field_calls /\
  Forall field_write set_field_calls /\ Forall region_served region_calls.
Proof.
  split_and!.
  - call_rows jvalue_called [33; 26; 71; 72; 84; 29; 73; 62; 74].
  - call_rows va_called [33; 33; 71; 71; 72; 72; 84; 84; 73; 73; 62; 62; 74; 74; 25].
  - call_rows field_reads [44; 45; 46; 47; 48; 30; 17; 49; 50].
  - call_rows field_writes [43; 42; 41; 40; 39; 35; 36; 38; 37].
  - call_rows get_region_served [155; 54; 156; 157; 158; 159; 160; 100].
Qed.
End taint.

(** ** On a machine that records its calls *)

Definition vm_after {A} (r : outcome (session (list request)) A) : option (A * list request) :=
  match r with Done a s => Some (a, vm_of s) | _ => None end.

Example int_method_arrives :
  vm_after (@CallIntMethodA _ (recording (Some 0)) 3 64 [] fresh_session) = Some (7, [Req "CallIntTaintedMethodA" [3; 0; 64] [[]; []]]).
Proof. by vm_compute. Qed.
Example int_method_without_taint : @CallIntMethodA _ (recording None) 3 64 [] fresh_session = Stuck.
Proof. by vm_compute. Qed.
Example long_method_loses_half :
  vm_after (@CallLongMethod _ (recording (Some 0)) 3 65 [Va8 (2 ^ 40)] fresh_session) =
    Some (7 + 2 ^ 32 * 5, [Req "CallLongTaintedMethodA" [3; 0; 65] [le_bytes 8 (2 ^ 40); []]]).
Proof. by vm_compute. Qed.
Example boolean_method_overruns : @CallBooleanMethodA _ (recording (Some 0)) 3 64 [] fresh_session = Stuck.
Proof. by vm_compute. Qed.
(** A call of a static method that returns a [double] is one of a [float]. *)
Example static_double_is_float :
  vm_after (@CallStaticDoubleMethodA _ (recording (Some 0)) 3 64 [] fresh_session) = None /\
  dispatch (E := list request) (H := recording None) 91 = call_static_method (H := recording None) "CallStaticFloatTaintedMethodA" JFloat.
Proof. split; [by vm_compute|reflexivity]. Qed.
(** The class of a static field is the value that is to be stored. *)
Example static_class_is_the_value :
  vm_after (@SetStaticIntField _ (recording (Some 0)) 3 64 1000 fresh_session) = Some (tt, [Req "SetStaticIntTaintedField" [1000; 64; 1000; 0] []]).
Proof. by vm_compute. Qed.
(** An object is stored as a boolean, in the field of another number. *)
Example static_object_is_boolean :
  vm_after (@SetStaticObjectField _ (recording (Some 0)) 3 64 1000 fresh_session) =
    Some (tt, [Req "SetStaticBooleanTaintedField" [1000; 64 * 2 ^ 24; 232; 0] []]).
Proof. by vm_compute. Qed.
(** The elements of an array of seven: what [malloc] left, and what is behind the block. *)
Example elements_are_not_copied :
  vm_after (@GetIntArrayElements _ (recording (Some 0)) 3 fresh_session) =
    Some (replicate 20 165 ++ replicate 8 0, [Req "GetTaintedIntArrayElements" [3] []; Req "GetArrayLength" [3] []]).
Proof. by vm_compute. Qed.
