(* ===== verification/Playwav.v ===== *)
(** * Playing and recording (sound/playwav.c)

    The kernel is a part of the state: the file, the two devices with what the one will
    deliver and what the other was given, the keys that are pressed, and a list of
    results for the calls that can fail (none left: the call succeeds). The driver may
    change a configuration it is given. A structure in memory is its bytes, little-endian.
    Messages are left out. *)

From Stdlib Require Import String.
From S2P Require Import Prelude Bytes Scanf Su.

(** ** Data *)

(** [codec_type] and the unused members are kept as they are. *)
Record msm_audio_config := mk_config {
  buffer_size : Z;
  buffer_count : Z;
  channel_count : Z;
  sample_rate : Z;
  config_rest : list Z
}.

Record wav_header := mk_header {
  riff_id : Z; riff_sz : Z; riff_fmt : Z;
  fmt_id : Z; fmt_sz : Z; audio_format : Z; num_channels : Z;
  h_sample_rate : Z; byte_rate : Z; block_align : Z; bits_per_sample : Z;
  data_id : Z; data_sz : Z
}.
Definition ID_RIFF : Z := 0x46464952.
Definition ID_WAVE : Z := 0x45564157.
Definition ID_FMT : Z := 0x20746d66.
Definition ID_DATA : Z := 0x61746164.
Definition FORMAT_PCM : Z := 1.

Definition header_bytes (h : wav_header) : list Z :=
  le_bytes 4 (riff_id h) ++ le_bytes 4 (riff_sz h) ++ le_bytes 4 (riff_fmt h) ++
  le_bytes 4 (fmt_id h) ++ le_bytes 4 (fmt_sz h) ++ le_bytes 2 (audio_format h) ++ le_bytes 2 (num_channels h) ++
  le_bytes 4 (h_sample_rate h) ++ le_bytes 4 (byte_rate h) ++ le_bytes 2 (block_align h) ++ le_bytes 2 (bits_per_sample h) ++
  le_bytes 4 (data_id h) ++ le_bytes 4 (data_sz h).
(** The members at their offsets. *)
Definition header_at (bs : list Z) : wav_header :=
  let word i := le_value (take 4 (drop i bs)) in
  let half i := le_value (take 2 (drop i bs)) in
  mk_header (word 0%nat) (word 4%nat) (word 8%nat) (word 12%nat) (word 16%nat) (half 20%nat) (half 22%nat)
    (word 24%nat) (word 28%nat) (half 32%nat) (half 34%nat) (word 36%nat) (word 40%nat).
Definition header_size : Z := 44.

Record audio := mk_audio {
  answers : list Z;              (* the results of the next calls that can fail *)
  opened : Z;                    (* the open descriptors *)
  file : option (list Z);
  pos : Z;
  keys : list (option Z);        (* what the reads of the standard input give *)
  input : list (list Z);         (* what the reads of the recording device give *)
  cfg_in : msm_audio_config;
  cfg_out : msm_audio_config;
  played : list (list Z);        (* what the playing device took *)
  next : list Z;                 (* the globals of the file *)
  avail : Z
}.

Section playwav.
Context (driver : msm_audio_config -> msm_audio_config).

(** ** Calls of the kernel *)

Definition set_answers (l : list Z) (s : audio) : audio :=
  mk_audio l (opened s) (file s) (pos s) (keys s) (input s) (cfg_in s) (cfg_out s) (played s) (next s) (avail s).
Definition set_opened (n : Z) (s : audio) : audio :=
  mk_audio (answers s) n (file s) (pos s) (keys s) (input s) (cfg_in s) (cfg_out s) (played s) (next s) (avail s).
Definition set_file (f : option (list Z)) (p : Z) (s : audio) : audio :=
  mk_audio (answers s) (opened s) f p (keys s) (input s) (cfg_in s) (cfg_out s) (played s) (next s) (avail s).
Definition set_keys (l : list (option Z)) (s : audio) : audio :=
  mk_audio (answers s) (opened s) (file s) (pos s) l (input s) (cfg_in s) (cfg_out s) (played s) (next s) (avail s).
Definition set_input (l : list (list Z)) (s : audio) : audio :=
  mk_audio (answers s) (opened s) (file s) (pos s) (keys s) l (cfg_in s) (cfg_out s) (played s) (next s) (avail s).
Definition set_cfg_in (c : msm_audio_config) (s : audio) : audio :=
  mk_audio (answers s) (opened s) (file s) (pos s) (keys s) (input s) c (cfg_out s) (played s) (next s) (avail s).
Definition set_cfg_out (c : msm_audio_config) (s : audio) : audio :=
  mk_audio (answers s) (opened s) (file s) (pos s) (keys s) (input s) (cfg_in s) c (played s) (next s) (avail s).
Definition set_played (l : list (list Z)) (s : audio) : audio :=
  mk_audio (answers s) (opened s) (file s) (pos s) (keys s) (input s) (cfg_in s) (cfg_out s) l (next s) (avail s).
Definition set_next (l : list Z) (n : Z) (s : audio) : audio :=
  mk_audio (answers s) (opened s) (file s) (pos s) (keys s) (input s) (cfg_in s) (cfg_out s) (played s) l n.

Definition answer (d : Z) : M audio Z := fun s =>
  match answers s with [] => Done d s | r :: l => Done r (set_answers l s) end.
(** [open]: whether there is a descriptor. *)
Definition open_fd : M audio bool :=
  do r <- answer 3;
  if r <? 0 then mret' false else modify (fun s => set_opened (opened s + 1) s);;; mret' true.
Definition close_fd : M audio unit := modify (fun s => set_opened (opened s - 1) s).
(** [O_RDONLY], and [O_CREAT | O_RDWR]: what a file holds is kept. *)
Definition open_old : M audio bool :=
  do s <- get;
  match file s with
  | None => mret' false
  | Some f => do ok <- open_fd; if ok : bool then modify (fun s => set_file (Some f) 0 s);;; mret' true else mret' false
  end.
Definition open_new : M audio bool :=
  do ok <- open_fd;
  if ok : bool then modify (fun s => set_file (Some (default [] (file s))) 0 s);;; mret' true else mret' false.
(** [read]: the bytes; [None] is -1. A count that is no [ssize_t] is refused. *)
Definition read_file (n : Z) : M audio (option (list Z)) :=
  if 2 ^ 31 <=? n then mret' None
  else
    do s <- get;
    do r <- answer n;
    let f := default [] (file s) in
    if r <? 0 then mret' None
    else
      let bs := take (Z.to_nat (Z.min r n)) (drop (Z.to_nat (pos s)) f) in
      modify (fun s => set_file (file s) (pos s + Z.of_nat (length bs)) s);;;
      mret' (Some bs).
(** [write]: how much was taken; the file grows at its end. *)
Definition taken (r : Z) (bs : list Z) : list Z := take (Z.to_nat (Z.min r (Z.of_nat (length bs)))) bs.
Definition write_file (bs : list Z) : M audio Z :=
  do r <- answer (Z.of_nat (length bs));
  if r <? 0 then mret' (-1)
  else
    let bs := taken r bs in
    modify (fun s =>
      let f := default [] (file s) in
      set_file (Some (take (Z.to_nat (pos s)) f ++ bs ++ drop (Z.to_nat (pos s) + length bs) f)) (pos s + Z.of_nat (length bs)) s);;;
    mret' (Z.of_nat (length bs)).
Definition write_out (bs : list Z) : M audio Z :=
  do r <- answer (Z.of_nat (length bs));
  if r <? 0 then mret' (-1)
  else let bs := taken r bs in modify (fun s => set_played (played s ++ [bs]) s);;; mret' (Z.of_nat (length bs)).
(** A read of the recording device. *)
Definition read_in (n : Z) : M audio (option (list Z)) := fun s =>
  match input s with
  | [] => Done None s
  | bs :: l => Done (Some (take (Z.to_nat n) bs)) (set_input l s)
  end.
(** [ioctl], as far as the result goes. *)
Definition ioctl_fails : M audio bool := do r <- answer 0; mret' (negb (r =? 0)).

(** ** Playing *)

Definition BUF_SIZE : Z := 8192.

(** [fill_buffer]: the buffer, or -1. *)
Definition fill_buffer (sz : Z) : M audio (option (list Z)) :=
  do s <- get;
  if avail s <? sz then mret' None
  else
    modify (fun s => set_next (drop (Z.to_nat sz) (next s)) (u32 (avail s - sz)) s);;;
    mret' (Some (take (Z.to_nat sz) (next s))).
(** One turn of the two loops of [pcm_play]: whether they go on. *)
Definition play_buffer (sz : Z) : M audio bool :=
  do buf <- fill_buffer sz;
  match buf with
  | None => mret' false
  | Some buf => do r <- write_out buf; mret' (u32 r =? sz)
  end.
Fixpoint prefill (sz : Z) (n : nat) : M audio unit :=
  match n with
  | O => mret' tt
  | S n => do more <- play_buffer sz; if more : bool then prefill sz n else mret' tt
  end.
Fixpoint play_loop (fuel : nat) (sz : Z) : M audio unit :=
  match fuel with
  | O => fun _ => NoFuel
  | S fuel => do more <- play_buffer sz; if more : bool then play_loop fuel sz else mret' tt
  end.

Definition with_format (channels rate : Z) (c : msm_audio_config) : msm_audio_config :=
  mk_config (buffer_size c) (buffer_count c) channels rate (config_rest c).
(** [int pcm_play()]; the descriptor stays open on the errors after the first. *)
Definition pcm_play (fuel : nat) (rate channels : Z) : M audio Z :=
  do ok <- open_fd;
  if negb ok then mret' (-1)
  else
    do failed <- ioctl_fails;
    if failed : bool then mret' (-1)
    else
      do s <- get;
      let config := with_format channels rate (cfg_out s) in
      do failed <- ioctl_fails;
      if failed : bool then mret' (-1)
      else
        modify (set_cfg_out (driver config));;;
        let sz := buffer_size config in
        if BUF_SIZE <? sz then mret' (-1)
        else
          prefill sz (Z.to_nat (buffer_count config));;;
          do _ <- ioctl_fails;
          play_loop fuel sz;;;
          close_fd;;;
          mret' 0.

(** [void play_file()]: blocks of 2 GiB are not to be had. *)
Definition play_file (fuel : nat) (rate channels count : Z) : M audio unit :=
  do block <- answer 1;
  if (block =? 0) || (2 ^ 31 <=? count) then mret' tt
  else
    do bs <- read_file count;
    match bs with
    | None => mret' tt
    | Some bs =>
        if negb (Z.of_nat (length bs) =? count) then mret' tt
        else modify (set_next bs count);;; do _ <- pcm_play fuel rate channels; mret' tt
    end.

Definition bad_header (h : wav_header) : bool :=
  negb (riff_id h =? ID_RIFF) || negb (riff_fmt h =? ID_WAVE) || negb (fmt_id h =? ID_FMT) ||
  (negb (audio_format h =? FORMAT_PCM) || negb (fmt_sz h =? 16)) || negb (bits_per_sample h =? 16).
(** [int wav_play()]; the file stays open. *)
Definition wav_play (fuel : nat) : M audio Z :=
  do ok <- open_old;
  if negb ok then mret' (-1)
  else
    do bs <- read_file header_size;
    match bs with
    | None => mret' (-1)
    | Some bs =>
        if negb (Z.of_nat (length bs) =? header_size) then mret' (-1)
        else
          let hdr := header_at bs in
          if bad_header hdr then mret' (-1)
          else
            play_file fuel (h_sample_rate hdr) (num_channels hdr) (data_sz hdr);;;
            mret' 0
    end.

(** [int mp3_play()]: pieces of 64 KiB until there are no more. *)
Fixpoint mp3_loop (fuel : nat) : M audio unit :=
  match fuel with
  | O => fun _ => NoFuel
  | S fuel =>
      do buf <- read_file (64 * 1024);
      match buf with
      | None | Some [] => mret' tt
      | Some buf => do r <- write_out buf; if r <? 0 then mret' tt else mp3_loop fuel
      end
  end.
Definition mp3_play (fuel : nat) : M audio Z :=
  do ok <- open_old;
  if negb ok then mret' (-1)
  else
    do ok <- open_fd;
    if negb ok then close_fd;;; mret' (-1)
    else
      do _ <- ioctl_fails;
      mp3_loop fuel;;;
      close_fd;;;
      close_fd;;;
      mret' 0.

(** ** Recording *)

(** The keys until the standard input has none; whether the recording is to stop. *)
Fixpoint pressed (l : list (option Z)) : bool * list (option Z) :=
  match l with
  | [] => (false, [])
  | None :: l => (false, l)
  | Some tmp :: l => if (tmp =? 13) || (tmp =? 10) then (true, l) else pressed l
  end.
(** The loop: [None] is the jump to [fail]. *)
Fixpoint rec_loop (fuel : nat) (sz total : Z) : M audio (option Z) :=
  match fuel with
  | O => fun _ => NoFuel
  | S fuel =>
      do s <- get;
      modify (set_keys (pressed (keys s)).2);;;
      if (pressed (keys s)).1 then mret' (Some total)
      else
        do buf <- read_in sz;
        match buf with
        | None => mret' None
        | Some buf =>
            if negb (Z.of_nat (length buf) =? sz) then mret' None
            else
              do r <- write_file buf;
              if negb (u32 r =? sz) then mret' None else rec_loop fuel sz (u32 (total + sz))
        end
  end.
(** From the first [ioctl] to the end of the loop; a turn takes one of [input]. *)
Definition record_data (hdr : wav_header) : M audio (option Z) :=
  do failed <- ioctl_fails;
  if failed : bool then mret' None
  else
    do s <- get;
    let cfg := with_format (num_channels hdr) (h_sample_rate hdr) (cfg_in s) in
    do failed <- ioctl_fails;
    if failed : bool then mret' None
    else
      modify (set_cfg_in (driver cfg));;;
      do failed <- ioctl_fails;
      if failed : bool then mret' None
      else
        let sz := buffer_size (driver cfg) in
        if BUF_SIZE <? sz then mret' None
        else
          do failed <- ioctl_fails;
          if failed : bool then mret' None
          else do s <- get; rec_loop (S (length (input s))) sz 0.

Definition header_for (channels rate riff data : Z) : wav_header :=
  mk_header ID_RIFF riff ID_WAVE ID_FMT 16 FORMAT_PCM (u16 channels) (u32 rate)
    (u32 (u32 rate * u16 channels * 2)) (u16 (u16 channels * 2)) 16 ID_DATA data.
(** [int wav_rec()]. *)
Definition wav_rec (channels rate : Z) : M audio Z :=
  let hdr := header_for channels rate 0 0 in
  do ok <- open_new;
  if negb ok then mret' (-1)
  else
    do _ <- write_file (header_bytes hdr);
    do ok <- open_fd;
    if negb ok then close_fd;;; mret' (-1)
    else
      do r <- record_data hdr;
      match r with
      | Some total =>
          close_fd;;;
          modify (fun s => set_file (file s) 0 s);;;
          do _ <- write_file (header_bytes (header_for channels rate (u32 (total + 8 + 16 + 8)) total));
          close_fd;;;
          mret' 0
      | None =>
          close_fd;;;
          close_fd;;;
          modify (fun s => set_file None (pos s) s);;;
          mret' (-1)
      end.

(** ** The command *)

Inductive command := Play (fn : list Z) | Record_wav (fn : list Z) (channels rate : Z) | Misused.
Fixpoint parse_loop (argv : list (list Z)) (fn : option (list Z)) (play : bool) (channels rate : Z) : option (option (list Z) * bool * Z * Z) :=
  match argv with
  | [] => Some (fn, play, channels, rate)
  | arg :: argv =>
      if bool_decide (arg = str "-rec"%string) then parse_loop argv fn false channels rate
      else if bool_decide (arg = str "-play"%string) then parse_loop argv fn true channels rate
      else if bool_decide (arg = str "-stereo"%string) then parse_loop argv fn play 2 rate
      else if bool_decide (arg = str "-mono"%string) then parse_loop argv fn play 1 rate
      else if bool_decide (arg = str "-rate"%string) then
        match argv with
        | [] => None
        | arg :: argv => parse_loop argv fn play channels (u32 (atoi arg))
        end
      else parse_loop argv (Some arg) play channels rate
  end.
Definition parse_args (argv : list (list Z)) : command :=
  match parse_loop argv None true 1 44100 with
  | None => Misused
  | Some (fn, play, channels, rate) =>
      let fn := default (if play then str "/data/out.wav"%string else str "/data/rec.wav"%string) fn in
      if play then Play fn else Record_wav fn channels rate
  end.
(** The rest of a string from its last dot on. *)
Fixpoint strrchr (c : Z) (s : list Z) : option (list Z) :=
  match s with
  | [] => None
  | b :: t => match strrchr c t with Some r => Some r | None => if b =? c then Some s else None end
  end.
Definition playwav_main (fuel : nat) (argv : list (list Z)) : M audio Z :=
  match parse_args argv with
  | Misused => mret' (-1)
  | Play fn => if bool_decide (strrchr 46 fn = Some (str ".mp3"%string)) then mp3_play fuel else wav_play fuel
  | Record_wav _ channels rate => wav_rec channels rate
  end.
End playwav.
