(* ===== verification/PlaywavProps.v ===== *)
(** * What is recorded can be played (properties of Playwav)

    A recording is the header and the samples, and the player takes it apart again. *)

From Stdlib Require Import String.
From S2P Require Import Prelude Bytes Scanf Su Playwav.

Section props.
Context (driver : msm_audio_config -> msm_audio_config).

(** ** The header *)

Definition header_mod (h : wav_header) : wav_header :=
  mk_header (u32 (riff_id h)) (u32 (riff_sz h)) (u32 (riff_fmt h)) (u32 (fmt_id h)) (u32 (fmt_sz h))
    (u16 (audio_format h)) (u16 (num_channels h)) (u32 (h_sample_rate h)) (u32 (byte_rate h))
    (u16 (block_align h)) (u16 (bits_per_sample h)) (u32 (data_id h)) (u32 (data_sz h)).
Lemma header_read h : header_at (header_bytes h) = header_mod h.
Proof.
  unfold header_mod, u32, u16. change (2 ^ 32) with (256 ^ Z.of_nat 4). change (2 ^ 16) with (256 ^ Z.of_nat 2).
  rewrite <-!le_value_bytes. reflexivity.
Qed.
Lemma length_header h : length (header_bytes h) = 44%nat.
Proof. reflexivity. Qed.
Lemma u32_u32 z : u32 (u32 z) = u32 z.
Proof. apply Zmod_mod. Qed.
Lemma recorded_header channels rate riff total :
  0 <= total < 2 ^ 32 ->
  let h := header_at (header_bytes (header_for channels rate riff total)) in
  bad_header h = false /\ num_channels h = u16 channels /\ h_sample_rate h = u32 rate /\ data_sz h = total.
Proof.
  intros Ht h. unfold h. rewrite header_read. split; [reflexivity|]. cbn. unfold u16. rewrite !Zmod_mod, u32_u32. by rewrite (u32_small total).
Qed.

(** ** Writing the file *)

Lemma write_file_done bs s pre rest :
  answers s = [] -> file s = Some (pre ++ rest) -> pos s = Z.of_nat (length pre) ->
  write_file bs s = Done (Z.of_nat (length bs)) (set_file (Some (pre ++ bs ++ drop (length bs) rest)) (pos s + Z.of_nat (length bs)) s).
Proof.
  intros Ea Ef Ep. unfold write_file.
  assert (E1 : answer (Z.of_nat (length bs)) s = Done (Z.of_nat (length bs)) s) by (unfold answer; by rewrite Ea).
  rewrite (mbind_done _ _ _ _ _ E1). rewrite (proj2 (Z.ltb_ge _ _)) by lia. unfold taken. rewrite Z.min_id, Nat2Z.id, take_ge by done.
  erewrite mbind_done by done. unfold mret'. f_equal. cbv beta. rewrite Ef. unfold default, id. rewrite Ep, Nat2Z.id.
  by rewrite take_app_length, <-drop_drop, drop_app_length.
Qed.

Lemma answer_cases d s : exists r, answer d s = Done r (match answers s with [] => s | _ :: l => set_answers l s end) /\ (answers s = [] -> r = d).
Proof. unfold answer. destruct (answers s); [by exists d|]. by eexists. Qed.
Lemma write_file_returns bs s : exists r s1, write_file bs s = Done r s1 /\ opened s1 = opened s /\ input s1 = input s.
Proof.
  unfold write_file. destruct (answer_cases (Z.of_nat (length bs)) s) as (r & E & _). rewrite (mbind_done _ _ _ _ _ E).
  destruct (r <? 0); eexists _, _; (split; [reflexivity|]); by destruct (answers s).
Qed.

(** ** Recording *)

(** What a read of [sz] bytes gives of each of the blocks. *)
Definition delivered (sz : Z) (l : list (list Z)) : list Z := mjoin (take (Z.to_nat sz) <$> l).

Lemma delivered_cons sz bs l : delivered sz (bs :: l) = take (Z.to_nat sz) bs ++ delivered sz l.
Proof. done. Qed.

Lemma delivered_length sz k l : (length (delivered sz (take k l)) <= length (mjoin l))%nat.
Proof.
  revert k. induction l as [|bs l IH]; intros [|k]; cbn [take]; try (cbn; lia).
  rewrite delivered_cons. change (mjoin (bs :: l)) with (bs ++ mjoin l). rewrite !length_app, length_take. specialize (IH k). lia.
Qed.

Lemma rec_loop_done fuel sz total s pre rest total' s1 :
  0 <= sz <= BUF_SIZE -> 0 <= total < 2 ^ 32 -> answers s = [] -> file s = Some (pre ++ rest) -> pos s = Z.of_nat (length pre) ->
  rec_loop fuel sz total s = Done (Some total') s1 ->
  exists k, let data := delivered sz (take k (input s)) in
    total' = u32 (total + Z.of_nat (length data)) /\
    s1 = mk_audio [] (opened s) (Some (pre ++ data ++ drop (length data) rest)) (pos s + Z.of_nat (length data)) (keys s1)
           (drop k (input s)) (cfg_in s) (cfg_out s) (played s) (next s) (avail s).
Proof.
  intros Hsz. revert total s pre rest. induction fuel as [|fuel IH]; intros total s pre rest Ht Ea Ef Ep; [done|].
  cbn [rec_loop]. set (s' := set_keys (pressed (keys s)).2 s).
  rewrite (mbind_done get _ s s s eq_refl). rewrite (mbind_done (modify (set_keys _)) _ s tt s' eq_refl).
  destruct (pressed (keys s)).1.
  { intros [= <- <-]. exists 0%nat. cbn. rewrite Z.add_0_r, u32_small by done. split; [done|].
    destruct s; cbn in *; subst. by rewrite drop_0, Z.add_0_r. }
  destruct (input s) as [|bs l] eqn:Ei.
  { assert (Er : read_in sz s' = Done None s') by (unfold read_in; cbn; by rewrite Ei). by rewrite (mbind_done _ _ _ _ _ Er). }
  assert (Er : read_in sz s' = Done (Some (take (Z.to_nat sz) bs)) (set_input l s')) by (unfold read_in; cbn; by rewrite Ei).
  rewrite (mbind_done _ _ _ _ _ Er). clear Er. set (buf := take (Z.to_nat sz) bs).
  destruct (Z.eqb_spec (Z.of_nat (length buf)) sz) as [Hb|]; [|done]. cbn [negb].
  pose proof (write_file_done buf (set_input l s') pre rest Ea Ef Ep) as W. rewrite (mbind_done _ _ _ _ _ W). clear W.
  unfold BUF_SIZE in Hsz. rewrite (u32_small (Z.of_nat (length buf))), (proj2 (Z.eqb_eq _ _) Hb) by lia. cbn [negb]. intros E.
  set (s2 := set_file _ _ _) in E.
  destruct (IH (u32 (total + sz)) s2 (pre ++ buf) (drop (length buf) rest) (u32_range _) Ea (f_equal Some (app_assoc _ _ _)) ltac:(rewrite length_app, Nat2Z.inj_add, <-Ep; reflexivity) E)
    as (k & Et & Es).
  change (input s2) with l in Et, Es. exists (S k). cbn [take drop]. rewrite delivered_cons. fold buf. cbv zeta. rewrite length_app. split.
  - rewrite Et. unfold u32. rewrite Zplus_mod_idemp_l. f_equal. lia.
  - rewrite Es at 1. cbn [opened keys cfg_in cfg_out played next avail s2 set_file set_input s' set_keys pos]. f_equal.
    + f_equal. by rewrite <-!app_assoc, drop_drop.
    + lia.
Qed.

(** The loop ends, and leaves the descriptors alone. *)
Lemma rec_loop_returns fuel sz total s :
  (length (input s) < fuel)%nat -> exists r s1, rec_loop fuel sz total s = Done r s1 /\ opened s1 = opened s.
Proof.
  revert total s. induction fuel as [|fuel IH]; intros total s Hf; [lia|]. cbn [rec_loop].
  set (s' := set_keys (pressed (keys s)).2 s).
  rewrite (mbind_done get _ s s s eq_refl). rewrite (mbind_done (modify (set_keys _)) _ s tt s' eq_refl).
  destruct (pressed (keys s)).1; [by eexists _, _|].
  destruct (input s) as [|bs l] eqn:Ei.
  { assert (Er : read_in sz s' = Done None s') by (unfold read_in; cbn; by rewrite Ei). rewrite (mbind_done _ _ _ _ _ Er). by eexists _, _. }
  assert (Er : read_in sz s' = Done (Some (take (Z.to_nat sz) bs)) (set_input l s')) by (unfold read_in; cbn; by rewrite Ei).
  rewrite (mbind_done _ _ _ _ _ Er). destruct (negb _); [by eexists _, _|].
  destruct (write_file_returns (take (Z.to_nat sz) bs) (set_input l s')) as (r & s2 & E2 & Eo & El). rewrite (mbind_done _ _ _ _ _ E2).
  destruct (negb _); [by eexists _, _|]. destruct (IH (u32 (total + sz)) s2) as (r' & s3 & E3 & E4).
  - rewrite El. cbn in *. lia.
  - exists r', s3. split; [done|]. by rewrite E4, Eo.
Qed.

(** ** Playing *)

(** The first [k] pieces of [n] bytes. *)
Fixpoint pieces (k n : nat) (l : list Z) : list (list Z) :=
  match k with
  | O => []
  | S k => take n l :: pieces k n (drop n l)
  end.
Lemma pieces_app k k' n l : pieces (k + k') n l = pieces k n l ++ pieces k' n (drop (k * n) l).
Proof. revert l. induction k as [|k IH]; intros l; [done|]. cbn [plus pieces app Nat.mul]. by rewrite IH, drop_drop. Qed.

(** After [k] buffers of [n] bytes. *)
Definition after (k n : nat) (s : audio) : audio :=
  set_next (drop (k * n) (next s)) (avail s - Z.of_nat (k * n)) (set_played (played s ++ pieces k n (next s)) s).
Lemma after_0 n s : after 0 n s = s.
Proof. unfold after. cbn. rewrite app_nil_r, drop_0, Z.sub_0_r. by destruct s. Qed.
Lemma after_after k k' n s : after k' n (after k n s) = after (k + k') n s.
Proof.
  unfold after. cbn. rewrite pieces_app, <-app_assoc, drop_drop, <-Nat.mul_add_distr_r.
  replace (avail s - Z.of_nat (k * n) - Z.of_nat (k' * n)) with (avail s - Z.of_nat ((k + k') * n)) by lia. done.
Qed.

(** The kernel refuses nothing, and the block holds what is left. *)
Definition ready (s : audio) : Prop := answers s = [] /\ avail s = Z.of_nat (length (next s)) /\ avail s < 2 ^ 32.
Lemma ready_after k n s : (k * n <= length (next s))%nat -> ready s -> ready (after k n s).
Proof. intros Hk (Ea & El & Hl). unfold ready. cbn. rewrite length_drop. split; [done|]. lia. Qed.

Lemma play_buffer_last n s : ready s -> (length (next s) < n)%nat -> play_buffer (Z.of_nat n) s = Done false s.
Proof.
  intros (Ea & El & Hl) Hn. unfold play_buffer.
  assert (Ef : fill_buffer (Z.of_nat n) s = Done None s); [|by rewrite (mbind_done _ _ _ _ _ Ef)].
  unfold fill_buffer. rewrite (mbind_done get _ s s s eq_refl), El. by rewrite (proj2 (Z.ltb_lt _ _)) by lia.
Qed.
Lemma play_buffer_more n s : ready s -> (n <= length (next s))%nat -> play_buffer (Z.of_nat n) s = Done true (after 1 n s).
Proof.
  intros (Ea & El & Hl) Hn. unfold play_buffer. set (s1 := set_next (drop n (next s)) (avail s - Z.of_nat n) s).
  assert (Ef : fill_buffer (Z.of_nat n) s = Done (Some (take n (next s))) s1).
  { unfold fill_buffer. rewrite (mbind_done get _ s s s eq_refl). rewrite (proj2 (Z.ltb_ge _ _)) by lia.
    erewrite mbind_done by done. unfold s1. rewrite Nat2Z.id, u32_small by lia. done. }
  rewrite (mbind_done _ _ _ _ _ Ef). assert (Lt : length (take n (next s)) = n) by (rewrite length_take; lia).
  assert (Ew : write_out (take n (next s)) s1 = Done (Z.of_nat n) (set_played (played s ++ [take n (next s)]) s1)).
  { unfold write_out. assert (E1 : answer (Z.of_nat (length (take n (next s)))) s1 = Done (Z.of_nat n) s1) by (unfold answer; cbn; by rewrite Ea, Lt).
    rewrite (mbind_done _ _ _ _ _ E1), (proj2 (Z.ltb_ge _ _)) by lia. unfold taken. rewrite Lt, Z.min_id, Nat2Z.id.
    rewrite (take_ge (take n (next s))) by lia. erewrite mbind_done by done. by rewrite Lt. }
  rewrite (mbind_done _ _ _ _ _ Ew). rewrite u32_small, Z.eqb_refl by lia. unfold after. rewrite Nat.mul_1_l. done.
Qed.

Lemma prefill_done n m s :
  (0 < n)%nat -> ready s -> exists k, (k * n <= length (next s))%nat /\ prefill (Z.of_nat n) m s = Done tt (after k n s).
Proof.
  intros Hn. revert s. induction m as [|m IH]; intros s Hs; cbn [prefill]; [exists 0%nat; rewrite after_0; split; [lia|done]|].
  destruct (decide (length (next s) < n)%nat) as [Hl|Hl].
  - rewrite (mbind_done _ _ _ _ _ (play_buffer_last n s Hs Hl)). exists 0%nat. rewrite after_0. split; [lia|done].
  - rewrite (mbind_done _ _ _ _ _ (play_buffer_more n s Hs ltac:(lia))).
    destruct (IH (after 1 n s)) as (k & Hk & E); [apply ready_after; [lia|done]|]. rewrite after_after in E. exists (1 + k)%nat.
    split; [|done]. unfold after in Hk. cbn in Hk. rewrite length_drop in Hk. lia.
Qed.
Lemma play_loop_done n fuel s :
  (0 < n)%nat -> ready s -> (length (next s) < fuel)%nat -> play_loop fuel (Z.of_nat n) s = Done tt (after (length (next s) / n) n s).
Proof.
  intros Hn. revert s. induction fuel as [|fuel IH]; intros s Hs Hf; [lia|]. cbn [play_loop].
  destruct (decide (length (next s) < n)%nat) as [Hl|Hl].
  - rewrite (mbind_done _ _ _ _ _ (play_buffer_last n s Hs Hl)). by rewrite Nat.div_small, after_0.
  - rewrite (mbind_done _ _ _ _ _ (play_buffer_more n s Hs ltac:(lia))).
    assert (El : length (next (after 1 n s)) = (length (next s) - n)%nat) by (unfold after; cbn; rewrite length_drop; lia).
    rewrite IH by (rewrite ?El; [apply ready_after; [lia|done]|lia] || (apply ready_after; [lia|done]) || lia).
    assert (Eq : (length (next s) / n = 1 + (length (next s) - n) / n)%nat).
    { rewrite <-(Nat.sub_add n (length (next s))) at 1 by lia. pose proof (Nat.div_add (length (next s) - n) 1 n ltac:(lia)) as D.
      rewrite Nat.mul_1_l in D. rewrite D. lia. }
    by rewrite after_after, El, Eq.
Qed.
(** A device with buffers of no bytes is played for ever. *)
Lemma empty_buffers_diverge fuel s : ready s -> play_loop fuel 0 s = NoFuel.
Proof.
  revert s. induction fuel as [|fuel IH]; intros s Hs; [done|]. cbn [play_loop].
  rewrite (mbind_done _ _ _ _ _ (play_buffer_more 0 s Hs ltac:(lia))). apply IH, ready_after; [lia|done].
Qed.

Lemma pcm_play_done fuel n rate channels s :
  ready s -> buffer_size (cfg_out s) = Z.of_nat n -> (0 < n)%nat -> Z.of_nat n <= BUF_SIZE -> (length (next s) < fuel)%nat ->
  pcm_play driver fuel rate channels s =
    Done 0 (after (length (next s) / n) n (set_cfg_out (driver (with_format channels rate (cfg_out s))) s)).
Proof.
  intros Hs Eb Hn Hb Hf. pose proof Hs as (Ea & El & Hl). unfold pcm_play.
  assert (Eo : open_fd s = Done true (set_opened (opened s + 1) s)) by (unfold open_fd, answer, mbind'; by rewrite Ea).
  rewrite (mbind_done _ _ _ _ _ Eo). cbn [negb]. set (s1 := set_opened _ s).
  assert (Ei : forall t, answers t = [] -> ioctl_fails t = Done false t) by (intros t Et; unfold ioctl_fails, answer, mbind'; by rewrite Et).
  rewrite (mbind_done _ _ _ _ _ (Ei s1 Ea)), (mbind_done get _ s1 s1 s1 eq_refl). cbv zeta.
  rewrite (mbind_done _ _ _ _ _ (Ei s1 Ea)). erewrite mbind_done by done.
  change (buffer_size (with_format channels rate (cfg_out s1))) with (buffer_size (cfg_out s)). rewrite Eb, (proj2 (Z.ltb_ge _ _)) by lia.
  set (s2 := set_cfg_out _ s1). assert (H2 : ready s2) by done.
  destruct (prefill_done n (Z.to_nat (buffer_count (with_format channels rate (cfg_out s1)))) s2 Hn H2) as (k & Hk & Ep).
  rewrite (mbind_done _ _ _ _ _ Ep). set (s3 := after k n s2) in *. assert (H3 : ready s3) by (by apply ready_after).
  rewrite (mbind_done _ _ _ _ _ (Ei s3 (proj1 H3))).
  assert (L3 : length (next s3) = (length (next s) - k * n)%nat) by (unfold s3, after; cbn; by rewrite length_drop).
  rewrite (mbind_done _ _ _ _ _ (play_loop_done n fuel s3 Hn H3 ltac:(lia))).
  assert (Eq : (k + length (next s3) / n = length (next s) / n)%nat).
  { rewrite L3. change (next s2) with (next s) in Hk. pose proof (Nat.div_add (length (next s) - k * n) k n ltac:(lia)) as D.
    rewrite Nat.sub_add in D by lia. lia. }
  set (k1 := (length (next s3) / n)%nat) in *. unfold s3. rewrite after_after, Eq. erewrite mbind_done by done. unfold mret'.
  unfold after, s2, s1, set_opened. cbn. by rewrite Z.add_simpl_r.
Qed.

(** ** Recording and playing *)

(** The file of a recording. *)
Definition recording (channels rate : Z) (samples : list Z) (rest : list Z) : list Z :=
  header_bytes (header_for channels rate (u32 (Z.of_nat (length samples) + 8 + 16 + 8)) (Z.of_nat (length samples))) ++ samples ++ rest.

Lemma done_state {S A} (a b : A) (s t : S) : mret' a s = Done b t -> s = t.
Proof. by intros [= _ ->]. Qed.
Lemma wav_rec_done channels rate s s1 :
  answers s = [] -> 0 <= buffer_size (driver (with_format (u16 channels) (u32 rate) (cfg_in s))) ->
  Z.of_nat (length (mjoin (input s))) < 2 ^ 32 -> wav_rec driver channels rate s = Done 0 s1 ->
  exists k, let samples := delivered (buffer_size (driver (with_format (u16 channels) (u32 rate) (cfg_in s)))) (take k (input s)) in
    file s1 = Some (recording channels rate samples (drop (44 + length samples) (default [] (file s)))) /\
    s1 = mk_audio [] (opened s) (file s1) 44 (keys s1) (drop k (input s))
           (driver (with_format (u16 channels) (u32 rate) (cfg_in s))) (cfg_out s) (played s) (next s) (avail s).
Proof.
  intros Ea Hb Hi. unfold wav_rec. set (hdr := header_for channels rate 0 0). set (f := default [] (file s)).
  set (c := driver (with_format (u16 channels) (u32 rate) (cfg_in s))) in *.
  set (s0 := set_file (Some f) 0 (set_opened (opened s + 1) s)).
  assert (Eo : open_new s = Done true s0) by (unfold open_new, open_fd, answer, mbind'; by rewrite Ea).
  rewrite (mbind_done _ _ _ _ _ Eo). cbn [negb].
  pose proof (write_file_done (header_bytes hdr) s0 [] f Ea eq_refl eq_refl) as W. rewrite (mbind_done _ _ _ _ _ W). clear W.
  set (sa := set_file _ _ s0).
  assert (Eo2 : open_fd sa = Done true (set_opened (opened sa + 1) sa)) by (unfold open_fd, answer, mbind'; cbn; by rewrite Ea).
  rewrite (mbind_done _ _ _ _ _ Eo2). cbn [negb]. set (sb := set_opened _ sa).
  assert (Ei : forall t, answers t = [] -> ioctl_fails t = Done false t) by (intros t Et; unfold ioctl_fails, answer, mbind'; by rewrite Et).
  set (sc := set_cfg_in c sb).
  assert (Er : record_data driver hdr sb = if BUF_SIZE <? buffer_size c then Done None sc else rec_loop (S (length (input s))) (buffer_size c) 0 sc).
  { unfold record_data. rewrite (mbind_done _ _ _ _ _ (Ei sb Ea)), (mbind_done get _ sb sb sb eq_refl). cbv zeta.
    rewrite (mbind_done _ _ _ _ _ (Ei sb Ea)). erewrite mbind_done by done. fold sc.
    change (set_cfg_in (driver (with_format (num_channels hdr) (h_sample_rate hdr) (cfg_in sb))) sb) with sc.
    rewrite (mbind_done _ _ _ _ _ (Ei sc Ea)).
    change (driver (with_format (num_channels hdr) (h_sample_rate hdr) (cfg_in sb))) with c.
    destruct (BUF_SIZE <? buffer_size c); [done|]. by rewrite (mbind_done _ _ _ _ _ (Ei sc Ea)). }
  destruct (Z.ltb_spec BUF_SIZE (buffer_size c)) as [|Hbb]; [by rewrite (mbind_done _ _ _ _ _ Er)|].
  destruct (rec_loop (S (length (input s))) (buffer_size c) 0 sc) as [r sd| | |] eqn:EL; try (unfold mbind' at 1; by rewrite Er).
  rewrite (mbind_done _ _ _ _ _ Er). destruct r as [total|]; [|done].
  destruct (rec_loop_done _ _ 0 sc (header_bytes hdr) (drop 44 f) total sd (conj Hb Hbb) ltac:(lia) Ea eq_refl eq_refl EL) as (k & Et & Es).
  set (samples := delivered _ _) in Et, Es. clear EL Er.
  intros E. exists k. cbv zeta. change (delivered (buffer_size c) (take k (input s))) with samples.
  erewrite mbind_done in E by done. erewrite mbind_done in E by done.
  set (se := set_file _ 0 _) in E.
  set (h := header_for channels rate (u32 (total + 8 + 16 + 8)) total) in E.
  pose proof (write_file_done (header_bytes h) se [] (header_bytes hdr ++ samples ++ drop (length samples) (drop 44 f))) as W.
  assert (Ef : file se = Some (header_bytes hdr ++ samples ++ drop (length samples) (drop 44 f))) by (unfold se; cbn; by rewrite Es).
  rewrite (mbind_done _ _ _ _ _ (W ltac:(unfold se; cbn; by rewrite Es) Ef eq_refl)) in E. erewrite mbind_done in E by done.
  assert (Ls : Z.of_nat (length samples) < 2 ^ 32).
  { pose proof (delivered_length (buffer_size c) k (input sc)) as L. change (input sc) with (input s) in L. unfold samples. change (input sc) with (input s). lia. }
  rewrite Z.add_0_l, u32_small in Et by lia. subst total. apply done_state in E as <-. cbn [file set_opened set_file app].
  rewrite drop_drop. change (length (header_bytes h)) with (length (header_bytes hdr)). rewrite drop_app_length. split; [done|].
  unfold se, recording. rewrite Es. unfold set_opened, set_file. cbn -[header_bytes]. f_equal. lia.
Qed.

Lemma read_file_done pre bs rest s :
  answers s = [] -> file s = Some (pre ++ bs ++ rest) -> pos s = Z.of_nat (length pre) -> Z.of_nat (length bs) < 2 ^ 31 ->
  read_file (Z.of_nat (length bs)) s = Done (Some bs) (set_file (file s) (pos s + Z.of_nat (length bs)) s).
Proof.
  intros Ea Ef Ep Hb. unfold read_file. rewrite (proj2 (Z.leb_gt _ _)) by lia. rewrite (mbind_done get _ s s s eq_refl).
  assert (E1 : answer (Z.of_nat (length bs)) s = Done (Z.of_nat (length bs)) s) by (unfold answer; by rewrite Ea).
  rewrite (mbind_done _ _ _ _ _ E1). cbv zeta. rewrite (proj2 (Z.ltb_ge _ _)) by lia.
  assert (Et : take (Z.to_nat (Z.min (Z.of_nat (length bs)) (Z.of_nat (length bs)))) (drop (Z.to_nat (pos s)) (default [] (file s))) = bs).
  { rewrite Ef. unfold default, id. by rewrite Z.min_id, Ep, !Nat2Z.id, drop_app_length, take_app_length. }
  rewrite Et. by erewrite mbind_done by done.
Qed.

Lemma wav_play_done fuel n channels rate samples rest s :
  answers s = [] -> file s = Some (recording channels rate samples rest) -> Z.of_nat (length samples) < 2 ^ 31 ->
  buffer_size (cfg_out s) = Z.of_nat n -> (0 < n)%nat -> Z.of_nat n <= BUF_SIZE -> (length samples < fuel)%nat ->
  exists s2, wav_play driver fuel s = Done 0 s2 /\
    played s2 = played s ++ pieces (length samples / n) n samples /\
    cfg_out s2 = driver (with_format (u16 channels) (u32 rate) (cfg_out s)) /\ opened s2 = opened s + 1 /\ file s2 = file s.
Proof.
  intros Ea Ef Hl Eb Hn Hb Hf. unfold wav_play.
  set (h := header_for channels rate (u32 (Z.of_nat (length samples) + 8 + 16 + 8)) (Z.of_nat (length samples))) in Ef.
  set (s0 := set_file (file s) 0 (set_opened (opened s + 1) s)).
  assert (Eo : open_old s = Done true s0).
  { unfold open_old. rewrite (mbind_done get _ s s s eq_refl), Ef. unfold open_fd, answer, mbind'. rewrite Ea. cbn. unfold s0. by rewrite Ef. }
  rewrite (mbind_done _ _ _ _ _ Eo). cbn [negb].
  pose proof (read_file_done [] (header_bytes h) (samples ++ rest) s0 Ea Ef eq_refl ltac:(rewrite length_header; lia)) as R1.
  change (Z.of_nat (length (header_bytes h))) with header_size in R1. rewrite (mbind_done _ _ _ _ _ R1). clear R1.
  set (sa := set_file _ _ s0). rewrite length_header. change (negb (Z.of_nat 44 =? header_size)) with false. cbv iota.
  destruct (recorded_header channels rate (u32 (Z.of_nat (length samples) + 8 + 16 + 8)) (Z.of_nat (length samples)) ltac:(lia)) as (B & Ec & Er & Ed).
  fold h in B, Ec, Er, Ed. cbv zeta. rewrite B, Ec, Er, Ed. unfold play_file.
  assert (E1 : answer 1 sa = Done 1 sa) by (unfold answer; cbn -[header_bytes]; by rewrite Ea).
  set (sb := set_next samples (Z.of_nat (length samples)) (set_file (file sa) (pos sa + Z.of_nat (length samples)) sa)).
  assert (Hsb : ready sb) by (split; [done|]; split; [done|]; change (avail sb) with (Z.of_nat (length samples)); lia).
  assert (Ep : (do block <- answer 1;
    if (block =? 0) || (2 ^ 31 <=? Z.of_nat (length samples)) then mret' tt
    else do bs <- read_file (Z.of_nat (length samples));
      match bs with
      | None => mret' tt
      | Some bs => if negb (Z.of_nat (length bs) =? Z.of_nat (length samples)) then mret' tt
          else modify (set_next bs (Z.of_nat (length samples)));;; do _ <- pcm_play driver fuel (u32 rate) (u16 channels); mret' tt
      end) sa = Done tt (after (length samples / n) n (set_cfg_out (driver (with_format (u16 channels) (u32 rate) (cfg_out s))) sb))).
  { rewrite (mbind_done _ _ _ _ _ E1). rewrite (proj2 (Z.leb_gt _ _)) by lia. cbn [orb Z.eqb].
    rewrite (mbind_done _ _ _ _ _ (read_file_done (header_bytes h) samples rest sa Ea Ef eq_refl Hl)). rewrite Z.eqb_refl. cbn [negb].
    erewrite mbind_done by done.
    by rewrite (mbind_done _ _ _ _ _ (pcm_play_done fuel n (u32 rate) (u16 channels) sb Hsb Eb Hn Hb Hf)). }
  rewrite (mbind_done _ _ _ _ _ Ep). by eexists.
Qed.

(** C35: what is recorded can be played. When a recording returns 0 on a kernel that
    refuses nothing, the file begins with a header for the channels and the rate and with
    the samples, which are what the device delivered, block by block, up to the key; what
    the file held beyond is still there. Playing that file sets the device to the same
    channels and rate and writes the samples to it in order, in whole buffers; a rest that
    fills no buffer is left out. Both run to their end. *)
Theorem recording_plays_back (fuel n : nat) (channels rate : Z) (s s1 : audio)
  (Ha : answers s = []) (Hi : Z.of_nat (length (mjoin (input s))) < 2 ^ 31)
  (Hc : 0 <= buffer_size (driver (with_format (u16 channels) (u32 rate) (cfg_in s))))
  (Hn : buffer_size (cfg_out s) = Z.of_nat n) (Hp : (0 < n)%nat) (Hb : Z.of_nat n <= BUF_SIZE)
  (Hf : (length (mjoin (input s)) < fuel)%nat) (Hr : wav_rec driver channels rate s = Done 0 s1) :
  exists k s2, let samples := delivered (buffer_size (driver (with_format (u16 channels) (u32 rate) (cfg_in s)))) (take k (input s)) in
    input s1 = drop k (input s) /\ opened s1 = opened s /\
    file s1 = Some (recording channels rate samples (drop (44 + length samples) (default [] (file s)))) /\
    wav_play driver fuel s1 = Done 0 s2 /\ file s2 = file s1 /\
    played s2 = played s ++ pieces (length samples / n) n samples /\
    cfg_out s2 = driver (with_format (u16 channels) (u32 rate) (cfg_out s)).
Proof.
  destruct (wav_rec_done channels rate s s1 Ha Hc ltac:(lia) Hr) as (k & Ef & Es). set (samples := delivered _ _) in Ef.
  pose proof (delivered_length (buffer_size (driver (with_format (u16 channels) (u32 rate) (cfg_in s)))) k (input s)) as L. fold samples in L.
  destruct (wav_play_done fuel n channels rate samples _ s1 ltac:(by rewrite Es) Ef ltac:(lia) ltac:(by rewrite Es) Hp Hb ltac:(lia)) as (s2 & Ep & E1 & E2 & E3 & E4).
  exists k, s2. cbv zeta. fold samples. rewrite E1, E2, Es. cbn [input opened played cfg_out file]. rewrite <-Es. by split_and!.
Qed.

(** ** Recording on any kernel *)

(** It returns, and [n] more descriptors are open. *)
Definition returns {A} (m : M audio A) (n : A -> Z) : Prop :=
  forall s, exists r s1, m s = Done r s1 /\ opened s1 = opened s + n r.
Lemma returns_ret {A} (a : A) : returns (mret' a) (fun _ => 0).
Proof. intros s. exists a, s. split; [done|lia]. Qed.
Lemma returns_bind {A B} (m : M audio A) (k : A -> M audio B) n n' :
  returns m n -> (forall a, returns (k a) (fun b => n' b - n a)) -> returns (mbind' m k) n'.
Proof.
  intros Hm Hk s. destruct (Hm s) as (a & s1 & E1 & O1). destruct (Hk a s1) as (b & s2 & E2 & O2).
  exists b, s2. rewrite (mbind_done _ _ _ _ _ E1). split; [done|lia].
Qed.
Lemma returns_weaken {A} (m : M audio A) n n' : returns m n -> (forall a, n a = n' a) -> returns m n'.
Proof. intros Hm Hn s. destruct (Hm s) as (a & s1 & E & O). exists a, s1. rewrite <-Hn. done. Qed.
Lemma returns_modify f n : (forall s, opened (f s) = opened s + n) -> returns (modify f) (fun _ => n).
Proof. intros Hf s. exists tt, (f s). by split. Qed.
Lemma returns_answer d : returns (answer d) (fun _ => 0).
Proof. intros s. destruct (answer_cases d s) as (r & E & _). eexists r, _. split; [exact E|]. destruct (answers s); cbn; lia. Qed.
Lemma returns_write bs : returns (write_file bs) (fun _ => 0).
Proof. intros s. destruct (write_file_returns bs s) as (r & s1 & E & O & _). exists r, s1. split; [done|lia]. Qed.
Lemma returns_ioctl : returns ioctl_fails (fun _ => 0).
Proof. eapply returns_bind; [apply returns_answer|]. intros r. eapply returns_weaken; [apply returns_ret|done]. Qed.
Lemma returns_open : returns open_fd (fun ok : bool => if ok then 1 else 0).
Proof.
  eapply returns_bind; [apply returns_answer|]. intros r. cbv beta. destruct (r <? 0).
  - intros s. exists false, s. split; [done|lia].
  - intros s. eexists true, _. split; [reflexivity|]. cbn. lia.
Qed.
Lemma returns_get {A} (k : audio -> M audio A) n : (forall s, exists r s1, k s s = Done r s1 /\ opened s1 = opened s + n r) -> returns (do s <- get; k s) n.
Proof. intros Hk s. rewrite (mbind_done get _ s s s eq_refl). apply Hk. Qed.

Lemma returns_record hdr : returns (record_data driver hdr) (fun _ => 0).
Proof.
  unfold record_data. eapply returns_bind; [apply returns_ioctl|]. intros [|]; [apply returns_ret|].
  apply returns_get. intros s. revert s.
  assert (G : forall c sz, returns (do failed <- ioctl_fails;
    if failed : bool then mret' None
    else modify (set_cfg_in c);;; do failed <- ioctl_fails;
      if failed : bool then mret' None
      else if BUF_SIZE <? sz then mret' None
        else do failed <- ioctl_fails; if failed : bool then mret' None else do s <- get; rec_loop (S (length (input s))) sz 0) (fun _ => 0)).
  { intros c sz. eapply returns_bind; [apply returns_ioctl|]. intros [|]; [apply returns_ret|].
    eapply returns_bind; [apply (returns_modify _ 0); intros s; cbn; lia|]. intros ?.
    eapply returns_bind; [apply returns_ioctl|]. intros [|]; [apply returns_ret|]. destruct (BUF_SIZE <? sz); [apply returns_ret|].
    eapply returns_bind; [apply returns_ioctl|]. intros [|]; [apply returns_ret|]. apply returns_get. intros s.
    destruct (rec_loop_returns (S (length (input s))) sz 0 s ltac:(lia)) as (r & s1 & E & O). exists r, s1. split; [done|lia]. }
  intros s. exact (G _ _ s).
Qed.

(** A recording always returns and closes what it opened: whatever the calls return and
    whatever the devices deliver, [wav_rec] ends after at most one turn for each block,
    and as many descriptors are open as before. *)
Theorem wav_rec_returns channels rate : returns (wav_rec driver channels rate) (fun _ => 0).
Proof.
  assert (C : returns close_fd (fun _ => -1)) by (apply returns_modify; intros s; cbn; lia).
  assert (F : forall f g, returns (modify (fun s => set_file (f s) (g s) s)) (fun _ => 0)) by (intros f g; apply returns_modify; intros s; cbn; lia).
  assert (N : returns open_new (fun ok : bool => if ok then 1 else 0)).
  { eapply returns_bind; [apply returns_open|]. intros [|].
    - intros s. eexists true, _. split; [reflexivity|]. cbn. lia.
    - intros s. exists false, s. split; [done|lia]. }
  unfold wav_rec. eapply returns_bind; [exact N|]. intros [|]; cbn [negb]; [|apply returns_ret].
  eapply returns_bind; [apply returns_write|]. intros ?. eapply returns_bind; [apply returns_open|]. intros [|]; cbn [negb].
  2: { eapply returns_bind; [exact C|]. intros ?. apply returns_ret. }
  eapply returns_bind; [apply returns_record|]. intros [total|].
  - eapply returns_bind; [exact C|]. intros ?. eapply returns_bind; [apply (F file (fun _ => 0))|]. intros ?.
    eapply returns_bind; [apply returns_write|]. intros ?. eapply returns_bind; [exact C|]. intros ?. apply returns_ret.
  - eapply returns_bind; [exact C|]. intros ?. eapply returns_bind; [exact C|]. intros ?.
    eapply returns_bind; [apply (F (fun _ => None) pos)|]. intros ?. apply returns_ret.
Qed.
End props.

(** ** A short recording *)

Definition keep (c : msm_audio_config) : msm_audio_config := c.
(** Two blocks of four bytes, then a key; the player takes three bytes at a time. *)
Definition studio : audio :=
  mk_audio [] 3 (Some (replicate 100 7)) 0 [None; None; Some 10] [[1; 2; 3; 4]; [5; 6; 7; 8]; [9; 10; 11; 12]]
    (mk_config 4 2 1 8000 []) (mk_config 3 1 2 44100 []) [] [] 0.

Lemma recording_plays_back_witness :
  exists s1 s2, wav_rec keep 1 8000 studio = Done 0 s1 /\ wav_play keep 20 s1 = Done 0 s2 /\
    played s2 = [[1; 2; 3]; [4; 5; 6]] /\ cfg_out s2 = mk_config 3 1 1 8000 [].
Proof.
  destruct (wav_rec keep 1 8000 studio) as [r s1| | |] eqn:E; try (vm_compute in E; discriminate E).
  assert (r = 0) as -> by (vm_compute in E; by injection E).
  destruct (recording_plays_back keep 20 3 1 8000 studio s1 eq_refl ltac:(by vm_compute) ltac:(by vm_compute) eq_refl
    ltac:(lia) ltac:(by vm_compute) ltac:(cbn; lia) E) as (k & s2 & Ei & _ & _ & Ep & _ & Epl & Ec).
  exists s1, s2. split; [done|]. split; [exact Ep|]. split; [|by rewrite Ec].
  assert (Hk : drop k (input studio) = [[9; 10; 11; 12]]) by (rewrite <-Ei; vm_compute in E; injection E as <-; reflexivity).
  rewrite Epl. destruct k as [|[|[|k]]]; try discriminate Hk; [by vm_compute|]. cbn in Hk. by destruct k.
Defined.

(** The size in the header leaves out the four bytes of the format. *)
Example riff_size_is_short :
  riff_sz (header_at (recording 1 8000 (replicate 8 0) [])) = 40 /\ Z.of_nat (length (recording 1 8000 (replicate 8 0) [])) - 8 = 44.
Proof. by vm_compute. Qed.
